(** * DirectSession: a shallow embedding of
      tensorflow/core/common_runtime/direct_session.cc

    The development follows the C++ source function by function.  Pointers
    to heap objects (Node*, shared_ptr<ExecutorsAndKeys>) are addresses
    ([nat]); std::unordered_map<string, _> is a [gmap string _];
    std::vector is a [list].  A [Status] keeps its error code; the message
    text is not modelled.  Calls into collaborators that live outside this
    translation unit (graph construction, executors, the rendezvous, the
    profiler) are parameters of the sections that need them. *)

From Stdlib Require Import ZArith List Ascii String Lia Permutation.
From Stdlib Require Import DecimalString.
From Stdlib Require DecimalZ DecimalPos.
From stdpp Require Import base option strings gmap list sorting.

Open Scope string_scope.
Open Scope Z_scope.

(** ** Status (tensorflow/core/lib/core/status.h) *)

Inductive Code :=
| OK | CANCELLED | UNKNOWN | INVALID_ARGUMENT | DEADLINE_EXCEEDED | NOT_FOUND
| ALREADY_EXISTS | PERMISSION_DENIED | RESOURCE_EXHAUSTED | FAILED_PRECONDITION
| ABORTED | OUT_OF_RANGE | UNIMPLEMENTED | INTERNAL | UNAVAILABLE | DATA_LOSS
| UNAUTHENTICATED.

Abbreviation Status := Code.

#[global] Instance Code_eq_dec : EqDecision Code.
Proof. solve_decision. Defined.

Definition ok (s : Status) : bool :=
  match s with OK => true | _ => false end.

(** [Status::Update]: the first error sticks. *)
Definition Update (self new_status : Status) : Status :=
  if ok self then new_status else self.

(** [errors::IsInternal]. *)
Definition IsInternal (s : Status) : bool :=
  match s with INTERNAL => true | _ => false end.

(** ** strings::StrCat and absl::StrJoin *)

(** [StrCat] concatenates its arguments; an integer argument is rendered in
    decimal, a [bool] is promoted to the integer 0 or 1. *)
Definition StrCat (pieces : list string) : string := String.concat "" pieces.

Definition AlphaNum (z : Z) : string :=
  DecimalString.NilZero.string_of_int (Z.to_int z).

Definition AlphaNum_bool (b : bool) : string := AlphaNum (if b then 1 else 0).

Definition StrJoin (range : list string) (separator : string) : string :=
  String.concat separator range.

(** ** Graph (tensorflow/core/graph/graph.h), as far as CheckFetch reads it *)

(** A [Node*] is the node's id; [Edge::src()] is such a pointer. *)
Record Edge := { src : nat; src_output : Z }.

Record Node := { name : string; in_edges : list Edge }.

(** [nodes] is indexed by [Node::id()]; a released id holds [None].
    [Graph::num_node_ids()] is the length of that table. *)
Record Graph := { nodes : list (option Node) }.

Definition num_node_ids (g : Graph) : nat := length (nodes g).

Definition node_at (g : Graph) (n : nat) : option Node :=
  mjoin (nodes g !! n).

Definition in_edges_of (g : Graph) (n : nat) : list Edge :=
  match node_at g n with Some nd => in_edges nd | None => [] end.

Definition name_of (g : Graph) (n : nat) : string :=
  match node_at g n with Some nd => name nd | None => "" end.

(** [TensorId] (tensorflow/core/graph/tensor_id.h): node name and output
    index. *)
Abbreviation TensorId := (string * Z)%type.

(** Every edge of the graph starts at a live node: what the C++ object
    guarantees for the [Node*] stored in an [Edge]. *)
Definition wf_graph (g : Graph) : Prop :=
  ∀ n nd e, node_at g n = Some nd → e ∈ in_edges nd →
            is_Some (node_at g (src e)).

Section CheckFetch.

(** [ParseTensorName] (tensor_id.cc) is not part of this translation
    unit. *)
Variable ParseTensorName : string → TensorId.
Variable Tensor : Type.

(** Lines 1516-1530: the feeds of the setup call that no earlier PRun has
    fed.  [None] stands for the NotFound return. *)
Fixpoint pending_feeds_of (name_to_node : gmap string nat)
    (pending_inputs : list (string * bool)) (acc : gset TensorId)
    : option (gset TensorId) :=
  match pending_inputs with
  | [] => Some acc
  | (input, fed) :: rest =>
      if fed then pending_feeds_of name_to_node rest acc
      else
        let id := ParseTensorName input in
        match name_to_node !! id.1 with
        | None => None
        | Some _ => pending_feeds_of name_to_node rest ({[ id ]} ∪ acc)
        end
  end.

(** Lines 1531-1534. *)
Definition erase_feeds (feeds : list (string * Tensor))
    (pending_feeds : gset TensorId) : gset TensorId :=
  foldl (λ acc it, acc ∖ {[ ParseTensorName it.1 ]}) pending_feeds feeds.

(** Lines 1536-1545.  The stack is a [std::vector] used from its back; the
    head of the list is [stack.back()]. *)
Fixpoint init_stack (name_to_node : gmap string nat) (fetches : list string)
    (stack : list nat) : option (list nat) :=
  match fetches with
  | [] => Some stack
  | fetch :: rest =>
      let id := ParseTensorName fetch in
      match name_to_node !! id.1 with
      | None => None
      | Some n => init_stack name_to_node rest (n :: stack)
      end
  end.

(** Lines 1553-1565, the loop over [n->in_edges()].  [None] is the
    InvalidArgument return. *)
Fixpoint scan_in_edges (g : Graph) (pending_feeds : gset TensorId)
    (es : list Edge) (stack : list nat) (visited : list bool)
    : option (list nat * list bool) :=
  match es with
  | [] => Some (stack, visited)
  | in_edge :: rest =>
      let in_node := src in_edge in
      if decide ((name_of g in_node, src_output in_edge) ∈ pending_feeds)
      then None
      else if default false (visited !! in_node)
      then scan_in_edges g pending_feeds rest stack visited
      else scan_in_edges g pending_feeds rest
             (in_node :: stack) (<[in_node := true]> visited)
  end.

(** Lines 1549-1566, the [while (!stack.empty())] loop.  The loop is
    bounded by [fuel]; [None] means the bound was reached. *)
Fixpoint traverse (fuel : nat) (g : Graph) (pending_feeds : gset TensorId)
    (stack : list nat) (visited : list bool) : option Status :=
  match fuel with
  | O => None
  | S fuel' =>
      match stack with
      | [] => Some OK
      | n :: stack' =>
          match scan_in_edges g pending_feeds (in_edges_of g n)
                              stack' visited with
          | None => Some INVALID_ARGUMENT
          | Some (stack'', visited') =>
              traverse fuel' g pending_feeds stack'' visited'
          end
      end
  end.

(** [DirectSession::CheckFetch], lines 1509-1568. *)
Definition CheckFetch (feeds : list (string * Tensor))
    (fetches : list string) (graph : Graph)
    (name_to_node : gmap string nat) (pending_inputs : gmap string bool)
    : option Status :=
  match pending_feeds_of name_to_node (map_to_list pending_inputs) ∅ with
  | None => Some NOT_FOUND
  | Some pending0 =>
      let pending_feeds := erase_feeds feeds pending0 in
      match init_stack name_to_node fetches [] with
      | None => Some NOT_FOUND
      | Some stack =>
          let visited := replicate (num_node_ids graph) false in
          traverse (S (length stack + num_node_ids graph))
                   graph pending_feeds stack visited
      end
  end.

(** *** What the traversal is meant to decide *)

(** The entries of [visited] that are still false: the nodes the loop
    may still push. *)
Fixpoint unvisited (visited : list bool) : nat :=
  match visited with
  | [] => O
  | b :: rest => ((if b then 0 else 1) + unvisited rest)%nat
  end.

(** [visited[i]], false outside the vector. *)
Definition is_visited (visited : list bool) (i : nat) : bool :=
  default false (visited !! i).

(** [reaches g n m]: [m] is [n] or can be reached from [n] by following
    in-edges backwards. *)
Inductive reaches (g : Graph) : nat → nat → Prop :=
| reaches_refl n : reaches g n n
| reaches_step n e m :
    e ∈ in_edges_of g n → reaches g (src e) m → reaches g n m.

(** A feed of the setup call is still pending for this call when no
    earlier call has fed it and this call does not supply it. *)
Definition still_pending (pending_inputs : gmap string bool)
    (feeds : list (string * Tensor)) (t : TensorId) : Prop :=
  (∃ input, pending_inputs !! input = Some false ∧
            ParseTensorName input = t) ∧
  ∀ it, it ∈ feeds → ParseTensorName it.1 ≠ t.

(** Node [m] consumes the tensor [t] over one of its in-edges. *)
Definition consumes (g : Graph) (m : nat) (t : TensorId) : Prop :=
  ∃ e, e ∈ in_edges_of g m ∧ t = (name_of g (src e), src_output e).

(** The fetch nodes of the call. *)
Definition fetch_node (name_to_node : gmap string nat)
    (fetches : list string) (n : nat) : Prop :=
  ∃ fetch, fetch ∈ fetches ∧
           name_to_node !! (ParseTensorName fetch).1 = Some n.

(** The traversal from the fetch nodes touches a still-pending feed. *)
Definition touches_pending_feed (g : Graph) (name_to_node : gmap string nat)
    (pending_inputs : gmap string bool) (feeds : list (string * Tensor))
    (fetches : list string) : Prop :=
  ∃ n m t, fetch_node name_to_node fetches n ∧ reaches g n m ∧
           consumes g m t ∧ still_pending pending_inputs feeds t.

(** The feeds supplied so far and in this call cover [t]: every setup
    feed that names [t] has been fed by an earlier call, or this call
    supplies [t]. *)
Definition covered (pending_inputs : gmap string bool)
    (feeds : list (string * Tensor)) (t : TensorId) : Prop :=
  (∀ input, ParseTensorName input = t →
            pending_inputs !! input ≠ Some false) ∨
  (∃ it, it ∈ feeds ∧ ParseTensorName it.1 = t).

(** The tensors the requested fetches depend on. *)
Definition depends_on (g : Graph) (name_to_node : gmap string nat)
    (fetches : list string) (t : TensorId) : Prop :=
  ∃ n m, fetch_node name_to_node fetches n ∧ reaches g n m ∧
         consumes g m t.

(** All names that CheckFetch looks up are nodes of the graph. *)
Definition names_resolve (name_to_node : gmap string nat)
    (pending_inputs : gmap string bool) (fetches : list string) : Prop :=
  (∀ input, pending_inputs !! input = Some false →
            is_Some (name_to_node !! (ParseTensorName input).1)) ∧
  (∀ fetch, fetch ∈ fetches →
            is_Some (name_to_node !! (ParseTensorName fetch).1)).

End CheckFetch.


(** ** Data model of the session *)

Inductive DataType :=
| DT_INVALID | DT_FLOAT | DT_INT32 | DT_STRING | DT_RESOURCE | DT_VARIANT.

#[global] Instance DataType_eq_dec : EqDecision DataType.
Proof. solve_decision. Defined.

Record ResourceHandle := { container : string; handle_name : string }.

(** [DeviceAttributes] (device_attributes.proto), the fields read here. *)
Record DeviceAttributes := { device_name : string; incarnation : N }.

Record FrameAndIter := { frame_id : Z; iter_id : Z }.

(** A [thread::ThreadPool*] is the pool's identity. *)
Abbreviation ThreadPool := nat (only parsing).

(** [CancellationManager]: all that the session observes is whether
    [StartCancel] has been called. *)
Record CancellationManager := { is_cancelled : bool }.

Definition StartCancel (cm : CancellationManager) : CancellationManager :=
  {| is_cancelled := true |}.

(** [DebugOptions], [RunOptions], [CallableOptions] (config.proto): the
    fields the session reads. *)
Record DebugOptions := {
  debug_tensor_watch_opts : list string;
  global_step : Z
}.

Record RunOptions := {
  trace_level : Z;      (* NO_TRACE = 0 ... HARDWARE_TRACE = 2, FULL_TRACE = 3 *)
  timeout_in_ms : Z;
  inter_op_thread_pool : Z;
  output_partition_graphs : bool;
  debug_options : DebugOptions;
  report_tensor_allocations_upon_oom : bool;
  collective_graph_key : Z;   (* experimental().collective_graph_key() *)
  use_run_handler_pool : bool (* experimental().use_run_handler_pool() *)
}.

Definition RunOptions_default : RunOptions :=
  {| trace_level := 0; timeout_in_ms := 0; inter_op_thread_pool := 0;
     output_partition_graphs := false;
     debug_options := {| debug_tensor_watch_opts := []; global_step := 0 |};
     report_tensor_allocations_upon_oom := false;
     collective_graph_key := 0; use_run_handler_pool := false |}.

Record CallableOptions := {
  feed : list string;
  fetch : list string;
  target : list string;
  run_options : RunOptions
}.

(** [PerPartitionExecutorsAndLib]: the device of the partition and the
    thread pool that device brings along, if any. *)
Record PerPartitionExecutorsAndLib := {
  item_device : string;
  tensorflow_device_thread_pool : option ThreadPool
}.

(** [ExecutorsAndKeys] (direct_session.h). *)
Record ExecutorsAndKeys := {
  step_count : Z;
  graph : option Graph;
  name_to_node : gmap string nat;
  items : list PerPartitionExecutorsAndLib;
  input_name_to_index : gmap string nat;
  input_name_to_rendezvous_key : gmap string string;
  output_name_to_index : gmap string nat;
  output_name_to_rendezvous_key : gmap string string;
  input_types : list DataType;
  output_types : list DataType;
  callable_options : CallableOptions;
  ek_collective_graph_key : Z
}.

(** [ClientGraph] (graph_execution_state.h), the fields read here, together
    with the full graph that [CreateGraphs] copies for a partial run. *)
Record ClientGraph := {
  feed_types : list DataType;
  fetch_types : list DataType;
  client_collective_graph_key : Z;
  full_graph : Graph
}.

(** [RunStateArgs] (direct_session.h). *)
Record RunStateArgs := {
  is_partial_run : bool;
  handle : string;
  rsa_graph : option Graph;
  rsa_debug_options : DebugOptions;
  rsa_collective_graph_key : Z
}.

Definition new_RunStateArgs (options : DebugOptions) : RunStateArgs :=
  {| is_partial_run := false; handle := ""; rsa_graph := None;
     rsa_debug_options := options; rsa_collective_graph_key := 0 |}.

(** What the executors of a step do while the calling thread waits on the
    [executors_done] notification.  Time is counted in microseconds from
    the start of the wait. *)
Record ExecutorsFate := {
  (* the last executor returns after this long if the step is left alone;
     [None]: it does not return on its own *)
  finish_after_us : option Z;
  (* once the step has been cancelled the executors return *)
  drains : bool;
  (* another thread cancels the cancellation manager that the executors
     watch while the caller waits (a Close of the session; for a step,
     through the callback of lines 907-912).  Where the wait has a
     deadline, [finish_after_us] tells whether the executors return
     within it. *)
  cancelled_meanwhile : bool;
  (* the status the barrier hands to its callback *)
  barrier_status : Status
}.

(** ** Collaborators

    The interfaces of section 6 of the specification whose code is outside
    this translation unit. *)
Class Collaborators := {
  (* tensorflow::Tensor *)
  Tensor : Type;
  empty_tensor : Tensor;
  dtype : Tensor → DataType;
  resource_handle : Tensor → ResourceHandle;
  (* tensor_id.cc, strings/numbers.cc, debug, log_memory *)
  ParseTensorName : string → TensorId;
  FpToString : N → string;
  SummarizeDebugTensorWatches : list string → string;
  LogMemory_IsEnabled : bool;
  (* SessionState and TensorStore *)
  SessionState : Type;
  TensorStore : Type;
  new_TensorStore : TensorStore;
  kTensorHandleResourceTypeName : string;
  GetTensor : SessionState → string → Status * Tensor;
  SaveTensors : TensorStore → list string → SessionState →
                Status * SessionState;
  TensorStore_empty : TensorStore → bool;
  (* FunctionCallFrame *)
  SetArgs : list DataType → list Tensor → Status;
  ConsumeRetvals : list (option Tensor) → Status * list Tensor;
  (* IntraProcessRendezvous *)
  Rendezvous : Type;
  new_IntraProcessRendezvous : Rendezvous;
  ParseKey : string → Status;
  Send : Rendezvous → string → Tensor → bool → Status * Rendezvous;
  Recv : Rendezvous → string → Z → Status * Tensor * bool * Rendezvous;
  StartAbort : Status → Rendezvous → Rendezvous;
  (* GraphDef, FunctionLibraryDefinition, GraphExecutionState *)
  GraphDef : Type;
  node_size : GraphDef → Z;
  FunctionLibraryDefinition : Type;
  new_FunctionLibraryDefinition : GraphDef → FunctionLibraryDefinition;
  AddLibrary : FunctionLibraryDefinition → GraphDef →
               Status * FunctionLibraryDefinition;
  GraphExecutionState : Type;
  MakeForBaseGraph : GraphDef → Status * GraphExecutionState;
  ExtendExecutionState : GraphExecutionState → GraphDef →
                         Status * GraphExecutionState;
  (* GraphExecutionState::BuildGraph / MakeForPrunedGraph: the pruned
     client graph of a request, and the full graph it was cut from *)
  BuildGraph : option GraphExecutionState → CallableOptions → bool →
               Status * ClientGraph;
  (* stateful placement, Partition, ConvertGraphDefToGraph, the
     POST_PARTITIONING passes and MaybeRewriteGraph: the partition names *)
  PartitionGraphs : ClientGraph → Status * list string;
  (* LookupDevice, GetFLR, Optimize, debug decoration, EnsureMemoryTypes and
     NewExecutor for one partition *)
  NewPartitionExecutor : string → CallableOptions →
                         Status * PerPartitionExecutorsAndLib;
  (* DeviceMgr *)
  DeviceMgr : Type;
  ClearContainers : list string → DeviceMgr → DeviceMgr
}.

(** [NamedTensorList]: the feeds of a call, name and value. *)
Abbreviation NamedTensorList := (list (string * Tensor)).

Section Session.

Context `{Collaborators}.

(** [DirectSession::RunState] (direct_session.h). *)
Record RunState := {
  status : Status;                     (* guarded by mu_ *)
  rendez : Rendezvous;
  executors_done : bool;               (* the Notification *)
  pending_inputs : gmap string bool;   (* true once fed *)
  pending_outputs : gmap string bool;  (* true once fetched *)
  tensor_store : TensorStore
}.

(** [RunState::RunState], lines 2035-2055: all the feeds and fetches are
    pending. *)
Definition new_RunState (pending_input_names pending_output_names
                         : list string) (r : Rendezvous) : RunState :=
  {| status := OK; rendez := r; executors_done := false;
     pending_inputs :=
       foldl (λ m name, <[name := false]> m) ∅ pending_input_names;
     pending_outputs :=
       foldl (λ m name, <[name := false]> m) ∅ pending_output_names;
     tensor_store := new_TensorStore |}.

(** [RunState::PendingDone], lines 2071-2079. *)
Definition PendingDone (run_state : RunState) : bool :=
  bool_decide (map_Forall (λ _ b, b = true) (pending_inputs run_state)) &&
  bool_decide (map_Forall (λ _ b, b = true) (pending_outputs run_state)).

Record DirectSession := {
  (* set by the constructor *)
  init_error_ : Status;
  operation_timeout_in_ms_ : Z;
  run_in_caller_thread_ : bool;
  run_cost_model_executor_ : bool;
  (* the pools, without the owned flags; [None]: nullptr, a pool that
     NewThreadPoolFromThreadPoolOptions could not make (lines 550-555) *)
  thread_pools_ : list (option ThreadPool);
  (* options_.config: use_per_session_threads(),
     session_inter_op_thread_pool_size(), graph_options().build_cost_model(),
     graph_options().build_cost_model_after() *)
  use_per_session_threads_ : bool;
  session_inter_op_thread_pool_size_ : Z;
  build_cost_model_ : Z;
  build_cost_model_after_ : Z;
  devices_ : list DeviceAttributes;
  device_mgr_ : DeviceMgr;
  (* factory_ != nullptr *)
  factory_ : bool;
  (* the factory still lists this session *)
  registered_ : bool;
  (* guarded by graph_state_lock_ *)
  graph_created_ : bool;
  flib_def_ : option FunctionLibraryDefinition;
  execution_state_ : option GraphExecutionState;
  (* guarded by executor_lock_; the values are addresses in [heap_] *)
  executors_ : gmap string nat;
  (* the ExecutorsAndKeys objects allocated so far *)
  heap_ : list ExecutorsAndKeys;
  (* functions_.size() *)
  functions_ : nat;
  partial_runs_ : gmap string RunState;
  (* guarded by callables_lock_; absent or released: null *)
  callables_ : gmap Z nat;
  next_callable_handle_ : Z;
  cancellation_manager_ : CancellationManager;
  (* guarded by closed_lock_ *)
  closed_ : bool;
  step_id_counter_ : Z;
  handle_name_counter_ : Z;
  session_state_ : SessionState;
  collective_graph_key_ : Z
}.

Definition set_registered_ (v : bool) (s : DirectSession) : DirectSession :=
  {| init_error_ := init_error_ s;
     operation_timeout_in_ms_ := operation_timeout_in_ms_ s;
     run_in_caller_thread_ := run_in_caller_thread_ s;
     run_cost_model_executor_ := run_cost_model_executor_ s;
     thread_pools_ := thread_pools_ s;
     use_per_session_threads_ := use_per_session_threads_ s;
     session_inter_op_thread_pool_size_ :=
       session_inter_op_thread_pool_size_ s;
     build_cost_model_ := build_cost_model_ s;
     build_cost_model_after_ := build_cost_model_after_ s;
     devices_ := devices_ s;
     device_mgr_ := device_mgr_ s; factory_ := factory_ s;
     registered_ := v; graph_created_ := graph_created_ s;
     flib_def_ := flib_def_ s; execution_state_ := execution_state_ s;
     executors_ := executors_ s; heap_ := heap_ s;
     functions_ := functions_ s; partial_runs_ := partial_runs_ s;
     callables_ := callables_ s;
     next_callable_handle_ := next_callable_handle_ s;
     cancellation_manager_ := cancellation_manager_ s;
     closed_ := closed_ s; step_id_counter_ := step_id_counter_ s;
     handle_name_counter_ := handle_name_counter_ s;
     session_state_ := session_state_ s;
     collective_graph_key_ := collective_graph_key_ s |}.

Definition set_graph_created_ (v : bool) (s : DirectSession) : DirectSession :=
  {| init_error_ := init_error_ s;
     operation_timeout_in_ms_ := operation_timeout_in_ms_ s;
     run_in_caller_thread_ := run_in_caller_thread_ s;
     run_cost_model_executor_ := run_cost_model_executor_ s;
     thread_pools_ := thread_pools_ s;
     use_per_session_threads_ := use_per_session_threads_ s;
     session_inter_op_thread_pool_size_ :=
       session_inter_op_thread_pool_size_ s;
     build_cost_model_ := build_cost_model_ s;
     build_cost_model_after_ := build_cost_model_after_ s;
     devices_ := devices_ s;
     device_mgr_ := device_mgr_ s; factory_ := factory_ s;
     registered_ := registered_ s; graph_created_ := v;
     flib_def_ := flib_def_ s; execution_state_ := execution_state_ s;
     executors_ := executors_ s; heap_ := heap_ s;
     functions_ := functions_ s; partial_runs_ := partial_runs_ s;
     callables_ := callables_ s;
     next_callable_handle_ := next_callable_handle_ s;
     cancellation_manager_ := cancellation_manager_ s;
     closed_ := closed_ s; step_id_counter_ := step_id_counter_ s;
     handle_name_counter_ := handle_name_counter_ s;
     session_state_ := session_state_ s;
     collective_graph_key_ := collective_graph_key_ s |}.

Definition set_flib_def_ (v : option FunctionLibraryDefinition) (s : DirectSession) : DirectSession :=
  {| init_error_ := init_error_ s;
     operation_timeout_in_ms_ := operation_timeout_in_ms_ s;
     run_in_caller_thread_ := run_in_caller_thread_ s;
     run_cost_model_executor_ := run_cost_model_executor_ s;
     thread_pools_ := thread_pools_ s;
     use_per_session_threads_ := use_per_session_threads_ s;
     session_inter_op_thread_pool_size_ :=
       session_inter_op_thread_pool_size_ s;
     build_cost_model_ := build_cost_model_ s;
     build_cost_model_after_ := build_cost_model_after_ s;
     devices_ := devices_ s;
     device_mgr_ := device_mgr_ s; factory_ := factory_ s;
     registered_ := registered_ s; graph_created_ := graph_created_ s;
     flib_def_ := v; execution_state_ := execution_state_ s;
     executors_ := executors_ s; heap_ := heap_ s;
     functions_ := functions_ s; partial_runs_ := partial_runs_ s;
     callables_ := callables_ s;
     next_callable_handle_ := next_callable_handle_ s;
     cancellation_manager_ := cancellation_manager_ s;
     closed_ := closed_ s; step_id_counter_ := step_id_counter_ s;
     handle_name_counter_ := handle_name_counter_ s;
     session_state_ := session_state_ s;
     collective_graph_key_ := collective_graph_key_ s |}.

Definition set_execution_state_ (v : option GraphExecutionState) (s : DirectSession) : DirectSession :=
  {| init_error_ := init_error_ s;
     operation_timeout_in_ms_ := operation_timeout_in_ms_ s;
     run_in_caller_thread_ := run_in_caller_thread_ s;
     run_cost_model_executor_ := run_cost_model_executor_ s;
     thread_pools_ := thread_pools_ s;
     use_per_session_threads_ := use_per_session_threads_ s;
     session_inter_op_thread_pool_size_ :=
       session_inter_op_thread_pool_size_ s;
     build_cost_model_ := build_cost_model_ s;
     build_cost_model_after_ := build_cost_model_after_ s;
     devices_ := devices_ s;
     device_mgr_ := device_mgr_ s; factory_ := factory_ s;
     registered_ := registered_ s; graph_created_ := graph_created_ s;
     flib_def_ := flib_def_ s; execution_state_ := v;
     executors_ := executors_ s; heap_ := heap_ s;
     functions_ := functions_ s; partial_runs_ := partial_runs_ s;
     callables_ := callables_ s;
     next_callable_handle_ := next_callable_handle_ s;
     cancellation_manager_ := cancellation_manager_ s;
     closed_ := closed_ s; step_id_counter_ := step_id_counter_ s;
     handle_name_counter_ := handle_name_counter_ s;
     session_state_ := session_state_ s;
     collective_graph_key_ := collective_graph_key_ s |}.

Definition set_executors_ (v : gmap string nat) (s : DirectSession) : DirectSession :=
  {| init_error_ := init_error_ s;
     operation_timeout_in_ms_ := operation_timeout_in_ms_ s;
     run_in_caller_thread_ := run_in_caller_thread_ s;
     run_cost_model_executor_ := run_cost_model_executor_ s;
     thread_pools_ := thread_pools_ s;
     use_per_session_threads_ := use_per_session_threads_ s;
     session_inter_op_thread_pool_size_ :=
       session_inter_op_thread_pool_size_ s;
     build_cost_model_ := build_cost_model_ s;
     build_cost_model_after_ := build_cost_model_after_ s;
     devices_ := devices_ s;
     device_mgr_ := device_mgr_ s; factory_ := factory_ s;
     registered_ := registered_ s; graph_created_ := graph_created_ s;
     flib_def_ := flib_def_ s; execution_state_ := execution_state_ s;
     executors_ := v; heap_ := heap_ s; functions_ := functions_ s;
     partial_runs_ := partial_runs_ s; callables_ := callables_ s;
     next_callable_handle_ := next_callable_handle_ s;
     cancellation_manager_ := cancellation_manager_ s;
     closed_ := closed_ s; step_id_counter_ := step_id_counter_ s;
     handle_name_counter_ := handle_name_counter_ s;
     session_state_ := session_state_ s;
     collective_graph_key_ := collective_graph_key_ s |}.

Definition set_heap_ (v : list ExecutorsAndKeys) (s : DirectSession) : DirectSession :=
  {| init_error_ := init_error_ s;
     operation_timeout_in_ms_ := operation_timeout_in_ms_ s;
     run_in_caller_thread_ := run_in_caller_thread_ s;
     run_cost_model_executor_ := run_cost_model_executor_ s;
     thread_pools_ := thread_pools_ s;
     use_per_session_threads_ := use_per_session_threads_ s;
     session_inter_op_thread_pool_size_ :=
       session_inter_op_thread_pool_size_ s;
     build_cost_model_ := build_cost_model_ s;
     build_cost_model_after_ := build_cost_model_after_ s;
     devices_ := devices_ s;
     device_mgr_ := device_mgr_ s; factory_ := factory_ s;
     registered_ := registered_ s; graph_created_ := graph_created_ s;
     flib_def_ := flib_def_ s; execution_state_ := execution_state_ s;
     executors_ := executors_ s; heap_ := v; functions_ := functions_ s;
     partial_runs_ := partial_runs_ s; callables_ := callables_ s;
     next_callable_handle_ := next_callable_handle_ s;
     cancellation_manager_ := cancellation_manager_ s;
     closed_ := closed_ s; step_id_counter_ := step_id_counter_ s;
     handle_name_counter_ := handle_name_counter_ s;
     session_state_ := session_state_ s;
     collective_graph_key_ := collective_graph_key_ s |}.

Definition set_functions_ (v : nat) (s : DirectSession) : DirectSession :=
  {| init_error_ := init_error_ s;
     operation_timeout_in_ms_ := operation_timeout_in_ms_ s;
     run_in_caller_thread_ := run_in_caller_thread_ s;
     run_cost_model_executor_ := run_cost_model_executor_ s;
     thread_pools_ := thread_pools_ s;
     use_per_session_threads_ := use_per_session_threads_ s;
     session_inter_op_thread_pool_size_ :=
       session_inter_op_thread_pool_size_ s;
     build_cost_model_ := build_cost_model_ s;
     build_cost_model_after_ := build_cost_model_after_ s;
     devices_ := devices_ s;
     device_mgr_ := device_mgr_ s; factory_ := factory_ s;
     registered_ := registered_ s; graph_created_ := graph_created_ s;
     flib_def_ := flib_def_ s; execution_state_ := execution_state_ s;
     executors_ := executors_ s; heap_ := heap_ s; functions_ := v;
     partial_runs_ := partial_runs_ s; callables_ := callables_ s;
     next_callable_handle_ := next_callable_handle_ s;
     cancellation_manager_ := cancellation_manager_ s;
     closed_ := closed_ s; step_id_counter_ := step_id_counter_ s;
     handle_name_counter_ := handle_name_counter_ s;
     session_state_ := session_state_ s;
     collective_graph_key_ := collective_graph_key_ s |}.

Definition set_partial_runs_ (v : gmap string RunState) (s : DirectSession) : DirectSession :=
  {| init_error_ := init_error_ s;
     operation_timeout_in_ms_ := operation_timeout_in_ms_ s;
     run_in_caller_thread_ := run_in_caller_thread_ s;
     run_cost_model_executor_ := run_cost_model_executor_ s;
     thread_pools_ := thread_pools_ s;
     use_per_session_threads_ := use_per_session_threads_ s;
     session_inter_op_thread_pool_size_ :=
       session_inter_op_thread_pool_size_ s;
     build_cost_model_ := build_cost_model_ s;
     build_cost_model_after_ := build_cost_model_after_ s;
     devices_ := devices_ s;
     device_mgr_ := device_mgr_ s; factory_ := factory_ s;
     registered_ := registered_ s; graph_created_ := graph_created_ s;
     flib_def_ := flib_def_ s; execution_state_ := execution_state_ s;
     executors_ := executors_ s; heap_ := heap_ s;
     functions_ := functions_ s; partial_runs_ := v;
     callables_ := callables_ s;
     next_callable_handle_ := next_callable_handle_ s;
     cancellation_manager_ := cancellation_manager_ s;
     closed_ := closed_ s; step_id_counter_ := step_id_counter_ s;
     handle_name_counter_ := handle_name_counter_ s;
     session_state_ := session_state_ s;
     collective_graph_key_ := collective_graph_key_ s |}.

Definition set_callables_ (v : gmap Z nat) (s : DirectSession) : DirectSession :=
  {| init_error_ := init_error_ s;
     operation_timeout_in_ms_ := operation_timeout_in_ms_ s;
     run_in_caller_thread_ := run_in_caller_thread_ s;
     run_cost_model_executor_ := run_cost_model_executor_ s;
     thread_pools_ := thread_pools_ s;
     use_per_session_threads_ := use_per_session_threads_ s;
     session_inter_op_thread_pool_size_ :=
       session_inter_op_thread_pool_size_ s;
     build_cost_model_ := build_cost_model_ s;
     build_cost_model_after_ := build_cost_model_after_ s;
     devices_ := devices_ s;
     device_mgr_ := device_mgr_ s; factory_ := factory_ s;
     registered_ := registered_ s; graph_created_ := graph_created_ s;
     flib_def_ := flib_def_ s; execution_state_ := execution_state_ s;
     executors_ := executors_ s; heap_ := heap_ s;
     functions_ := functions_ s; partial_runs_ := partial_runs_ s;
     callables_ := v; next_callable_handle_ := next_callable_handle_ s;
     cancellation_manager_ := cancellation_manager_ s;
     closed_ := closed_ s; step_id_counter_ := step_id_counter_ s;
     handle_name_counter_ := handle_name_counter_ s;
     session_state_ := session_state_ s;
     collective_graph_key_ := collective_graph_key_ s |}.

Definition set_next_callable_handle_ (v : Z) (s : DirectSession) : DirectSession :=
  {| init_error_ := init_error_ s;
     operation_timeout_in_ms_ := operation_timeout_in_ms_ s;
     run_in_caller_thread_ := run_in_caller_thread_ s;
     run_cost_model_executor_ := run_cost_model_executor_ s;
     thread_pools_ := thread_pools_ s;
     use_per_session_threads_ := use_per_session_threads_ s;
     session_inter_op_thread_pool_size_ :=
       session_inter_op_thread_pool_size_ s;
     build_cost_model_ := build_cost_model_ s;
     build_cost_model_after_ := build_cost_model_after_ s;
     devices_ := devices_ s;
     device_mgr_ := device_mgr_ s; factory_ := factory_ s;
     registered_ := registered_ s; graph_created_ := graph_created_ s;
     flib_def_ := flib_def_ s; execution_state_ := execution_state_ s;
     executors_ := executors_ s; heap_ := heap_ s;
     functions_ := functions_ s; partial_runs_ := partial_runs_ s;
     callables_ := callables_ s; next_callable_handle_ := v;
     cancellation_manager_ := cancellation_manager_ s;
     closed_ := closed_ s; step_id_counter_ := step_id_counter_ s;
     handle_name_counter_ := handle_name_counter_ s;
     session_state_ := session_state_ s;
     collective_graph_key_ := collective_graph_key_ s |}.

Definition set_cancellation_manager_ (v : CancellationManager) (s : DirectSession) : DirectSession :=
  {| init_error_ := init_error_ s;
     operation_timeout_in_ms_ := operation_timeout_in_ms_ s;
     run_in_caller_thread_ := run_in_caller_thread_ s;
     run_cost_model_executor_ := run_cost_model_executor_ s;
     thread_pools_ := thread_pools_ s;
     use_per_session_threads_ := use_per_session_threads_ s;
     session_inter_op_thread_pool_size_ :=
       session_inter_op_thread_pool_size_ s;
     build_cost_model_ := build_cost_model_ s;
     build_cost_model_after_ := build_cost_model_after_ s;
     devices_ := devices_ s;
     device_mgr_ := device_mgr_ s; factory_ := factory_ s;
     registered_ := registered_ s; graph_created_ := graph_created_ s;
     flib_def_ := flib_def_ s; execution_state_ := execution_state_ s;
     executors_ := executors_ s; heap_ := heap_ s;
     functions_ := functions_ s; partial_runs_ := partial_runs_ s;
     callables_ := callables_ s;
     next_callable_handle_ := next_callable_handle_ s;
     cancellation_manager_ := v; closed_ := closed_ s;
     step_id_counter_ := step_id_counter_ s;
     handle_name_counter_ := handle_name_counter_ s;
     session_state_ := session_state_ s;
     collective_graph_key_ := collective_graph_key_ s |}.

Definition set_closed_ (v : bool) (s : DirectSession) : DirectSession :=
  {| init_error_ := init_error_ s;
     operation_timeout_in_ms_ := operation_timeout_in_ms_ s;
     run_in_caller_thread_ := run_in_caller_thread_ s;
     run_cost_model_executor_ := run_cost_model_executor_ s;
     thread_pools_ := thread_pools_ s;
     use_per_session_threads_ := use_per_session_threads_ s;
     session_inter_op_thread_pool_size_ :=
       session_inter_op_thread_pool_size_ s;
     build_cost_model_ := build_cost_model_ s;
     build_cost_model_after_ := build_cost_model_after_ s;
     devices_ := devices_ s;
     device_mgr_ := device_mgr_ s; factory_ := factory_ s;
     registered_ := registered_ s; graph_created_ := graph_created_ s;
     flib_def_ := flib_def_ s; execution_state_ := execution_state_ s;
     executors_ := executors_ s; heap_ := heap_ s;
     functions_ := functions_ s; partial_runs_ := partial_runs_ s;
     callables_ := callables_ s;
     next_callable_handle_ := next_callable_handle_ s;
     cancellation_manager_ := cancellation_manager_ s; closed_ := v;
     step_id_counter_ := step_id_counter_ s;
     handle_name_counter_ := handle_name_counter_ s;
     session_state_ := session_state_ s;
     collective_graph_key_ := collective_graph_key_ s |}.

Definition set_step_id_counter_ (v : Z) (s : DirectSession) : DirectSession :=
  {| init_error_ := init_error_ s;
     operation_timeout_in_ms_ := operation_timeout_in_ms_ s;
     run_in_caller_thread_ := run_in_caller_thread_ s;
     run_cost_model_executor_ := run_cost_model_executor_ s;
     thread_pools_ := thread_pools_ s;
     use_per_session_threads_ := use_per_session_threads_ s;
     session_inter_op_thread_pool_size_ :=
       session_inter_op_thread_pool_size_ s;
     build_cost_model_ := build_cost_model_ s;
     build_cost_model_after_ := build_cost_model_after_ s;
     devices_ := devices_ s;
     device_mgr_ := device_mgr_ s; factory_ := factory_ s;
     registered_ := registered_ s; graph_created_ := graph_created_ s;
     flib_def_ := flib_def_ s; execution_state_ := execution_state_ s;
     executors_ := executors_ s; heap_ := heap_ s;
     functions_ := functions_ s; partial_runs_ := partial_runs_ s;
     callables_ := callables_ s;
     next_callable_handle_ := next_callable_handle_ s;
     cancellation_manager_ := cancellation_manager_ s;
     closed_ := closed_ s; step_id_counter_ := v;
     handle_name_counter_ := handle_name_counter_ s;
     session_state_ := session_state_ s;
     collective_graph_key_ := collective_graph_key_ s |}.

Definition set_handle_name_counter_ (v : Z) (s : DirectSession) : DirectSession :=
  {| init_error_ := init_error_ s;
     operation_timeout_in_ms_ := operation_timeout_in_ms_ s;
     run_in_caller_thread_ := run_in_caller_thread_ s;
     run_cost_model_executor_ := run_cost_model_executor_ s;
     thread_pools_ := thread_pools_ s;
     use_per_session_threads_ := use_per_session_threads_ s;
     session_inter_op_thread_pool_size_ :=
       session_inter_op_thread_pool_size_ s;
     build_cost_model_ := build_cost_model_ s;
     build_cost_model_after_ := build_cost_model_after_ s;
     devices_ := devices_ s;
     device_mgr_ := device_mgr_ s; factory_ := factory_ s;
     registered_ := registered_ s; graph_created_ := graph_created_ s;
     flib_def_ := flib_def_ s; execution_state_ := execution_state_ s;
     executors_ := executors_ s; heap_ := heap_ s;
     functions_ := functions_ s; partial_runs_ := partial_runs_ s;
     callables_ := callables_ s;
     next_callable_handle_ := next_callable_handle_ s;
     cancellation_manager_ := cancellation_manager_ s;
     closed_ := closed_ s; step_id_counter_ := step_id_counter_ s;
     handle_name_counter_ := v; session_state_ := session_state_ s;
     collective_graph_key_ := collective_graph_key_ s |}.

Definition set_session_state_ (v : SessionState) (s : DirectSession) : DirectSession :=
  {| init_error_ := init_error_ s;
     operation_timeout_in_ms_ := operation_timeout_in_ms_ s;
     run_in_caller_thread_ := run_in_caller_thread_ s;
     run_cost_model_executor_ := run_cost_model_executor_ s;
     thread_pools_ := thread_pools_ s;
     use_per_session_threads_ := use_per_session_threads_ s;
     session_inter_op_thread_pool_size_ :=
       session_inter_op_thread_pool_size_ s;
     build_cost_model_ := build_cost_model_ s;
     build_cost_model_after_ := build_cost_model_after_ s;
     devices_ := devices_ s;
     device_mgr_ := device_mgr_ s; factory_ := factory_ s;
     registered_ := registered_ s; graph_created_ := graph_created_ s;
     flib_def_ := flib_def_ s; execution_state_ := execution_state_ s;
     executors_ := executors_ s; heap_ := heap_ s;
     functions_ := functions_ s; partial_runs_ := partial_runs_ s;
     callables_ := callables_ s;
     next_callable_handle_ := next_callable_handle_ s;
     cancellation_manager_ := cancellation_manager_ s;
     closed_ := closed_ s; step_id_counter_ := step_id_counter_ s;
     handle_name_counter_ := handle_name_counter_ s; session_state_ := v;
     collective_graph_key_ := collective_graph_key_ s |}.

Definition set_collective_graph_key_ (v : Z) (s : DirectSession) : DirectSession :=
  {| init_error_ := init_error_ s;
     operation_timeout_in_ms_ := operation_timeout_in_ms_ s;
     run_in_caller_thread_ := run_in_caller_thread_ s;
     run_cost_model_executor_ := run_cost_model_executor_ s;
     thread_pools_ := thread_pools_ s;
     use_per_session_threads_ := use_per_session_threads_ s;
     session_inter_op_thread_pool_size_ :=
       session_inter_op_thread_pool_size_ s;
     build_cost_model_ := build_cost_model_ s;
     build_cost_model_after_ := build_cost_model_after_ s;
     devices_ := devices_ s;
     device_mgr_ := device_mgr_ s; factory_ := factory_ s;
     registered_ := registered_ s; graph_created_ := graph_created_ s;
     flib_def_ := flib_def_ s; execution_state_ := execution_state_ s;
     executors_ := executors_ s; heap_ := heap_ s;
     functions_ := functions_ s; partial_runs_ := partial_runs_ s;
     callables_ := callables_ s;
     next_callable_handle_ := next_callable_handle_ s;
     cancellation_manager_ := cancellation_manager_ s;
     closed_ := closed_ s; step_id_counter_ := step_id_counter_ s;
     handle_name_counter_ := handle_name_counter_ s;
     session_state_ := session_state_ s; collective_graph_key_ := v |}.

Definition set_device_mgr_ (v : DeviceMgr) (s : DirectSession) : DirectSession :=
  {| init_error_ := init_error_ s;
     operation_timeout_in_ms_ := operation_timeout_in_ms_ s;
     run_in_caller_thread_ := run_in_caller_thread_ s;
     run_cost_model_executor_ := run_cost_model_executor_ s;
     thread_pools_ := thread_pools_ s;
     use_per_session_threads_ := use_per_session_threads_ s;
     session_inter_op_thread_pool_size_ :=
       session_inter_op_thread_pool_size_ s;
     build_cost_model_ := build_cost_model_ s;
     build_cost_model_after_ := build_cost_model_after_ s;
     devices_ := devices_ s;
     device_mgr_ := v; factory_ := factory_ s;
     registered_ := registered_ s; graph_created_ := graph_created_ s;
     flib_def_ := flib_def_ s; execution_state_ := execution_state_ s;
     executors_ := executors_ s; heap_ := heap_ s;
     functions_ := functions_ s; partial_runs_ := partial_runs_ s;
     callables_ := callables_ s;
     next_callable_handle_ := next_callable_handle_ s;
     cancellation_manager_ := cancellation_manager_ s;
     closed_ := closed_ s; step_id_counter_ := step_id_counter_ s;
     handle_name_counter_ := handle_name_counter_ s;
     session_state_ := session_state_ s;
     collective_graph_key_ := collective_graph_key_ s |}.


(** [CheckNotClosed] (direct_session.h).
    Modelled from the spec: the header is not part of the sources; a
    closed session answers with cancelled. *)
Definition CheckNotClosed (s : DirectSession) : Status :=
  if closed_ s then CANCELLED else OK.

(** [CheckGraphCreated] (direct_session.h).
    Modelled from the spec: the header is not part of the sources; before
    a graph has been created the answer is failed-precondition. *)
Definition CheckGraphCreated (s : DirectSession) : Status :=
  if graph_created_ s then OK else FAILED_PRECONDITION.

(** *** Waiting for the executors *)

(** The barrier callback installed by [RunInternal] and [PRunSetup]:
    record the status, then notify. *)
Definition executors_finish (fate : ExecutorsFate) (run_state : RunState)
    : RunState :=
  {| status := Update (status run_state) (barrier_status fate);
     rendez := rendez run_state; executors_done := true;
     pending_inputs := pending_inputs run_state;
     pending_outputs := pending_outputs run_state;
     tensor_store := tensor_store run_state |}.

Definition set_status (st : Status) (run_state : RunState) : RunState :=
  {| status := st;
     rendez := rendez run_state;
     executors_done := executors_done run_state;
     pending_inputs := pending_inputs run_state;
     pending_outputs := pending_outputs run_state;
     tensor_store := tensor_store run_state |}.

(** int64 arithmetic wraps around. *)
Definition wrap64 (z : Z) : Z := (z + 2 ^ 63) mod 2 ^ 64 - 2 ^ 63.

(** [WaitForNotificationWithTimeout(&executors_done, timeout_in_us)]. *)
Definition WaitForNotificationWithTimeout (fate : ExecutorsFate)
    (run_state : RunState) (timeout_in_us : Z) : bool * RunState :=
  if executors_done run_state then (true, run_state)
  else match finish_after_us fate with
       | Some t => if t <=? timeout_in_us
                   then (true, executors_finish fate run_state)
                   else (false, run_state)
       | None => (false, run_state)
       end.

(** [executors_done.WaitForNotification()], for executors that watch a
    cancellation manager which is cancelled when the wait starts
    ([step_cancelled]) or is cancelled by another thread during the wait.
    [None]: the notification never comes and the call does not return. *)
Definition Notification_Wait (fate : ExecutorsFate) (step_cancelled : bool)
    (run_state : RunState) : option RunState :=
  if executors_done run_state then Some run_state
  else if bool_decide (is_Some (finish_after_us fate)) ||
          ((step_cancelled || cancelled_meanwhile fate) && drains fate)
  then Some (executors_finish fate run_state)
  else None.

(** [WaitForNotification(Notification*, int64)], lines 2099-2113. *)
Definition WaitForNotification_status (fate : ExecutorsFate)
    (step_cancelled : bool) (run_state : RunState) (timeout_in_ms : Z)
    : option (Status * RunState) :=
  if 0 <? timeout_in_ms then
    let timeout_in_us := wrap64 (timeout_in_ms * 1000) in
    let '(notified, run_state) :=
      WaitForNotificationWithTimeout fate run_state timeout_in_us in
    if negb notified then Some (DEADLINE_EXCEEDED, run_state)
    else Some (OK, run_state)
  else
    run_state ← Notification_Wait fate step_cancelled run_state;
    Some (OK, run_state).

(** [WaitForNotification(RunState*, CancellationManager*, int64)], lines
    2081-2097.  The cancellation manager of the result is [cm] as it is
    when the call returns: cancelled by the call, by another thread during
    the call, or as it was. *)
Definition WaitForNotification (fate : ExecutorsFate) (run_state : RunState)
    (cm : CancellationManager) (timeout_in_ms : Z)
    : option (RunState * CancellationManager) :=
  '(st, run_state) ← WaitForNotification_status fate (is_cancelled cm)
                        run_state timeout_in_ms;
  let cm := if cancelled_meanwhile fate then StartCancel cm else cm in
  if negb (ok st) then
    let run_state := set_status (Update (status run_state) st) run_state in
    let cm := StartCancel cm in
    run_state ← Notification_Wait fate (is_cancelled cm) run_state;
    Some (run_state, cm)
  else Some (run_state, cm).

End Session.


(** ** Partial runs *)

(** [str_util::Split(handle, ';')[0]]: the text before the first ';'. *)
Fixpoint Split_first (text : string) : string :=
  match text with
  | EmptyString => ""
  | String c rest =>
      if Ascii.eqb c ";"%char then "" else String c (Split_first rest)
  end.

Section PartialRun.

Context `{Collaborators}.

(** [DirectSession::ResourceHandleToInputTensor], lines 1398-1422. *)
Definition ResourceHandleToInputTensor (s : DirectSession)
    (resource_tensor : Tensor) : Status * Tensor :=
  if negb (bool_decide (dtype resource_tensor = DT_RESOURCE))
  then (INVALID_ARGUMENT, empty_tensor)
  else
    let resource_handle := resource_handle resource_tensor in
    if bool_decide (container resource_handle =
                    kTensorHandleResourceTypeName)
    then GetTensor (session_state_ s) (handle_name resource_handle)
    else (INVALID_ARGUMENT, empty_tensor).

(** [DirectSession::SendPRunInputs], lines 1424-1461. *)
Fixpoint SendPRunInputs (s : DirectSession) (inputs : NamedTensorList)
    (executors_and_keys : ExecutorsAndKeys) (rendez : Rendezvous)
    : Status * Rendezvous :=
  match inputs with
  | [] => (OK, rendez)
  | input :: rest =>
      match input_name_to_rendezvous_key executors_and_keys !! input.1 with
      | None => (INTERNAL, rendez)
      | Some input_key =>
          let st := ParseKey input_key in
          if negb (ok st) then (st, StartAbort st rendez)
          else
            let '(st, rendez) :=
              if bool_decide (dtype input.2 = DT_RESOURCE) then
                let '(st, tensor_from_handle) :=
                  ResourceHandleToInputTensor s input.2 in
                if ok st then Send rendez input_key tensor_from_handle false
                else (st, rendez)
              else Send rendez input_key input.2 false in
            if negb (ok st) then (st, StartAbort st rendez)
            else SendPRunInputs s rest executors_and_keys rendez
      end
  end.

(** The loop of [DirectSession::RecvPRunOutputs], lines 1474-1505. *)
Fixpoint RecvPRunOutputs_loop (s : DirectSession)
    (output_names : list string) (output_offset : nat)
    (executors_and_keys : ExecutorsAndKeys) (rendez : Rendezvous)
    (outputs : list Tensor) : Status * Rendezvous * list Tensor :=
  match output_names with
  | [] => (OK, rendez, outputs)
  | output_name :: rest =>
      match output_name_to_rendezvous_key executors_and_keys
              !! output_name with
      | None => (INTERNAL, rendez, outputs)
      | Some output_key =>
          let st := ParseKey output_key in
          let '(st, output_tensor, rendez) :=
            if ok st then
              let '(st, output_tensor, is_dead, rendez) :=
                Recv rendez output_key (operation_timeout_in_ms_ s) in
              if is_dead && ok st
              then (INVALID_ARGUMENT, output_tensor, rendez)
              else (st, output_tensor, rendez)
            else (st, empty_tensor, rendez) in
          if negb (ok st) then (st, StartAbort st rendez, [])
          else RecvPRunOutputs_loop s rest (S output_offset)
                 executors_and_keys rendez
                 (<[output_offset := output_tensor]> outputs)
      end
  end.

(** [DirectSession::RecvPRunOutputs], lines 1463-1507. *)
Definition RecvPRunOutputs (s : DirectSession) (output_names : list string)
    (executors_and_keys : ExecutorsAndKeys) (run_state : RunState)
    (outputs : list Tensor) : Status * Rendezvous * list Tensor :=
  let outputs :=
    match output_names with
    | [] => outputs
    | _ => resize (length output_names) empty_tensor outputs
    end in
  RecvPRunOutputs_loop s output_names 0 executors_and_keys
                       (rendez run_state) outputs.

(** Lines 1323-1334 and 1335-1345 of [PRun]: every name must be in the
    pending map and not yet marked. *)
Fixpoint check_pending (names : list string) (pending : gmap string bool)
    : Status :=
  match names with
  | [] => OK
  | n :: rest =>
      match pending !! n with
      | None => INVALID_ARGUMENT    (* not specified in partial_run_setup *)
      | Some true => INVALID_ARGUMENT   (* already fed / fetched *)
      | Some false => check_pending rest pending
      end
  end.

(** Lines 1378-1385: mark the feeds and fetches of the call. *)
Definition mark_done (names : list string) (pending : gmap string bool)
    : gmap string bool :=
  foldl (λ m n, <[n := true]> m) pending names.

Definition set_rendez (r : Rendezvous) (run_state : RunState) : RunState :=
  {| status := status run_state; rendez := r;
     executors_done := executors_done run_state;
     pending_inputs := pending_inputs run_state;
     pending_outputs := pending_outputs run_state;
     tensor_store := tensor_store run_state |}.

Definition set_pending (pi po : gmap string bool) (run_state : RunState)
    : RunState :=
  {| status := status run_state; rendez := rendez run_state;
     executors_done := executors_done run_state;
     pending_inputs := pi; pending_outputs := po;
     tensor_store := tensor_store run_state |}.

(** Lines 1353-1395 of [PRun]: send the feeds, receive the fetches, save
    the kept tensors; then, under [executor_lock_], mark what was used, or
    delete the run state if there is an error or all is done. *)
Definition PRun_exchange (s : DirectSession) (fate : ExecutorsFate)
    (handle : string) (executors_and_keys : ExecutorsAndKeys)
    (run_state : RunState) (inputs : NamedTensorList)
    (output_names : list string) (outputs : list Tensor)
    : option (Status * list Tensor * DirectSession) :=
  (* Send inputs. *)
  let '(st, r) :=
    SendPRunInputs s inputs executors_and_keys (rendez run_state) in
  let run_state := set_rendez r run_state in
  (* Receive outputs. *)
  let '(st, r, outputs) :=
    if ok st
    then RecvPRunOutputs s output_names executors_and_keys run_state outputs
    else (st, rendez run_state, outputs) in
  let run_state := set_rendez r run_state in
  (* Save the output tensors of this run we choose to keep. *)
  let '(st, session_state) :=
    if ok st
    then SaveTensors (tensor_store run_state) output_names (session_state_ s)
    else (st, session_state_ s) in
  let s := set_session_state_ session_state s in
  (* Delete the run state if there is an error or all fetches are done. *)
  let run_state :=
    if ok st
    then set_pending (mark_done (inputs.*1) (pending_inputs run_state))
                     (mark_done output_names (pending_outputs run_state))
                     run_state
    else run_state in
  let done := if ok st then PendingDone run_state else true in
  if done then
    '(_, cm) ← WaitForNotification fate run_state (cancellation_manager_ s)
                 (operation_timeout_in_ms_ s);
    Some (st, outputs,
          set_partial_runs_ (delete handle (partial_runs_ s))
            (set_cancellation_manager_ cm s))
  else
    Some (st, outputs,
          set_partial_runs_ (<[handle := run_state]> (partial_runs_ s)) s).

(** [DirectSession::PRun], lines 1298-1396.  [fate] says what the
    executors started by [PRunSetup] do if the call has to wait for them.
    The result is [None] when the model of the call does not return: the
    traversal bound of [CheckFetch] is hit, or the wait never ends. *)
Definition PRun (s : DirectSession) (fate : ExecutorsFate) (handle : string)
    (inputs : NamedTensorList) (output_names : list string)
    (outputs : list Tensor)
    : option (Status * list Tensor * DirectSession) :=
  if negb (ok (CheckNotClosed s)) then Some (CheckNotClosed s, outputs, s)
  else
  let key := Split_first handle in
  (* Get the executors for this partial run. *)
  match executors_ s !! key with
  | None => Some (INVALID_ARGUMENT, outputs, s)
  | Some ek_addr =>
  match heap_ s !! ek_addr with
  | None => None     (* a dangling pointer: not a state of the program *)
  | Some executors_and_keys =>
  match partial_runs_ s !! handle with
  | None => Some (INVALID_ARGUMENT, outputs, s)
  | Some run_state =>
  (* Make sure that this is a new set of feeds that are still pending. *)
  let st := check_pending (inputs.*1) (pending_inputs run_state) in
  if negb (ok st) then Some (st, outputs, s) else
  (* Check that this is a new set of fetches that are still pending. *)
  let st := check_pending output_names (pending_outputs run_state) in
  if negb (ok st) then Some (st, outputs, s) else
  (* Check that this new set of fetches can be computed from all the
     feeds we have supplied. *)
  st ← CheckFetch ParseTensorName Tensor inputs output_names
         (default {| nodes := [] |} (graph executors_and_keys))
         (name_to_node executors_and_keys) (pending_inputs run_state);
  if negb (ok st) then Some (st, outputs, s) else
  PRun_exchange s fate handle executors_and_keys run_state inputs
                output_names outputs
  end end end.

(** The states a session goes through under a sequence of [PRun] calls. *)
Inductive PRun_steps : DirectSession → DirectSession → Prop :=
| PRun_steps_refl s : PRun_steps s s
| PRun_steps_step s fate handle inputs output_names outputs st outputs' s' s'' :
    PRun s fate handle inputs output_names outputs = Some (st, outputs', s') →
    PRun_steps s' s'' →
    PRun_steps s s''.

(** The feed (or fetch) [n] of the partial run [handle] can no longer be
    used: the run is gone, or [n] is marked. *)
Definition feed_used (handle n : string) (s : DirectSession) : Prop :=
  match partial_runs_ s !! handle with
  | None => True
  | Some run_state => pending_inputs run_state !! n = Some true
  end.

Definition fetch_used (handle n : string) (s : DirectSession) : Prop :=
  match partial_runs_ s !! handle with
  | None => True
  | Some run_state => pending_outputs run_state !! n = Some true
  end.

End PartialRun.


(** ** The executor cache *)

(** [std::sort] on a vector of [std::string]: ascending in the order of
    [operator<], which compares byte by byte. *)
Definition string_le (a b : string) : Prop := String.leb a b = true.

#[global] Instance string_le_dec a b : Decision (string_le a b).
Proof. unfold string_le. apply _. Defined.

Definition std_sort (v : list string) : list string := merge_sort string_le v.

(** [m.emplace(k, v)]: insert unless the key is taken; the result is the
    map, the value now stored under [k], and whether [v] was inserted. *)
Definition emplace {V} (k : string) (v : V) (m : gmap string V)
    : gmap string V * V * bool :=
  match m !! k with
  | Some v' => (m, v', false)
  | None => (<[k := v]> m, v, true)
  end.

(** The key of a request, lines 1755-1758 and 1788-1791. *)
Definition executors_key (inputs outputs target_nodes : list string)
    (is_partial_run : bool) (debug_tensor_watches_summary : string) : string :=
  StrCat [StrJoin inputs ","; "->"; StrJoin outputs ","; "/";
          StrJoin target_nodes ","; "/"; AlphaNum_bool is_partial_run; "/";
          debug_tensor_watches_summary].

Section Executors.

Context `{Collaborators}.

(** [GetRendezvousKey], lines 152-159. *)
Definition GetRendezvousKey (tensor_name : string)
    (device_info : DeviceAttributes) (frame_iter : FrameAndIter) : string :=
  StrCat [device_name device_info; ";";
          FpToString (incarnation device_info); ";";
          device_name device_info; ";"; tensor_name; ";";
          AlphaNum (frame_id frame_iter); ":";
          AlphaNum (iter_id frame_iter)].

(** [device_set_.client_device()->attributes()]: the first device. *)
Definition client_device (s : DirectSession) : DeviceAttributes :=
  default {| device_name := ""; incarnation := 0 |} (head (devices_ s)).

(** [DirectSession::CreateGraphs], lines 1852-2005: build the client
    graph, check the numbers of feed and fetch endpoints, partition. *)
Definition CreateGraphs (s : DirectSession)
    (callable_options : CallableOptions) (run_state_args : RunStateArgs)
    : Status * list string * ClientGraph * RunStateArgs :=
  let '(st, client_graph) :=
    BuildGraph (execution_state_ s) callable_options
               (negb (is_partial_run run_state_args)) in
  if negb (ok st) then (st, [], client_graph, run_state_args)
  else if negb (bool_decide (length (feed callable_options) =
                             length (feed_types client_graph)))
  then (INTERNAL, [], client_graph, run_state_args)
  else if negb (bool_decide (length (fetch callable_options) =
                             length (fetch_types client_graph)))
  then (INTERNAL, [], client_graph, run_state_args)
  else
    (* Remember the graph in run state if this is a partial run. *)
    let run_state_args :=
      if is_partial_run run_state_args
      then {| is_partial_run := true; handle := handle run_state_args;
              rsa_graph := Some (full_graph client_graph);
              rsa_debug_options := rsa_debug_options run_state_args;
              rsa_collective_graph_key :=
                rsa_collective_graph_key run_state_args |}
      else run_state_args in
    let '(st, partitions) := PartitionGraphs client_graph in
    (st, partitions, client_graph, run_state_args).

(** Lines 1599-1612: the nodes of the graph that a feed or a fetch names.
    [insert] keeps the first node of a name. *)
Definition build_name_to_node (g : Graph) (names : gset string)
    : gmap string nat :=
  foldl (λ m '(id, slot),
           match slot with
           | Some n =>
               if decide (name n ∈ names)
               then match m !! name n with
                    | Some _ => m
                    | None => <[name n := id]> m
                    end
               else m
           | None => m
           end)
        ∅ (imap pair (nodes g)).

(** Lines 1630-1699: one executor per partition. *)
Fixpoint create_items (partitions : list string)
    (callable_options : CallableOptions)
    (items : list PerPartitionExecutorsAndLib)
    : Status * list PerPartitionExecutorsAndLib :=
  match partitions with
  | [] => (OK, items)
  | partition_name :: rest =>
      let '(st, item) :=
        NewPartitionExecutor partition_name callable_options in
      if negb (ok st) then (st, items)
      else create_items rest callable_options (items ++ [item])%list
  end.

(** Lines 1707-1714: [m[name] = i] for [i] from 0. *)
Definition name_to_index (names : list string) : gmap string nat :=
  foldl (λ m '(i, name), <[name := i]> m) ∅ (imap pair names).

(** Lines 1721-1731: [m[name] = GetRendezvousKey(name, client, (0, 0))]. *)
Definition name_to_rendezvous_key (s : DirectSession) (names : list string)
    : gmap string string :=
  foldl (λ m name,
           <[name := GetRendezvousKey name (client_device s)
                       {| frame_id := 0; iter_id := 0 |}]> m)
        ∅ names.

(** [DirectSession::CreateExecutors], lines 1570-1737. *)
Definition CreateExecutors (s : DirectSession)
    (callable_options : CallableOptions) (run_state_args : RunStateArgs)
    : Status * option ExecutorsAndKeys * RunStateArgs :=
  let '(st, graphs, client_graph, run_state_args) :=
    CreateGraphs s callable_options run_state_args in
  if negb (ok st) then (st, None, run_state_args) else
  let partial := is_partial_run run_state_args in
  let ek_graph := if partial then rsa_graph run_state_args else None in
  let names : gset string :=
    list_to_set ((λ n, (ParseTensorName n).1) <$>
                 (feed callable_options ++ fetch callable_options)%list) in
  let ek_name_to_node :=
    match ek_graph with
    | Some g => build_name_to_node g names
    | None => ∅
    end in
  let '(st, ek_items) := create_items graphs callable_options [] in
  if negb (ok st) then (st, None, run_state_args) else
  (st,
   Some {| step_count := 0;
           graph := ek_graph;
           name_to_node := ek_name_to_node;
           items := ek_items;
           input_name_to_index :=
             if partial then ∅ else name_to_index (feed callable_options);
           input_name_to_rendezvous_key :=
             if partial
             then name_to_rendezvous_key s (feed callable_options) else ∅;
           output_name_to_index :=
             if partial then ∅ else name_to_index (fetch callable_options);
           output_name_to_rendezvous_key :=
             if partial
             then name_to_rendezvous_key s (fetch callable_options) else ∅;
           input_types := feed_types client_graph;
           output_types := fetch_types client_graph;
           callable_options := callable_options;
           ek_collective_graph_key :=
             client_collective_graph_key client_graph |},
   run_state_args).

Definition set_handle (h : string) (a : RunStateArgs) : RunStateArgs :=
  {| is_partial_run := is_partial_run a; handle := h;
     rsa_graph := rsa_graph a; rsa_debug_options := rsa_debug_options a;
     rsa_collective_graph_key := rsa_collective_graph_key a |}.

(** Lines 1810-1849 of [GetOrCreateExecutors]: nothing found, so create
    the executors and store them in the cache.  [executor_lock_] is
    released while the executors are created and taken again for the
    insertion. *)
Definition GetOrCreateExecutors_create (s : DirectSession)
    (key sorted_key : string)
    (inputs_sorted outputs_sorted tn_sorted : list string)
    (run_state_args : RunStateArgs)
    : Status * nat * RunStateArgs * DirectSession :=
  let callable_options :=
    {| feed := inputs_sorted; fetch := outputs_sorted; target := tn_sorted;
       run_options :=
         {| trace_level := 0; timeout_in_ms := 0; inter_op_thread_pool := 0;
            output_partition_graphs := false;
            debug_options := rsa_debug_options run_state_args;
            report_tensor_allocations_upon_oom := false;
            collective_graph_key :=
              rsa_collective_graph_key run_state_args;
            use_run_handler_pool := false |} |} in
  match CreateExecutors s callable_options run_state_args with
  | (st, None, run_state_args) => (st, O, run_state_args, s)
  | (st, Some ek, run_state_args) =>
      (* the new object lives at a fresh address *)
      let ek_addr := length (heap_ s) in
      let s := set_heap_ (heap_ s ++ [ek])%list s in
      (* Another thread may have created the entry before us, in which
         case we will reuse the already created one. *)
      let '(m, entry, inserted) := emplace sorted_key ek_addr (executors_ s) in
      let s := if inserted then set_functions_ (S (functions_ s)) s else s in
      (* Insert the value under the original key. *)
      let '(m, _, _) := emplace key entry m in
      (OK, entry, run_state_args, set_executors_ m s)
  end.

(** Lines 1748-1752 of [GetOrCreateExecutors]. *)
Definition debug_tensor_watches_summary_of (run_state_args : RunStateArgs)
    : string :=
  match debug_tensor_watch_opts (rsa_debug_options run_state_args) with
  | [] => ""
  | opts => SummarizeDebugTensorWatches opts
  end.

(** The exact-order key and the sorted key of a request. *)
Definition request_key (inputs outputs target_nodes : list string)
    (run_state_args : RunStateArgs) : string :=
  executors_key inputs outputs target_nodes (is_partial_run run_state_args)
                (debug_tensor_watches_summary_of run_state_args).

Definition request_sorted_key (inputs outputs target_nodes : list string)
    (run_state_args : RunStateArgs) : string :=
  request_key (std_sort inputs) (std_sort outputs) (std_sort target_nodes)
              run_state_args.

(** The cache answers the exact-order key of a request as it answers its
    sorted key (invariant (a) of the data model). *)
Definition cache_coherent_for (s : DirectSession)
    (inputs outputs target_nodes : list string)
    (run_state_args : RunStateArgs) : Prop :=
  ∀ ek_addr,
    executors_ s !! request_key inputs outputs target_nodes run_state_args
      = Some ek_addr →
    executors_ s !! request_sorted_key inputs outputs target_nodes
                      run_state_args = Some ek_addr.

(** [DirectSession::GetOrCreateExecutors], lines 1739-1850.  The returned
    address is the [ExecutorsAndKeys*] handed back to the caller. *)
Definition GetOrCreateExecutors (s : DirectSession)
    (inputs outputs target_nodes : list string)
    (run_state_args : RunStateArgs)
    : Status * nat * RunStateArgs * DirectSession :=
  let use_counter := LogMemory_IsEnabled || is_partial_run run_state_args in
  let handle_name_counter_value :=
    if use_counter then handle_name_counter_ s else -1 in
  let s :=
    if use_counter
    then set_handle_name_counter_ (wrap64 (handle_name_counter_ s + 1)) s
    else s in
  let debug_tensor_watches_summary :=
    debug_tensor_watches_summary_of run_state_args in
  (* Fast lookup path, no sorting. *)
  let key :=
    executors_key inputs outputs target_nodes
                  (is_partial_run run_state_args)
                  debug_tensor_watches_summary in
  let run_state_args :=
    if 0 <=? handle_name_counter_value
    then set_handle (StrCat [key; ";"; AlphaNum handle_name_counter_value])
                    run_state_args
    else run_state_args in
  match executors_ s !! key with
  | Some ek_addr => (OK, ek_addr, run_state_args, s)
  | None =>
      (* Slow lookup path, the unsorted key missed the cache. *)
      let inputs_sorted := std_sort inputs in
      let outputs_sorted := std_sort outputs in
      let tn_sorted := std_sort target_nodes in
      let sorted_key :=
        executors_key inputs_sorted outputs_sorted tn_sorted
                      (is_partial_run run_state_args)
                      debug_tensor_watches_summary in
      let run_state_args :=
        if 0 <=? handle_name_counter_value
        then set_handle
               (StrCat [sorted_key; ";"; AlphaNum handle_name_counter_value])
               run_state_args
        else run_state_args in
      match executors_ s !! sorted_key with
      | Some ek_addr =>
          (* Insert this under the original key. *)
          let '(m, _, _) := emplace key ek_addr (executors_ s) in
          (OK, ek_addr, run_state_args, set_executors_ m s)
      | None =>
          GetOrCreateExecutors_create s key sorted_key inputs_sorted
            outputs_sorted tn_sorted run_state_args
      end
  end.

(** [DirectSession::PRunSetup], lines 1208-1296. *)
Definition PRunSetup (s : DirectSession)
    (input_names output_names target_nodes : list string)
    : Status * string * DirectSession :=
  if negb (ok (CheckNotClosed s)) then (CheckNotClosed s, "", s) else
  if negb (ok (CheckGraphCreated s)) then (CheckGraphCreated s, "", s) else
  let run_state_args :=
    {| is_partial_run := true; handle := ""; rsa_graph := None;
       rsa_debug_options :=
         {| debug_tensor_watch_opts := []; global_step := 0 |};
       rsa_collective_graph_key := 0 |} in
  let '(st, _, run_state_args, s) :=
    GetOrCreateExecutors s input_names output_names target_nodes
                         run_state_args in
  if negb (ok st) then (st, "", s) else
  (* Create the run state and save it for future PRun calls. *)
  let s := set_step_id_counter_ (wrap64 (step_id_counter_ s + 1)) s in
  let run_state :=
    new_RunState input_names output_names new_IntraProcessRendezvous in
  let '(m, _, inserted) :=
    emplace (handle run_state_args) run_state (partial_runs_ s) in
  if negb inserted then (INTERNAL, "", s) else
  (* Start parallel Executors. *)
  (OK, handle run_state_args, set_partial_runs_ m s).

End Executors.


(** ** Graph intake, Close, and the operations that ignore the latch *)

Section Lifecycle.

Context `{Collaborators}.

(** [DirectSession::ExtendLocked], lines 706-730. *)
Definition ExtendLocked (s : DirectSession) (graph : GraphDef)
    : Status * DirectSession :=
  match flib_def_ s, execution_state_ s with
  | Some flib_def, Some execution_state =>
      let '(st, flib_def) := AddLibrary flib_def graph in
      if negb (ok st) then (st, s) else
      let s := set_flib_def_ (Some flib_def) s in
      let '(st, state) := ExtendExecutionState execution_state graph in
      if negb (ok st) then (st, s) else
      (OK, set_execution_state_ (Some state) s)
  | _, _ =>
      (* If this is the first call, we can initialize the execution state
         with `graph` and do not need to call `Extend()`. *)
      let s := set_flib_def_ (Some (new_FunctionLibraryDefinition graph)) s in
      let '(st, state) := MakeForBaseGraph graph in
      if negb (ok st) then (st, s) else
      (OK, set_graph_created_ true (set_execution_state_ (Some state) s))
  end.

(** [DirectSession::Create], lines 683-694. *)
Definition Create (s : DirectSession) (graph : GraphDef)
    : Status * DirectSession :=
  if negb (ok (init_error_ s)) then (init_error_ s, s) else
  if 0 <? node_size graph then
    if graph_created_ s then (ALREADY_EXISTS, s)
    else ExtendLocked s graph
  else (OK, s).

(** [DirectSession::Extend], lines 700-704. *)
Definition Extend (s : DirectSession) (graph : GraphDef)
    : Status * DirectSession :=
  if negb (ok (CheckNotClosed s)) then (CheckNotClosed s, s) else
  ExtendLocked s graph.

(** [DirectSession::ListDevices], lines 2007-2016. *)
Definition ListDevices (s : DirectSession) : Status * list DeviceAttributes :=
  (OK, devices_ s).

(** [DirectSession::Reset], lines 2018-2022. *)
Definition Reset (s : DirectSession) (containers : list string)
    : Status * DirectSession :=
  (OK, set_device_mgr_ (ClearContainers containers (device_mgr_ s)) s).

(** [DirectSession::Close], lines 2024-2033. *)
Definition Close (s : DirectSession) : Status * DirectSession :=
  let s :=
    set_cancellation_manager_ (StartCancel (cancellation_manager_ s)) s in
  if closed_ s then (OK, s) else
  let s := set_closed_ true s in
  let s := if factory_ s then set_registered_ false s else s in
  (OK, s).

(** [DirectSession::ReleaseCallable], lines 2261-2268. *)
Definition ReleaseCallable (s : DirectSession) (handle : Z)
    : Status * DirectSession :=
  if next_callable_handle_ s <=? handle then (INVALID_ARGUMENT, s) else
  (OK, set_callables_ (delete handle (callables_ s)) s).

(** [DirectSession::MakeCallable], lines 2115-2131.  The handle is
    meaningful when the status is OK. *)
Definition MakeCallable (s : DirectSession)
    (callable_options : CallableOptions) : Status * Z * DirectSession :=
  if negb (ok (CheckNotClosed s)) then (CheckNotClosed s, 0, s) else
  if negb (ok (CheckGraphCreated s)) then (CheckGraphCreated s, 0, s) else
  let run_state_args :=
    new_RunStateArgs (debug_options (run_options callable_options)) in
  match CreateExecutors s callable_options run_state_args with
  | (st, None, _) => (st, 0, s)
  | (_, Some ek, _) =>
      let out_handle := next_callable_handle_ s in
      let ek_addr := length (heap_ s) in
      (OK, out_handle,
       set_callables_ (<[out_handle := ek_addr]> (callables_ s))
         (set_next_callable_handle_ (wrap64 (out_handle + 1))
            (set_heap_ (heap_ s ++ [ek])%list s)))
  end.

End Lifecycle.

(** ** One step *)

(** [thread::ThreadPoolOptions]. *)
Record ThreadPoolOptions := {
  inter_op_threadpool : option ThreadPool;
  intra_op_threadpool : option ThreadPool
}.

Definition ThreadPoolOptions_default : ThreadPoolOptions :=
  {| inter_op_threadpool := None; intra_op_threadpool := None |}.

(** Where [args.runner] sends a closure. *)
Inductive Runner :=
| RunInline                      (* c() in the calling thread *)
| RunOnHandler                   (* handler->ScheduleInterOpClosure *)
| RunOnPool (pool : ThreadPool). (* pool->Schedule *)

Section Step.

Context `{Collaborators}.

(** What is outside the session's control during one step. *)
Record StepEnv := {
  step_fate : ExecutorsFate;
  (* the return values the executors leave in the call frame *)
  step_retvals : list (option Tensor);
  (* run_state.tensor_store once the executors are done *)
  step_tensor_store : TensorStore;
  (* CreateDebuggerState *)
  debugger_state_status : Status;
  (* ProfilerSession::CollectData *)
  profiler_status : Status;
  (* CostModelManager::AddToCostGraphDef *)
  cost_graph_status : Status
}.

(** What a step has done when [RunInternal] returns. *)
Record StepReport := {
  report_run_state : RunState;
  (* step_cancellation_manager.StartCancel() has been called *)
  report_step_cancelled : bool;
  (* the inter-op pool chosen for the step; [None]: nullptr *)
  report_pool : option ThreadPool;
  (* args.runner at each RunAsync, in the order of the partitions *)
  report_runners : list Runner;
  report_retvals : list (option Tensor)
}.

(** [DirectSession::ShouldUseRunHandlerPool], lines 515-530. *)
Definition ShouldUseRunHandlerPool (s : DirectSession)
    (run_options : RunOptions) : bool :=
  if use_per_session_threads_ s then false
  else if (0 <? session_inter_op_thread_pool_size_ s) &&
          (0 <? inter_op_thread_pool run_options)
  then false
  else true.

(** Lines 872-883 of [RunInternal]. *)
Definition update_cost_model_of (s : DirectSession)
    (executor_step_count : Z) : bool :=
  if 0 <? build_cost_model_ s then
    let build_cost_model_every := build_cost_model_ s in
    let build_cost_model_after := build_cost_model_after_ s in
    let measure_step_count :=
      wrap64 (executor_step_count - build_cost_model_after) in
    if 0 <=? measure_step_count
    then Z.rem (wrap64 (measure_step_count + 1)) build_cost_model_every =? 0
    else false
  else false.

(** Lines 896-898 of [RunInternal]: the check of
    [run_options.inter_op_thread_pool()]. *)
Definition invalid_inter_op_thread_pool (s : DirectSession)
    (run_options : RunOptions) : bool :=
  (inter_op_thread_pool run_options <? -1) ||
  (Z.of_nat (length (thread_pools_ s)) <=? inter_op_thread_pool run_options).

(** Lines 922-944 of [RunInternal]: the inter-op pool of the step. *)
Definition select_pool (s : DirectSession) (run_options : RunOptions)
    (threadpool_options : ThreadPoolOptions) (num_items : nat)
    : option ThreadPool :=
  let pool :=
    if run_in_caller_thread_ s then None
    else match inter_op_threadpool threadpool_options with
         | Some external => Some external
         | None =>
             if 0 <=? inter_op_thread_pool run_options
             then mjoin (thread_pools_ s
                           !! Z.to_nat (inter_op_thread_pool run_options))
             else None
         end in
  match pool with
  | Some p => Some p
  | None =>
      (* We allow using the caller thread only when having a single
         executor specified. *)
      if (1 <? num_items)%nat then mjoin (thread_pools_ s !! 0%nat) else None
  end.

(** Lines 954-996 of [RunInternal]: the runner handed to one partition. *)
Definition runner_of (pool : option ThreadPool) (use_handler : bool)
    (item : PerPartitionExecutorsAndLib) : Runner :=
  match tensorflow_device_thread_pool item with
  | Some device_thread_pool => RunOnPool device_thread_pool
  | None =>
      match pool with
      | None => RunInline
      | Some p => if use_handler then RunOnHandler else RunOnPool p
      end
  end.

Definition set_step_count (n : Z) (ek : ExecutorsAndKeys) : ExecutorsAndKeys :=
  {| step_count := n; graph := graph ek; name_to_node := name_to_node ek;
     items := items ek; input_name_to_index := input_name_to_index ek;
     input_name_to_rendezvous_key := input_name_to_rendezvous_key ek;
     output_name_to_index := output_name_to_index ek;
     output_name_to_rendezvous_key := output_name_to_rendezvous_key ek;
     input_types := input_types ek; output_types := output_types ek;
     callable_options := callable_options ek;
     ek_collective_graph_key := ek_collective_graph_key ek |}.

Definition set_executors_done (run_state : RunState) : RunState :=
  {| status := status run_state; rendez := rendez run_state;
     executors_done := true;
     pending_inputs := pending_inputs run_state;
     pending_outputs := pending_outputs run_state;
     tensor_store := tensor_store run_state |}.

Definition set_tensor_store (store : TensorStore) (run_state : RunState)
    : RunState :=
  {| status := status run_state; rendez := rendez run_state;
     executors_done := executors_done run_state;
     pending_inputs := pending_inputs run_state;
     pending_outputs := pending_outputs run_state;
     tensor_store := store |}.

(** Lines 1009-1071 of [RunInternal]: what follows the wait. *)
Definition RunInternal_finish (s : DirectSession) (run_options : RunOptions)
    (executors_and_keys : ExecutorsAndKeys) (update_cost_model : bool)
    (env : StepEnv) (run_state : RunState)
    (step_cancellation_manager : CancellationManager)
    (pool : option ThreadPool) (runners : list Runner)
    : Status * StepReport * DirectSession :=
  (* DeregisterCallback fails when the session has been cancelled *)
  let deregistered := negb (cancelled_meanwhile (step_fate env)) in
  let s :=
    if deregistered then s
    else set_cancellation_manager_
           (StartCancel (cancellation_manager_ s)) s in
  let step_cancellation_manager :=
    if deregistered then step_cancellation_manager
    else StartCancel step_cancellation_manager in
  let run_state :=
    if deregistered then run_state
    else set_status (Update (status run_state) CANCELLED) run_state in
  let run_state := set_tensor_store (step_tensor_store env) run_state in
  let report :=
    {| report_run_state := run_state;
       report_step_cancelled := is_cancelled step_cancellation_manager;
       report_pool := pool; report_runners := runners;
       report_retvals := step_retvals env |} in
  if (2 <=? trace_level run_options) && negb (ok (profiler_status env))
  then (profiler_status env, report, s)
  else if negb (ok (status run_state)) then (status run_state, report, s)
  else
    (* Save the output tensors of this run we choose to keep. *)
    let '(st, session_state) :=
      if negb (TensorStore_empty (tensor_store run_state))
      then SaveTensors (tensor_store run_state)
                       (fetch (callable_options executors_and_keys))
                       (session_state_ s)
      else (OK, session_state_ s) in
    if negb (ok st) then (st, report, s) else
    let s := set_session_state_ session_state s in
    (* Build and return the cost model as instructed. *)
    if update_cost_model &&
       negb (bool_decide (items executors_and_keys = [])) &&
       negb (ok (cost_graph_status env))
    then (cost_graph_status env, report, s)
    else (OK, report, s).

(** [DirectSession::RunInternal], lines 771-1072.  [None]: the call does
    not return. *)
Definition RunInternal (s : DirectSession) (step_id : Z)
    (run_options : RunOptions) (ek_addr : nat)
    (threadpool_options : ThreadPoolOptions) (env : StepEnv)
    : option (Status * StepReport * DirectSession) :=
  executors_and_keys ← heap_ s !! ek_addr;
  let executor_step_count := step_count executors_and_keys in
  let s :=
    set_heap_ (<[ek_addr := set_step_count (wrap64 (executor_step_count + 1))
                                            executors_and_keys]> (heap_ s)) s in
  let run_state := new_RunState [] [] new_IntraProcessRendezvous in
  let early st run_state :=
    Some (st,
          {| report_run_state := run_state; report_step_cancelled := false;
             report_pool := None; report_runners := [];
             report_retvals := [] |},
          s) in
  if negb (bool_decide (debug_tensor_watch_opts (debug_options run_options)
                        = [])) &&
     negb (ok (debugger_state_status env))
  then early (debugger_state_status env) run_state
  else
  (* run_state.rendez = new IntraProcessRendezvous(device_mgr_) *)
  if negb (ek_collective_graph_key executors_and_keys =? 0) &&
     negb (collective_graph_key run_options =? 0) &&
     negb (collective_graph_key run_options =?
           ek_collective_graph_key executors_and_keys)
  then
    (* return errors::Internal: the destructor of run_state waits for a
       notification that no one is going to send *)
    None
  else
  let update_cost_model := update_cost_model_of s executor_step_count in
  if invalid_inter_op_thread_pool s run_options
  then early INVALID_ARGUMENT (set_executors_done run_state)
  else
  (* Register this step with session's cancellation manager. *)
  let already_cancelled := is_cancelled (cancellation_manager_ s) in
  if already_cancelled
  then early CANCELLED (set_executors_done run_state)
  else
  let pool :=
    select_pool s run_options threadpool_options
                (length (items executors_and_keys)) in
  let use_handler :=
    ShouldUseRunHandlerPool s run_options &&
    use_run_handler_pool run_options in
  let runners := runner_of pool use_handler <$> items executors_and_keys in
  let step_cancellation_manager := {| is_cancelled := false |} in
  '(run_state, step_cancellation_manager) ←
    WaitForNotification (step_fate env) run_state step_cancellation_manager
      (if 0 <? timeout_in_ms run_options then timeout_in_ms run_options
       else operation_timeout_in_ms_ s);
  Some (RunInternal_finish s run_options executors_and_keys update_cost_model
          env run_state step_cancellation_manager pool runners).

End Step.


(** ** Run and RunCallable *)

Section Run.

Context `{Collaborators}.

Definition set_input_name_to_index (m : gmap string nat)
    (ek : ExecutorsAndKeys) : ExecutorsAndKeys :=
  {| step_count := step_count ek; graph := graph ek;
     name_to_node := name_to_node ek; items := items ek;
     input_name_to_index := m;
     input_name_to_rendezvous_key := input_name_to_rendezvous_key ek;
     output_name_to_index := output_name_to_index ek;
     output_name_to_rendezvous_key := output_name_to_rendezvous_key ek;
     input_types := input_types ek; output_types := output_types ek;
     callable_options := callable_options ek;
     ek_collective_graph_key := ek_collective_graph_key ek |}.

Definition set_output_name_to_index (m : gmap string nat)
    (ek : ExecutorsAndKeys) : ExecutorsAndKeys :=
  {| step_count := step_count ek; graph := graph ek;
     name_to_node := name_to_node ek; items := items ek;
     input_name_to_index := input_name_to_index ek;
     input_name_to_rendezvous_key := input_name_to_rendezvous_key ek;
     output_name_to_index := m;
     output_name_to_rendezvous_key := output_name_to_rendezvous_key ek;
     input_types := input_types ek; output_types := output_types ek;
     callable_options := callable_options ek;
     ek_collective_graph_key := ek_collective_graph_key ek |}.

(** [m[key]] on a [std::unordered_map<string, size_t>]: a missing key is
    inserted with the value 0. *)
Definition subscript (m : gmap string nat) (key : string)
    : nat * gmap string nat :=
  match m !! key with
  | Some v => (v, m)
  | None => (O, <[key := O]> m)
  end.

(** Lines 1133-1144 of [Run]: place the feeds in the order of the
    arguments. *)
Fixpoint fill_feed_args (s : DirectSession) (inputs : NamedTensorList)
    (name_to_idx : gmap string nat) (feed_args : list Tensor)
    : Status * list Tensor * gmap string nat :=
  match inputs with
  | [] => (OK, feed_args, name_to_idx)
  | it :: rest =>
      if bool_decide (dtype it.2 = DT_RESOURCE) then
        let '(st, tensor_from_handle) := ResourceHandleToInputTensor s it.2 in
        if negb (ok st) then (st, feed_args, name_to_idx) else
        let '(i, name_to_idx) := subscript name_to_idx it.1 in
        fill_feed_args s rest name_to_idx
                       (<[i := tensor_from_handle]> feed_args)
      else
        let '(i, name_to_idx) := subscript name_to_idx it.1 in
        fill_feed_args s rest name_to_idx (<[i := it.2]> feed_args)
  end.

(** Lines 1180-1185 of [Run]: the smallest [j <= i] with
    [output_names[i] == output_names[j]], searched from [j]. *)
Fixpoint first_equal (output_name : string) (output_names : list string)
    (j : nat) : nat :=
  match output_names with
  | [] => j
  | n :: rest =>
      if String.eqb output_name n then j
      else first_equal output_name rest (S j)
  end.

(** Lines 1176-1187 of [Run]. *)
Definition first_indices_of (output_names : list string) : list nat :=
  imap (λ i output_name,
          first_equal output_name (take (S i) output_names) 0)
       output_names.

(** Lines 1191-1201 of [Run]: the loop that fills [outputs].  A tensor
    that is moved out of [sorted_outputs] leaves an empty tensor behind. *)
Fixpoint fill_outputs (i : nat) (output_names : list string)
    (first_indices : list nat) (name_to_idx : gmap string nat)
    (sorted_outputs outputs : list Tensor)
    : list Tensor * gmap string nat :=
  match output_names with
  | [] => (outputs, name_to_idx)
  | output_name :: rest =>
      if bool_decide (first_indices = []) ||
         bool_decide (first_indices !! i = Some i)
      then
        let '(k, name_to_idx) := subscript name_to_idx output_name in
        fill_outputs (S i) rest first_indices name_to_idx
          (<[k := empty_tensor]> sorted_outputs)
          (outputs ++ [default empty_tensor (sorted_outputs !! k)])%list
      else
        let j := default O (first_indices !! i) in
        fill_outputs (S i) rest first_indices name_to_idx sorted_outputs
          (outputs ++ [default empty_tensor (outputs !! j)])%list
  end.

(** Lines 1162-1203 of [Run]: receive the outputs. *)
Definition receive_outputs (output_names : list string)
    (name_to_idx : gmap string nat) (retvals : list (option Tensor))
    : Status * list Tensor * gmap string nat :=
  let '(st, sorted_outputs) := ConsumeRetvals retvals in
  if IsInternal st then (INVALID_ARGUMENT, [], name_to_idx)
  else if negb (ok st) then (st, [], name_to_idx)
  else
    let unique_outputs :=
      bool_decide (length output_names = size name_to_idx) in
    let first_indices :=
      if negb unique_outputs then first_indices_of output_names else [] in
    let '(outputs, name_to_idx) :=
      fill_outputs 0 output_names first_indices name_to_idx
                   sorted_outputs [] in
    (OK, outputs, name_to_idx).

(** [DirectSession::Run], lines 1089-1206.  [outputs] is [None] for a null
    pointer.  [None] as a result: the call does not return. *)
Definition Run (s : DirectSession) (run_options : RunOptions)
    (inputs : NamedTensorList) (output_names target_nodes : list string)
    (outputs : option (list Tensor)) (env : StepEnv)
    : option (Status * option (list Tensor) * DirectSession) :=
  if negb (ok (CheckNotClosed s)) then Some (CheckNotClosed s, outputs, s)
  else
  if negb (ok (CheckGraphCreated s))
  then Some (CheckGraphCreated s, outputs, s) else
  (* Extract the inputs names for this run of the session. *)
  let input_tensor_names := inputs.*1 in
  (* Check if we already have an executor for these arguments. *)
  let run_state_args :=
    {| is_partial_run := false; handle := ""; rsa_graph := None;
       rsa_debug_options := debug_options run_options;
       rsa_collective_graph_key := collective_graph_key run_options |} in
  let '(st, ek_addr, run_state_args, s) :=
    GetOrCreateExecutors s input_tensor_names output_names target_nodes
                         run_state_args in
  if negb (ok st) then Some (st, outputs, s) else
  executors_and_keys ← heap_ s !! ek_addr;
  let s :=
    set_collective_graph_key_ (ek_collective_graph_key executors_and_keys) s in
  (* Configure a call frame for the step. *)
  let '(st, feed_args, name_to_idx) :=
    fill_feed_args s inputs (input_name_to_index executors_and_keys)
                   (replicate (length inputs) empty_tensor) in
  let executors_and_keys :=
    set_input_name_to_index name_to_idx executors_and_keys in
  let s := set_heap_ (<[ek_addr := executors_and_keys]> (heap_ s)) s in
  if negb (ok st) then Some (st, outputs, s) else
  let st := SetArgs (input_types executors_and_keys) feed_args in
  if IsInternal st then Some (INVALID_ARGUMENT, outputs, s)
  else if negb (ok st) then Some (st, outputs, s) else
  let step_id := step_id_counter_ s in
  let s := set_step_id_counter_ (wrap64 (step_id + 1)) s in
  '(st, report, s) ← RunInternal s step_id run_options ek_addr
                        ThreadPoolOptions_default env;
  if negb (ok st) then Some (st, outputs, s) else
  (* Receive outputs. *)
  match outputs with
  | None => Some (OK, None, s)
  | Some previous =>
      executors_and_keys ← heap_ s !! ek_addr;
      let '(st, received, name_to_idx) :=
        receive_outputs output_names (output_name_to_index executors_and_keys)
                        (report_retvals report) in
      let s :=
        set_heap_ (<[ek_addr := set_output_name_to_index name_to_idx
                                  executors_and_keys]> (heap_ s)) s in
      if negb (ok st) then Some (st, Some previous, s)
      else Some (OK, Some received, s)
  end.

(** [RunCallableCallFrame::SetRetval], lines 2163-2169, applied to every
    return value the executors produce. *)
Definition set_retvals (retvals : list (option Tensor))
    (fetch_tensors : list Tensor) : list Tensor :=
  foldl (λ acc '(index, val),
           match val with
           | Some v => <[index := v]> acc
           | None => acc
           end)
        fetch_tensors (imap pair retvals).

(** [DirectSession::RunCallable], lines 2185-2259.  [fetch_tensors] is
    [None] for a null pointer. *)
Definition RunCallable (s : DirectSession) (handle : Z)
    (feed_tensors : list Tensor) (fetch_tensors : option (list Tensor))
    (threadpool_options : ThreadPoolOptions) (env : StepEnv)
    : option (Status * option (list Tensor) * DirectSession) :=
  if negb (ok (CheckNotClosed s))
  then Some (CheckNotClosed s, fetch_tensors, s) else
  if negb (ok (CheckGraphCreated s))
  then Some (CheckGraphCreated s, fetch_tensors, s) else
  let step_id := step_id_counter_ s in
  let s := set_step_id_counter_ (wrap64 (step_id + 1)) s in
  if next_callable_handle_ s <=? handle
  then Some (INVALID_ARGUMENT, fetch_tensors, s) else
  match callables_ s !! handle with
  | None =>
      (* Attempted to run callable after handle was released *)
      Some (INVALID_ARGUMENT, fetch_tensors, s)
  | Some ek_addr =>
      executors_and_keys ← heap_ s !! ek_addr;
      if negb (bool_decide (length feed_tensors =
                            length (input_types executors_and_keys)))
      then Some (INVALID_ARGUMENT, fetch_tensors, s) else
      match fetch_tensors, output_types executors_and_keys with
      | None, _ :: _ => Some (INVALID_ARGUMENT, fetch_tensors, s)
      | _, _ =>
          let fetch_tensors :=
            resize (length (output_types executors_and_keys)) empty_tensor
              <$> fetch_tensors in
          '(st, report, s) ←
            RunInternal s step_id
              (run_options (callable_options executors_and_keys))
              ek_addr threadpool_options env;
          let fetch_tensors :=
            set_retvals (report_retvals report) <$> fetch_tensors in
          if negb (ok st) then Some (st, fetch_tensors, s)
          else Some (OK, fetch_tensors, s)
      end
  end.

End Run.

(** ** The public operations of a session *)

Section Operations.

Context `{Collaborators}.

(** A call of one of the public operations, with its arguments and with
    what the environment does during the call. *)
Inductive Operation :=
| CallCreate (graph : GraphDef)
| CallExtend (graph : GraphDef)
| CallRun (run_options : RunOptions) (inputs : NamedTensorList)
          (output_names target_nodes : list string)
          (outputs : option (list Tensor)) (env : StepEnv)
| CallPRunSetup (input_names output_names target_nodes : list string)
| CallPRun (fate : ExecutorsFate) (handle : string)
           (inputs : NamedTensorList) (output_names : list string)
           (outputs : list Tensor)
| CallMakeCallable (callable_options : CallableOptions)
| CallRunCallable (handle : Z) (feed_tensors : list Tensor)
                  (fetch_tensors : option (list Tensor))
                  (threadpool_options : ThreadPoolOptions) (env : StepEnv)
| CallReleaseCallable (handle : Z)
| CallListDevices
| CallReset (containers : list string)
| CallClose.

(** The status and the next state of a call; [None]: the call does not
    return. *)
Definition call (s : DirectSession) (op : Operation)
    : option (Status * DirectSession) :=
  match op with
  | CallCreate graph => Some (Create s graph)
  | CallExtend graph => Some (Extend s graph)
  | CallRun run_options inputs output_names target_nodes outputs env =>
      '(st, _, s) ← Run s run_options inputs output_names target_nodes
                        outputs env;
      Some (st, s)
  | CallPRunSetup input_names output_names target_nodes =>
      let '(st, _, s) := PRunSetup s input_names output_names target_nodes in
      Some (st, s)
  | CallPRun fate handle inputs output_names outputs =>
      '(st, _, s) ← PRun s fate handle inputs output_names outputs;
      Some (st, s)
  | CallMakeCallable callable_options =>
      let '(st, _, s) := MakeCallable s callable_options in Some (st, s)
  | CallRunCallable handle feed_tensors fetch_tensors threadpool_options env =>
      '(st, _, s) ← RunCallable s handle feed_tensors fetch_tensors
                                threadpool_options env;
      Some (st, s)
  | CallReleaseCallable handle => Some (ReleaseCallable s handle)
  | CallListDevices => Some ((ListDevices s).1, s)
  | CallReset containers => Some (Reset s containers)
  | CallClose => Some (Close s)
  end.

(** The session after a sequence of calls, each of which returns. *)
Inductive calls : DirectSession → list Operation → DirectSession → Prop :=
| calls_nil s : calls s [] s
| calls_cons s op st s' ops s'' :
    call s op = Some (st, s') → calls s' ops s'' → calls s (op :: ops) s''.

End Operations.


(** The latches of a session: the error of the constructor, and the two
    flags that are set once. *)
Definition latches `{Collaborators} (s : DirectSession)
    : Status * bool * bool * bool * option GraphExecutionState :=
  (init_error_ s, graph_created_ s, closed_ s,
   is_cancelled (cancellation_manager_ s), execution_state_ s).

(** A session on which [Close] has been called. *)
Definition is_closed `{Collaborators} (s : DirectSession) : Prop :=
  closed_ s = true ∧ is_cancelled (cancellation_manager_ s) = true.

(** The execution state is there only once a graph has been created. *)
Definition graph_state_ok `{Collaborators} (s : DirectSession) : Prop :=
  is_Some (execution_state_ s) → graph_created_ s = true.

(** What a call may do to the latches: the constructor's error stays, the
    flags are never cleared, and the execution state stays tied to the
    creation flag. *)
Definition latches_grow `{Collaborators} (s s' : DirectSession) : Prop :=
  init_error_ s' = init_error_ s ∧
  (graph_created_ s = true → graph_created_ s' = true) ∧
  (closed_ s = true → closed_ s' = true) ∧
  (is_cancelled (cancellation_manager_ s) = true →
   is_cancelled (cancellation_manager_ s') = true) ∧
  (graph_state_ok s → graph_state_ok s').

(** The graph with no nodes. *)
Definition empty_graph : Graph := {| nodes := [] |}.


(** The entry of a step is clear: no debugger state has to be created or
    its creation succeeds, and the collective graph key of the options, if
    given, is that of the executors. *)
Definition step_entry_clear `{Collaborators} (run_options : RunOptions)
    (ek : ExecutorsAndKeys) (env : StepEnv) : Prop :=
  (debug_tensor_watch_opts (debug_options run_options) = [] ∨
   debugger_state_status env = OK) ∧
  (ek_collective_graph_key ek = 0 ∨ collective_graph_key run_options = 0 ∨
   collective_graph_key run_options = ek_collective_graph_key ek).

(** The timeout a step waits with, lines 1005-1007. *)
Definition effective_timeout `{Collaborators} (s : DirectSession)
    (run_options : RunOptions) : Z :=
  if 0 <? timeout_in_ms run_options then timeout_in_ms run_options
  else operation_timeout_in_ms_ s.

(** The thread-pool index as the specification words it: "an in-range
    index into the session's thread-pool vector". *)
Definition in_range_index_spec `{Collaborators} (s : DirectSession)
    (run_options : RunOptions) : bool :=
  (0 <=? inter_op_thread_pool run_options) &&
  (inter_op_thread_pool run_options <? Z.of_nat (length (thread_pools_ s))).

(** The pool selection as the specification words it: "the external pool
    if supplied, else the pool at that index, else pool 0 (or inline
    caller-thread execution when only one partition is run in the caller
    thread)". *)
Definition select_pool_spec `{Collaborators} (s : DirectSession)
    (run_options : RunOptions) (threadpool_options : ThreadPoolOptions)
    (num_items : nat) : option ThreadPool :=
  if run_in_caller_thread_ s && (num_items <=? 1)%nat then None
  else match inter_op_threadpool threadpool_options with
       | Some external => Some external
       | None =>
           match (if 0 <=? inter_op_thread_pool run_options
                  then mjoin (thread_pools_ s
                                !! Z.to_nat (inter_op_thread_pool run_options))
                  else None) with
           | Some p => Some p
           | None => mjoin (thread_pools_ s !! 0%nat)
           end
       end.

(** ** A worked graph: [a + b = s], [s * two = t] *)

(** An instance of [ParseTensorName] for the worked scenarios: "name:digits"
    is output [digits] of [name], "^name" the control slot, and a bare
    name is output 0. *)
Definition is_digit (c : ascii) : bool :=
  (48 <=? Z.of_N (N_of_ascii c)) && (Z.of_N (N_of_ascii c) <=? 57).

Fixpoint skip_digits (rev_chars : list ascii) (index mul : Z)
    : list ascii * Z * Z :=
  match rev_chars with
  | c :: (_ :: _) as rest =>
      if is_digit c
      then skip_digits rest (index + (Z.of_N (N_of_ascii c) - 48) * mul)
                       (mul * 10)
      else (rev_chars, index, mul)
  | _ => (rev_chars, index, mul)
  end.

Definition parse_tensor_name (name : string) : TensorId :=
  match skip_digits (rev (list_ascii_of_string name)) 0 1 with
  | (":"%char :: (_ :: _) as base, index, mul) =>
      if 1 <? mul then (string_of_list_ascii (rev base), index)
      else (name, 0)
  | _ =>
      match name with
      | String "^"%char rest => (rest, -1)
      | _ => (name, 0)
      end
  end.

(** Node ids: 0 = a, 1 = b, 2 = s, 3 = two, 4 = t. *)
Definition sum_graph : Graph :=
  {| nodes :=
       [ Some {| name := "a"; in_edges := [] |};
         Some {| name := "b"; in_edges := [] |};
         Some {| name := "s";
                 in_edges := [ {| src := 0; src_output := 0 |};
                               {| src := 1; src_output := 0 |} ] |};
         Some {| name := "two"; in_edges := [] |};
         Some {| name := "t";
                 in_edges := [ {| src := 2; src_output := 0 |};
                               {| src := 3; src_output := 0 |} ] |} ] |}.

Definition sum_name_to_node : gmap string nat :=
  <["a" := 0%nat]> (<["b" := 1%nat]> (<["s" := 2%nat]> (<["t" := 4%nat]> ∅))).

(** The pending-feed map right after [PRunSetup({"a:0","b:0"}, ...)]. *)
Definition sum_pending_inputs : gmap string bool :=
  <["a:0" := false]> (<["b:0" := false]> ∅).


(** ** A small world for the worked scenarios

    Tensors are integers; the graph execution state is the graph itself;
    there is one CPU device.  The rendezvous together with the executors of
    the partial run computes [s = a + b] and [t = s * 2] from the feeds
    sent so far. *)

Definition hex_digit (n : N) : ascii :=
  nth (N.to_nat n) (list_ascii_of_string "0123456789abcdef") "0"%char.

Fixpoint hex_digits (width : nat) (n : N) (acc : string) : string :=
  match width with
  | O => acc
  | S width' =>
      hex_digits width' (n / 16)%N (String (hex_digit (n mod 16)%N) acc)
  end.

(** Sixteen lower-case hexadecimal digits. *)
Definition hex16 (n : N) : string := hex_digits 16 n "".

Fixpoint split_on (sep : ascii) (text : string) : list string :=
  match text with
  | EmptyString => [""]
  | String c rest =>
      if Ascii.eqb c sep then "" :: split_on sep rest
      else match split_on sep rest with
           | piece :: pieces => String c piece :: pieces
           | [] => [String c ""]
           end
  end.

(** The tensor name inside a rendezvous key. *)
Definition key_tensor_name (key : string) : string :=
  nth 3 (split_on ";"%char key) "".

Record toy_rendezvous := {
  sent : gmap string Z;       (* the feeds received so far, by name *)
  aborted : Status
}.

Definition toy_Send (r : toy_rendezvous) (key : string) (t : Z)
    (is_dead : bool) : Status * toy_rendezvous :=
  if negb (ok (aborted r)) then (aborted r, r)
  else (OK, {| sent := <[key_tensor_name key := t]> (sent r);
               aborted := aborted r |}).

Definition toy_Recv (r : toy_rendezvous) (key : string) (timeout : Z)
    : Status * Z * bool * toy_rendezvous :=
  if negb (ok (aborted r)) then (aborted r, 0, false, r)
  else
    match sent r !! "a:0", sent r !! "b:0" with
    | Some a, Some b =>
        if String.eqb (key_tensor_name key) "s:0" then (OK, a + b, false, r)
        else if String.eqb (key_tensor_name key) "t:0"
        then (OK, (a + b) * 2, false, r)
        else (NOT_FOUND, 0, false, r)
    | _, _ => (DEADLINE_EXCEEDED, 0, false, r)
    end.

Definition toy_StartAbort (st : Status) (r : toy_rendezvous)
    : toy_rendezvous :=
  {| sent := sent r; aborted := Update (aborted r) st |}.

Definition graph_has_node (g : Graph) (node_name : string) : bool :=
  existsb (λ slot, match slot with
                   | Some n => String.eqb (name n) node_name
                   | None => false
                   end) (nodes g).

Definition toy_BuildGraph (state : option Graph) (options : CallableOptions)
    (use_function_convention : bool) : Status * ClientGraph :=
  match state with
  | None =>
      (FAILED_PRECONDITION,
       {| feed_types := []; fetch_types := [];
          client_collective_graph_key := 0; full_graph := {| nodes := [] |} |})
  | Some g =>
      (if forallb (λ n, graph_has_node g (parse_tensor_name n).1)
                  (feed options ++ fetch options ++ target options)%list
       then OK else NOT_FOUND,
       {| feed_types := replicate (length (feed options)) DT_INT32;
          fetch_types := replicate (length (fetch options)) DT_INT32;
          client_collective_graph_key := 0; full_graph := g |})
  end.

Definition toy_world : Collaborators :=
  {| Tensor := Z;
     empty_tensor := 0;
     dtype := λ _, DT_INT32;
     resource_handle := λ _, {| container := ""; handle_name := "" |};
     ParseTensorName := parse_tensor_name;
     FpToString := hex16;
     SummarizeDebugTensorWatches := λ opts, StrJoin opts "|";
     LogMemory_IsEnabled := false;
     SessionState := unit;
     TensorStore := unit;
     new_TensorStore := tt;
     kTensorHandleResourceTypeName := "TensorHandle";
     GetTensor := λ _ _, (NOT_FOUND, 0);
     SaveTensors := λ _ _ state, (OK, state);
     TensorStore_empty := λ _, true;
     SetArgs := λ types args,
       if bool_decide (length types = length args) then OK
       else INVALID_ARGUMENT;
     ConsumeRetvals := λ rets,
       if forallb (λ r : option Z, bool_decide (is_Some r)) rets
       then (OK, omap id rets) else (INTERNAL, []);
     Rendezvous := toy_rendezvous;
     new_IntraProcessRendezvous := {| sent := ∅; aborted := OK |};
     ParseKey := λ _, OK;
     Send := toy_Send;
     Recv := toy_Recv;
     StartAbort := toy_StartAbort;
     GraphDef := Graph;
     node_size := λ g, Z.of_nat (length (nodes g));
     FunctionLibraryDefinition := unit;
     new_FunctionLibraryDefinition := λ _, tt;
     AddLibrary := λ lib _, (OK, lib);
     GraphExecutionState := Graph;
     MakeForBaseGraph := λ g, (OK, g);
     ExtendExecutionState :=
       λ state g, (OK, {| nodes := (nodes state ++ nodes g)%list |});
     BuildGraph := toy_BuildGraph;
     PartitionGraphs :=
       λ _, (OK, ["/job:localhost/replica:0/task:0/device:CPU:0"]);
     NewPartitionExecutor :=
       λ partition_name _,
         (OK, {| item_device := partition_name;
                 tensorflow_device_thread_pool := None |});
     DeviceMgr := unit;
     ClearContainers := λ _ mgr, mgr |}.

Definition toy_cpu : DeviceAttributes :=
  {| device_name := "/job:localhost/replica:0/task:0/device:CPU:0";
     incarnation := 1 |}.

(** A session of the small world as its constructor leaves it, with
    [state] as the graph (present after [Create]). *)
Definition toy_session_with (caller_thread : bool)
    (pools : list (option ThreadPool)) (state : option Graph)
    : @DirectSession toy_world :=
  {| init_error_ := OK;
     operation_timeout_in_ms_ := 0;
     run_in_caller_thread_ := caller_thread;
     run_cost_model_executor_ := false;
     thread_pools_ := pools;
     use_per_session_threads_ := false;
     session_inter_op_thread_pool_size_ := 0;
     build_cost_model_ := 0;
     build_cost_model_after_ := 0;
     devices_ := [toy_cpu];
     device_mgr_ := tt : @DeviceMgr toy_world;
     factory_ := true;
     registered_ := true;
     graph_created_ := bool_decide (is_Some state);
     flib_def_ := (λ _, tt : @FunctionLibraryDefinition toy_world) <$> state;
     execution_state_ := state : option (@GraphExecutionState toy_world);
     executors_ := ∅;
     heap_ := [];
     functions_ := 0%nat;
     partial_runs_ := ∅;
     callables_ := ∅;
     next_callable_handle_ := 0;
     cancellation_manager_ := {| is_cancelled := false |};
     closed_ := false;
     step_id_counter_ := 1;
     handle_name_counter_ := 0;
     session_state_ := tt : @SessionState toy_world;
     collective_graph_key_ := 0 |}.

Definition toy_session (state : option Graph) : @DirectSession toy_world :=
  toy_session_with false [Some 0%nat] state.

(** Executors that come to an end at once and report OK. *)
Definition prompt_fate : ExecutorsFate :=
  {| finish_after_us := Some 0; drains := true; cancelled_meanwhile := false;
     barrier_status := OK |}.

(** A graph with the nodes [z], [a/b], [c], [a] and [b/c]. *)
Definition scoped_graph : Graph :=
  {| nodes := (λ n, Some {| name := n; in_edges := [] |}) <$>
              ["z"; "a/b"; "c"; "a"; "b/c"] |}.


(** The session of the small world after [Create] of the sum graph and
    [PRunSetup({"a:0","b:0"}, {"s:0","t:0"}, {})], and the handle of that
    partial run. *)
Definition sum_setup : Status * string * @DirectSession toy_world :=
  @PRunSetup toy_world (toy_session (Some sum_graph))
             ["a:0"; "b:0"] ["s:0"; "t:0"] [].

Definition sum_session : @DirectSession toy_world := sum_setup.2.

Definition sum_handle : string := "a:0,b:0->s:0,t:0//1/;0".

Definition partial_args : RunStateArgs :=
  {| is_partial_run := true; handle := ""; rsa_graph := None;
     rsa_debug_options := {| debug_tensor_watch_opts := []; global_step := 0 |};
     rsa_collective_graph_key := 0 |}.

Definition sum_options : CallableOptions :=
  {| feed := ["a:0"; "b:0"]; fetch := ["s:0"; "t:0"]; target := [];
     run_options := RunOptions_default |}.


(** The session after [PRun(h, {{"a:0", 3}}, {})]. *)
Definition sum_session_fed_a : @DirectSession toy_world :=
  match @PRun toy_world sum_session prompt_fate sum_handle [("a:0", 3)] [] []
  with
  | Some (_, _, s) => s
  | None => sum_session
  end.

(** A rendezvous on which every receive fails: the executors of the
    partial run have been aborted. *)
Definition sum_session_aborted : @DirectSession toy_world :=
  @set_partial_runs_ toy_world
    ((λ run_state : @RunState toy_world,
        @set_rendez toy_world
          (toy_StartAbort ABORTED (@rendez toy_world run_state)) run_state)
     <$> @partial_runs_ toy_world sum_session)
    sum_session.

(** The session after [PRun(h, {{"a:0", 3}, {"b:0", 4}}, {})] whose
    executors were then aborted: both feeds are in, no fetch was made, and
    every receive fails. *)
Definition sum_session_fed_aborted : @DirectSession toy_world :=
  match @PRun toy_world sum_session prompt_fate sum_handle
          [("a:0", 3); ("b:0", 4)] [] []
  with
  | Some (_, _, s) =>
      @set_partial_runs_ toy_world
        ((λ run_state : @RunState toy_world,
            @set_rendez toy_world
              (toy_StartAbort ABORTED (@rendez toy_world run_state))
              run_state)
         <$> @partial_runs_ toy_world s)
        s
  | None => sum_session
  end.

(** ** The small world with a dead fetch

    As the small world, but [t] is on a branch of the graph that is not
    taken: the rendezvous delivers [t:0] as a dead tensor. *)

Definition dead_Recv (r : toy_rendezvous) (key : string) (timeout : Z)
    : Status * Z * bool * toy_rendezvous :=
  if negb (ok (aborted r)) then (aborted r, 0, false, r)
  else
    match sent r !! "a:0", sent r !! "b:0" with
    | Some a, Some b =>
        if String.eqb (key_tensor_name key) "s:0" then (OK, a + b, false, r)
        else if String.eqb (key_tensor_name key) "t:0"
        then (OK, 0, true, r)
        else (NOT_FOUND, 0, false, r)
    | _, _ => (DEADLINE_EXCEEDED, 0, false, r)
    end.

Definition dead_world : Collaborators :=
  {| Tensor := Z;
     empty_tensor := 0;
     dtype := λ _, DT_INT32;
     resource_handle := λ _, {| container := ""; handle_name := "" |};
     ParseTensorName := parse_tensor_name;
     FpToString := hex16;
     SummarizeDebugTensorWatches := λ opts, StrJoin opts "|";
     LogMemory_IsEnabled := false;
     SessionState := unit;
     TensorStore := unit;
     new_TensorStore := tt;
     kTensorHandleResourceTypeName := "TensorHandle";
     GetTensor := λ _ _, (NOT_FOUND, 0);
     SaveTensors := λ _ _ state, (OK, state);
     TensorStore_empty := λ _, true;
     SetArgs := λ types args,
       if bool_decide (length types = length args) then OK
       else INVALID_ARGUMENT;
     ConsumeRetvals := λ rets,
       if forallb (λ r : option Z, bool_decide (is_Some r)) rets
       then (OK, omap id rets) else (INTERNAL, []);
     Rendezvous := toy_rendezvous;
     new_IntraProcessRendezvous := {| sent := ∅; aborted := OK |};
     ParseKey := λ _, OK;
     Send := toy_Send;
     Recv := dead_Recv;
     StartAbort := toy_StartAbort;
     GraphDef := Graph;
     node_size := λ g, Z.of_nat (length (nodes g));
     FunctionLibraryDefinition := unit;
     new_FunctionLibraryDefinition := λ _, tt;
     AddLibrary := λ lib _, (OK, lib);
     GraphExecutionState := Graph;
     MakeForBaseGraph := λ g, (OK, g);
     ExtendExecutionState :=
       λ state g, (OK, {| nodes := (nodes state ++ nodes g)%list |});
     BuildGraph := toy_BuildGraph;
     PartitionGraphs :=
       λ _, (OK, ["/job:localhost/replica:0/task:0/device:CPU:0"]);
     NewPartitionExecutor :=
       λ partition_name _,
         (OK, {| item_device := partition_name;
                 tensorflow_device_thread_pool := None |});
     DeviceMgr := unit;
     ClearContainers := λ _ mgr, mgr |}.

(** A session of that world after [Create] of [state]. *)
Definition dead_session (state : Graph) : @DirectSession dead_world :=
  {| init_error_ := OK;
     operation_timeout_in_ms_ := 0;
     run_in_caller_thread_ := false;
     run_cost_model_executor_ := false;
     thread_pools_ := [Some 0%nat];
     use_per_session_threads_ := false;
     session_inter_op_thread_pool_size_ := 0;
     build_cost_model_ := 0;
     build_cost_model_after_ := 0;
     devices_ := [toy_cpu];
     device_mgr_ := tt : @DeviceMgr dead_world;
     factory_ := true;
     registered_ := true;
     graph_created_ := true;
     flib_def_ := Some (tt : @FunctionLibraryDefinition dead_world);
     execution_state_ := Some state : option (@GraphExecutionState dead_world);
     executors_ := ∅;
     heap_ := [];
     functions_ := 0%nat;
     partial_runs_ := ∅;
     callables_ := ∅;
     next_callable_handle_ := 0;
     cancellation_manager_ := {| is_cancelled := false |};
     closed_ := false;
     step_id_counter_ := 1;
     handle_name_counter_ := 0;
     session_state_ := tt : @SessionState dead_world;
     collective_graph_key_ := 0 |}.

(** That session after [PRunSetup({"a:0","b:0"}, {"s:0","t:0"}, {})]; the
    handle is [sum_handle]. *)
Definition dead_sum_session : @DirectSession dead_world :=
  (@PRunSetup dead_world (dead_session sum_graph)
              ["a:0"; "b:0"] ["s:0"; "t:0"] []).2.


(** The first, the colliding and the permuted request of the key-collision
    scenario, run in this order on a fresh session over [scoped_graph]. *)
Definition run_args : RunStateArgs :=
  new_RunStateArgs {| debug_tensor_watch_opts := []; global_step := 0 |}.

Definition collision_first :=
  @GetOrCreateExecutors toy_world (toy_session (Some scoped_graph))
                        [] ["z"; "a/b"] ["c"] run_args.

Definition collision_second :=
  @GetOrCreateExecutors toy_world collision_first.2
                        [] ["z"; "a"] ["b/c"] run_args.

Definition collision_permuted :=
  @GetOrCreateExecutors toy_world collision_second.2
                        [] ["a"; "z"] ["b/c"] run_args.


(** ** The identity graph: [y = identity(x)] *)

(** Node ids: 0 = x, 1 = y. *)
Definition identity_graph : Graph :=
  {| nodes :=
       [ Some {| name := "x"; in_edges := [] |};
         Some {| name := "y";
                 in_edges := [ {| src := 0; src_output := 0 |} ] |} ] |}.

(** A step on the identity graph fed with [x]: the executors come to an end
    at once and leave [x] in each of the [fetches] return values. *)
Definition identity_step (x : Z) (fetches : nat) : @StepEnv toy_world :=
  {| step_fate := prompt_fate;
     step_retvals := replicate fetches (Some x : option (@Tensor toy_world));
     step_tensor_store := tt : @TensorStore toy_world;
     debugger_state_status := OK;
     profiler_status := OK;
     cost_graph_status := OK |}.


(** ** Sessions with prepared executors *)

Definition cpu_item : PerPartitionExecutorsAndLib :=
  {| item_device := "/job:localhost/replica:0/task:0/device:CPU:0";
     tensorflow_device_thread_pool := None |}.

(** The executors of the request (feed x:0; fetch y:0) on the identity
    graph, cut into [partitions] partitions. *)
Definition identity_executors (partitions : nat) : ExecutorsAndKeys :=
  {| step_count := 0; graph := None; name_to_node := ∅;
     items := replicate partitions cpu_item;
     input_name_to_index := name_to_index ["x:0"];
     input_name_to_rendezvous_key := ∅;
     output_name_to_index := name_to_index ["y:0"];
     output_name_to_rendezvous_key := ∅;
     input_types := [DT_INT32]; output_types := [DT_INT32];
     callable_options :=
       {| feed := ["x:0"]; fetch := ["y:0"]; target := [];
          run_options := RunOptions_default |};
     ek_collective_graph_key := 0 |}.

(** A session with the thread pools 10 and 11 that has prepared these
    executors, at address 0. *)
Definition prepared_session (caller_thread : bool) (partitions : nat)
    : @DirectSession toy_world :=
  @set_heap_ toy_world [identity_executors partitions]
    (toy_session_with caller_thread [Some 10%nat; Some 11%nat]
       (Some identity_graph)).

(** The same, when the second thread pool could not be made. *)
Definition null_pool_session (partitions : nat) : @DirectSession toy_world :=
  @set_heap_ toy_world [identity_executors partitions]
    (toy_session_with false [Some 10%nat; None] (Some identity_graph)).

(** Executors that do not come to an end on their own, and do once the
    step is cancelled. *)
Definition stuck_fate : ExecutorsFate :=
  {| finish_after_us := None; drains := true; cancelled_meanwhile := false;
     barrier_status := OK |}.

(** Executors that are stuck until a Close of the session in another
    thread cancels them. *)
Definition interrupted_fate : ExecutorsFate :=
  {| finish_after_us := None; drains := true; cancelled_meanwhile := true;
     barrier_status := CANCELLED |}.

(** A step whose executors are stuck, with [profiler] as the status of
    [ProfilerSession::CollectData]. *)
Definition stuck_step (profiler : Status) : @StepEnv toy_world :=
  {| step_fate := stuck_fate;
     step_retvals := [];
     step_tensor_store := tt : @TensorStore toy_world;
     debugger_state_status := OK;
     profiler_status := profiler;
     cost_graph_status := OK |}.

(** A step whose executors are stuck until a Close of the session in
    another thread cancels them. *)
Definition interrupted_step : @StepEnv toy_world :=
  {| step_fate := interrupted_fate;
     step_retvals := [];
     step_tensor_store := tt : @TensorStore toy_world;
     debugger_state_status := OK;
     profiler_status := OK;
     cost_graph_status := OK |}.

Definition with_timeout (timeout trace : Z) : RunOptions :=
  {| trace_level := trace; timeout_in_ms := timeout;
     inter_op_thread_pool := 0; output_partition_graphs := false;
     debug_options := {| debug_tensor_watch_opts := []; global_step := 0 |};
     report_tensor_allocations_upon_oom := false;
     collective_graph_key := 0; use_run_handler_pool := false |}.

Definition with_inter_op_thread_pool (index : Z) : RunOptions :=
  {| trace_level := 0; timeout_in_ms := 0;
     inter_op_thread_pool := index; output_partition_graphs := false;
     debug_options := {| debug_tensor_watch_opts := []; global_step := 0 |};
     report_tensor_allocations_upon_oom := false;
     collective_graph_key := 0; use_run_handler_pool := false |}.

Definition external_pool (pool : ThreadPool) : ThreadPoolOptions :=
  {| inter_op_threadpool := Some pool; intra_op_threadpool := None |}.


(** ** Sessions for the life-cycle scenarios *)

(** A fresh session of the small world after [Create] of the sum graph. *)
Definition created_session : @DirectSession toy_world :=
  (@Create toy_world (toy_session None) sum_graph).2.

(** The session with the sum graph after [Close]. *)
Definition closed_session : @DirectSession toy_world :=
  (@Close toy_world (toy_session (Some sum_graph))).2.

(** A fresh session, closed before any graph is created. *)
Definition closed_fresh_session : @DirectSession toy_world :=
  (@Close toy_world (toy_session None)).2.


(** * The rest of direct_session.cc and local_device.cc *)

(** The tensor that Run hands over for a feed. *)
Definition feed_value `{Collaborators} (s : DirectSession) (t : Tensor)
    : Tensor :=
  if bool_decide (dtype t = DT_RESOURCE)
  then (ResourceHandleToInputTensor s t).2 else t.


(** ** The CPUs of a session group *)

(** [AllocateVisibleCpusForSession], lines 162-176.  The sessions'
    lists are appended to [visible_cpus_per_session]; [None]: LOG(FATAL).
    The number of CPUs is one that an [int] holds. *)
Definition AllocateVisibleCpusForSession (visible_cpus : list Z)
    (session_num : Z) (visible_cpus_per_session : list (list Z))
    : option (list (list Z)) :=
  if 0 <? session_num then
    let cpus_count_per_session :=
      Z.of_nat (length visible_cpus) / session_num in
    Some (foldl (λ per_session i,
                   let start_idx := i * cpus_count_per_session in
                   let tmp :=
                     take (Z.to_nat cpus_count_per_session)
                          (drop (Z.to_nat start_idx) visible_cpus) in
                   (per_session ++ [tmp])%list)
                visible_cpus_per_session
                (Z.of_nat <$> seq 0 (Z.to_nat session_num)))
  else None.


(** * local_device.cc *)

Module LocalDevice.

(** What [LocalDevice] reads of [SessionOptions]. *)
Record SessionOptions := {
  intra_op_parallelism_threads : Z;   (* config.intra_op_parallelism_threads() *)
  disable_thread_spinning : bool;     (* config.experimental() *)
  use_numa_affinity : bool            (* config.experimental() *)
}.

(** [DeviceGlobalThreadPoolOptions] (device.h). *)
Record DeviceGlobalThreadPoolOptions := {
  global_threadpool_num : Z;
  device_threadpool_index : Z
}.

(** [LocalDevice::EigenThreadPoolInfo], lines 58-112: the thread pool of
    the Eigen device, what it was created with. *)
Record EigenThreadPoolInfo := {
  num_threads : Z;            (* eigen_worker_threads_.num_threads *)
  pool_numa_node : Z;         (* thread_opts.numa_node *)
  low_latency_hint : bool;    (* !disable_thread_spinning *)
  has_eigen_allocator : bool  (* eigen_allocator_ != nullptr *)
}.

(** The static members of [LocalDevice], lines 53-56, with the
    [EigenThreadPoolInfo] objects allocated so far; a slot of
    [global_tp_info_] holds the address of one of them, or nullptr. *)
Record Statics := {
  use_global_threadpool_ : bool;
  global_tp_info_ : list (option nat);
  infos : list EigenThreadPoolInfo
}.

(** What [Init] leaves in the device: [tp_info], and whether the device
    owns it ([owned_tp_info_]). *)
Record Device := {
  tp_info : nat;
  owns_tp_info : bool
}.

(** The environment of the process, read once: TF_OVERRIDE_GLOBAL_THREADPOOL
    (lines 36-48), [NumIntraOpThreadsFromEnvironment()] (line 80),
    [port::MaxParallelism], [port::kNUMANoAffinity] and
    [port::NUMANumNodes()]; and whether the DCHECKs are compiled in. *)
Class Environment := {
  OverrideGlobalThreadPoolFromEnvironment : bool;
  env_num_threads : Z;
  MaxParallelism : Z → Z;
  kNUMANoAffinity : Z;
  NUMANumNodes : Z;
  DCHECK_IS_ON : bool
}.

Section Init.

Context `{Environment}.

(** The constructor of [EigenThreadPoolInfo], lines 73-102. *)
Definition new_EigenThreadPoolInfo (options : SessionOptions) (numa_node : Z)
    (allocator : bool) : EigenThreadPoolInfo :=
  (* Use session setting if specified. *)
  let threads := intra_op_parallelism_threads options in
  let threads :=
    if threads =? 0 then
      (* If no session setting, use environment setting. *)
      let threads := env_num_threads in
      (* If no session setting or environment, compute a reasonable
         default. *)
      if threads =? 0 then MaxParallelism numa_node else threads
    else threads in
  {| num_threads := threads; pool_numa_node := numa_node;
     low_latency_hint := negb (disable_thread_spinning options);
     has_eigen_allocator := allocator |}.

Definition set_global_tp_info_ (v : list (option nat)) (st : Statics)
    : Statics :=
  {| use_global_threadpool_ := use_global_threadpool_ st;
     global_tp_info_ := v; infos := infos st |}.

(** [new LocalDevice::EigenThreadPoolInfo(...)]: the new object and its
    address. *)
Definition allocate (info : EigenThreadPoolInfo) (st : Statics)
    : nat * Statics :=
  (length (infos st),
   {| use_global_threadpool_ := use_global_threadpool_ st;
      global_tp_info_ := global_tp_info_ st;
      infos := (infos st ++ [info])%list |}).

(** [if (!global_tp_info_[i]) global_tp_info_[i] = new ...;
     tp_info = global_tp_info_[i];].  [None]: [i] is no index of the
    vector. *)
Definition get_or_create (i : Z) (info : EigenThreadPoolInfo) (st : Statics)
    : option (nat * Statics) :=
  if (i <? 0) || (Z.of_nat (length (global_tp_info_ st)) <=? i) then None
  else
    match global_tp_info_ st !! Z.to_nat i with
    | Some (Some p) => Some (p, st)
    | _ =>
        let '(p, st) := allocate info st in
        Some (p, set_global_tp_info_
                   (<[Z.to_nat i := Some p]> (global_tp_info_ st)) st)
    end.

(** [LocalDevice::Init], lines 128-185.  [numa_node] is
    [attributes.locality().numa_node()].  [None]: the call does not
    return a device: the DCHECK of line 145 fails, the loop of lines
    148-150 does not end, an index is out of the vector, or [tp_info] is
    null where it is dereferenced. *)
Definition Init (options : SessionOptions) (numa_node : Z)
    (opt : DeviceGlobalThreadPoolOptions) (st : Statics)
    : option (Device * Statics) :=
  let st :=
    if OverrideGlobalThreadPoolFromEnvironment
    then {| use_global_threadpool_ := false;
            global_tp_info_ := global_tp_info_ st; infos := infos st |}
    else st in
  if use_global_threadpool_ st then
    if use_numa_affinity options then
      (* DCHECK_LT(numa_node, num_numa_nodes) *)
      if DCHECK_IS_ON && (NUMANumNodes <=? numa_node) then None else
      (* while (numa_node >= global_tp_info_.size()): [numa_node] is
         compared as an unsigned number *)
      if numa_node <? 0 then None else
      let st :=
        set_global_tp_info_
          (global_tp_info_ st ++
           replicate (Z.to_nat numa_node + 1 - length (global_tp_info_ st))
                     None)%list st in
      '(p, st) ← get_or_create numa_node
                   (new_EigenThreadPoolInfo options numa_node true) st;
      Some ({| tp_info := p; owns_tp_info := false |}, st)
    else if 1 <? global_threadpool_num opt then
      let st :=
        set_global_tp_info_
          (global_tp_info_ st ++
           replicate (Z.to_nat (global_threadpool_num opt)) None)%list st in
      '(p, st) ← get_or_create (device_threadpool_index opt)
                   (new_EigenThreadPoolInfo options kNUMANoAffinity false) st;
      Some ({| tp_info := p; owns_tp_info := false |}, st)
    else
      let st :=
        match global_tp_info_ st with
        | [] =>
            let '(p, st) :=
              allocate (new_EigenThreadPoolInfo options kNUMANoAffinity false)
                       st in
            set_global_tp_info_ [Some p] st
        | _ => st
        end in
      match global_tp_info_ st !! 0%nat with
      | Some (Some p) => Some ({| tp_info := p; owns_tp_info := false |}, st)
      | _ => None
      end
  else
    (* Each LocalDevice owns a separate ThreadPoolDevice for numerical
       computations. *)
    let '(p, st) :=
      allocate (new_EigenThreadPoolInfo options kNUMANoAffinity false) st in
    Some ({| tp_info := p; owns_tp_info := true |}, st).

(** The global pools point into the objects allocated so far. *)
Definition statics_ok (st : Statics) : Prop :=
  ∀ i p, global_tp_info_ st !! i = Some (Some p) →
         (p < length (infos st))%nat.

End Init.

(** What a call may do to the pools: the objects allocated before are
    still there, the global vector does not shrink, and every slot that
    held a pool still holds that pool. *)
Definition keeps_pools (st st' : Statics) : Prop :=
  infos st `prefix_of` infos st' ∧
  (length (global_tp_info_ st) ≤ length (global_tp_info_ st'))%nat ∧
  (∀ i p, global_tp_info_ st !! i = Some (Some p) →
          global_tp_info_ st' !! i = Some (Some p)).

End LocalDevice.

(** * The thread pools of a session: lines 95-150 and 531-598 *)

Module Pools.

(** [ThreadPoolOptionProto] (config.proto). *)
Record ThreadPoolOptionProto := {
  num_threads : Z;
  global_name : string
}.

(** [ExecutorPolicy] (config.proto). *)
Inductive ExecutorPolicy :=
| USE_NORMAL_EXECUTOR | USE_COST_MODEL_EXECUTOR | USE_INLINE_EXECUTOR.

#[global] Instance ExecutorPolicy_eq_dec : EqDecision ExecutorPolicy.
Proof. solve_decision. Defined.

(** What the constructor reads of [SessionOptions]. *)
Record SessionOptions := {
  session_inter_op_thread_pool : list ThreadPoolOptionProto;
  use_per_session_threads : bool;
  inter_op_parallelism_threads : Z;
  executor_policy : ExecutorPolicy;
  operation_timeout_in_ms : Z;
  disable_thread_spinning : bool
}.

(** A [thread::ThreadPool], what it was created with. *)
Record ThreadPoolInfo := {
  pool_name : string;
  pool_num_threads : Z;
  low_latency_hint : bool
}.

(** The process: the thread pools created so far (a [thread::ThreadPool*]
    is an address in it), the static map of the named pools (lines
    117-119) and the static pool of [GlobalThreadPool] (lines 144-145). *)
Record Process := {
  pools : list ThreadPoolInfo;
  global_pool_map : gmap string (Z * option ThreadPool);
  global_thread_pool : option ThreadPool
}.

(** What the constructor decides. *)
Record Constructed := {
  init_error_ : Status;
  (* the pool, nullptr if it could not be made, and whether it is owned *)
  thread_pools_ : list (option ThreadPool * bool);
  run_in_caller_thread_ : bool;
  run_cost_model_executor_ : bool;
  operation_timeout_in_ms_ : Z
}.

(** process_util.cc: [NumInterOpThreadsFromSessionOptions], the pool that
    [NewThreadPoolFromSessionOptions] makes, and
    [NumInterOpThreadsFromEnvironment()], read once; and the environment
    variables USE_COST_MODEL_EXECUTOR, USE_INLINE_EXECUTOR and
    SET_SESSION_THREAD_POOL_AFFINITY as [ReadBoolFromEnvVar] reads them,
    [None] if the value cannot be read, which is fatal; and whether the
    program is compiled with TENSORFLOW_USE_NUMA. *)
Class Environment := {
  NumInterOpThreadsFromSessionOptions : SessionOptions → Z;
  NewThreadPoolFromSessionOptions_info : SessionOptions → ThreadPoolInfo;
  env_num_threads : Z;
  use_cost_model_executor_env : option bool;
  use_inline_executor_env : option bool;
  pin_threadpool_to_cpu_core_env : option bool;
  TENSORFLOW_USE_NUMA : bool
}.

Section Constructor.

Context `{Environment}.

(** [new thread::ThreadPool(...)]. *)
Definition new_ThreadPool (info : ThreadPoolInfo) (pr : Process)
    : ThreadPool * Process :=
  (length (pools pr),
   {| pools := (pools pr ++ [info])%list;
      global_pool_map := global_pool_map pr;
      global_thread_pool := global_thread_pool pr |}).

(** [NewThreadPoolFromThreadPoolOptions], lines 95-141.  [*pool] and
    [*owned] are nullptr and false when the caller passes them in, and
    stay so on an error. *)
Definition NewThreadPoolFromThreadPoolOptions (options : SessionOptions)
    (thread_pool_options : ThreadPoolOptionProto) (pool_number : Z)
    (pr : Process) : Status * option ThreadPool * bool * Process :=
  let threads :=
    if num_threads thread_pool_options =? 0
    then NumInterOpThreadsFromSessionOptions options
    else num_threads thread_pool_options in
  let info :=
    {| pool_name := StrCat ["Compute"; AlphaNum pool_number];
       pool_num_threads := threads;
       low_latency_hint := negb (disable_thread_spinning options) |} in
  let name := global_name thread_pool_options in
  if bool_decide (name = "") then
    (* Session-local threadpool. *)
    let '(p, pr) := new_ThreadPool info pr in
    (OK, Some p, true, pr)
  else
    (* Global, named threadpool. *)
    match global_pool_map pr !! name with
    | Some (configured, Some p) =>
        if negb (configured =? num_threads thread_pool_options)
        then (INVALID_ARGUMENT, None, false, pr)
        else (OK, Some p, false, pr)
    | _ =>
        let '(p, pr) := new_ThreadPool info pr in
        (OK, Some p, false,
         {| pools := pools pr;
            global_pool_map :=
              <[name := (num_threads thread_pool_options, Some p)]>
                (global_pool_map pr);
            global_thread_pool := global_thread_pool pr |})
    end.

(** [GlobalThreadPool], lines 143-147. *)
Definition GlobalThreadPool (options : SessionOptions) (pr : Process)
    : ThreadPool * Process :=
  match global_thread_pool pr with
  | Some p => (p, pr)
  | None =>
      let '(p, pr) :=
        new_ThreadPool (NewThreadPoolFromSessionOptions_info options) pr in
      (p, {| pools := pools pr; global_pool_map := global_pool_map pr;
             global_thread_pool := Some p |})
  end.

(** The loop of lines 549-556. *)
Fixpoint make_thread_pools (options : SessionOptions)
    (protos : list ThreadPoolOptionProto) (i : Z) (init_error : Status)
    (thread_pools : list (option ThreadPool * bool)) (pr : Process)
    : Status * list (option ThreadPool * bool) * Process :=
  match protos with
  | [] => (init_error, thread_pools, pr)
  | proto :: rest =>
      let '(st, pool, owned, pr) :=
        NewThreadPoolFromThreadPoolOptions options proto i pr in
      make_thread_pools options rest (i + 1) (Update init_error st)
                        (thread_pools ++ [(pool, owned)])%list pr
  end.

(** Lines 546-571 of the constructor: [init_error_], [thread_pools_] and
    [run_in_caller_thread_].  The second call of [GlobalThreadPool], line
    570, returns the static pool that the first one has set. *)
Definition new_thread_pools (options : SessionOptions) (pr : Process)
    : Status * list (option ThreadPool * bool) * bool * Process :=
  match session_inter_op_thread_pool options with
  | _ :: _ =>
      let '(init_error, thread_pools, pr) :=
        make_thread_pools options (session_inter_op_thread_pool options)
                          0 OK [] pr in
      (init_error, thread_pools, false, pr)
  | [] =>
      if use_per_session_threads options then
        let '(p, pr) :=
          new_ThreadPool (NewThreadPoolFromSessionOptions_info options) pr in
        (OK, [(Some p, true)], false, pr)
      else
        let '(p, pr) := GlobalThreadPool options pr in
        (* Run locally if environment value of TF_NUM_INTEROP_THREADS is
           negative and config.inter_op_parallelism_threads is
           unspecified or negative. *)
        (OK, [(Some p, false)],
         (inter_op_parallelism_threads options <? 0) ||
         ((inter_op_parallelism_threads options =? 0) &&
          (env_num_threads <? 0)),
         pr)
  end.

(** [DirectSession::DirectSession], lines 531-651: the thread pools, the
    choice of the executor and the affinity of the thread pool.  [None]:
    LOG(FATAL), or the null pool is dereferenced at line 648. *)
Definition DirectSession_new (options : SessionOptions) (pr : Process)
    : option (Constructed * Process) :=
  let '(init_error, thread_pools, run_in_caller_thread, pr) :=
    new_thread_pools options pr in
  use_cost_model_executor ← use_cost_model_executor_env;
  use_inline_executor ← use_inline_executor_env;
  pin_threadpool_to_cpu_core ← pin_threadpool_to_cpu_core_env;
  (* Select which executor to use *)
  let cost_model :=
    bool_decide (executor_policy options = USE_COST_MODEL_EXECUTOR) ||
    use_cost_model_executor in
  let inline :=
    bool_decide (executor_policy options = USE_INLINE_EXECUTOR) ||
    use_inline_executor in
  let constructed :=
    {| init_error_ := init_error;
       thread_pools_ := thread_pools;
       run_in_caller_thread_ :=
         if cost_model then run_in_caller_thread
         else if inline then true else run_in_caller_thread;
       run_cost_model_executor_ := cost_model;
       operation_timeout_in_ms_ := operation_timeout_in_ms options |} in
  (* thread pool set affinity *)
  if TENSORFLOW_USE_NUMA && pin_threadpool_to_cpu_core &&
     use_per_session_threads options
  then
    match thread_pools with
    | [(Some _, _)] => Some (constructed, pr)
    | _ => None
    end
  else Some (constructed, pr).

End Constructor.

End Pools.

(** The addresses in the static map and the static pool are thread pools
    of the process. *)
Definition process_ok (pr : Pools.Process) : Prop :=
  (∀ name configured p,
     Pools.global_pool_map pr !! name = Some (configured, Some p) →
     (p < length (Pools.pools pr))%nat) ∧
  (∀ p, Pools.global_thread_pool pr = Some p →
        (p < length (Pools.pools pr))%nat).

(** * The session factory, lines 180-466 *)

Module Factory.

(** [SessionMetadata] (config.proto). *)
Record SessionMetadata := {
  metadata_name : string;
  metadata_version : Z
}.

(** [DirectSessionFactory::GetMetadataKey], lines 459-461. *)
Definition GetMetadataKey (metadata : SessionMetadata) : string :=
  StrCat [metadata_name metadata; "/"; AlphaNum (metadata_version metadata)].

(** What the factory reads of [SessionOptions]; [session_metadata] is
    [None] unless [has_session_metadata()]. *)
Record SessionOptions := {
  target : string;
  session_metadata : option SessionMetadata
}.

(** [DirectSessionFactory::AcceptsOptions], lines 184-186. *)
Definition AcceptsOptions (options : SessionOptions) : bool :=
  bool_decide (target options = "").

Section World.

Context `{Collaborators}.

(** A session object with the options it was created with. *)
Record SessionObject := {
  object_session : DirectSession;
  object_options : SessionOptions
}.

(** The factory, lines 463-465, and the session objects of the process;
    a [DirectSession*] is an address in [objects]. *)
Record World := {
  sessions_ : list nat;
  session_metadata_keys_ : gset string;
  objects : list SessionObject
}.

(** [DirectSessionFactory::NewSession], lines 188-230.  [add_devices] is
    the status of [DeviceFactory::AddDevices] and [constructed] the
    session that the constructor makes. *)
Definition NewSession (add_devices : Status) (constructed : DirectSession)
    (options : SessionOptions) (w : World) : Status * option nat * World :=
  let check :=
    match session_metadata options with
    | Some metadata =>
        if metadata_version metadata <? 0 then (INVALID_ARGUMENT, w)
        else
          let key := GetMetadataKey metadata in
          if decide (key ∈ session_metadata_keys_ w)
          then (INVALID_ARGUMENT, w)
          else (OK, {| sessions_ := sessions_ w;
                       session_metadata_keys_ :=
                         {[key]} ∪ session_metadata_keys_ w;
                       objects := objects w |})
    | None => (OK, w)
    end in
  let '(st, w) := check in
  if negb (ok st) then (st, None, w) else
  if negb (ok add_devices) then (add_devices, None, w) else
  let session := length (objects w) in
  (OK, Some session,
   {| sessions_ := (sessions_ w ++ [session])%list;
      session_metadata_keys_ := session_metadata_keys_ w;
      objects :=
        (objects w ++ [{| object_session := constructed;
                          object_options := options |}])%list |}).

(** The members of a session group: the leader and the followers. *)
Record SessionGroup := {
  leader_session : nat;
  follower_sessions : list nat
}.

(** [new DirectSession(...)] in the factory: the new object and its
    address. *)
Definition new_session (constructed : DirectSession)
    (options : SessionOptions) (w : World) : nat * World :=
  (length (objects w),
   {| sessions_ := sessions_ w;
      session_metadata_keys_ := session_metadata_keys_ w;
      objects :=
        (objects w ++ [{| object_session := constructed;
                          object_options := options |}])%list |}).

(** [sessions_.push_back(session)]. *)
Definition push_session (session : nat) (w : World) : World :=
  {| sessions_ := (sessions_ w ++ [session])%list;
     session_metadata_keys_ := session_metadata_keys_ w;
     objects := objects w |}.

(** The loop of lines 357-399, from [i] on, with [count] followers to
    make.  [add_devices i] is the status of the call of
    [DeviceFactory::AddDevices] for session [i] and [constructed i] the
    session that the constructor makes for it. *)
Fixpoint new_followers (add_devices : nat → Status)
    (constructed : nat → DirectSession) (options : SessionOptions)
    (i count : nat) (followers : list nat) (w : World)
    : Status * list nat * World :=
  match count with
  | O => (OK, followers, w)
  | S count =>
      if negb (ok (add_devices i)) then (add_devices i, followers, w) else
      let '(follower_session, w) := new_session (constructed i) options w in
      let w := push_session follower_session w in
      new_followers add_devices constructed options (S i) count
                    (followers ++ [follower_session])%list w
  end.

(** [DirectSessionFactory::NewSessionGroup], lines 232-408.  What it does
    to the factory does not depend on GOOGLE_CUDA and
    TENSORFLOW_USE_NUMA: the options of the sessions differ in their
    devices only, and [visible_cpus_per_session] has an entry for each
    session. *)
Definition NewSessionGroup (add_devices : nat → Status)
    (constructed : nat → DirectSession) (options : SessionOptions)
    (session_num : Z) (w : World) : Status * option SessionGroup * World :=
  if session_num <? 1 then (INVALID_ARGUMENT, None, w) else
  let check :=
    match session_metadata options with
    | Some metadata =>
        if metadata_version metadata <? 0 then (INVALID_ARGUMENT, w)
        else
          let key := GetMetadataKey metadata in
          if decide (key ∈ session_metadata_keys_ w)
          then (INVALID_ARGUMENT, w)
          else (OK, {| sessions_ := sessions_ w;
                       session_metadata_keys_ :=
                         {[key]} ∪ session_metadata_keys_ w;
                       objects := objects w |})
    | None => (OK, w)
    end in
  let '(st, w) := check in
  if negb (ok st) then (st, None, w) else
  if negb (ok (add_devices 0%nat)) then (add_devices 0%nat, None, w) else
  let '(leader_session, w) := new_session (constructed 0%nat) options w in
  let '(st, followers, w) :=
    new_followers add_devices constructed options 1
                  (Z.to_nat (session_num - 1)) [] w in
  if negb (ok st) then (st, None, w) else
  let w := push_session leader_session w in
  (OK, Some {| leader_session := leader_session;
               follower_sessions := followers |}, w).

(** The object of session [j] of a group. *)
Definition group_object (constructed : nat → DirectSession)
    (options : SessionOptions) (j : nat) : SessionObject :=
  {| object_session := constructed j; object_options := options |}.

(** [DirectSessionFactory::Deregister], lines 432-440. *)
Definition Deregister (session : nat) (options : SessionOptions) (w : World)
    : World :=
  {| sessions_ := filter (λ x, x ≠ session) (sessions_ w);
     session_metadata_keys_ :=
       match session_metadata options with
       | Some metadata =>
           session_metadata_keys_ w ∖ {[GetMetadataKey metadata]}
       | None => session_metadata_keys_ w
       end;
     objects := objects w |}.

Definition set_object (session : nat) (s : DirectSession) (w : World)
    : World :=
  {| sessions_ := sessions_ w;
     session_metadata_keys_ := session_metadata_keys_ w;
     objects :=
       alter (λ o, {| object_session := s;
                      object_options := object_options o |})
             session (objects w) |}.

(** [session->Close()], lines 2024-2033, with the call of [Deregister]
    at line 2031.  [None]: [session] is no object. *)
Definition Session_Close (session : nat) (w : World)
    : option (Status * World) :=
  o ← objects w !! session;
  let '(st, s) := Close (object_session o) in
  let w := set_object session s w in
  if negb (closed_ (object_session o)) && factory_ (object_session o)
  then Some (st, Deregister session (object_options o) w)
  else Some (st, w).

(** [session->Reset(containers)], lines 2018-2022. *)
Definition Session_Reset (session : nat) (containers : list string)
    (w : World) : option (Status * World) :=
  o ← objects w !! session;
  let '(st, s) := Reset (object_session o) containers in
  Some (st, set_object session s w).

(** The two loops of [DirectSessionFactory::Reset], lines 421-428. *)
Fixpoint for_each_session (f : nat → World → option (Status * World))
    (sessions : list nat) (s : Status) (w : World)
    : option (Status * World) :=
  match sessions with
  | [] => Some (s, w)
  | session :: rest =>
      '(st, w) ← f session w;
      for_each_session f rest (Update s st) w
  end.

(** [DirectSessionFactory::Reset], lines 410-430. *)
Definition Factory_Reset (containers : list string) (w : World)
    : option (Status * World) :=
  let sessions_to_reset := sessions_ w in
  let w := {| sessions_ := [];
              session_metadata_keys_ := session_metadata_keys_ w;
              objects := objects w |} in
  '(s, w) ← for_each_session (λ session, Session_Reset session containers)
              sessions_to_reset OK w;
  for_each_session Session_Close sessions_to_reset s w.

(** The sessions the factory lists are objects. *)
Definition world_ok (w : World) : Prop :=
  ∀ session, session ∈ sessions_ w → (session < length (objects w))%nat.

End World.

End Factory.

(** ** Worked inputs for the rest of the code *)

(** A session of the small world whose constructor failed: its thread
    pool could not be made. *)
Definition failed_session : @DirectSession toy_world :=
  {| init_error_ := INVALID_ARGUMENT;
     operation_timeout_in_ms_ := 0;
     run_in_caller_thread_ := false;
     run_cost_model_executor_ := false;
     thread_pools_ := [None];
     use_per_session_threads_ := false;
     session_inter_op_thread_pool_size_ := 1;
     build_cost_model_ := 0;
     build_cost_model_after_ := 0;
     devices_ := [toy_cpu];
     device_mgr_ := tt : @DeviceMgr toy_world;
     factory_ := true;
     registered_ := true;
     graph_created_ := false;
     flib_def_ := None;
     execution_state_ := None;
     executors_ := ∅;
     heap_ := [];
     functions_ := 0%nat;
     partial_runs_ := ∅;
     callables_ := ∅;
     next_callable_handle_ := 0;
     cancellation_manager_ := {| is_cancelled := false |};
     closed_ := false;
     step_id_counter_ := 1;
     handle_name_counter_ := 0;
     session_state_ := tt : @SessionState toy_world;
     collective_graph_key_ := 0 |}.

(** The executors of the identity graph with the collective graph key 5,
    and a session that has prepared them. *)
Definition collective_executors : ExecutorsAndKeys :=
  {| step_count := 0; graph := None; name_to_node := ∅;
     items := [cpu_item];
     input_name_to_index := name_to_index ["x:0"];
     input_name_to_rendezvous_key := ∅;
     output_name_to_index := name_to_index ["y:0"];
     output_name_to_rendezvous_key := ∅;
     input_types := [DT_INT32]; output_types := [DT_INT32];
     callable_options :=
       {| feed := ["x:0"]; fetch := ["y:0"]; target := [];
          run_options := RunOptions_default |};
     ek_collective_graph_key := 5 |}.

Definition collective_session : @DirectSession toy_world :=
  @set_heap_ toy_world [collective_executors]
    (toy_session (Some identity_graph)).

Definition with_collective_graph_key (key : Z) : RunOptions :=
  {| trace_level := 0; timeout_in_ms := 0; inter_op_thread_pool := 0;
     output_partition_graphs := false;
     debug_options := {| debug_tensor_watch_opts := []; global_step := 0 |};
     report_tensor_allocations_upon_oom := false;
     collective_graph_key := key; use_run_handler_pool := false |}.

(** The session of the collective executors with the request
    [x:0 -> y:0] in the cache. *)
Definition collective_cached_session : @DirectSession toy_world :=
  @set_executors_ toy_world
    {[ @request_key toy_world ["x:0"] ["y:0"] [] run_args := 0%nat ]}
    collective_session.

(** A session of the small world with the sum graph and an operation
    timeout of 50 ms. *)
Definition timed_session : @DirectSession toy_world :=
  {| init_error_ := OK;
     operation_timeout_in_ms_ := 50;
     run_in_caller_thread_ := false;
     run_cost_model_executor_ := false;
     thread_pools_ := [Some 0%nat];
     use_per_session_threads_ := false;
     session_inter_op_thread_pool_size_ := 0;
     build_cost_model_ := 0;
     build_cost_model_after_ := 0;
     devices_ := [toy_cpu];
     device_mgr_ := tt : @DeviceMgr toy_world;
     factory_ := true;
     registered_ := true;
     graph_created_ := true;
     flib_def_ := Some (tt : @FunctionLibraryDefinition toy_world);
     execution_state_ := Some sum_graph : option (@GraphExecutionState toy_world);
     executors_ := ∅;
     heap_ := [];
     functions_ := 0%nat;
     partial_runs_ := ∅;
     callables_ := ∅;
     next_callable_handle_ := 0;
     cancellation_manager_ := {| is_cancelled := false |};
     closed_ := false;
     step_id_counter_ := 1;
     handle_name_counter_ := 0;
     session_state_ := tt : @SessionState toy_world;
     collective_graph_key_ := 0 |}.

(** That session after [PRunSetup({"a:0","b:0"}, {"s:0","t:0"}, {})]. *)
Definition timed_sum_session : @DirectSession toy_world :=
  (@PRunSetup toy_world timed_session ["a:0"; "b:0"] ["s:0"; "t:0"] []).2.

(** And after a [PRun] that feeds and fetches everything while the
    executors are stuck. *)
Definition timed_out_session : @DirectSession toy_world :=
  default timed_sum_session
    ((λ r, r.2) <$> @PRun toy_world timed_sum_session stuck_fate sum_handle
                          [("a:0", 3); ("b:0", 4)] ["s:0"; "t:0"] []).

Definition identity_options : CallableOptions :=
  {| feed := ["x:0"]; fetch := ["y:0"]; target := [];
     run_options := RunOptions_default |}.

(** An environment without TF_OVERRIDE_GLOBAL_THREADPOOL and without a
    thread count, on a machine of eight cores and two NUMA nodes. *)
Definition plain_environment : LocalDevice.Environment :=
  {| LocalDevice.OverrideGlobalThreadPoolFromEnvironment := false;
     LocalDevice.env_num_threads := 0;
     LocalDevice.MaxParallelism := λ _, 8;
     LocalDevice.kNUMANoAffinity := -1;
     LocalDevice.NUMANumNodes := 2;
     LocalDevice.DCHECK_IS_ON := false |}.

Definition no_pools : LocalDevice.Statics :=
  {| LocalDevice.use_global_threadpool_ := true;
     LocalDevice.global_tp_info_ := [];
     LocalDevice.infos := [] |}.

Definition intra_op (threads : Z) (numa : bool) : LocalDevice.SessionOptions :=
  {| LocalDevice.intra_op_parallelism_threads := threads;
     LocalDevice.disable_thread_spinning := false;
     LocalDevice.use_numa_affinity := numa |}.

Definition one_global_pool : LocalDevice.DeviceGlobalThreadPoolOptions :=
  {| LocalDevice.global_threadpool_num := 1;
     LocalDevice.device_threadpool_index := 0 |}.

Definition pool_of_group (sessions index : Z)
    : LocalDevice.DeviceGlobalThreadPoolOptions :=
  {| LocalDevice.global_threadpool_num := sessions;
     LocalDevice.device_threadpool_index := index |}.

(** An environment for the constructor: eight inter-op threads unless the
    options say otherwise, nothing set in the environment. *)
Definition pools_environment : Pools.Environment :=
  {| Pools.NumInterOpThreadsFromSessionOptions := λ options,
       if Pools.inter_op_parallelism_threads options =? 0 then 8
       else Pools.inter_op_parallelism_threads options;
     Pools.NewThreadPoolFromSessionOptions_info := λ options,
       {| Pools.pool_name := "Compute";
          Pools.pool_num_threads :=
            if Pools.inter_op_parallelism_threads options =? 0 then 8
            else Pools.inter_op_parallelism_threads options;
          Pools.low_latency_hint :=
            negb (Pools.disable_thread_spinning options) |};
     Pools.env_num_threads := 0;
     Pools.use_cost_model_executor_env := Some false;
     Pools.use_inline_executor_env := Some false;
     Pools.pin_threadpool_to_cpu_core_env := Some false;
     Pools.TENSORFLOW_USE_NUMA := false |}.

Definition no_process : Pools.Process :=
  {| Pools.pools := []; Pools.global_pool_map := ∅;
     Pools.global_thread_pool := None |}.

Definition with_thread_pools (protos : list Pools.ThreadPoolOptionProto)
    : Pools.SessionOptions :=
  {| Pools.session_inter_op_thread_pool := protos;
     Pools.use_per_session_threads := false;
     Pools.inter_op_parallelism_threads := 0;
     Pools.executor_policy := Pools.USE_NORMAL_EXECUTOR;
     Pools.operation_timeout_in_ms := 0;
     Pools.disable_thread_spinning := false |}.

Definition named_pool (threads : Z) : Pools.ThreadPoolOptionProto :=
  {| Pools.num_threads := threads; Pools.global_name := "shared" |}.

(** A factory that lists no session, and the options of a session named
    "model" in version 1. *)
Definition no_sessions : @Factory.World toy_world :=
  {| Factory.sessions_ := []; Factory.session_metadata_keys_ := ∅;
     Factory.objects := [] |}.

Definition model_v1 : Factory.SessionMetadata :=
  {| Factory.metadata_name := "model"; Factory.metadata_version := 1 |}.

Definition model_options : Factory.SessionOptions :=
  {| Factory.target := ""; Factory.session_metadata := Some model_v1 |}.

(* ================================================================== *)
(** * Theorems *)
(* ================================================================== *)

Section CheckFetch_facts.

Variable ParseTensorName : string → TensorId.
Variable Tensor : Type.

Implicit Types (g : Graph) (visited : list bool) (stack : list nat).
Implicit Types (pending : gset TensorId) (name_to_node : gmap string nat).

Lemma pending_feeds_of_Some name_to_node l acc S :
  pending_feeds_of ParseTensorName name_to_node l acc = Some S →
  ∀ t, t ∈ S ↔
       t ∈ acc ∨ ∃ input, (input, false) ∈ l ∧ ParseTensorName input = t.
Proof.
  revert acc. induction l as [|[input fed] l IH]; intros acc; simpl.
  - intros [= <-] t. split; [by left|].
    intros [?|(? & Hin & _)]; [done|]. by apply elem_of_nil in Hin.
  - destruct fed.
    + intros H t. rewrite (IH _ H t). split.
      * intros [?|(i & Hi & <-)]; [by left|right].
        exists i. split; [by right|done].
      * intros [?|(i & Hi & <-)]; [by left|right].
        apply elem_of_cons in Hi as [[=]|Hi]. by exists i.
    + destruct (name_to_node !! _) eqn:E; [|done].
      intros H t. rewrite (IH _ H t). rewrite elem_of_union, elem_of_singleton.
      split.
      * intros [[->|?]|(i & Hi & <-)].
        -- right. exists input. split; [by left|done].
        -- by left.
        -- right. exists i. split; [by right|done].
      * intros [?|(i & Hi & <-)]; [left; by right|].
        apply elem_of_cons in Hi as [[= ->]|Hi]; [left; by left|].
        right. by exists i.
Qed.

Lemma pending_feeds_of_None name_to_node l acc :
  pending_feeds_of ParseTensorName name_to_node l acc = None →
  ∃ input, (input, false) ∈ l ∧
           name_to_node !! (ParseTensorName input).1 = None.
Proof.
  revert acc. induction l as [|[input fed] l IH]; intros acc; simpl; [done|].
  destruct fed.
  - intros (i & ? & ?)%IH. exists i. split; [by right|done].
  - destruct (name_to_node !! _) eqn:E.
    + intros (i & ? & ?)%IH. exists i. split; [by right|done].
    + intros _. exists input. split; [by left|done].
Qed.

Lemma elem_of_erase_feeds (feeds : list (string * Tensor)) pending t :
  t ∈ erase_feeds ParseTensorName Tensor feeds pending ↔
  t ∈ pending ∧ ∀ it, it ∈ feeds → ParseTensorName it.1 ≠ t.
Proof.
  unfold erase_feeds. revert pending.
  induction feeds as [|it feeds IH]; intros pending; simpl.
  - split; [intros ?; split; [done|]|by intros [? _]].
    intros ? Hin. by apply elem_of_nil in Hin.
  - rewrite IH, elem_of_difference, elem_of_singleton. split.
    + intros [[? ?] Hall]. split; [done|].
      intros it' [->|?]%elem_of_cons; [congruence|by apply Hall].
    + intros [? Hall]. split; [split; [done|]|].
      * intros ->. by apply (Hall it); [left|].
      * intros it' ?. apply Hall. by right.
Qed.

Lemma init_stack_Some name_to_node fetches acc stack :
  init_stack ParseTensorName name_to_node fetches acc = Some stack →
  length stack = (length fetches + length acc)%nat ∧
  ∀ n, n ∈ stack ↔
       n ∈ acc ∨ fetch_node ParseTensorName name_to_node fetches n.
Proof.
  revert acc. induction fetches as [|f fetches IH]; intros acc; simpl.
  - intros [= <-]. split; [done|]. intros n. split; [by left|].
    intros [?|(? & Hin & _)]; [done|]. by apply elem_of_nil in Hin.
  - destruct (name_to_node !! _) as [n0|] eqn:E; [|done].
    intros [Hlen Hm]%IH. split; [simpl in Hlen; lia|].
    intros n. rewrite Hm, elem_of_cons. split.
    + intros [[->|?]|(f' & ? & ?)].
      * right. exists f. split; [by left|done].
      * by left.
      * right. exists f'. split; [by right|done].
    + intros [?|(f' & [->|?]%elem_of_cons & Hf)].
      * left. by right.
      * left. left. congruence.
      * right. by exists f'.
Qed.

Lemma init_stack_None name_to_node fetches acc :
  init_stack ParseTensorName name_to_node fetches acc = None →
  ∃ fetch, fetch ∈ fetches ∧
           name_to_node !! (ParseTensorName fetch).1 = None.
Proof.
  revert acc. induction fetches as [|f fetches IH]; intros acc; simpl; [done|].
  destruct (name_to_node !! _) eqn:E.
  - intros (f' & ? & ?)%IH. exists f'. split; [by right|done].
  - intros _. exists f. split; [by left|done].
Qed.

(** *** The loop over the in-edges of one node *)

Lemma unvisited_insert visited i :
  visited !! i = Some false →
  S (unvisited (<[i:=true]> visited)) = unvisited visited.
Proof.
  revert i. induction visited as [|b v IH]; intros [|i]; simpl; try done.
  - by intros [= ->].
  - intros H. rewrite <- (IH _ H). lia.
Qed.

Lemma is_visited_insert visited i j :
  (i < length visited)%nat →
  is_visited (<[i:=true]> visited) j =
  if decide (i = j) then true else is_visited visited j.
Proof.
  intros Hi. unfold is_visited. case_decide as E.
  - subst. by rewrite list_lookup_insert_eq.
  - by rewrite list_lookup_insert_ne.
Qed.

Lemma scan_in_edges_None g pending es stack visited :
  scan_in_edges g pending es stack visited = None →
  ∃ e, e ∈ es ∧ (name_of g (src e), src_output e) ∈ pending.
Proof.
  revert stack visited. induction es as [|e es IH]; intros stack visited;
    simpl; [done|].
  case_decide as Hp; [intros _; exists e; split; [by left|done]|].
  destruct (default false _);
    intros (e' & ? & ?)%IH; exists e'; (split; [by right|done]).
Qed.

Lemma scan_in_edges_Some g pending es stack visited stack' visited' :
  (∀ e, e ∈ es → (src e < length visited)%nat) →
  scan_in_edges g pending es stack visited = Some (stack', visited') →
  length visited' = length visited ∧
  (length stack' + unvisited visited' =
   length stack + unvisited visited)%nat ∧
  (∀ e, e ∈ es → (name_of g (src e), src_output e) ∉ pending) ∧
  (∀ x, x ∈ stack → x ∈ stack') ∧
  (∀ x, x ∈ stack' → x ∈ stack ∨ ∃ e, e ∈ es ∧ src e = x) ∧
  (∀ e, e ∈ es → is_visited visited' (src e) = true) ∧
  (∀ i, is_visited visited i = true → is_visited visited' i = true) ∧
  (∀ i, is_visited visited' i = true →
        is_visited visited i = true ∨ i ∈ stack').
Proof.
  revert stack visited.
  induction es as [|e es IH]; intros stack visited Hrange; simpl.
  - intros [= <- <-]. repeat split; try done.
    + intros ? Hin. by apply elem_of_nil in Hin.
    + by left.
    + intros ? Hin. by apply elem_of_nil in Hin.
    + by left.
  - case_decide as Hp; [done|].
    assert (Hlt : (src e < length visited)%nat) by (apply Hrange; by left).
    assert (Hrange' : ∀ e', e' ∈ es → (src e' < length visited)%nat)
      by (intros; apply Hrange; by right).
    destruct (default false (visited !! src e)) eqn:Hv; intros Hscan.
    + apply IH in Hscan as (Hl & Hm & Hnp & Hsub & Hnew & Hvis & Hmono & Hfresh);
        [|done].
      repeat split; try done.
      * intros e' [->|?]%elem_of_cons; [done|by apply Hnp].
      * intros x [?|(e' & ? & ?)]%Hnew; [by left|right].
        exists e'. split; [by right|done].
      * intros e' [->|?]%elem_of_cons; [by apply Hmono|by apply Hvis].
    + apply IH in Hscan as (Hl & Hm & Hnp & Hsub & Hnew & Hvis & Hmono & Hfresh).
      2:{ intros e' He'. rewrite length_insert. by apply Hrange'. }
      rewrite length_insert in Hl.
      assert (Hvf : visited !! src e = Some false).
      { destruct (lookup_lt_is_Some_2 visited (src e) Hlt) as [b Hb].
        rewrite Hb in Hv. simpl in Hv. by subst. }
      pose proof (unvisited_insert _ _ Hvf) as Hu. simpl in Hm.
      repeat split; try done.
      * lia.
      * intros e' [->|?]%elem_of_cons; [done|by apply Hnp].
      * intros x Hx. apply Hsub. by right.
      * intros x [[->|?]%elem_of_cons|(e' & ? & ?)]%Hnew.
        -- right. exists e. split; [by left|done].
        -- by left.
        -- right. exists e'. split; [by right|done].
      * intros e' [->|?]%elem_of_cons; [|by apply Hvis].
        apply Hmono. rewrite is_visited_insert by done. by case_decide.
      * intros i Hi. apply Hmono. rewrite is_visited_insert by done.
        by case_decide.
      * intros i [Hi|?]%Hfresh; [|by right].
        rewrite is_visited_insert in Hi by done.
        case_decide; [|by left]. subst. right. apply Hsub. by left.
Qed.

(** *** The traversal *)

Lemma wf_graph_in_range g n e :
  wf_graph g → e ∈ in_edges_of g n → (src e < num_node_ids g)%nat.
Proof.
  intros Hwf He. unfold in_edges_of in He.
  destruct (node_at g n) as [nd|] eqn:E; [|by apply elem_of_nil in He].
  destruct (Hwf _ _ _ E He) as [nd' Hnd']. unfold node_at in Hnd'.
  destruct (nodes g !! src e) eqn:E'; [|done].
  by apply lookup_lt_Some in E'.
Qed.

Lemma traverse_terminates g pending fuel stack visited :
  wf_graph g → length visited = num_node_ids g →
  (length stack + unvisited visited < fuel)%nat →
  is_Some (traverse fuel g pending stack visited).
Proof.
  intros Hwf. revert stack visited.
  induction fuel as [|fuel IH]; intros stack visited Hlen Hfuel; [lia|].
  simpl. destruct stack as [|n stack]; [by eexists|].
  destruct (scan_in_edges _ _ _ _ _) as [[stack' visited']|] eqn:E;
    [|by eexists].
  apply scan_in_edges_Some in E as (Hl & Hm & _).
  - apply IH; [congruence|]. simpl in Hfuel. lia.
  - intros e He. rewrite Hlen. by eapply wf_graph_in_range.
Qed.

Lemma traverse_codes g pending fuel stack visited st :
  traverse fuel g pending stack visited = Some st →
  st = OK ∨ st = INVALID_ARGUMENT.
Proof.
  revert stack visited. induction fuel as [|fuel IH]; intros stack visited;
    simpl; [done|].
  destruct stack as [|n stack]; [intros [= <-]; by left|].
  destruct (scan_in_edges _ _ _ _ _) as [[stack' visited']|];
    [apply IH|intros [= <-]; by right].
Qed.

(** A rejection names a node reachable from the stack whose in-edge
    carries a pending feed. *)
Lemma traverse_rejects g pending fuel stack visited :
  traverse fuel g pending stack visited = Some INVALID_ARGUMENT →
  ∃ n m e, n ∈ stack ∧ reaches g n m ∧ e ∈ in_edges_of g m ∧
           (name_of g (src e), src_output e) ∈ pending.
Proof.
  revert stack visited. induction fuel as [|fuel IH]; intros stack visited;
    simpl; [done|].
  destruct stack as [|n stack]; [done|].
  destruct (scan_in_edges _ _ _ _ _) as [[stack' visited']|] eqn:E.
  - intros (n' & m & e & Hn' & Hreach & He)%IH.
    assert (Hnew : n' ∈ stack ∨ ∃ e', e' ∈ in_edges_of g n ∧ src e' = n').
    { revert E Hn'. clear. revert stack visited.
      induction (in_edges_of g n) as [|e0 es IHes]; intros stack visited;
        simpl.
      - intros [= <- <-] ?. by left.
      - case_decide; [done|].
        destruct (default false _); intros Hs Hin.
        + destruct (IHes _ _ Hs Hin) as [?|(e' & ? & ?)]; [by left|right].
          exists e'. split; [by right|done].
        + destruct (IHes _ _ Hs Hin) as [[->|?]%elem_of_cons|(e' & ? & ?)].
          * right. exists e0. split; [by left|done].
          * by left.
          * right. exists e'. split; [by right|done]. }
    destruct Hnew as [?|(e' & He' & <-)].
    + exists n', m, e. split; [by right|done].
    + exists n, m, e. split; [by left|]. split; [|done].
      by eapply reaches_step.
  - intros _. apply scan_in_edges_None in E as (e & He & Hp).
    exists n, n, e. split; [by left|]. split; [constructor|done].
Qed.

(** An accepted traversal has explored a set of nodes that contains the
    stack, is free of pending feeds and is closed under in-edges up to
    the nodes visited before. *)
Lemma traverse_accepts g pending fuel stack visited :
  wf_graph g → length visited = num_node_ids g →
  traverse fuel g pending stack visited = Some OK →
  ∃ E : nat → Prop,
    (∀ n, n ∈ stack → E n) ∧
    ∀ x, E x →
         ∀ e, e ∈ in_edges_of g x →
              ((name_of g (src e), src_output e) ∉ pending) ∧
              (E (src e) ∨ is_visited visited (src e) = true).
Proof.
  intros Hwf. revert stack visited.
  induction fuel as [|fuel IH]; intros stack visited Hlen; simpl; [done|].
  destruct stack as [|n stack].
  - intros _. exists (λ _, False). split; [|done].
    intros ? Hin. by apply elem_of_nil in Hin.
  - destruct (scan_in_edges _ _ _ _ _) as [[stack' visited']|] eqn:Hscan;
      [|done].
    apply scan_in_edges_Some in Hscan
      as (Hl & _ & Hnp & Hsub & _ & Hvis & _ & Hfresh).
    2:{ intros e He. rewrite Hlen. by eapply wf_graph_in_range. }
    intros (E & Hstack & Hclosed)%IH; [|congruence].
    exists (λ x, x = n ∨ E x). split.
    + intros x [->|?]%elem_of_cons; [by left|right]. by apply Hstack, Hsub.
    + intros x [->|Hx] e He.
      * split; [by apply Hnp|].
        destruct (Hfresh _ (Hvis _ He)) as [?|?]; [by right|].
        left. right. by apply Hstack.
      * destruct (Hclosed _ Hx _ He) as [? [?|Hv]]; split; try done.
        -- left. by right.
        -- destruct (Hfresh _ Hv) as [?|?]; [by right|].
           left. right. by apply Hstack.
Qed.

Lemma is_visited_replicate n i : is_visited (replicate n false) i = false.
Proof.
  unfold is_visited. destruct (replicate n false !! i) eqn:E; [|done].
  by apply lookup_replicate in E as [-> _].
Qed.

Lemma unvisited_le visited : (unvisited visited ≤ length visited)%nat.
Proof. induction visited as [|[] ? ?]; simpl; lia. Qed.

End CheckFetch_facts.

Section CheckFetch_correct.

Variable ParseTensorName : string → TensorId.
Variable Tensor : Type.

Lemma covered_iff_not_pending (pending_inputs : gmap string bool)
    (feeds : list (string * Tensor)) t :
  covered ParseTensorName Tensor pending_inputs feeds t ↔
  ¬ still_pending ParseTensorName Tensor pending_inputs feeds t.
Proof.
  unfold covered, still_pending. split.
  - intros [Hfed|(it & Hit & Heq)] [(input & Hin & Hp) Hno].
    + by apply (Hfed input).
    + by apply (Hno it).
  - intros Hnot.
    destruct (decide (Exists (λ it, ParseTensorName it.1 = t) feeds))
      as [(it & ? & ?)%Exists_exists|Hne].
    + right. by exists it.
    + left. intros input Hp Hin. apply Hnot. split; [by exists input|].
      intros it Hit Heq. apply Hne, Exists_exists. by exists it.
Qed.

Lemma reaches_closed g (E : nat → Prop) n m :
  (∀ x, E x → ∀ e, e ∈ in_edges_of g x → E (src e)) →
  reaches g n m → E n → E m.
Proof. intros Hcl. induction 1; eauto. Qed.

(** C2.  On a well-formed graph whose name table resolves the names of the
    call, CheckFetch returns invalid-argument exactly when the reverse
    traversal from the requested fetch nodes through in-edges touches a
    feed that is still pending (not fed by an earlier call, not supplied
    by this one); and it returns OK exactly when the feeds supplied so
    far together with those of this call cover every tensor the
    requested fetches depend on. *)
Theorem CheckFetch_rejects_iff_pending_feed_reachable
    (feeds : list (string * Tensor)) (fetches : list string) (g : Graph)
    (name_to_node : gmap string nat) (pending_inputs : gmap string bool) :
  wf_graph g →
  names_resolve ParseTensorName name_to_node pending_inputs fetches →
  (CheckFetch ParseTensorName Tensor feeds fetches g name_to_node
              pending_inputs = Some INVALID_ARGUMENT ↔
   touches_pending_feed ParseTensorName Tensor g name_to_node
                        pending_inputs feeds fetches) ∧
  (CheckFetch ParseTensorName Tensor feeds fetches g name_to_node
              pending_inputs = Some OK ↔
   ∀ t, depends_on ParseTensorName g name_to_node fetches t →
        covered ParseTensorName Tensor pending_inputs feeds t).
Proof.
  intros Hwf [Hin Hout]. unfold CheckFetch.
  destruct (pending_feeds_of _ _ _ _) as [P0|] eqn:HP0.
  2:{ apply pending_feeds_of_None in HP0 as (input & Hi & Hnone).
      apply elem_of_map_to_list in Hi. destruct (Hin _ Hi) as [? ?].
      congruence. }
  destruct (init_stack _ _ _ _) as [stack|] eqn:Hst.
  2:{ apply init_stack_None in Hst as (f & Hf & Hnone).
      destruct (Hout _ Hf) as [? ?]. congruence. }
  pose proof (pending_feeds_of_Some _ _ _ _ _ HP0) as HP0m.
  apply init_stack_Some in Hst as [Hlen Hstack].
  set (P := erase_feeds ParseTensorName Tensor feeds P0).
  assert (HP : ∀ t, t ∈ P ↔
                    still_pending ParseTensorName Tensor pending_inputs feeds t).
  { intros t. unfold P. rewrite elem_of_erase_feeds, HP0m.
    unfold still_pending. split.
    - intros [[?|(input & Hi & ?)] ?]; [set_solver|].
      apply elem_of_map_to_list in Hi. split; [by exists input|done].
    - intros [(input & Hi & ?) ?]. split; [right|done].
      exists input. by rewrite elem_of_map_to_list. }
  assert (Hfn : ∀ n, n ∈ stack ↔
                     fetch_node ParseTensorName name_to_node fetches n).
  { intros n. rewrite Hstack. split; [|by right].
    intros [Hn|?]; [by apply elem_of_nil in Hn|done]. }
  set (visited := replicate (num_node_ids g) false).
  set (fuel := S (length stack + num_node_ids g)).
  assert (Hvlen : length visited = num_node_ids g)
    by apply length_replicate.
  destruct (traverse_terminates g P fuel stack visited Hwf Hvlen)
    as [st Hrun].
  { pose proof (unvisited_le visited). unfold fuel. lia. }
  assert (Hrej : st = INVALID_ARGUMENT →
            touches_pending_feed ParseTensorName Tensor g name_to_node
                                 pending_inputs feeds fetches).
  { intros ->. apply traverse_rejects in Hrun
      as (n & m & e & Hn & Hreach & He & Hp).
    exists n, m, (name_of g (src e), src_output e).
    split; [by apply Hfn|]. split; [done|].
    split; [by exists e|by apply HP]. }
  assert (Hacc : st = OK →
            ¬ touches_pending_feed ParseTensorName Tensor g name_to_node
                                   pending_inputs feeds fetches).
  { intros -> (n & m & t & Hn & Hreach & (e & He & ->) & Hp).
    apply traverse_accepts in Hrun as (E & Hroot & Hclosed); [|done..].
    assert (Hcl : ∀ x, E x → ∀ e, e ∈ in_edges_of g x → E (src e)).
    { intros x Hx e' He'. destruct (Hclosed x Hx e' He') as [_ [?|Hv]];
        [done|]. unfold visited in Hv.
      by rewrite is_visited_replicate in Hv. }
    assert (Em : E m).
    { eapply reaches_closed; [done..|]. by apply Hroot, Hfn. }
    destruct (Hclosed m Em e He) as [Hnp _]. by apply Hnp, HP. }
  rewrite Hrun. destruct (traverse_codes _ _ _ _ _ _ Hrun) as [-> | ->].
  - split; [split; [done|intros ?; by destruct Hacc]|].
    split; [|done]. intros _ t (n & m & Hn & Hreach & Hc).
    apply covered_iff_not_pending. intros Hp. apply Hacc; [done|].
    by exists n, m, t.
  - split; [split; [auto|done]|]. split; [done|].
    intros Hcov. destruct (Hrej eq_refl) as (n & m & t & Hn & Hr & Hc & Hp).
    exfalso. eapply covered_iff_not_pending; [|done].
    apply Hcov. by exists n, m.
Qed.

End CheckFetch_correct.

Lemma wf_sum_graph : wf_graph sum_graph.
Proof.
  intros n nd e Hn He.
  do 5 (destruct n as [|n];
        [injection Hn as <-; simpl in He;
         repeat (apply elem_of_cons in He as [->|He]; [by eexists|]);
         by apply elem_of_nil in He|]).
  unfold node_at in Hn. by destruct n.
Qed.

Lemma sum_names_resolve fetches :
  fetches ⊆ ["s:0"; "t:0"] →
  names_resolve parse_tensor_name sum_name_to_node sum_pending_inputs fetches.
Proof.
  intros Hsub. split.
  - intros input H. unfold sum_pending_inputs in H.
    apply lookup_insert_Some in H as [[<- _]|[_ H1]]; [by eexists|].
    apply lookup_insert_Some in H1 as [[<- _]|[_ H2]]; [by eexists|].
    by rewrite lookup_empty in H2.
  - intros fetch Hf. apply Hsub in Hf.
    repeat (apply elem_of_cons in Hf as [->|Hf]; [by eexists|]).
    by apply elem_of_nil in Hf.
Qed.

(** Scenario 4 of the specification: with only [a:0] supplied, fetching
    [s:0] is rejected, and the rejection is the reachable pending feed
    [b:0]. *)
Lemma CheckFetch_rejects_iff_pending_feed_reachable_witness :
  wf_graph sum_graph ∧
  names_resolve parse_tensor_name sum_name_to_node sum_pending_inputs ["s:0"] ∧
  CheckFetch parse_tensor_name Z [("a:0", 1)] ["s:0"] sum_graph
             sum_name_to_node sum_pending_inputs = Some INVALID_ARGUMENT ∧
  touches_pending_feed parse_tensor_name Z sum_graph sum_name_to_node
                       sum_pending_inputs [("a:0", 1)] ["s:0"].
Proof.
  assert (Hres : names_resolve parse_tensor_name sum_name_to_node
                               sum_pending_inputs ["s:0"]).
  { apply sum_names_resolve. set_solver. }
  split; [exact wf_sum_graph|]. split; [exact Hres|].
  assert (Hrun : CheckFetch parse_tensor_name Z [("a:0", 1)] ["s:0"] sum_graph
                   sum_name_to_node sum_pending_inputs = Some INVALID_ARGUMENT)
    by (vm_compute; reflexivity).
  split; [exact Hrun|].
  exact (proj1 (proj1 (CheckFetch_rejects_iff_pending_feed_reachable
                         parse_tensor_name Z [("a:0", 1)] ["s:0"] sum_graph
                         sum_name_to_node sum_pending_inputs
                         wf_sum_graph Hres)) Hrun).
Defined.

(** Scenario 3: once [a:0] has been fed and [b:0] comes with the call,
    [s:0] may be fetched; afterwards [t:0] may be fetched with no feeds. *)
Example CheckFetch_scenario3_second_call :
  CheckFetch parse_tensor_name Z [("b:0", 4)] ["s:0"] sum_graph
             sum_name_to_node (<["a:0" := true]> sum_pending_inputs) = Some OK.
Proof. vm_compute. reflexivity. Qed.

Example CheckFetch_scenario3_third_call :
  CheckFetch parse_tensor_name Z [] ["t:0"] sum_graph sum_name_to_node
             (<["b:0" := true]> (<["a:0" := true]> sum_pending_inputs))
  = Some OK.
Proof. vm_compute. reflexivity. Qed.

Section PartialRun_facts.

Context `{Collaborators}.

Implicit Types (s : DirectSession) (pending : gmap string bool).

Lemma check_pending_OK names pending :
  check_pending names pending = OK ↔
  ∀ n, n ∈ names → pending !! n = Some false.
Proof.
  induction names as [|n names IH]; simpl.
  - split; [|done]. intros _ ? Hin. by apply elem_of_nil in Hin.
  - destruct (pending !! n) as [[]|] eqn:E.
    + split; [done|]. intros Hall.
      specialize (Hall n (list_elem_of_here _ _)). congruence.
    + rewrite IH. split.
      * intros Hall n' [->|?]%elem_of_cons; [done|by apply Hall].
      * intros Hall n' ?. apply Hall. by right.
    + split; [done|]. intros Hall.
      specialize (Hall n (list_elem_of_here _ _)). congruence.
Qed.

Lemma check_pending_codes names pending :
  check_pending names pending = OK ∨
  check_pending names pending = INVALID_ARGUMENT.
Proof.
  induction names as [|n names IH]; simpl; [by left|].
  destruct (pending !! n) as [[]|]; auto.
Qed.

Lemma check_pending_rejects names pending n :
  n ∈ names → pending !! n ≠ Some false →
  check_pending names pending = INVALID_ARGUMENT.
Proof.
  intros Hin Hne. destruct (check_pending_codes names pending) as [Hok|?];
    [|done].
  destruct Hne. by eapply check_pending_OK.
Qed.

Lemma lookup_mark_done names pending n :
  mark_done names pending !! n =
  if decide (n ∈ names) then Some true else pending !! n.
Proof.
  unfold mark_done. revert pending.
  induction names as [|n' names IH]; intros pending; cbn [foldl].
  - by rewrite decide_False by apply not_elem_of_nil.
  - rewrite IH. destruct (decide (n ∈ names)) as [Hin|Hnin].
    + by rewrite decide_True by (by right).
    + destruct (decide (n = n')) as [->|Hne].
      * rewrite lookup_insert_eq. by rewrite decide_True by (by left).
      * rewrite lookup_insert_ne by done. rewrite decide_False; [done|].
        by intros [?|?]%elem_of_cons.
Qed.

(** [WaitForNotification] returns as soon as the executors come to an end
    on their own. *)
Lemma WaitForNotification_returns fate run_state cm timeout :
  is_Some (finish_after_us fate) →
  is_Some (WaitForNotification fate run_state cm timeout).
Proof.
  intros Hfin. unfold WaitForNotification, WaitForNotification_status.
  assert (Hwait : ∀ c rs, is_Some (Notification_Wait fate c rs)).
  { intros c rs. unfold Notification_Wait.
    destruct (executors_done rs); [by eexists|].
    rewrite bool_decide_eq_true_2 by done. by eexists. }
  destruct (0 <? timeout).
  - destruct (WaitForNotificationWithTimeout _ _ _) as [[] rs]; simpl.
    + by eexists.
    + destruct (Hwait true (set_status (Update (status rs) DEADLINE_EXCEEDED) rs))
        as [rs' ->]. by eexists.
  - destruct (Hwait (is_cancelled cm) run_state) as [rs' ->]. simpl.
    by eexists.
Qed.

(** What a [PRun] that got past its checks leaves behind. *)
Lemma PRun_exchange_inv s fate handle ek run_state inputs output_names
      outputs st outputs' s' :
  PRun_exchange s fate handle ek run_state inputs output_names outputs
    = Some (st, outputs', s') →
  closed_ s' = closed_ s ∧ executors_ s' = executors_ s ∧
  heap_ s' = heap_ s ∧
  (partial_runs_ s' = delete handle (partial_runs_ s) ∨
   (st = OK ∧
    ∃ run_state',
      partial_runs_ s' = <[handle := run_state']> (partial_runs_ s) ∧
      pending_inputs run_state' =
        mark_done (inputs.*1) (pending_inputs run_state) ∧
      pending_outputs run_state' =
        mark_done output_names (pending_outputs run_state))).
Proof.
  unfold PRun_exchange.
  destruct (SendPRunInputs _ _ _ _) as [st1 r1].
  destruct (if ok st1 then _ else _) as [[st2 r2] outs2].
  destruct (if ok st2 then _ else _) as [st3 ss3].
  destruct (ok st3) eqn:Hok.
  - destruct (PendingDone _).
    + destruct (WaitForNotification _ _ _ _) as [[rs cm]|]; [|done].
      simpl. intros [= <- <- <-]. simpl. auto.
    + intros [= <- <- <-]. simpl. repeat split; try done. right.
      split; [by destruct st3|]. by eexists.
  - destruct (WaitForNotification _ _ _ _) as [[rs cm]|]; [|done].
    simpl. intros [= <- <- <-]. simpl. auto.
Qed.

Lemma PRun_exchange_failure s fate handle ek run_state inputs output_names
      outputs st outputs' s' :
  PRun_exchange s fate handle ek run_state inputs output_names outputs
    = Some (st, outputs', s') →
  st ≠ OK → partial_runs_ s' = delete handle (partial_runs_ s).
Proof.
  intros Hrun Hne.
  apply PRun_exchange_inv in Hrun as (_ & _ & _ & [?|[? _]]); done.
Qed.

Lemma PRun_exchange_returns s fate handle ek run_state inputs output_names
      outputs :
  is_Some (finish_after_us fate) →
  is_Some (PRun_exchange s fate handle ek run_state inputs output_names
                         outputs).
Proof.
  intros Hfin. unfold PRun_exchange.
  destruct (SendPRunInputs _ _ _ _) as [st1 r1].
  destruct (if ok st1 then _ else _) as [[st2 r2] outs2].
  destruct (if ok st2 then _ else _) as [st3 ss3].
  match goal with
  | |- context [WaitForNotification ?f ?rs ?cm ?t] =>
      destruct (WaitForNotification_returns f rs cm t Hfin) as [[? ?] Hw]
  end.
  destruct (if ok st3 then _ else true); [|by eexists].
  rewrite Hw. by eexists.
Qed.

(** The cases of [PRun]: it returns early and changes nothing, or it goes
    on to exchange tensors. *)
Lemma PRun_inv s fate handle inputs output_names outputs st outputs' s' :
  PRun s fate handle inputs output_names outputs = Some (st, outputs', s') →
  (st ≠ OK ∧ outputs' = outputs ∧ s' = s) ∨
  ∃ ek_addr ek run_state,
    closed_ s = false ∧
    executors_ s !! Split_first handle = Some ek_addr ∧
    heap_ s !! ek_addr = Some ek ∧
    partial_runs_ s !! handle = Some run_state ∧
    check_pending (inputs.*1) (pending_inputs run_state) = OK ∧
    check_pending output_names (pending_outputs run_state) = OK ∧
    PRun_exchange s fate handle ek run_state inputs output_names outputs
      = Some (st, outputs', s').
Proof.
  unfold PRun, CheckNotClosed.
  destruct (closed_ s) eqn:Hc; simpl; [intros [= <- <- <-]; by left|].
  destruct (executors_ s !! _) as [a|] eqn:Ha;
    [|intros [= <- <- <-]; by left].
  destruct (heap_ s !! a) as [ek|] eqn:Hek; [|done].
  destruct (partial_runs_ s !! handle) as [rs|] eqn:Hrs;
    [|intros [= <- <- <-]; by left].
  destruct (check_pending (inputs.*1) _) eqn:Hci; simpl;
    try (intros [= <- <- <-]; by left).
  destruct (check_pending output_names _) eqn:Hco; simpl;
    try (intros [= <- <- <-]; by left).
  destruct (CheckFetch _ _ _ _ _ _ _) as [stf|]; simpl; [|done].
  destruct stf; simpl; try (intros [= <- <- <-]; by left).
  intros Hex. right. by exists a, ek, rs.
Qed.

Lemma PRun_preserves s fate handle inputs output_names outputs st outputs' s' :
  PRun s fate handle inputs output_names outputs = Some (st, outputs', s') →
  closed_ s' = closed_ s ∧ executors_ s' = executors_ s ∧
  heap_ s' = heap_ s ∧
  (∀ h, partial_runs_ s !! h = None → partial_runs_ s' !! h = None) ∧
  (∀ h n, feed_used h n s → feed_used h n s') ∧
  (∀ h n, fetch_used h n s → fetch_used h n s').
Proof.
  intros [(_ & _ & ->)|(a & ek & rs & _ & _ & _ & Hrs & _ & _ & Hex)]%PRun_inv;
    [done|].
  apply PRun_exchange_inv in Hex
    as (? & ? & ? & [Hp|(_ & rs' & Hp & Hpi & Hpo)]).
  - repeat split; try done; unfold feed_used, fetch_used; rewrite Hp.
    + intros h Hh. by apply lookup_delete_None; right.
    + intros h n. destruct (decide (handle = h)) as [->|?].
      * by rewrite lookup_delete_eq.
      * by rewrite lookup_delete_ne.
    + intros h n. destruct (decide (handle = h)) as [->|?].
      * by rewrite lookup_delete_eq.
      * by rewrite lookup_delete_ne.
  - repeat split; try done; unfold feed_used, fetch_used; rewrite Hp.
    + intros h Hh. rewrite lookup_insert_ne; [done|congruence].
    + intros h n. destruct (decide (handle = h)) as [->|?].
      * rewrite lookup_insert_eq, Hrs, Hpi, lookup_mark_done.
        intros ->. by case_decide.
      * by rewrite lookup_insert_ne.
    + intros h n. destruct (decide (handle = h)) as [->|?].
      * rewrite lookup_insert_eq, Hrs, Hpo, lookup_mark_done.
        intros ->. by case_decide.
      * by rewrite lookup_insert_ne.
Qed.

Lemma PRun_steps_preserve s s' :
  PRun_steps s s' →
  closed_ s' = closed_ s ∧ executors_ s' = executors_ s ∧
  heap_ s' = heap_ s ∧
  (∀ h, partial_runs_ s !! h = None → partial_runs_ s' !! h = None) ∧
  (∀ h n, feed_used h n s → feed_used h n s') ∧
  (∀ h n, fetch_used h n s → fetch_used h n s').
Proof.
  induction 1 as [|s fate handle inputs output_names outputs st o s' s''
                    Hrun _ IH]; [done|].
  apply PRun_preserves in Hrun as (Hc & He & Hh & Hn & Hf & Hg).
  destruct IH as (Hc' & He' & Hh' & Hn' & Hf' & Hg').
  repeat split; [congruence..| | |]; eauto.
Qed.

(** A call on a handle that has no partial run is rejected. *)
Lemma PRun_without_run_state s fate handle inputs output_names outputs
      ek_addr ek :
  closed_ s = false →
  executors_ s !! Split_first handle = Some ek_addr →
  heap_ s !! ek_addr = Some ek →
  partial_runs_ s !! handle = None →
  PRun s fate handle inputs output_names outputs
    = Some (INVALID_ARGUMENT, outputs, s).
Proof.
  intros Hc Ha Hek Hrs. unfold PRun, CheckNotClosed.
  by rewrite Hc, Ha, Hek, Hrs.
Qed.

(** A call that names a feed or a fetch that is not pending any more is
    rejected. *)
Lemma PRun_with_used_name s fate handle inputs output_names outputs
      ek_addr ek run_state :
  closed_ s = false →
  executors_ s !! Split_first handle = Some ek_addr →
  heap_ s !! ek_addr = Some ek →
  partial_runs_ s !! handle = Some run_state →
  (∃ n, n ∈ inputs.*1 ∧ pending_inputs run_state !! n ≠ Some false) ∨
  (∃ n, n ∈ output_names ∧ pending_outputs run_state !! n ≠ Some false) →
  PRun s fate handle inputs output_names outputs
    = Some (INVALID_ARGUMENT, outputs, s).
Proof.
  intros Hc Ha Hek Hrs Hbad. unfold PRun, CheckNotClosed.
  rewrite Hc, Ha, Hek, Hrs. simpl.
  destruct Hbad as [(n & Hn & Hp)|(n & Hn & Hp)].
  - by rewrite (check_pending_rejects _ _ _ Hn Hp).
  - destruct (check_pending_codes (inputs.*1) (pending_inputs run_state))
      as [->| ->]; simpl; [|done].
    by rewrite (check_pending_rejects _ _ _ Hn Hp).
Qed.

(** [RecvPRunOutputs] on a list of fetches in two parts. *)
Lemma RecvPRunOutputs_loop_app s pre rest ek :
  ∀ offset r outs,
    RecvPRunOutputs_loop s (pre ++ rest) offset ek r outs =
    let '(st, r', outs') := RecvPRunOutputs_loop s pre offset ek r outs in
    if ok st
    then RecvPRunOutputs_loop s rest (offset + length pre) ek r' outs'
    else (st, r', outs').
Proof.
  induction pre as [|name pre IH]; intros offset r outs; simpl.
  - by rewrite Nat.add_0_r.
  - destruct (output_name_to_rendezvous_key ek !! name) as [key|]; [|done].
    destruct (if ok (ParseKey key) then _ else _) as [[st t] r1].
    destruct (ok st) eqn:Hok; simpl.
    + rewrite IH. by rewrite Nat.add_succ_comm.
    + by rewrite Hok.
Qed.

(** A fetch that is received with an error, or as a dead tensor, fails
    [RecvPRunOutputs]. *)
Lemma RecvPRunOutputs_fails_at s output_names ek (run_state : RunState)
      outputs pre name post r outs key st_r t is_dead r' :
  output_names = (pre ++ name :: post)%list →
  RecvPRunOutputs_loop s pre 0 ek (rendez run_state)
    (resize (length output_names) empty_tensor outputs) = (OK, r, outs) →
  output_name_to_rendezvous_key ek !! name = Some key →
  ParseKey key = OK →
  Recv r key (operation_timeout_in_ms_ s) = (st_r, t, is_dead, r') →
  st_r ≠ OK ∨ is_dead = true →
  let code := if ok st_r then INVALID_ARGUMENT else st_r in
  code ≠ OK ∧
  RecvPRunOutputs s output_names ek run_state outputs
    = (code, StartAbort code r', []).
Proof.
  intros -> Hpre Hkey Hparse Hrecv Hbad code.
  assert (Hcode : code ≠ OK) by (unfold code; by destruct st_r).
  split; [done|]. unfold RecvPRunOutputs.
  assert (Hresize :
    match (pre ++ name :: post)%list with
    | [] => outputs
    | _ :: _ =>
        resize (length (pre ++ name :: post)) empty_tensor outputs
    end = resize (length (pre ++ name :: post)) empty_tensor outputs)
    by (by destruct pre).
  rewrite Hresize, RecvPRunOutputs_loop_app, Hpre. simpl.
  rewrite Hkey, Hparse. simpl. rewrite Hrecv.
  assert (Hst : (if is_dead && ok st_r
                 then (INVALID_ARGUMENT, t, r') else (st_r, t, r'))
                = (code, t, r')).
  { unfold code. destruct Hbad as [Hne| ->].
    - assert (ok st_r = false) as -> by (by destruct st_r).
      by rewrite andb_false_r.
    - by destruct (ok st_r). }
  rewrite Hst. by assert (ok code = false) as -> by (by destruct code).
Qed.

(** The status of a [PRun] that fails while it sends or receives. *)
Lemma PRun_exchange_status s fate handle ek run_state inputs output_names
      outputs st outputs' s' :
  PRun_exchange s fate handle ek run_state inputs output_names outputs
    = Some (st, outputs', s') →
  let sent := SendPRunInputs s inputs ek (rendez run_state) in
  let received :=
    RecvPRunOutputs s output_names ek (set_rendez sent.2 run_state) outputs in
  (sent.1 ≠ OK → st = sent.1 ∧ outputs' = outputs) ∧
  (sent.1 = OK → received.1.1 ≠ OK →
   st = received.1.1 ∧ outputs' = received.2).
Proof.
  unfold PRun_exchange.
  destruct (SendPRunInputs _ _ _ _) as [st1 r1]. simpl.
  destruct (ok st1) eqn:Hok1.
  - assert (st1 = OK) as -> by (by destruct st1).
    destruct (RecvPRunOutputs _ _ _ _ _) as [[st2 r2] outs2]. simpl.
    destruct (ok st2) eqn:Hok2.
    + assert (st2 = OK) as -> by (by destruct st2).
      intros _. split; intros; congruence.
    + rewrite ?Hok2. simpl.
      destruct (WaitForNotification _ _ _ _) as [[rs cm]|]; simpl;
        [|discriminate].
      intros [= <- <- _]. split; [congruence|done].
  - rewrite ?Hok1. simpl.
    destruct (WaitForNotification _ _ _ _) as [[rs cm]|]; simpl;
      [|discriminate].
    intros [= <- <- _]. split; [done|]. intros ->. done.
Qed.

End PartialRun_facts.

Section PartialRun_claims.

Context `{Collaborators}.

(** C6.  On an open session and a handle with a partial run, PRun rejects
    with invalid-argument, and changes nothing, when a feed is not in the
    pending-input map or is already marked there, or a fetch is not in
    the pending-output map or is already marked there.  Consequently,
    once a PRun call has succeeded, every later PRun call on the same
    handle that names one of its feeds or one of its fetches again is
    rejected with invalid-argument. *)
Theorem PRun_rejects_unknown_and_used_names
    (s : DirectSession) (handle : string) (ek_addr : nat)
    (ek : ExecutorsAndKeys) (run_state : RunState) :
  closed_ s = false →
  executors_ s !! Split_first handle = Some ek_addr →
  heap_ s !! ek_addr = Some ek →
  partial_runs_ s !! handle = Some run_state →
  (∀ fate inputs output_names outputs,
     (∃ n, n ∈ inputs.*1 ∧
           (pending_inputs run_state !! n = None ∨
            pending_inputs run_state !! n = Some true)) ∨
     (∃ n, n ∈ output_names ∧
           (pending_outputs run_state !! n = None ∨
            pending_outputs run_state !! n = Some true)) →
     PRun s fate handle inputs output_names outputs
       = Some (INVALID_ARGUMENT, outputs, s)) ∧
  (∀ fate inputs output_names outputs outputs1 s1 s2 n
     fate' inputs' output_names' outputs',
     PRun s fate handle inputs output_names outputs
       = Some (OK, outputs1, s1) →
     PRun_steps s1 s2 →
     (n ∈ inputs.*1 ∧ n ∈ inputs'.*1) ∨
     (n ∈ output_names ∧ n ∈ output_names') →
     PRun s2 fate' handle inputs' output_names' outputs'
       = Some (INVALID_ARGUMENT, outputs', s2)).
Proof.
  intros Hc Ha Hek Hrs. split.
  - intros fate inputs output_names outputs Hbad.
    eapply PRun_with_used_name; [done..|].
    destruct Hbad as [(n & ? & Hn)|(n & ? & Hn)]; [left|right];
      exists n; (split; [done|]); destruct Hn as [-> | ->]; done.
  - intros fate inputs output_names outputs outputs1 s1 s2 n
           fate' inputs' output_names' outputs' Hrun Hsteps Hn.
    assert (Hused : (n ∈ inputs.*1 → feed_used handle n s1) ∧
                    (n ∈ output_names → fetch_used handle n s1)).
    { pose proof Hrun as
        [(? & _)|(a & ek' & rs & _ & _ & _ & Hrs' & _ & _ & Hex)]%PRun_inv;
        [done|].
      unfold feed_used, fetch_used.
      apply PRun_exchange_inv in Hex
        as (_ & _ & _ & [-> |(_ & rs' & -> & Hpi & Hpo)]).
      - by rewrite lookup_delete_eq.
      - rewrite lookup_insert_eq, Hpi, Hpo, !lookup_mark_done.
        split; intros; by rewrite decide_True. }
    apply PRun_preserves in Hrun as (Hc1 & He1 & Hh1 & _).
    apply PRun_steps_preserve in Hsteps as (Hc2 & He2 & Hh2 & _ & Hf & Hg).
    assert (Hc' : closed_ s2 = false) by congruence.
    assert (Ha' : executors_ s2 !! Split_first handle = Some ek_addr)
      by congruence.
    assert (Hek' : heap_ s2 !! ek_addr = Some ek) by congruence.
    destruct (partial_runs_ s2 !! handle) as [rs2|] eqn:Hrs2.
    2:{ by eapply PRun_without_run_state. }
    eapply PRun_with_used_name; [done..|].
    destruct Hused as [Hfu Hgu].
    destruct Hn as [[Hn Hn']|[Hn Hn']]; [left|right]; exists n;
      (split; [done|]).
    + specialize (Hf _ _ (Hfu Hn)). unfold feed_used in Hf.
      rewrite Hrs2 in Hf. by rewrite Hf.
    + specialize (Hg _ _ (Hgu Hn)). unfold fetch_used in Hg.
      rewrite Hrs2 in Hg. by rewrite Hg.
Qed.

(** C10.  On an open session and a handle with a partial run: a PRun
    call that fails in the check of the pending maps or in CheckFetch
    returns that status and leaves the session as it was.  A PRun call
    that has passed these checks returns when the executors come to an
    end, and if it returns a failure (from sending feeds, receiving
    fetches or saving tensors) it has erased the partial-run entry, and
    every later PRun call on the handle is rejected with
    invalid-argument.  Such a failure does arise from the exchange: when
    SendPRunInputs fails the call returns its status and the outputs
    untouched; when the feeds are sent and RecvPRunOutputs fails the call
    returns its status and its outputs; and when some fetch, the ones
    before it being received, is received with an error or as a dead
    tensor, the call returns that error (invalid-argument for a dead
    tensor received without error), which is a failure, with the outputs
    cleared.  In each of the three cases the partial-run entry is
    erased. *)
Theorem PRun_failure_erases_or_leaves_unchanged
    (s : DirectSession) (fate : ExecutorsFate) (handle : string)
    (inputs : NamedTensorList) (output_names : list string)
    (outputs : list Tensor) (ek_addr : nat) (ek : ExecutorsAndKeys)
    (run_state : RunState) :
  closed_ s = false →
  executors_ s !! Split_first handle = Some ek_addr →
  heap_ s !! ek_addr = Some ek →
  partial_runs_ s !! handle = Some run_state →
  let feeds_ok := check_pending (inputs.*1) (pending_inputs run_state) in
  let fetches_ok := check_pending output_names (pending_outputs run_state) in
  let check_fetch :=
    CheckFetch ParseTensorName Tensor inputs output_names
      (default {| nodes := [] |} (graph ek)) (name_to_node ek)
      (pending_inputs run_state) in
  let sent := SendPRunInputs s inputs ek (rendez run_state) in
  let received :=
    RecvPRunOutputs s output_names ek (set_rendez sent.2 run_state) outputs in
  (feeds_ok ≠ OK →
   PRun s fate handle inputs output_names outputs
     = Some (feeds_ok, outputs, s)) ∧
  (feeds_ok = OK → fetches_ok ≠ OK →
   PRun s fate handle inputs output_names outputs
     = Some (fetches_ok, outputs, s)) ∧
  (feeds_ok = OK → fetches_ok = OK →
   ∀ st, check_fetch = Some st → st ≠ OK →
   PRun s fate handle inputs output_names outputs = Some (st, outputs, s)) ∧
  (feeds_ok = OK → fetches_ok = OK → check_fetch = Some OK →
   (is_Some (finish_after_us fate) →
    is_Some (PRun s fate handle inputs output_names outputs)) ∧
   ∀ st outputs' s',
     PRun s fate handle inputs output_names outputs
       = Some (st, outputs', s') →
     st ≠ OK →
     partial_runs_ s' !! handle = None ∧
     ∀ s2 fate' inputs' output_names' outputs2,
       PRun_steps s' s2 →
       PRun s2 fate' handle inputs' output_names' outputs2
         = Some (INVALID_ARGUMENT, outputs2, s2)) ∧
  (feeds_ok = OK → fetches_ok = OK → check_fetch = Some OK →
   ∀ st outputs' s',
     PRun s fate handle inputs output_names outputs
       = Some (st, outputs', s') →
     (* a failure while the feeds are sent *)
     (sent.1 ≠ OK →
      st = sent.1 ∧ outputs' = outputs ∧
      partial_runs_ s' !! handle = None) ∧
     (* a failure while the fetches are received *)
     (sent.1 = OK → received.1.1 ≠ OK →
      st = received.1.1 ∧ outputs' = received.2 ∧
      partial_runs_ s' !! handle = None) ∧
     (* the fetch [name] is received with an error, or as a dead tensor *)
     (sent.1 = OK →
      ∀ pre name post r outs key st_r t is_dead r',
        output_names = (pre ++ name :: post)%list →
        RecvPRunOutputs_loop s pre 0 ek sent.2
          (resize (length output_names) empty_tensor outputs)
          = (OK, r, outs) →
        output_name_to_rendezvous_key ek !! name = Some key →
        ParseKey key = OK →
        Recv r key (operation_timeout_in_ms_ s) = (st_r, t, is_dead, r') →
        st_r ≠ OK ∨ is_dead = true →
        st = (if ok st_r then INVALID_ARGUMENT else st_r) ∧ st ≠ OK ∧
        outputs' = [] ∧ partial_runs_ s' !! handle = None)).
Proof.
  intros Hc Ha Hek Hrs feeds_ok fetches_ok check_fetch sent received.
  assert (Hunf : PRun s fate handle inputs output_names outputs =
    if negb (ok feeds_ok) then Some (feeds_ok, outputs, s) else
    if negb (ok fetches_ok) then Some (fetches_ok, outputs, s) else
    st ← check_fetch;
    if negb (ok st) then Some (st, outputs, s) else
    PRun_exchange s fate handle ek run_state inputs output_names outputs).
  { unfold PRun, CheckNotClosed. by rewrite Hc, Ha, Hek, Hrs. }
  rewrite Hunf. clear Hunf.
  split; [|split; [|split; [|split]]].
  - intros Hne. by destruct feeds_ok.
  - intros -> Hne. simpl. by destruct fetches_ok.
  - intros -> -> st -> Hne. simpl. by destruct st.
  - intros -> -> ->. simpl. split.
    + apply PRun_exchange_returns.
    + intros st outputs' s' Hex Hne.
      pose proof (PRun_exchange_inv _ _ _ _ _ _ _ _ _ _ _ Hex)
        as (Hc1 & He1 & Hh1 & _).
      apply PRun_exchange_failure in Hex; [|done].
      assert (Hgone : partial_runs_ s' !! handle = None)
        by (rewrite Hex; apply lookup_delete_eq).
      split; [done|].
      intros s2 fate' inputs' output_names' outputs2 Hsteps.
      apply PRun_steps_preserve in Hsteps as (Hc2 & He2 & Hh2 & Hn & _).
      eapply PRun_without_run_state; [congruence| | |by apply Hn].
      * rewrite He2, He1. done.
      * rewrite Hh2, Hh1. done.
  - intros -> -> ->. simpl. intros st outputs' s' Hex.
    assert (Hgone : st ≠ OK → partial_runs_ s' !! handle = None).
    { intros Hne. rewrite (PRun_exchange_failure _ _ _ _ _ _ _ _ _ _ _ Hex Hne).
      apply lookup_delete_eq. }
    destruct (PRun_exchange_status _ _ _ _ _ _ _ _ _ _ _ Hex)
      as [Hsend Hrecv].
    fold sent in Hsend, Hrecv. fold received in Hrecv.
    split; [|split].
    + intros Hne. destruct (Hsend Hne) as [-> ->]. auto.
    + intros Hok Hne. destruct (Hrecv Hok Hne) as [-> ->]. auto.
    + intros Hok pre name post r outs key st_r t is_dead r'
             Hnames Hpre Hkey Hparse Hr Hbad.
      destruct (RecvPRunOutputs_fails_at s output_names ek
                  (set_rendez sent.2 run_state) outputs pre name post r outs
                  key st_r t is_dead r' Hnames Hpre Hkey Hparse Hr Hbad)
        as [Hcode Hrec].
      fold received in Hrec.
      assert (Hne : received.1.1 ≠ OK) by (by rewrite Hrec).
      destruct (Hrecv Hok Hne) as [-> ->]. rewrite Hrec. simpl.
      split; [done|]. split; [done|]. split; [done|].
      apply Hgone. by rewrite Hrec.
Qed.

End PartialRun_claims.

(** ** The executor cache *)

Lemma ascii_compare_Lt_trans a b c :
  Ascii.compare a b = Lt → Ascii.compare b c = Lt → Ascii.compare a c = Lt.
Proof. unfold Ascii.compare. rewrite !N.compare_lt_iff. lia. Qed.

Lemma string_compare_Lt_trans a :
  ∀ b c, String.compare a b = Lt → String.compare b c = Lt →
         String.compare a c = Lt.
Proof.
  induction a as [|x a IH]; intros [|y b] [|z c]; simpl; try done.
  destruct (Ascii.compare x y) eqn:Exy; try done.
  - apply Ascii.compare_eq_iff in Exy as ->.
    destruct (Ascii.compare y z) eqn:Eyz; try done. apply IH.
  - destruct (Ascii.compare y z) eqn:Eyz; try done.
    + apply Ascii.compare_eq_iff in Eyz as <-. by rewrite Exy.
    + by rewrite (ascii_compare_Lt_trans _ _ _ Exy Eyz).
Qed.

#[global] Instance string_le_trans : Transitive string_le.
Proof.
  intros a b c. unfold string_le, String.leb.
  destruct (String.compare a b) eqn:Eab; try done;
    destruct (String.compare b c) eqn:Ebc; try done; intros _ _.
  - apply String.compare_eq_iff in Eab as ->. by rewrite Ebc.
  - apply String.compare_eq_iff in Eab as ->. by rewrite Ebc.
  - apply String.compare_eq_iff in Ebc as <-. by rewrite Eab.
  - by rewrite (string_compare_Lt_trans _ _ _ Eab Ebc).
Qed.

#[global] Instance string_le_total : Total string_le.
Proof. intros a b. apply String.leb_total. Qed.

#[global] Instance string_le_antisym : AntiSymm (=) string_le.
Proof. intros a b. apply String.leb_antisym. Qed.

(** Sorting forgets the order of the request. *)
Lemma std_sort_Permutation (l1 l2 : list string) :
  l1 ≡ₚ l2 → std_sort l1 = std_sort l2.
Proof.
  intros Hp. unfold std_sort.
  apply (StronglySorted_unique string_le);
    try apply StronglySorted_merge_sort; try apply _.
  by rewrite !merge_sort_Permutation.
Qed.

Lemma std_sort_idemp (l : list string) : std_sort (std_sort l) = std_sort l.
Proof. apply std_sort_Permutation, merge_sort_Permutation. Qed.

Section Executors_facts.

Context `{Collaborators}.

Implicit Types (s : DirectSession) (a : RunStateArgs).

Lemma emplace_spec {V} k (v : V) (m : gmap string V) m' v' b :
  emplace k v m = (m', v', b) →
  m' !! k = Some v' ∧ m ⊆ m' ∧
  (∀ k', k' ≠ k → m' !! k' = m !! k') ∧
  (m !! k = None → v' = v ∧ b = true) ∧
  (∀ w, m !! k = Some w → v' = w ∧ m' = m ∧ b = false).
Proof.
  unfold emplace. destruct (m !! k) as [w|] eqn:E; intros [= <- <- <-].
  - split_and!; try done. by intros ? [= ->].
  - rewrite lookup_insert_eq. split_and!; try done.
    + by apply insert_subseteq.
    + intros k' ?. by rewrite lookup_insert_ne.
Qed.

Lemma CreateExecutors_status s options a st ek a' :
  CreateExecutors s options a = (st, ek, a') →
  (is_Some ek ↔ st = OK) ∧ is_partial_run a' = is_partial_run a.
Proof.
  assert (Hno : ∀ st', ok st' = false → is_Some (@None ExecutorsAndKeys) ↔ st' = OK).
  { intros st' Hst'. split; [by intros [? ?]|by intros ->]. }
  unfold CreateExecutors.
  destruct (CreateGraphs s options a) as [[[st0 parts] cg] a0] eqn:Hcg.
  assert (Ha0 : is_partial_run a0 = is_partial_run a).
  { revert Hcg. unfold CreateGraphs.
    destruct (BuildGraph _ _ _) as [stb cgb].
    destruct (negb (ok stb)); [by intros [= <- <- <- <-]|].
    destruct (negb (bool_decide _)); [by intros [= <- <- <- <-]|].
    destruct (negb (bool_decide _)); [by intros [= <- <- <- <-]|].
    destruct (PartitionGraphs cgb) as [stp ps].
    intros [= <- <- <- <-]. by destruct (is_partial_run a) eqn:E. }
  destruct (ok st0) eqn:Hok0; simpl.
  2:{ intros [= <- <- <-]. split; [by apply Hno|done]. }
  destruct (create_items _ _ _) as [st2 its].
  destruct (ok st2) eqn:Hok2; simpl; intros [= <- <- <-];
    (split; [|done]).
  - split; [|by eexists]. intros _. by destruct st2.
  - by apply Hno.
Qed.

(** What a successful lookup-or-create leaves in the cache: the request's
    exact-order key answers with the returned object, nothing that was
    cached is changed, every new entry is the returned object, and
    unless the exact-order key was already cached the sorted key answers
    with the same object. *)
Lemma GetOrCreateExecutors_cached s inputs outputs target_nodes a
      ek_addr a' s' :
  GetOrCreateExecutors s inputs outputs target_nodes a
    = (OK, ek_addr, a', s') →
  executors_ s' !! request_key inputs outputs target_nodes a
    = Some ek_addr ∧
  executors_ s ⊆ executors_ s' ∧
  (∀ k v, executors_ s' !! k = Some v →
          executors_ s !! k = Some v ∨ v = ek_addr) ∧
  (executors_ s !! request_key inputs outputs target_nodes a = None →
   executors_ s' !! request_sorted_key inputs outputs target_nodes a
     = Some ek_addr).
Proof.
  unfold GetOrCreateExecutors, request_sorted_key, request_key.
  set (key := executors_key inputs _ _ _ _).
  set (a1 := if 0 <=? _ then set_handle _ a else a).
  assert (Ha1 : is_partial_run a1 = is_partial_run a)
    by (unfold a1; by destruct (0 <=? _)).
  rewrite Ha1. clearbody a1.
  set (skey := executors_key (std_sort inputs) _ _ _ _).
  set (s0 := if _ || _ then _ else s).
  assert (Hs0 : executors_ s0 = executors_ s ∧ heap_ s0 = heap_ s)
    by (unfold s0; by destruct (_ || _)).
  destruct Hs0 as [Hs0 Hh0]. rewrite Hs0.
  destruct (executors_ s !! key) as [e|] eqn:Hfast.
  { intros [= <- <- <-]. rewrite Hs0. split_and!; try done. by left. }
  destruct (executors_ s !! skey) as [e|] eqn:Hslow.
  { destruct (emplace key e (executors_ s)) as [[m v] b] eqn:Hem.
    intros [= <- <- <-]. simpl.
    apply emplace_spec in Hem as (Hk & Hsub & Hoth & Hnew & _).
    destruct (Hnew Hfast) as [-> _].
    split_and!; try done.
    - intros k v' Hv'. destruct (decide (k = key)) as [->|Hne].
      + right. congruence.
      + left. by rewrite <- Hoth.
    - intros _. destruct (decide (skey = key)) as [Heq|Hne];
        [by rewrite Heq|]. by rewrite Hoth. }
  unfold GetOrCreateExecutors_create.
  destruct (CreateExecutors _ _ _) as [[st [ek|]] a2] eqn:Hce.
  2:{ apply CreateExecutors_status in Hce as [[_ Hst] _].
      intros [= -> _ _ _]. by destruct (Hst eq_refl). }
  simpl. rewrite Hs0.
  destruct (emplace skey _ (executors_ s)) as [[m1 v1] b1] eqn:Hem1.
  destruct (emplace key v1 m1) as [[m2 v2] b2] eqn:Hem2.
  intros [= <- <- Hs'].
  assert (Hex : executors_ s' = m2) by (rewrite <- Hs'; by destruct b1).
  apply emplace_spec in Hem1 as (Hk1 & Hsub1 & Hoth1 & Hnew1 & _).
  apply emplace_spec in Hem2 as (Hk2 & Hsub2 & Hoth2 & Hnew2 & Hold2).
  rewrite Hex.
  assert (Hv2 : v2 = v1).
  { destruct (m1 !! key) as [w|] eqn:E.
    - destruct (decide (key = skey)) as [Heq|Hne].
      + destruct (Hold2 w eq_refl) as [-> _]. rewrite Heq in E. congruence.
      + rewrite Hoth1 in E by done. congruence.
    - by destruct (Hnew2 eq_refl). }
  subst v2. split_and!.
  - done.
  - by etrans.
  - intros k v Hv. destruct (decide (k = key)) as [->|Hne];
      [right; congruence|].
    rewrite Hoth2 in Hv by done.
    destruct (decide (k = skey)) as [->|Hne']; [right; congruence|].
    left. by rewrite <- Hoth1.
  - intros _. by eapply lookup_weaken.
Qed.

(** A request whose exact-order key or sorted key is cached gets the
    cached object, and no executors are created. *)
Lemma GetOrCreateExecutors_hit s inputs outputs target_nodes a ek_addr :
  executors_ s !! request_key inputs outputs target_nodes a = Some ek_addr ∨
  (executors_ s !! request_key inputs outputs target_nodes a = None ∧
   executors_ s !! request_sorted_key inputs outputs target_nodes a
     = Some ek_addr) →
  ∃ a' s',
    GetOrCreateExecutors s inputs outputs target_nodes a
      = (OK, ek_addr, a', s') ∧
    heap_ s' = heap_ s ∧ functions_ s' = functions_ s.
Proof.
  unfold GetOrCreateExecutors, request_sorted_key, request_key.
  set (key := executors_key inputs _ _ _ _).
  set (a1 := if 0 <=? _ then set_handle _ a else a).
  assert (Ha1 : is_partial_run a1 = is_partial_run a)
    by (unfold a1; by destruct (0 <=? _)).
  rewrite Ha1.
  set (skey := executors_key (std_sort inputs) _ _ _ _).
  set (s0 := if _ || _ then _ else s).
  assert (Hs0 : executors_ s0 = executors_ s ∧ heap_ s0 = heap_ s ∧
                functions_ s0 = functions_ s)
    by (unfold s0; by destruct (_ || _)).
  destruct Hs0 as (Hs0 & Hh0 & Hf0). rewrite Hs0.
  intros [Hfast|[Hfast Hslow]]; rewrite Hfast; [by eauto|].
  rewrite Hslow.
  destruct (emplace key ek_addr (executors_ s)) as [[m v] b].
  by eauto.
Qed.

Lemma request_sorted_key_Permutation inputs outputs target_nodes
      inputs' outputs' target_nodes' a :
  inputs ≡ₚ inputs' → outputs ≡ₚ outputs' → target_nodes ≡ₚ target_nodes' →
  request_sorted_key inputs outputs target_nodes a =
  request_sorted_key inputs' outputs' target_nodes' a.
Proof.
  intros Hi Ho Ht. unfold request_sorted_key.
  by rewrite (std_sort_Permutation _ _ Hi), (std_sort_Permutation _ _ Ho),
             (std_sort_Permutation _ _ Ht).
Qed.

(** On a cache that is coherent for a request and for a permutation of
    it, the permuted request is answered with the object that answered
    the request, without creating executors; afterwards the
    exact-order keys of both and their common sorted key name that one
    object. *)
Theorem GetOrCreateExecutors_reuses_for_permutation
    s inputs outputs target_nodes inputs' outputs' target_nodes' a
    ek_addr a1 s1 :
  inputs ≡ₚ inputs' → outputs ≡ₚ outputs' → target_nodes ≡ₚ target_nodes' →
  cache_coherent_for s inputs outputs target_nodes a →
  cache_coherent_for s inputs' outputs' target_nodes' a →
  GetOrCreateExecutors s inputs outputs target_nodes a
    = (OK, ek_addr, a1, s1) →
  ∃ a2 s2,
    GetOrCreateExecutors s1 inputs' outputs' target_nodes' a
      = (OK, ek_addr, a2, s2) ∧
    heap_ s2 = heap_ s1 ∧ functions_ s2 = functions_ s1 ∧
    executors_ s2 !! request_key inputs outputs target_nodes a
      = Some ek_addr ∧
    executors_ s2 !! request_key inputs' outputs' target_nodes' a
      = Some ek_addr ∧
    executors_ s2 !! request_sorted_key inputs outputs target_nodes a
      = Some ek_addr.
Proof.
  intros Hi Ho Ht Hcoh Hcoh' Hrun.
  pose proof (request_sorted_key_Permutation _ _ _ _ _ _ a Hi Ho Ht) as Hsk.
  apply GetOrCreateExecutors_cached in Hrun as (Hkey & Hsub & Hnew & Hmiss).
  assert (Hskey : executors_ s1 !! request_sorted_key inputs outputs
                                    target_nodes a = Some ek_addr).
  { destruct (executors_ s !! request_key inputs outputs target_nodes a)
      as [e|] eqn:E; [|by apply Hmiss].
    pose proof (lookup_weaken _ _ _ _ E Hsub) as E'.
    assert (e = ek_addr) as -> by congruence.
    eapply lookup_weaken; [by apply Hcoh|done]. }
  assert (Hor :
    executors_ s1 !! request_key inputs' outputs' target_nodes' a
      = Some ek_addr ∨
    (executors_ s1 !! request_key inputs' outputs' target_nodes' a = None ∧
     executors_ s1 !! request_sorted_key inputs' outputs' target_nodes' a
       = Some ek_addr)).
  { destruct (executors_ s1 !! request_key inputs' outputs' target_nodes' a)
      as [e'|] eqn:E'; [left|right; by rewrite <- Hsk].
    destruct (Hnew _ _ E') as [Hold| ->]; [|done].
    apply Hcoh' in Hold. rewrite <- Hsk in Hold.
    pose proof (lookup_weaken _ _ _ _ Hold Hsub). congruence. }
  destruct (GetOrCreateExecutors_hit _ _ _ _ _ _ Hor)
    as (a2 & s2 & Hrun2 & Hh & Hf).
  exists a2, s2. split_and!; try done.
  all: apply GetOrCreateExecutors_cached in Hrun2
      as (Hkey2 & Hsub2 & _ & _); try done.
  all: by eapply lookup_weaken.
Qed.

End Executors_facts.

Section RendezvousKey.

Context `{Collaborators}.

Lemma lookup_name_to_rendezvous_key (s : DirectSession) names n :
  name_to_rendezvous_key s names !! n =
  if decide (n ∈ names)
  then Some (GetRendezvousKey n (client_device s)
                              {| frame_id := 0; iter_id := 0 |})
  else None.
Proof.
  unfold name_to_rendezvous_key.
  set (f := λ name, GetRendezvousKey name (client_device s)
                                     {| frame_id := 0; iter_id := 0 |}).
  enough (Hgen : ∀ m0 : gmap string string,
             foldl (λ m name, <[name := f name]> m) m0 names !! n =
             if decide (n ∈ names) then Some (f n) else m0 !! n).
  { rewrite Hgen. by case_decide. }
  induction names as [|n' names IH]; intros m0; cbn [foldl].
  - by rewrite decide_False by apply not_elem_of_nil.
  - rewrite IH. destruct (decide (n ∈ names)) as [Hin|Hnin].
    + by rewrite decide_True by (by right).
    + destruct (decide (n = n')) as [->|Hne].
      * rewrite lookup_insert_eq. by rewrite decide_True by (by left).
      * rewrite lookup_insert_ne by done. rewrite decide_False; [done|].
        by intros [?|?]%elem_of_cons.
Qed.

Lemma GetRendezvousKey_format tensor_name device_info :
  GetRendezvousKey tensor_name device_info {| frame_id := 0; iter_id := 0 |}
  = device_name device_info +:+ ";" +:+
    FpToString (incarnation device_info) +:+ ";" +:+
    device_name device_info +:+ ";" +:+ tensor_name +:+ ";0:0".
Proof. reflexivity. Qed.

(** C7.  The executors of a partial run store, for every feed name and
    every fetch name of the request and for no other name, the rendezvous
    key "{device};{hex(incarnation)};{device};{tensor_name};0:0" built
    from the attributes of the client device, the first device of the
    session. *)
Theorem partial_run_rendezvous_keys
    (s : DirectSession) (options : CallableOptions) (a a' : RunStateArgs)
    (ek : ExecutorsAndKeys) :
  is_partial_run a = true →
  CreateExecutors s options a = (OK, Some ek, a') →
  let client := client_device s in
  let expected tensor_name :=
    device_name client +:+ ";" +:+ FpToString (incarnation client) +:+ ";"
    +:+ device_name client +:+ ";" +:+ tensor_name +:+ ";0:0" in
  (∀ n key, input_name_to_rendezvous_key ek !! n = Some key ↔
            n ∈ feed options ∧ key = expected n) ∧
  (∀ n key, output_name_to_rendezvous_key ek !! n = Some key ↔
            n ∈ fetch options ∧ key = expected n).
Proof.
  intros Hp Hce client expected.
  assert (Hpart : ∀ a0, is_partial_run a0 = is_partial_run a →
                        is_partial_run a0 = true) by (intros; congruence).
  revert Hce. unfold CreateExecutors.
  destruct (CreateGraphs s options a) as [[[st0 parts] cg] a0] eqn:Hcg.
  assert (Ha0 : is_partial_run a0 = true).
  { revert Hcg. unfold CreateGraphs.
    destruct (BuildGraph _ _ _) as [stb cgb].
    destruct (negb (ok stb)); [by intros [= <- <- <- <-]|].
    destruct (negb (bool_decide _)); [by intros [= <- <- <- <-]|].
    destruct (negb (bool_decide _)); [by intros [= <- <- <- <-]|].
    destruct (PartitionGraphs cgb) as [stp ps].
    intros [= <- <- <- <-]. by rewrite Hp. }
  destruct (negb (ok st0)); [done|].
  destruct (create_items _ _ _) as [st2 its].
  destruct (negb (ok st2)); [done|].
  rewrite Ha0. intros [= _ <- _]. simpl.
  split; intros n key; rewrite lookup_name_to_rendezvous_key;
    rewrite GetRendezvousKey_format; fold client; fold (expected n);
    case_decide; naive_solver.
Qed.

End RendezvousKey.

(** The keys of the sum-graph partial run in the small world. *)
Lemma partial_run_rendezvous_keys_witness :
  is_partial_run partial_args = true ∧
  (∃ ek a',
     @CreateExecutors toy_world (toy_session (Some sum_graph)) sum_options
                      partial_args = (OK, Some ek, a') ∧
     input_name_to_rendezvous_key ek !! "a:0" =
       Some "/job:localhost/replica:0/task:0/device:CPU:0;0000000000000001;/job:localhost/replica:0/task:0/device:CPU:0;a:0;0:0" ∧
     output_name_to_rendezvous_key ek !! "t:0" =
       Some "/job:localhost/replica:0/task:0/device:CPU:0;0000000000000001;/job:localhost/replica:0/task:0/device:CPU:0;t:0;0:0").
Proof.
  split; [reflexivity|].
  destruct (@CreateExecutors toy_world (toy_session (Some sum_graph))
              sum_options partial_args) as [[st [ek|]] a'] eqn:Hce;
    [|by vm_compute in Hce].
  assert (st = OK) as -> by (vm_compute in Hce; congruence).
  exists ek, a'. split; [reflexivity|].
  destruct (@partial_run_rendezvous_keys toy_world
              (toy_session (Some sum_graph)) sum_options partial_args a' ek
              eq_refl Hce) as [Hin Hout].
  split; [apply Hin|apply Hout]; (split; [|reflexivity]);
    repeat first [apply list_elem_of_here | apply list_elem_of_further].
Defined.


(** ** The worked scenarios in the small world *)

Section Scenarios.

#[local] Existing Instance toy_world.

Lemma sum_setup_ok : sum_setup.1 = (OK, sum_handle).
Proof. vm_compute. reflexivity. Qed.

(** Scenario 3 of the specification, call by call. *)
Example scenario3_feed_a :
  PRun sum_session prompt_fate sum_handle [("a:0", 3)] [] []
  = Some (OK, [], sum_session_fed_a).
Proof.
  assert (Hres : (λ r, r.1) <$> PRun sum_session prompt_fate sum_handle
                                     [("a:0", 3)] [] [] = Some (OK, []))
    by (vm_compute; reflexivity).
  unfold sum_session_fed_a.
  destruct (PRun sum_session prompt_fate sum_handle [("a:0", 3)] [] [])
    as [[[st outputs] s]|]; [|done].
  by injection Hres as -> ->.
Qed.

Example scenario3_feed_b_fetch_s :
  (λ r, r.1) <$> PRun sum_session_fed_a prompt_fate sum_handle
                      [("b:0", 4)] ["s:0"] []
  = Some (OK, [7]).
Proof. vm_compute. reflexivity. Qed.

Example scenario3_fetch_t_then_feed_a_again :
  ('(_, _, s) ← PRun sum_session_fed_a prompt_fate sum_handle
                     [("b:0", 4)] ["s:0"] [];
   '(st, outputs, s) ← PRun s prompt_fate sum_handle [] ["t:0"] [];
   '(st', _, _) ← PRun s prompt_fate sum_handle [("a:0", 1)] [] [];
   Some (st, outputs, st'))
  = Some (OK, [14], INVALID_ARGUMENT).
Proof. vm_compute. reflexivity. Qed.

(** Scenario 4: [b:0] is pending and reachable from [s:0]. *)
Example scenario4_rejected :
  (λ r, r.1) <$> PRun sum_session prompt_fate sum_handle
                      [("a:0", 1)] ["s:0"] []
  = Some (INVALID_ARGUMENT, []).
Proof. vm_compute. reflexivity. Qed.

(** The handle of the sum-graph partial run resolves. *)
Lemma sum_handle_resolves (s : DirectSession) :
  (ek ← heap_ s !! 0%nat; run_state ← partial_runs_ s !! sum_handle;
   Some ()) = Some () →
  ∃ ek run_state,
    heap_ s !! 0%nat = Some ek ∧ partial_runs_ s !! sum_handle = Some run_state.
Proof.
  destruct (heap_ s !! 0%nat) as [ek|]; [|done].
  destruct (partial_runs_ s !! sum_handle) as [run_state|]; [|done].
  intros _. by exists ek, run_state.
Qed.

Lemma PRun_rejects_unknown_and_used_names_witness :
  closed_ sum_session = false ∧
  executors_ sum_session !! Split_first sum_handle = Some 0%nat ∧
  (∃ ek run_state,
     heap_ sum_session !! 0%nat = Some ek ∧
     partial_runs_ sum_session !! sum_handle = Some run_state) ∧
  PRun sum_session prompt_fate sum_handle [("c:0", 5)] [] []
    = Some (INVALID_ARGUMENT, [], sum_session) ∧
  PRun sum_session prompt_fate sum_handle [] ["u:0"] []
    = Some (INVALID_ARGUMENT, [], sum_session) ∧
  PRun sum_session_fed_a prompt_fate sum_handle [("b:0", 4); ("a:0", 1)] [] []
    = Some (INVALID_ARGUMENT, [], sum_session_fed_a).
Proof.
  assert (Hc : closed_ sum_session = false) by (vm_compute; reflexivity).
  assert (Ha : executors_ sum_session !! Split_first sum_handle = Some 0%nat)
    by (vm_compute; reflexivity).
  destruct (sum_handle_resolves sum_session) as (ek & run_state & Hek & Hrs);
    [vm_compute; reflexivity|].
  assert (Hpi : (r ← partial_runs_ sum_session !! sum_handle;
                 Some (pending_inputs r !! "c:0")) = Some None)
    by (vm_compute; reflexivity).
  assert (Hpo : (r ← partial_runs_ sum_session !! sum_handle;
                 Some (pending_outputs r !! "u:0")) = Some None)
    by (vm_compute; reflexivity).
  rewrite Hrs in Hpi, Hpo. simpl in Hpi, Hpo.
  injection Hpi as Hpi. injection Hpo as Hpo.
  destruct (PRun_rejects_unknown_and_used_names sum_session sum_handle 0%nat
              ek run_state Hc Ha Hek Hrs) as [Hreject Hreuse].
  split; [exact Hc|]. split; [exact Ha|].
  split; [by exists ek, run_state|].
  split; [|split].
  - apply Hreject. left. exists "c:0". split; [by left|by left].
  - apply Hreject. right. exists "u:0". split; [by left|by left].
  - apply (Hreuse prompt_fate [("a:0", 3)] [] [] [] sum_session_fed_a
                  sum_session_fed_a "a:0").
    + exact scenario3_feed_a.
    + constructor.
    + left. split; [by left|]. right. by left.
Defined.

Lemma PRun_failure_erases_or_leaves_unchanged_witness :
  closed_ sum_session_aborted = false ∧
  executors_ sum_session_aborted !! Split_first sum_handle = Some 0%nat ∧
  (∃ ek run_state,
     heap_ sum_session_aborted !! 0%nat = Some ek ∧
     partial_runs_ sum_session_aborted !! sum_handle = Some run_state) ∧
  (* rejected by CheckFetch: nothing changes *)
  PRun sum_session_aborted prompt_fate sum_handle [("a:0", 1)] ["s:0"] []
    = Some (INVALID_ARGUMENT, [], sum_session_aborted) ∧
  (* the send fails on the aborted rendezvous: the run is erased *)
  (∃ s', PRun sum_session_aborted prompt_fate sum_handle [("a:0", 1)] [] []
           = Some (ABORTED, [], s') ∧
         partial_runs_ s' !! sum_handle = None ∧
         PRun s' prompt_fate sum_handle [("b:0", 1)] [] []
           = Some (INVALID_ARGUMENT, [], s')) ∧
  (* both feeds are in and the receive of [s:0] fails: the run is erased *)
  (∃ s', PRun sum_session_fed_aborted prompt_fate sum_handle [] ["s:0"] []
           = Some (ABORTED, [], s') ∧
         partial_runs_ s' !! sum_handle = None ∧
         PRun s' prompt_fate sum_handle [] ["t:0"] []
           = Some (INVALID_ARGUMENT, [], s')) ∧
  (* [s:0] is received, [t:0] is dead: the call fails, the run is erased *)
  (∃ s', @PRun dead_world dead_sum_session prompt_fate sum_handle
           [("a:0", 3); ("b:0", 4)] ["s:0"; "t:0"] []
           = Some (INVALID_ARGUMENT, [], s') ∧
         @partial_runs_ dead_world s' !! sum_handle = None ∧
         @PRun dead_world s' prompt_fate sum_handle [] ["t:0"] []
           = Some (INVALID_ARGUMENT, [], s')).
Proof.
  assert (Hc : closed_ sum_session_aborted = false)
    by (vm_compute; reflexivity).
  assert (Ha : executors_ sum_session_aborted !! Split_first sum_handle
               = Some 0%nat) by (vm_compute; reflexivity).
  destruct (sum_handle_resolves sum_session_aborted)
    as (ek & run_state & Hek & Hrs); [vm_compute; reflexivity|].
  (* what the checks of the two calls answer *)
  assert (Hchecks :
    (ek ← heap_ sum_session_aborted !! 0%nat;
     r ← partial_runs_ sum_session_aborted !! sum_handle;
     Some (check_pending [("a:0", 1)].*1 (pending_inputs r),
           check_pending ["s:0"] (pending_outputs r),
           check_pending [] (pending_outputs r),
           CheckFetch ParseTensorName Tensor [("a:0", 1)] ["s:0"]
             (default {| nodes := [] |} (graph ek)) (name_to_node ek)
             (pending_inputs r),
           CheckFetch ParseTensorName Tensor [("a:0", 1)] []
             (default {| nodes := [] |} (graph ek)) (name_to_node ek)
             (pending_inputs r)))
    = Some (OK, OK, OK, Some INVALID_ARGUMENT, Some OK))
    by (vm_compute; reflexivity).
  rewrite Hek, Hrs in Hchecks. simpl in Hchecks.
  injection Hchecks as Hfeeds Hfetches Hcf Hcf'.
  assert (Hnone : check_pending [] (pending_outputs run_state) = OK)
    by reflexivity.
  split; [exact Hc|]. split; [exact Ha|].
  split; [by exists ek, run_state|].
  split; [|split; [|split]].
  - destruct (PRun_failure_erases_or_leaves_unchanged sum_session_aborted
                prompt_fate sum_handle [("a:0", 1)] ["s:0"] [] 0%nat ek
                run_state Hc Ha Hek Hrs) as (_ & _ & Hrej & _).
    by apply Hrej.
  - destruct (PRun_failure_erases_or_leaves_unchanged sum_session_aborted
                prompt_fate sum_handle [("a:0", 1)] [] [] 0%nat ek
                run_state Hc Ha Hek Hrs) as (_ & _ & _ & Hex & _).
    destruct (Hex Hfeeds Hnone Hcf') as [Hret Herase].
    destruct Hret as [[[st outputs'] s'] Hrun]; [by eexists|].
    assert (Hres : (λ r, r.1) <$> PRun sum_session_aborted prompt_fate
                     sum_handle [("a:0", 1)] [] [] = Some (ABORTED, []))
      by (vm_compute; reflexivity).
    rewrite Hrun in Hres. injection Hres as -> ->.
    exists s'. split; [exact Hrun|].
    destruct (Herase ABORTED [] s' Hrun) as [Hgone Hlater]; [done|].
    split; [exact Hgone|].
    apply Hlater. constructor.
  - clear ek run_state Hek Hrs Hfeeds Hfetches Hcf Hcf' Hnone.
    assert (Hc' : closed_ sum_session_fed_aborted = false)
      by (vm_compute; reflexivity).
    assert (Ha' : executors_ sum_session_fed_aborted
                    !! Split_first sum_handle = Some 0%nat)
      by (vm_compute; reflexivity).
    assert (Hfacts :
      (ek ← heap_ sum_session_fed_aborted !! 0%nat;
       r ← partial_runs_ sum_session_fed_aborted !! sum_handle;
       Some (check_pending ["s:0"] (pending_outputs r),
             CheckFetch ParseTensorName Tensor [] ["s:0"]
               (default {| nodes := [] |} (graph ek)) (name_to_node ek)
               (pending_inputs r),
             (RecvPRunOutputs sum_session_fed_aborted ["s:0"] ek
                (set_rendez
                   (SendPRunInputs sum_session_fed_aborted [] ek
                      (rendez r)).2 r) []).1.1,
             (RecvPRunOutputs sum_session_fed_aborted ["s:0"] ek
                (set_rendez
                   (SendPRunInputs sum_session_fed_aborted [] ek
                      (rendez r)).2 r) []).2))
      = Some (OK, Some OK, ABORTED, []))
      by (vm_compute; reflexivity).
    apply bind_Some in Hfacts as (ek & Hek & Hfacts).
    apply bind_Some in Hfacts as (run_state & Hrs & Hfacts).
    apply (inj Some) in Hfacts.
    apply pair_equal_spec in Hfacts as [Hfacts Houts].
    apply pair_equal_spec in Hfacts as [Hfacts Hst].
    apply pair_equal_spec in Hfacts as [Hfetches Hcf].
    assert (Hfeeds : check_pending ([] : NamedTensorList).*1
                       (pending_inputs run_state) = OK) by reflexivity.
    destruct (PRun_failure_erases_or_leaves_unchanged sum_session_fed_aborted
                prompt_fate sum_handle [] ["s:0"] [] 0%nat ek
                run_state Hc' Ha' Hek Hrs) as (_ & _ & _ & Hex & Hfail).
    destruct (Hex Hfeeds Hfetches Hcf) as [Hret Herase].
    destruct Hret as [[[st outputs'] s'] Hrun]; [by eexists|].
    destruct (Hfail Hfeeds Hfetches Hcf st outputs' s' Hrun)
      as (_ & Hrecv & _).
    destruct Hrecv as (Est & Eouts & Hgone);
      [reflexivity
      |intros Eok; discriminate (eq_trans (eq_sym Hst) Eok)|].
    assert (Est' : st = ABORTED) by exact (eq_trans Est Hst).
    assert (Eouts' : outputs' = []) by exact (eq_trans Eouts Houts).
    clear Est Eouts. subst st outputs'.
    exists s'. split; [exact Hrun|]. split; [exact Hgone|].
    destruct (Herase ABORTED [] s' Hrun) as [_ Hlater]; [done|].
    apply Hlater. constructor.
  - clear ek run_state Hek Hrs Hfeeds Hfetches Hcf Hcf' Hnone.
    assert (Hc' : @closed_ dead_world dead_sum_session = false)
      by (vm_compute; reflexivity).
    assert (Ha' : @executors_ dead_world dead_sum_session
                    !! Split_first sum_handle = Some 0%nat)
      by (vm_compute; reflexivity).
    assert (Hfacts :
      (ek ← @heap_ dead_world dead_sum_session !! 0%nat;
       r ← @partial_runs_ dead_world dead_sum_session !! sum_handle;
       key ← output_name_to_rendezvous_key ek !! "t:0";
       let sent :=
         @SendPRunInputs dead_world dead_sum_session
           [("a:0", 3); ("b:0", 4)] ek (@rendez dead_world r) in
       let got :=
         @RecvPRunOutputs_loop dead_world dead_sum_session ["s:0"] 0%nat ek
           sent.2
           (resize (length ["s:0"; "t:0"]) (@empty_tensor dead_world) []) in
       let received :=
         @Recv dead_world got.1.2 key
           (@operation_timeout_in_ms_ dead_world dead_sum_session) in
       Some (check_pending [("a:0", 3); ("b:0", 4)].*1
               (@pending_inputs dead_world r),
             check_pending ["s:0"; "t:0"] (@pending_outputs dead_world r),
             CheckFetch (@ParseTensorName dead_world) (@Tensor dead_world)
               [("a:0", 3); ("b:0", 4)] ["s:0"; "t:0"]
               (default {| nodes := [] |} (graph ek)) (name_to_node ek)
               (@pending_inputs dead_world r),
             sent.1, got.1.1, received.1.1.1, received.1.2))
      = Some (OK, OK, Some OK, OK, OK, OK, true))
      by (vm_compute; reflexivity).
    apply bind_Some in Hfacts as (ek & Hek & Hfacts).
    apply bind_Some in Hfacts as (run_state & Hrs & Hfacts).
    apply bind_Some in Hfacts as (key & Hkey & Hfacts).
    cbv zeta in Hfacts.
    apply (inj Some) in Hfacts.
    apply pair_equal_spec in Hfacts as [Hfacts Hdead].
    apply pair_equal_spec in Hfacts as [Hfacts Hst_r].
    apply pair_equal_spec in Hfacts as [Hfacts Hpre].
    apply pair_equal_spec in Hfacts as [Hfacts Hsent].
    apply pair_equal_spec in Hfacts as [Hfacts Hcf].
    apply pair_equal_spec in Hfacts as [Hfeeds Hfetches].
    destruct (@RecvPRunOutputs_loop dead_world dead_sum_session ["s:0"]
                0%nat ek
                (@SendPRunInputs dead_world dead_sum_session
                   [("a:0", 3); ("b:0", 4)] ek
                   (@rendez dead_world run_state)).2
                (resize (length ["s:0"; "t:0"]) (@empty_tensor dead_world)
                        [])) as [[st_pre r] outs] eqn:Hloop.
    cbn [fst snd] in Hpre, Hdead, Hst_r. subst st_pre.
    destruct (@Recv dead_world r key
                (@operation_timeout_in_ms_ dead_world dead_sum_session))
      as [[[st_r t] is_dead] r'] eqn:Hrecv.
    cbn [fst snd] in Hdead, Hst_r. subst is_dead st_r.
    destruct (@PRun_failure_erases_or_leaves_unchanged dead_world
                dead_sum_session prompt_fate sum_handle [("a:0", 3); ("b:0", 4)]
                ["s:0"; "t:0"] [] 0%nat ek
                run_state Hc' Ha' Hek Hrs) as (_ & _ & _ & Hex & Hfail).
    destruct (Hex Hfeeds Hfetches Hcf) as [Hret Herase].
    destruct Hret as [[[st outputs'] s'] Hrun]; [by eexists|].
    destruct (Hfail Hfeeds Hfetches Hcf st outputs' s' Hrun)
      as (_ & _ & Hdeadfetch).
    destruct (Hdeadfetch Hsent ["s:0"] "t:0" [] r outs key OK t true r')
      as (Est & Hne & Eouts & Hgone);
      [reflexivity|exact Hloop|exact Hkey|reflexivity|exact Hrecv
      |by right|].
    simpl in Est. subst st outputs'.
    exists s'. split; [exact Hrun|]. split; [exact Hgone|].
    destruct (Herase INVALID_ARGUMENT [] s' Hrun) as [_ Hlater]; [done|].
    apply Hlater. constructor.
Defined.

(** C1.  The cache key is the plain concatenation of the three lists with
    "," "->" and "/" between them, and "/" may occur in a node name.  The
    requests (fetches z, a/b; target c) and (fetches z, a; target b/c) have
    the same exact-order key.  After the first has been served, the second
    is answered on the fast path with the executors of the first, and its
    permutation (fetches a, z; target b/c) misses both keys and gets newly
    created executors: the request and its permutation do not share one
    cached object, and the exact-order key and the sorted key of the
    request name different objects. *)
Theorem GetOrCreateExecutors_key_collision :
  request_key [] ["z"; "a/b"] ["c"] run_args
    = request_key [] ["z"; "a"] ["b/c"] run_args ∧
  ["a"; "z"] ≡ₚ ["z"; "a"] ∧
  collision_first.1.1 = (OK, 0%nat) ∧
  collision_second.1.1 = (OK, 0%nat) ∧
  collision_permuted.1.1 = (OK, 1%nat) ∧
  executors_ collision_permuted.2
    !! request_key [] ["z"; "a"] ["b/c"] run_args = Some 0%nat ∧
  executors_ collision_permuted.2
    !! request_sorted_key [] ["z"; "a"] ["b/c"] run_args = Some 1%nat.
Proof.
  split; [reflexivity|]. split; [apply Permutation_swap|].
  repeat split; vm_compute; reflexivity.
Qed.

End Scenarios.


(** ** The latches *)

Section Latches.

Context `{Collaborators}.

Implicit Types (s : DirectSession).

Lemma latches_grow_refl s : latches_grow s s.
Proof. split_and!; auto. Qed.

Lemma latches_grow_trans s1 s2 s3 :
  latches_grow s1 s2 → latches_grow s2 s3 → latches_grow s1 s3.
Proof.
  intros (? & ? & ? & ? & ?) (? & ? & ? & ? & ?).
  split_and!; [congruence|auto..].
Qed.

Lemma latches_eq_grow s s' : latches s' = latches s → latches_grow s s'.
Proof.
  unfold latches, latches_grow, graph_state_ok. intros [= H1 H2 H3 H4 H5].
  rewrite H1, H2, H3, H4, H5. split_and!; auto.
Qed.

Lemma GetOrCreateExecutors_latches s inputs outputs target_nodes a st e a' s' :
  GetOrCreateExecutors s inputs outputs target_nodes a = (st, e, a', s') →
  latches s' = latches s.
Proof.
  unfold GetOrCreateExecutors, GetOrCreateExecutors_create, emplace.
  repeat case_match; intros; simplify_eq; done.
Qed.

Lemma WaitForNotification_cancels fate run_state cm timeout run_state' cm' :
  WaitForNotification fate run_state cm timeout = Some (run_state', cm') →
  is_cancelled cm = true → is_cancelled cm' = true.
Proof.
  unfold WaitForNotification. intros Hw Hc.
  destruct (WaitForNotification_status _ _ _ _) as [[st rs]|]; [|done].
  simpl in Hw. destruct (negb (ok st)).
  - destruct (Notification_Wait _ _ _); simplify_eq/=; done.
  - simplify_eq. by destruct (cancelled_meanwhile fate).
Qed.

Lemma RunInternal_latches s step_id run_options ek_addr threadpool_options
      env st report s' :
  RunInternal s step_id run_options ek_addr threadpool_options env
    = Some (st, report, s') →
  latches_grow s s'.
Proof.
  unfold RunInternal, RunInternal_finish.
  destruct (heap_ s !! ek_addr) as [ek|]; [|done]. simpl.
  repeat case_match; intros; simplify_option_eq;
    repeat case_match; simplify_eq; split_and!; auto.
Qed.

Lemma Run_latches s run_options inputs output_names target_nodes outputs env
      st outputs' s' :
  Run s run_options inputs output_names target_nodes outputs env
    = Some (st, outputs', s') →
  latches_grow s s'.
Proof.
  unfold Run.
  destruct (negb (ok (CheckNotClosed s)));
    [intros [= <- <- <-]; apply latches_grow_refl|].
  destruct (negb (ok (CheckGraphCreated s)));
    [intros [= <- <- <-]; apply latches_grow_refl|].
  destruct (GetOrCreateExecutors _ _ _ _ _) as [[[st0 e] a'] s0] eqn:Hg.
  apply GetOrCreateExecutors_latches, latches_eq_grow in Hg.
  destruct (negb (ok st0)); [by intros [= <- <- <-]|].
  destruct (heap_ s0 !! e) as [ek|]; [|done]. simpl.
  destruct (fill_feed_args _ _ _ _) as [[st1 fa] idx].
  set (s1 := set_heap_ _ _).
  assert (H1 : latches_grow s s1) by (destruct Hg as (? & ? & ? & ? & ?); done).
  destruct (negb (ok st1)); [by intros [= <- <- <-]|].
  destruct (IsInternal _); [by intros [= <- <- <-]|].
  destruct (negb (ok _)); [by intros [= <- <- <-]|].
  set (s2 := set_step_id_counter_ _ _).
  destruct (RunInternal s2 _ _ _ _ _) as [[[st3 rep] s3]|] eqn:Hr; [|done].
  apply RunInternal_latches in Hr. simpl.
  assert (H3 : latches_grow s s3)
    by (eapply latches_grow_trans; [exact H1|exact Hr]).
  destruct (negb (ok st3)); [by intros [= <- <- <-]|].
  destruct outputs as [prev|]; [|by intros [= <- <- <-]].
  destruct (heap_ s3 !! e) as [ek'|]; [|done]. simpl.
  destruct (receive_outputs _ _ _) as [[st4 rec] idx'].
  destruct (negb (ok st4)); intros [= <- <- <-];
    destruct H3 as (? & ? & ? & ? & ?); split_and!; auto.
Qed.

Lemma RunCallable_latches s handle feed_tensors fetch_tensors
      threadpool_options env st fetch' s' :
  RunCallable s handle feed_tensors fetch_tensors threadpool_options env
    = Some (st, fetch', s') →
  latches_grow s s'.
Proof.
  unfold RunCallable.
  destruct (negb (ok (CheckNotClosed s)));
    [intros [= <- <- <-]; apply latches_grow_refl|].
  destruct (negb (ok (CheckGraphCreated s)));
    [intros [= <- <- <-]; apply latches_grow_refl|].
  set (s1 := set_step_id_counter_ _ _).
  assert (H1 : latches_grow s s1) by (split_and!; auto).
  destruct (_ <=? handle); [by intros [= <- <- <-]|].
  destruct (callables_ s1 !! handle) as [e|]; [|by intros [= <- <- <-]].
  destruct (heap_ s1 !! e) as [ek|]; [|done]. simpl.
  destruct (negb (bool_decide _)); [by intros [= <- <- <-]|].
  assert (Hgo : ∀ ft : option (list Tensor),
    ('(st, report, s0) ← RunInternal s1 (step_id_counter_ s)
        (run_options (callable_options ek)) e threadpool_options env;
     let fetch_tensors0 := set_retvals (report_retvals report) <$> ft in
     if negb (ok st) then Some (st, fetch_tensors0, s0)
     else Some (OK, fetch_tensors0, s0)) = Some (st, fetch', s') →
    latches_grow s s').
  { intros ft.
    destruct (RunInternal s1 _ _ _ _ _) as [[[st3 rep] s3]|] eqn:Hr; [|done].
    apply RunInternal_latches in Hr. simpl.
    destruct (negb (ok st3)); intros [= <- <- <-];
      (eapply latches_grow_trans; [exact H1|exact Hr]). }
  destruct fetch_tensors as [ft|], (output_types ek) as [|ty tys];
    try apply Hgo.
  by intros [= <- <- <-].
Qed.

Lemma PRunSetup_latches s input_names output_names target_nodes st h s' :
  PRunSetup s input_names output_names target_nodes = (st, h, s') →
  latches s' = latches s.
Proof.
  unfold PRunSetup.
  destruct (negb (ok (CheckNotClosed s))); [by intros [= <- <- <-]|].
  destruct (negb (ok (CheckGraphCreated s))); [by intros [= <- <- <-]|].
  destruct (GetOrCreateExecutors _ _ _ _ _) as [[[st0 e] a'] s0] eqn:Hg.
  apply GetOrCreateExecutors_latches in Hg.
  destruct (negb (ok st0)); [by intros [= <- <- <-]|].
  unfold emplace.
  repeat case_match; intros; simplify_eq; unfold latches in *; simpl in *;
    congruence.
Qed.

Lemma PRun_latches s fate handle inputs output_names outputs st outputs' s' :
  PRun s fate handle inputs output_names outputs = Some (st, outputs', s') →
  latches_grow s s'.
Proof.
  intros [(_ & _ & ->)|(a & ek & rs & _ & _ & _ & _ & _ & _ & Hex)]%PRun_inv;
    [apply latches_grow_refl|].
  revert Hex. unfold PRun_exchange.
  destruct (SendPRunInputs _ _ _ _) as [st1 r1].
  destruct (if ok st1 then _ else _) as [[st2 r2] outs2].
  destruct (if ok st2 then _ else _) as [st3 ss3].
  destruct (if ok st3 then _ else true).
  - destruct (WaitForNotification _ _ _ _) as [[rs' cm]|] eqn:Hw; [|done].
    simpl. intros [= <- <- <-]. split_and!; try done; simpl.
    by eapply WaitForNotification_cancels.
  - intros [= <- <- <-]. split_and!; auto.
Qed.

Lemma MakeCallable_latches s callable_options st h s' :
  MakeCallable s callable_options = (st, h, s') → latches s' = latches s.
Proof.
  unfold MakeCallable. repeat case_match; intros; simplify_eq; done.
Qed.

Lemma ExtendLocked_latches s graph st s' :
  ExtendLocked s graph = (st, s') →
  latches_grow s s' ∧
  (st = OK → execution_state_ s = None → graph_created_ s' = true).
Proof.
  unfold ExtendLocked.
  assert (Hfirst :
    (let s0 := set_flib_def_ (Some (new_FunctionLibraryDefinition graph)) s in
     let '(st0, state) := MakeForBaseGraph graph in
     if negb (ok st0) then (st0, s0)
     else (OK, set_graph_created_ true (set_execution_state_ (Some state) s0)))
    = (st, s') →
    latches_grow s s' ∧
    (st = OK → execution_state_ s = None → graph_created_ s' = true)).
  { simpl. destruct (MakeForBaseGraph graph) as [st1 state].
    destruct (ok st1) eqn:Hok; simpl; intros [= <- <-].
    - split; [|done].
      split_and!; simpl; auto; unfold graph_state_ok; simpl; auto.
    - split; [|by intros ->].
      split_and!; simpl; auto; unfold graph_state_ok; simpl; auto. }
  destruct (flib_def_ s) as [flib|] eqn:Hf,
           (execution_state_ s) as [state|] eqn:He; try exact Hfirst.
  destruct (AddLibrary flib graph) as [st1 flib'].
  destruct (negb (ok st1)).
  { intros [= <- <-]. split; [apply latches_grow_refl|done]. }
  destruct (ExtendExecutionState state graph) as [st2 state'].
  destruct (negb (ok st2)); intros [= <- <-];
    (split; [|done]); split_and!; simpl; auto;
    unfold graph_state_ok; simpl; rewrite ?He; auto.
Qed.

(** No public operation clears a latch. *)
Lemma call_latches s op st s' :
  call s op = Some (st, s') → latches_grow s s'.
Proof.
  destruct op; simpl.
  - unfold Create. repeat case_match; intros; simplify_eq;
      try apply latches_grow_refl.
    by eapply ExtendLocked_latches.
  - unfold Extend. repeat case_match; intros; simplify_eq;
      try apply latches_grow_refl.
    by eapply ExtendLocked_latches.
  - destruct (Run _ _ _ _ _ _ _) as [[[st0 o] s0]|] eqn:E; [|done].
    intros [= <- <-]. by eapply Run_latches.
  - destruct (PRunSetup _ _ _ _) as [[st0 h] s0] eqn:E.
    intros [= <- <-]. by eapply latches_eq_grow, PRunSetup_latches.
  - destruct (PRun _ _ _ _ _ _) as [[[st0 o] s0]|] eqn:E; [|done].
    intros [= <- <-]. by eapply PRun_latches.
  - destruct (MakeCallable _ _) as [[st0 h] s0] eqn:E.
    intros [= <- <-]. by eapply latches_eq_grow, MakeCallable_latches.
  - destruct (RunCallable _ _ _ _ _ _) as [[[st0 o] s0]|] eqn:E; [|done].
    intros [= <- <-]. by eapply RunCallable_latches.
  - unfold ReleaseCallable. repeat case_match; intros; simplify_eq;
      split_and!; auto.
  - intros [= <- <-]. apply latches_grow_refl.
  - intros [= <- <-]. split_and!; auto.
  - unfold Close. repeat case_match; intros; simplify_eq; split_and!; auto.
Qed.

Lemma calls_latches s ops s' : calls s ops s' → latches_grow s s'.
Proof.
  induction 1 as [|s op st s' ops s'' Hcall _ IH];
    [apply latches_grow_refl|].
  eapply latches_grow_trans; [by eapply call_latches|done].
Qed.

End Latches.


(** ** Create and Close *)

Section Create_and_Close.

Context `{Collaborators}.

Implicit Types (s : DirectSession).

Lemma Create_accepted s graph s' :
  graph_state_ok s → 0 < node_size graph → Create s graph = (OK, s') →
  init_error_ s' = OK ∧ graph_created_ s' = true.
Proof.
  intros Hok Hn. unfold Create.
  destruct (init_error_ s) eqn:Hi; simpl; try (by intros [= ? ?]).
  rewrite (proj2 (Z.ltb_lt _ _) Hn).
  destruct (graph_created_ s) eqn:Hg; [done|].
  intros Hext. apply ExtendLocked_latches in Hext as [(Hi' & _) Hcr].
  split; [congruence|]. apply Hcr; [done|].
  destruct (execution_state_ s) eqn:He; [|done].
  rewrite Hok in Hg; [done|by eexists].
Qed.

(** C4, as the code has it.  Once a Create call with a graph of at least
    one node has been accepted, whatever is called on the session
    afterwards, every Create call with a graph of at least one node fails
    with already-exists and changes nothing; a Create call with an empty
    graph returns OK and changes nothing.  Hence at most one Create call
    with a non-empty graph is accepted. *)
Theorem Create_accepted_once
    (s s1 s2 : DirectSession) (graph graph' : GraphDef)
    (ops : list Operation) :
  graph_state_ok s →
  0 < node_size graph →
  Create s graph = (OK, s1) →
  calls s1 ops s2 →
  (0 < node_size graph' → Create s2 graph' = (ALREADY_EXISTS, s2)) ∧
  (node_size graph' ≤ 0 → Create s2 graph' = (OK, s2)).
Proof.
  intros Hok Hn Hcreate Hcalls.
  destruct (Create_accepted _ _ _ Hok Hn Hcreate) as [Hi Hg].
  apply calls_latches in Hcalls as (Hi2 & Hg2 & _).
  unfold Create. rewrite Hi2, Hi. simpl. split.
  - intros Hn'. rewrite (proj2 (Z.ltb_lt _ _) Hn'). by rewrite Hg2.
  - intros Hn'. by rewrite (proj2 (Z.ltb_ge _ _) Hn').
Qed.

Lemma Close_is_closed s : is_closed (Close s).2.
Proof. unfold Close, is_closed. by repeat case_match. Qed.

Lemma Close_OK s : Close s = (OK, (Close s).2).
Proof. unfold Close. by repeat case_match. Qed.

Lemma calls_is_closed s ops s' : is_closed s → calls s ops s' → is_closed s'.
Proof.
  intros [Hc Hm] (_ & _ & Hc' & Hm' & _)%calls_latches. split; auto.
Qed.

Lemma Close_closed s : is_closed s → Close s = (OK, s).
Proof.
  intros [Hc Hm]. unfold Close. simpl. rewrite Hc.
  destruct s as [? ? ? ? ? ? ? ? ? ? ? ? ? ? ? ? ? ? ? ? ? ? [[]] ?];
    simpl in *; [done|discriminate].
Qed.

(** C5, as the code has it.  After Close, whatever else is called on the
    session: a further Close returns OK and leaves the session as it is;
    Extend, Run, PRunSetup, PRun, MakeCallable and RunCallable return
    cancelled and leave the session as it is; ListDevices returns OK with
    the devices and Reset returns OK; ReleaseCallable returns
    invalid-argument for a handle that has not been handed out and OK
    otherwise; and on a session whose constructor did not fail, Create
    returns OK for an empty graph, already-exists for a non-empty graph
    once a graph has been created, and otherwise takes the graph in as on
    an open session.  These four do not consult the closed latch. *)
Theorem operations_after_Close
    (s s' : DirectSession) (ops : list Operation) :
  calls (Close s).2 ops s' →
  Close s' = (OK, s') ∧
  (∀ graph, Extend s' graph = (CANCELLED, s')) ∧
  (∀ run_options inputs output_names target_nodes outputs env,
     Run s' run_options inputs output_names target_nodes outputs env
       = Some (CANCELLED, outputs, s')) ∧
  (∀ input_names output_names target_nodes,
     PRunSetup s' input_names output_names target_nodes
       = (CANCELLED, "", s')) ∧
  (∀ fate handle inputs output_names outputs,
     PRun s' fate handle inputs output_names outputs
       = Some (CANCELLED, outputs, s')) ∧
  (∀ callable_options,
     MakeCallable s' callable_options = (CANCELLED, 0, s')) ∧
  (∀ handle feed_tensors fetch_tensors threadpool_options env,
     RunCallable s' handle feed_tensors fetch_tensors threadpool_options env
       = Some (CANCELLED, fetch_tensors, s')) ∧
  ListDevices s' = (OK, devices_ s') ∧
  (∀ containers, (Reset s' containers).1 = OK) ∧
  (∀ handle, (ReleaseCallable s' handle).1 =
             if next_callable_handle_ s' <=? handle
             then INVALID_ARGUMENT else OK) ∧
  (∀ graph, init_error_ s' = OK → node_size graph ≤ 0 →
            Create s' graph = (OK, s')) ∧
  (∀ graph, init_error_ s' = OK → 0 < node_size graph →
            graph_created_ s' = true →
            Create s' graph = (ALREADY_EXISTS, s')) ∧
  (∀ graph, init_error_ s' = OK → 0 < node_size graph →
            graph_created_ s' = false →
            Create s' graph = ExtendLocked s' graph).
Proof.
  intros Hcalls.
  pose proof (calls_is_closed _ _ _ (Close_is_closed s) Hcalls) as Hcl.
  pose proof Hcl as [Hc Hm].
  split_and!.
  - by apply Close_closed.
  - intros. unfold Extend, CheckNotClosed. by rewrite Hc.
  - intros. unfold Run, CheckNotClosed. by rewrite Hc.
  - intros. unfold PRunSetup, CheckNotClosed. by rewrite Hc.
  - intros. unfold PRun, CheckNotClosed. by rewrite Hc.
  - intros. unfold MakeCallable, CheckNotClosed. by rewrite Hc.
  - intros. unfold RunCallable, CheckNotClosed. by rewrite Hc.
  - done.
  - done.
  - intros handle. unfold ReleaseCallable. by case_match.
  - intros graph Hi Hn. unfold Create. rewrite Hi. simpl.
    by rewrite (proj2 (Z.ltb_ge _ _) Hn).
  - intros graph Hi Hn Hg. unfold Create. rewrite Hi, Hg. simpl.
    by rewrite (proj2 (Z.ltb_lt _ _) Hn).
  - intros graph Hi Hn Hg. unfold Create. rewrite Hi, Hg. simpl.
    by rewrite (proj2 (Z.ltb_lt _ _) Hn).
Qed.

End Create_and_Close.


(** ** One step: thread pools and timeouts *)

Section Step_facts.

Context `{Collaborators}.

Implicit Types (s : DirectSession).

Lemma wrap64_le z : 0 ≤ z → wrap64 z ≤ z.
Proof.
  intros Hz. unfold wrap64.
  assert (0 < 2 ^ 64) by done.
  assert ((z + 2 ^ 63) mod 2 ^ 64 ≤ z + 2 ^ 63)
    by (apply Z.mod_le; [|done]; assert (0 < 2 ^ 63) by done; lia).
  lia.
Qed.

(** [RunInternal] once the entry of the step is clear. *)
Lemma RunInternal_entry s step_id run_options ek_addr ek threadpool_options
      env :
  heap_ s !! ek_addr = Some ek →
  step_entry_clear run_options ek env →
  let s1 :=
    set_heap_ (<[ek_addr := set_step_count (wrap64 (step_count ek + 1)) ek]>
                 (heap_ s)) s in
  let fresh := new_RunState [] [] new_IntraProcessRendezvous in
  let early st :=
    Some (st,
          {| report_run_state := set_executors_done fresh;
             report_step_cancelled := false; report_pool := None;
             report_runners := []; report_retvals := [] |}, s1) in
  RunInternal s step_id run_options ek_addr threadpool_options env =
  if invalid_inter_op_thread_pool s run_options then early INVALID_ARGUMENT
  else if is_cancelled (cancellation_manager_ s) then early CANCELLED
  else
    let pool :=
      select_pool s run_options threadpool_options (length (items ek)) in
    let use_handler :=
      ShouldUseRunHandlerPool s run_options &&
      use_run_handler_pool run_options in
    '(run_state, cm) ←
      WaitForNotification (step_fate env) fresh {| is_cancelled := false |}
                          (effective_timeout s run_options);
    Some (RunInternal_finish s1 run_options ek
            (update_cost_model_of s (step_count ek)) env run_state cm pool
            (runner_of pool use_handler <$> items ek)).
Proof.
  intros Hek [Hdbg Hcoll]. unfold RunInternal. rewrite Hek. simpl.
  assert (negb (bool_decide (debug_tensor_watch_opts (debug_options run_options)
                             = [])) &&
          negb (ok (debugger_state_status env)) = false) as ->.
  { destruct Hdbg as [-> | ->]; [done|]. by rewrite andb_false_r. }
  assert (negb (ek_collective_graph_key ek =? 0) &&
          negb (collective_graph_key run_options =? 0) &&
          negb (collective_graph_key run_options =?
                ek_collective_graph_key ek) = false) as ->.
  { destruct Hcoll as [-> |[-> | ->]].
    - done.
    - by rewrite andb_false_r.
    - by rewrite Z.eqb_refl, andb_false_r. }
  reflexivity.
Qed.


(** C9, as the code has it.  With the entry of the step clear:
    [inter_op_thread_pool] below -1 or not below the number of thread pools
    makes RunInternal notify executors-done and return invalid-argument;
    -1 is accepted.  Otherwise, on a session that is not cancelled, the
    pool of the step is: the external pool if the session does not run in
    the caller thread and one is supplied; else the pool at the index if
    the session does not run in the caller thread, the index is not -1
    and that pool is not null; else (the session runs in the caller
    thread, or no external pool is supplied and the index is -1 or names
    a pool that could not be made) pool 0 if the step has more than one
    partition and that pool is not null, and no pool otherwise.  With no
    pool, every partition whose device has no thread pool of its own runs
    inline in the caller. *)
Theorem RunInternal_thread_pool
    (s : DirectSession) (step_id : Z) (run_options : RunOptions)
    (ek_addr : nat) (ek : ExecutorsAndKeys)
    (threadpool_options : ThreadPoolOptions) (env : StepEnv) :
  heap_ s !! ek_addr = Some ek →
  step_entry_clear run_options ek env →
  let index := inter_op_thread_pool run_options in
  let pools := thread_pools_ s in
  let call :=
    RunInternal s step_id run_options ek_addr threadpool_options env in
  let fallback :=
    if (1 <? length (items ek))%nat then mjoin (pools !! 0%nat) else None in
  (index < -1 ∨ Z.of_nat (length pools) ≤ index →
   ∃ report s',
     call = Some (INVALID_ARGUMENT, report, s') ∧
     executors_done (report_run_state report) = true) ∧
  (-1 ≤ index < Z.of_nat (length pools) →
   is_cancelled (cancellation_manager_ s) = false →
   ∀ st report s',
     call = Some (st, report, s') →
     (run_in_caller_thread_ s = false →
      ∀ external, inter_op_threadpool threadpool_options = Some external →
                  report_pool report = Some external) ∧
     (run_in_caller_thread_ s = false →
      inter_op_threadpool threadpool_options = None → 0 ≤ index →
      (∀ p, pools !! Z.to_nat index = Some (Some p) →
            report_pool report = Some p) ∧
      (pools !! Z.to_nat index = Some None →
       report_pool report = fallback)) ∧
     (run_in_caller_thread_ s = true ∨
      (inter_op_threadpool threadpool_options = None ∧ index = -1) →
      report_pool report = fallback) ∧
     (report_pool report = None →
      ∀ i item, items ek !! i = Some item →
                tensorflow_device_thread_pool item = None →
                report_runners report !! i = Some RunInline)).
Proof.
  intros Hek Hclear index pools call fallback. unfold call.
  rewrite (RunInternal_entry _ _ _ _ _ _ _ Hek Hclear).
  unfold invalid_inter_op_thread_pool. fold index pools. split.
  - intros Hbad.
    assert ((index <? -1) || (Z.of_nat (length pools) <=? index) = true) as ->.
    { apply orb_true_iff. destruct Hbad; [left|right]; lia. }
    by eexists _, _.
  - intros Hgood Hnc st report s'.
    assert ((index <? -1) || (Z.of_nat (length pools) <=? index) = false) as ->.
    { apply orb_false_iff. split; lia. }
    rewrite Hnc. simpl.
    destruct (WaitForNotification _ _ _ _) as [[rs cm]|]; [|done]. simpl.
    set (pool := select_pool _ _ _ _).
    intros Hfin.
    assert (Hpool : report_pool report = pool ∧
                    report_runners report =
                      runner_of pool
                        (ShouldUseRunHandlerPool s run_options &&
                         use_run_handler_pool run_options) <$> items ek).
    { revert Hfin. unfold RunInternal_finish.
      repeat case_match; intros; by simplify_eq. }
    destruct Hpool as [Hp Hr]. rewrite Hp, Hr. unfold pool, select_pool.
    fold index pools. fold fallback. split_and!.
    + intros -> external ->. done.
    + intros -> -> Hidx. rewrite (proj2 (Z.leb_le _ _) Hidx).
      split; [intros p ->|intros ->]; done.
    + intros [-> |[-> ->]]; [done|].
      by destruct (run_in_caller_thread_ s).
    + intros Hnone i item Hi Hdev. rewrite list_lookup_fmap, Hi. simpl.
      unfold runner_of. rewrite Hdev. unfold pool, select_pool in Hnone.
      fold index pools in Hnone. by rewrite Hnone.
Qed.


End Step_facts.


(** ** Run: duplicate output names *)

Lemma name_to_index_snoc names n :
  name_to_index (names ++ [n]) = <[n := length names]> (name_to_index names).
Proof.
  unfold name_to_index. rewrite imap_app, foldl_app. simpl.
  by rewrite Nat.add_0_r.
Qed.

Lemma lookup_name_to_index names n k :
  name_to_index names !! n = Some k → names !! k = Some n.
Proof.
  induction names as [|x names IH] using rev_ind; [done|].
  rewrite name_to_index_snoc. destruct (decide (x = n)) as [->|Hne].
  - rewrite lookup_insert_eq. intros [= <-].
    by rewrite lookup_app_r, Nat.sub_diag by lia.
  - rewrite lookup_insert_ne by done. intros Hk%IH.
    by apply lookup_app_l_Some.
Qed.

Lemma dom_name_to_index names :
  dom (name_to_index names) = list_to_set names.
Proof.
  induction names as [|x names IH] using rev_ind; [done|].
  rewrite name_to_index_snoc, dom_insert_L, IH, list_to_set_app_L. simpl.
  set_solver.
Qed.

Lemma size_list_to_set_le (l : list string) :
  (size (list_to_set l : gset string) ≤ length l)%nat.
Proof.
  induction l as [|x l IH]; simpl; [done|].
  rewrite size_union_alt, size_singleton.
  assert (list_to_set l ∖ {[x]} ⊆ (list_to_set l : gset string)) as Hsub
    by set_solver.
  apply subseteq_size in Hsub. lia.
Qed.

Lemma size_list_to_set_NoDup (l : list string) :
  size (list_to_set l : gset string) = length l → NoDup l.
Proof.
  induction l as [|x l IH]; simpl; [constructor|]. intros Hsize.
  pose proof (size_list_to_set_le l).
  destruct (decide (x ∈ l)) as [Hin|Hnin].
  - assert ({[x]} ∪ list_to_set l = (list_to_set l : gset string)) as Heq
      by set_solver.
    rewrite Heq in Hsize. lia.
  - constructor; [done|]. apply IH.
    rewrite size_union in Hsize by set_solver.
    rewrite size_singleton in Hsize. lia.
Qed.

Lemma first_equal_spec name l j0 :
  name ∈ l →
  ∃ p, first_equal name l j0 = (j0 + p)%nat ∧ l !! p = Some name ∧
       ∀ q, (q < p)%nat → l !! q ≠ Some name.
Proof.
  revert j0. induction l as [|x l IH]; intros j0 Hin; [by inversion Hin|].
  simpl. destruct (String.eqb_spec name x) as [->|Hne].
  - exists 0%nat. split_and!; [lia|done|lia].
  - assert (name ∈ l) as Hl by (by apply elem_of_cons in Hin as [?|?]).
    destruct (IH (S j0) Hl) as (p & Hp & Hlook & Hmin).
    exists (S p). split_and!; [lia|done|].
    intros [|q] Hq; simpl; [congruence|]. apply Hmin. lia.
Qed.

Lemma lookup_first_indices_of output_names i name :
  output_names !! i = Some name →
  ∃ p, first_indices_of output_names !! i = Some p ∧ (p ≤ i)%nat ∧
       output_names !! p = Some name ∧
       ∀ q, (q < p)%nat → output_names !! q ≠ Some name.
Proof.
  intros Hi. unfold first_indices_of. rewrite list_lookup_imap, Hi. simpl.
  assert (Hlast : take (S i) output_names !! i = Some name)
    by (rewrite lookup_take_lt by lia; done).
  destruct (first_equal_spec name (take (S i) output_names) 0) as
    (p & -> & Hp & Hmin); [by eapply list_elem_of_lookup_2|].
  pose proof (lookup_lt_Some _ _ _ Hp) as Hlt.
  rewrite length_take in Hlt.
  exists p. split_and!; [done|lia| |].
  - rewrite lookup_take_lt in Hp by lia. done.
  - intros q Hq. specialize (Hmin q Hq).
    rewrite lookup_take_lt in Hmin by lia. done.
Qed.

Section Run_facts.

Context `{Collaborators}.

(** The loop that fills [outputs], for an index map that has every output
    name and sends different names to different indices. *)
Lemma fill_outputs_spec (output_names : list string) (first_indices : list nat)
      (name_to_idx : gmap string nat) (sorted_outputs : list Tensor) :
  (∀ i name,
     output_names !! i = Some name →
     if bool_decide (first_indices = []) ||
        bool_decide (first_indices !! i = Some i)
     then ∀ j, (j < i)%nat → output_names !! j ≠ Some name
     else ∃ j, first_indices !! i = Some j ∧ (j < i)%nat ∧
               output_names !! j = Some name) →
  (∀ name, name ∈ output_names → is_Some (name_to_idx !! name)) →
  (∀ n1 n2 k, name_to_idx !! n1 = Some k → name_to_idx !! n2 = Some k →
              n1 = n2) →
  ∀ rest done current outputs,
    output_names = (done ++ rest)%list →
    length outputs = length done →
    (∀ i name, done !! i = Some name →
               ∃ k, name_to_idx !! name = Some k ∧
                    outputs !! i =
                      Some (default empty_tensor (sorted_outputs !! k))) →
    (∀ k, (∀ name, name ∈ done → name_to_idx !! name ≠ Some k) →
          current !! k = sorted_outputs !! k) →
    ∃ outputs',
      fill_outputs (length done) rest first_indices name_to_idx current
                   outputs = (outputs', name_to_idx) ∧
      length outputs' = length output_names ∧
      ∀ i name, output_names !! i = Some name →
                ∃ k, name_to_idx !! name = Some k ∧
                     outputs' !! i =
                       Some (default empty_tensor (sorted_outputs !! k)).
Proof.
  intros Hfirst Hdom Hinj rest.
  induction rest as [|name rest IH]; intros done current outputs Hall Hlen
    Hdone Hcur.
  - rewrite app_nil_r in Hall. subst done. simpl. by exists outputs.
  - assert (Hat : output_names !! length done = Some name).
    { rewrite Hall. by rewrite lookup_app_r, Nat.sub_diag by lia. }
    destruct (Hdom name) as [k Hk]; [by eapply list_elem_of_lookup_2|].
    specialize (Hfirst _ _ Hat). cbn [fill_outputs].
    assert (Hsub : subscript name_to_idx name = (k, name_to_idx))
      by (unfold subscript; by rewrite Hk).
    assert (Hall' : output_names = ((done ++ [name]) ++ rest)%list)
      by (by rewrite <- app_assoc).
    destruct (bool_decide (first_indices = []) ||
              bool_decide (first_indices !! length done = Some (length done))).
    + rewrite Hsub.
      assert (Hfresh : name ∉ done).
      { intros [j Hj]%list_elem_of_lookup_1.
        apply (Hfirst j); [by eapply lookup_lt_Some|].
        rewrite Hall. by apply lookup_app_l_Some. }
      assert (Hvalue : current !! k = sorted_outputs !! k).
      { apply Hcur. intros name' Hin Hk'.
        by rewrite (Hinj _ _ _ Hk' Hk) in Hin. }
      rewrite Hvalue.
      destruct (IH (done ++ [name])%list (<[k := empty_tensor]> current)
                  (outputs ++ [default empty_tensor (sorted_outputs !! k)])%list)
        as (outputs' & Hrun & Hlen' & Hall_done); [done| | | |].
      * rewrite !length_app. simpl. lia.
      * intros i name' Hi. apply lookup_snoc_Some in Hi as [[Hlt Hi]|[-> <-]].
        -- destruct (Hdone _ _ Hi) as (k' & Hk' & Hout).
           exists k'. split; [done|]. by apply lookup_app_l_Some.
        -- exists k. split; [done|].
           by rewrite <- Hlen, lookup_app_r, Nat.sub_diag by lia.
      * intros k' Hk'.
        assert (k ≠ k') by (intros ->; apply (Hk' name); set_solver).
        rewrite list_lookup_insert_ne by done.
        apply Hcur. intros name' Hin. apply Hk'. set_solver.
      * exists outputs'. split; [|done].
        rewrite length_app, Nat.add_1_r in Hrun. done.
    + destruct Hfirst as (j & Hj & Hlt & Hsame). rewrite Hj. simpl.
      assert (Hdone_j : done !! j = Some name).
      { rewrite Hall, lookup_app_l in Hsame by done. done. }
      destruct (Hdone _ _ Hdone_j) as (k' & Hk' & Hout).
      assert (k' = k) as -> by congruence.
      rewrite Hout. simpl.
      destruct (IH (done ++ [name])%list current
                  (outputs ++ [default empty_tensor (sorted_outputs !! k)])%list)
        as (outputs' & Hrun & Hlen' & Hall_done); [done| | | |].
      * rewrite !length_app. simpl. lia.
      * intros i name' Hi. apply lookup_snoc_Some in Hi as [[Hlt' Hi]|[-> <-]].
        -- destruct (Hdone _ _ Hi) as (k' & Hk'' & Hout').
           exists k'. split; [done|]. by apply lookup_app_l_Some.
        -- exists k. split; [done|].
           by rewrite <- Hlen, lookup_app_r, Nat.sub_diag by lia.
      * intros k' Hk''. apply Hcur. intros name' Hin. apply Hk''. set_solver.
      * exists outputs'. split; [|done].
        rewrite length_app, Nat.add_1_r in Hrun. done.
Qed.

(** C8.  Let the executors have been created for the fetches [fetches], a
    reordering of [output_names], and let them have produced one return
    value per fetch.  Then the outputs that Run receives are as long as
    [output_names]; the output at each position is the return value of the
    fetch with the name at that position; and so two positions with the
    same name, in particular a later occurrence of a name and its first
    occurrence, hold the same tensor. *)
Theorem Run_duplicate_output_names
    (output_names fetches : list string) (retvals : list (option Tensor))
    (sorted_outputs : list Tensor) :
  fetches ≡ₚ output_names →
  ConsumeRetvals retvals = (OK, sorted_outputs) →
  length sorted_outputs = length fetches →
  ∃ outputs,
    receive_outputs output_names (name_to_index fetches) retvals =
      (OK, outputs, name_to_index fetches) ∧
    length outputs = length output_names ∧
    (∀ i name, output_names !! i = Some name →
               ∃ k, fetches !! k = Some name ∧
                    outputs !! i = sorted_outputs !! k) ∧
    (∀ i j name, output_names !! i = Some name →
                 output_names !! j = Some name →
                 is_Some (outputs !! i) ∧ outputs !! i = outputs !! j).
Proof.
  intros Hperm Hret Hlen. unfold receive_outputs. rewrite Hret. simpl.
  set (m := name_to_index fetches).
  set (first_indices :=
         if negb (bool_decide (length output_names = size m))
         then first_indices_of output_names else []).
  destruct (fill_outputs_spec output_names first_indices m sorted_outputs)
    with (rest := output_names) (done := @nil string)
         (current := sorted_outputs) (outputs := @nil Tensor)
    as (outputs & Hrun & Hlen' & Hout); try done.
  - intros i name Hi. unfold first_indices.
    destruct (bool_decide (length output_names = size m)) eqn:Huniq; simpl.
    + apply bool_decide_eq_true in Huniq.
      assert (Hnodup : NoDup output_names).
      { apply size_list_to_set_NoDup.
        rewrite <- (list_to_set_perm_L _ _ Hperm), <- dom_name_to_index.
        by rewrite size_dom. }
      intros j Hj Hsame.
      pose proof (NoDup_lookup _ _ _ _ Hnodup Hi Hsame). lia.
    + destruct (lookup_first_indices_of _ _ _ Hi) as (p & Hp & Hle & Hat & Hmin).
      assert (bool_decide (first_indices_of output_names = []) = false) as ->.
      { apply bool_decide_eq_false. intros Hnil. by rewrite Hnil in Hp. }
      rewrite Hp. simpl. destruct (decide (p = i)) as [->|Hne].
      * by rewrite bool_decide_eq_true_2.
      * rewrite bool_decide_eq_false_2 by congruence.
        exists p. split_and!; [done|lia|done].
  - intros name Hin. apply elem_of_dom. unfold m.
    rewrite dom_name_to_index, elem_of_list_to_set. by rewrite Hperm.
  - intros n1 n2 k H1%lookup_name_to_index H2%lookup_name_to_index.
    congruence.
  - simpl in Hrun. fold m first_indices. rewrite Hrun.
    assert (Hvalue : ∀ i name, output_names !! i = Some name →
              ∃ k, fetches !! k = Some name ∧
                   outputs !! i = sorted_outputs !! k).
    { intros i name Hi. destruct (Hout _ _ Hi) as (k & Hk & Hoi).
      apply lookup_name_to_index in Hk. exists k. split; [done|].
      destruct (lookup_lt_is_Some_2 sorted_outputs k) as [t Ht];
        [rewrite Hlen; by eapply lookup_lt_Some|].
      by rewrite Hoi, Ht. }
    exists outputs. split_and!; [done|done|done|].
    intros i j name Hi Hj.
    destruct (Hout _ _ Hi) as (k & Hk & Hoi).
    destruct (Hout _ _ Hj) as (k' & Hk' & Hoj).
    assert (k' = k) as -> by congruence.
    rewrite Hoi, Hoj. split; [by eexists|done].
Qed.

End Run_facts.


(** ** Steps in the small world *)

Section Step_scenarios.

#[local] Existing Instance toy_world.

Lemma Run_duplicate_output_names_witness :
  ∃ outputs,
    receive_outputs ["y:0"; "y:0"] (name_to_index ["y:0"; "y:0"])
                    [Some 9; Some 9] =
      (OK, outputs, name_to_index ["y:0"; "y:0"]) ∧
    outputs = [9; 9].
Proof.
  destruct (@Run_duplicate_output_names toy_world ["y:0"; "y:0"]
              ["y:0"; "y:0"] [Some 9; Some 9] [9; 9])
    as (outputs & Hrun & Hlen & Hvalue & _);
    [reflexivity|reflexivity|reflexivity|].
  exists outputs. split; [exact Hrun|]. clear Hrun.
  destruct (Hvalue 0%nat "y:0" eq_refl) as (k0 & Hk0 & H0).
  destruct (Hvalue 1%nat "y:0" eq_refl) as (k1 & Hk1 & H1).
  clear Hvalue.
  destruct outputs as [|o0 [|o1 [|o2 outputs]]]; try discriminate Hlen.
  destruct k0 as [|[|k0]]; try discriminate Hk0;
    destruct k1 as [|[|k1]]; try discriminate Hk1;
    simpl in H0, H1; injection H0 as ->; injection H1 as ->; reflexivity.
Defined.

(** Scenario 2 of the specification: on the identity graph,
    [Run({{"x:0", 9}}, {"y:0", "y:0"}, {})] returns [[9, 9]]. *)
Example Run_identity_twice :
  (λ r, r.1) <$>
    Run (toy_session (Some identity_graph)) RunOptions_default
        [("x:0", 9)] ["y:0"; "y:0"] [] (Some []) (identity_step 9 2)
  = Some (OK, Some [9; 9]).
Proof. vm_compute. reflexivity. Qed.

Lemma RunInternal_thread_pool_witness :
  (∃ report s',
     RunInternal (prepared_session false 1) 1 (with_inter_op_thread_pool 2)
                 0 ThreadPoolOptions_default (identity_step 9 1)
       = Some (INVALID_ARGUMENT, report, s') ∧
     executors_done (report_run_state report) = true) ∧
  (∀ st report s',
     RunInternal (prepared_session false 1) 1 (with_inter_op_thread_pool 1)
                 0 ThreadPoolOptions_default (identity_step 9 1)
       = Some (st, report, s') →
     report_pool report = Some 11%nat) ∧
  (* the pool at the index is null: pool 0 for two partitions, none for one *)
  (∀ st report s',
     RunInternal (null_pool_session 2) 1 (with_inter_op_thread_pool 1)
                 0 ThreadPoolOptions_default (identity_step 9 2)
       = Some (st, report, s') →
     report_pool report = Some 10%nat) ∧
  (∀ st report s',
     RunInternal (null_pool_session 1) 1 (with_inter_op_thread_pool 1)
                 0 ThreadPoolOptions_default (identity_step 9 1)
       = Some (st, report, s') →
     report_pool report = None).
Proof.
  split_and!.
  - apply (RunInternal_thread_pool (prepared_session false 1) 1
             (with_inter_op_thread_pool 2) 0 (identity_executors 1)
             ThreadPoolOptions_default (identity_step 9 1)).
    + reflexivity.
    + split; left; reflexivity.
    + right. vm_compute. discriminate.
  - intros st report s' Hrun.
    destruct (RunInternal_thread_pool (prepared_session false 1) 1
                (with_inter_op_thread_pool 1) 0 (identity_executors 1)
                ThreadPoolOptions_default (identity_step 9 1))
      as [_ Hvalid]; [reflexivity|split; left; reflexivity|].
    destruct (Hvalid) with (st := st) (report := report) (s' := s')
      as (_ & Hindex & _); [vm_compute; split; [discriminate|reflexivity]
                           |reflexivity|exact Hrun|].
    destruct Hindex as [Hpool _]; [reflexivity|reflexivity|
                                   vm_compute; discriminate|].
    by apply Hpool.
  - intros st report s' Hrun.
    destruct (RunInternal_thread_pool (null_pool_session 2) 1
                (with_inter_op_thread_pool 1) 0 (identity_executors 2)
                ThreadPoolOptions_default (identity_step 9 2))
      as [_ Hvalid]; [reflexivity|split; left; reflexivity|].
    destruct (Hvalid) with (st := st) (report := report) (s' := s')
      as (_ & Hindex & _); [vm_compute; split; [discriminate|reflexivity]
                           |reflexivity|exact Hrun|].
    destruct Hindex as [_ Hnull]; [reflexivity|reflexivity|
                                   vm_compute; discriminate|].
    by rewrite Hnull.
  - intros st report s' Hrun.
    destruct (RunInternal_thread_pool (null_pool_session 1) 1
                (with_inter_op_thread_pool 1) 0 (identity_executors 1)
                ThreadPoolOptions_default (identity_step 9 1))
      as [_ Hvalid]; [reflexivity|split; left; reflexivity|].
    destruct (Hvalid) with (st := st) (report := report) (s' := s')
      as (_ & Hindex & _); [vm_compute; split; [discriminate|reflexivity]
                           |reflexivity|exact Hrun|].
    destruct Hindex as [_ Hnull]; [reflexivity|reflexivity|
                                   vm_compute; discriminate|].
    by rewrite Hnull.
Defined.

(** C9 as worded does not hold.  A session that runs in the caller thread
    and is handed an external pool for a step of two partitions runs the
    step on its pool 0, not on the external pool; and the index -1, which
    is no index into the vector of thread pools, is accepted: with no
    external pool, a step of one partition then runs inline also on a
    session that does not run in the caller thread, and not on pool 0. *)
Lemma RunInternal_thread_pool_counterexample :
  ((λ r, (r.1.1, report_pool r.1.2)) <$>
     RunInternal (prepared_session true 2) 1 RunOptions_default 0
                 (external_pool 7%nat) (identity_step 9 1)
   = Some (OK, Some 10%nat) ∧
   select_pool_spec (prepared_session true 2) RunOptions_default
                    (external_pool 7%nat) 2 = Some 7%nat) ∧
  ((λ r, (r.1.1, report_pool r.1.2, report_runners r.1.2)) <$>
     RunInternal (prepared_session false 1) 1 (with_inter_op_thread_pool (-1))
                 0 ThreadPoolOptions_default (identity_step 9 1)
   = Some (OK, None, [RunInline]) ∧
   in_range_index_spec (prepared_session false 1)
                       (with_inter_op_thread_pool (-1)) = false ∧
   select_pool_spec (prepared_session false 1) (with_inter_op_thread_pool (-1))
                    ThreadPoolOptions_default 1 = Some 10%nat).
Proof. repeat split; vm_compute; reflexivity. Qed.


(** C3 as worded does not hold.  With hardware tracing on and a profiler
    that fails to collect its data, a Run whose timeout of 50 ms elapses
    records deadline-exceeded in the step status and returns the error of
    the profiler. *)
Lemma Run_deadline_exceeded_counterexample :
  (λ r, r.1.1) <$>
    Run (toy_session (Some identity_graph)) (with_timeout 50 2)
        [("x:0", 9)] ["y:0"] [] (Some []) (stuck_step UNAVAILABLE)
  = Some UNAVAILABLE ∧
  (λ r, (r.1.1, status (report_run_state r.1.2),
         report_step_cancelled r.1.2)) <$>
    RunInternal (prepared_session false 1) 1 (with_timeout 50 2) 0
                ThreadPoolOptions_default (stuck_step UNAVAILABLE)
  = Some (UNAVAILABLE, DEADLINE_EXCEEDED, true).
Proof. split; vm_compute; reflexivity. Qed.

(** Scenario 6 of the specification: without tracing the Run returns
    deadline-exceeded. *)
Example Run_deadline_exceeded_scenario :
  (λ r, r.1.1) <$>
    Run (toy_session (Some identity_graph)) (with_timeout 50 0)
        [("x:0", 9)] ["y:0"] [] (Some []) (stuck_step OK)
  = Some DEADLINE_EXCEEDED.
Proof. vm_compute. reflexivity. Qed.

(** Scenario 5 of the specification: a step without a timeout whose
    executors are stuck does not return; when another thread closes the
    session during the wait, the step returns cancelled. *)
Example scenario5_cancelled_during_the_wait :
  RunInternal (prepared_session false 1) 1 (with_timeout 0 0) 0
              ThreadPoolOptions_default (stuck_step OK) = None ∧
  (λ r, r.1.1) <$>
    RunInternal (prepared_session false 1) 1 (with_timeout 0 0) 0
                ThreadPoolOptions_default interrupted_step
  = Some CANCELLED.
Proof. split; vm_compute; reflexivity. Qed.

End Step_scenarios.


(** ** The life cycle in the small world *)

Section Lifecycle_scenarios.

#[local] Existing Instance toy_world.

Lemma Create_accepted_once_witness :
  graph_state_ok (toy_session None) ∧
  0 < node_size sum_graph ∧
  Create (toy_session None) sum_graph = (OK, created_session) ∧
  (∃ s2, calls created_session [CallListDevices; CallReset []] s2 ∧
         Create s2 identity_graph = (ALREADY_EXISTS, s2) ∧
         Create s2 empty_graph = (OK, s2)).
Proof.
  assert (Hok : graph_state_ok (toy_session None))
    by (intros [state Hstate]; discriminate Hstate).
  assert (Hn : 0 < node_size sum_graph) by reflexivity.
  assert (Hcreate : Create (toy_session None) sum_graph = (OK, created_session)).
  { unfold created_session.
    assert (Hst : (Create (toy_session None) sum_graph).1 = OK)
      by (vm_compute; reflexivity).
    destruct (Create (toy_session None) sum_graph) as [st s1].
    simpl in Hst. by rewrite Hst. }
  set (s2 := (Reset created_session []).2).
  assert (Hcalls : calls created_session [CallListDevices; CallReset []] s2).
  { eapply calls_cons; [reflexivity|].
    eapply calls_cons; [reflexivity|]. apply calls_nil. }
  split; [exact Hok|]. split; [exact Hn|]. split; [exact Hcreate|].
  exists s2. split; [exact Hcalls|].
  split.
  - apply (Create_accepted_once (toy_session None) created_session s2
             sum_graph identity_graph [CallListDevices; CallReset []]
             Hok Hn Hcreate Hcalls).
    reflexivity.
  - apply (Create_accepted_once (toy_session None) created_session s2
             sum_graph empty_graph [CallListDevices; CallReset []]
             Hok Hn Hcreate Hcalls).
    vm_compute. discriminate.
Defined.

(** C4 as worded does not hold: after an accepted Create, a further Create
    call with an empty graph returns OK, not already-exists. *)
Lemma Create_accepted_once_counterexample :
  (Create (toy_session None) sum_graph).1 = OK ∧
  node_size empty_graph = 0 ∧
  (Create created_session empty_graph).1 = OK ∧
  (Create created_session empty_graph).1 ≠ ALREADY_EXISTS.
Proof.
  assert (H2 : (Create created_session empty_graph).1 = OK)
    by (vm_compute; reflexivity).
  split_and!; [vm_compute; reflexivity|reflexivity|exact H2|].
  rewrite H2. discriminate.
Qed.

Lemma operations_after_Close_witness :
  ∃ s', calls (Close (toy_session (Some sum_graph))).2
              [CallListDevices; CallClose] s' ∧
        Close s' = (OK, s') ∧
        Extend s' identity_graph = (CANCELLED, s') ∧
        Run s' RunOptions_default [("a:0", 3); ("b:0", 4)] ["s:0"] []
            (Some []) (identity_step 7 1) = Some (CANCELLED, Some [], s') ∧
        PRunSetup s' ["a:0"; "b:0"] ["s:0"; "t:0"] [] = (CANCELLED, "", s') ∧
        ListDevices s' = (OK, devices_ s').
Proof.
  set (s' := (Close (Close (toy_session (Some sum_graph))).2).2).
  assert (Hcalls : calls (Close (toy_session (Some sum_graph))).2
                         [CallListDevices; CallClose] s').
  { eapply calls_cons; [reflexivity|].
    eapply (calls_cons _ CallClose OK); [|apply calls_nil].
    simpl. unfold s'. by rewrite <- Close_OK. }
  destruct (operations_after_Close (toy_session (Some sum_graph)) s'
              [CallListDevices; CallClose] Hcalls)
    as (Hclose & Hextend & Hrun & Hsetup & _ & _ & _ & Hlist & _).
  exists s'. split_and!; [exact Hcalls|exact Hclose|apply Hextend|apply Hrun
                         |apply Hsetup|exact Hlist].
Defined.

(** C5 as worded does not hold: after Close, ListDevices and Reset return
    OK, ReleaseCallable returns invalid-argument for a handle that was
    never handed out, Create returns already-exists for a non-empty graph
    and OK for an empty one, and on a session closed before any graph was
    created Create is accepted and creates the graph. *)
Lemma operations_after_Close_counterexample :
  closed_ closed_session = true ∧
  (ListDevices closed_session).1 = OK ∧
  (Reset closed_session []).1 = OK ∧
  (ReleaseCallable closed_session 0).1 = INVALID_ARGUMENT ∧
  (Create closed_session identity_graph).1 = ALREADY_EXISTS ∧
  (Create closed_session empty_graph).1 = OK ∧
  closed_ closed_fresh_session = true ∧
  (Create closed_fresh_session sum_graph).1 = OK ∧
  graph_created_ (Create closed_fresh_session sum_graph).2 = true.
Proof. split_and!; vm_compute; reflexivity. Qed.

End Lifecycle_scenarios.


(** * The rest of direct_session.cc and local_device.cc *)

(** ** The session's operations *)

Section Operations_facts.
Context `{Collaborators}.
Implicit Types (s : DirectSession) (a : RunStateArgs).

Lemma GetOrCreateExecutors_fast s inputs outputs target_nodes a ek_addr :
  executors_ s !! request_key inputs outputs target_nodes a = Some ek_addr →
  ∃ a' s',
    GetOrCreateExecutors s inputs outputs target_nodes a
      = (OK, ek_addr, a', s') ∧
    executors_ s' = executors_ s ∧ heap_ s' = heap_ s ∧
    functions_ s' = functions_ s ∧ partial_runs_ s' = partial_runs_ s.
Proof.
  unfold GetOrCreateExecutors, request_key.
  set (key := executors_key inputs _ _ _ _).
  set (s0 := if _ || _ then _ else s).
  assert (Hs0 : executors_ s0 = executors_ s ∧ heap_ s0 = heap_ s ∧
                functions_ s0 = functions_ s ∧
                partial_runs_ s0 = partial_runs_ s)
    by (unfold s0; by destruct (_ || _)).
  destruct Hs0 as (Hs0 & Hh0 & Hf0 & Hp0). rewrite Hs0.
  intros ->. by eauto 10.
Qed.

(** X7.  A request that has been answered is answered again with the same
    executors, whatever else the cache holds: the repeated call finds the
    exact-order key, creates no executors and leaves the cache as it is. *)
Theorem GetOrCreateExecutors_repeat
    s inputs outputs target_nodes a ek_addr a1 s1 :
  GetOrCreateExecutors s inputs outputs target_nodes a
    = (OK, ek_addr, a1, s1) →
  ∃ a2 s2,
    GetOrCreateExecutors s1 inputs outputs target_nodes a
      = (OK, ek_addr, a2, s2) ∧
    executors_ s2 = executors_ s1 ∧ heap_ s2 = heap_ s1 ∧
    functions_ s2 = functions_ s1.
Proof.
  intros (Hkey & _)%GetOrCreateExecutors_cached.
  destruct (GetOrCreateExecutors_fast _ _ _ _ _ _ Hkey)
    as (a2 & s2 & Hrun & He & Hh & Hf & _).
  by exists a2, s2.
Qed.

(** X8.  No sequence of public operations changes the error of the
    constructor, takes back the creation of the graph, reopens a closed
    session or undoes the cancellation of the session. *)
Theorem public_operations_keep_latches s ops s' :
  calls s ops s' →
  init_error_ s' = init_error_ s ∧
  (graph_created_ s = true → graph_created_ s' = true) ∧
  (closed_ s = true → closed_ s' = true) ∧
  (is_cancelled (cancellation_manager_ s) = true →
   is_cancelled (cancellation_manager_ s') = true).
Proof. intros (? & ? & ? & ? & _)%calls_latches. done. Qed.

(** X9.  On a session whose constructor failed, Create returns the error of
    the constructor, for every graph, also an empty one, and whatever has
    been called on the session before; in particular after Extend, which
    does not consult that error. *)
Theorem Create_returns_init_error s ops s' graph :
  init_error_ s ≠ OK →
  calls s ops s' →
  Create s' graph = (init_error_ s, s').
Proof.
  intros Hne (Hi & _)%calls_latches. unfold Create. rewrite Hi.
  by destruct (init_error_ s).
Qed.

(** X10.  On an open session without a graph, a successful Extend is the
    creation of the graph, also with an empty graph and also on a session
    whose constructor failed (Extend does not consult that error):
    afterwards the graph counts as created, and Create with a graph of at
    least one node fails, with the error of the constructor if there is
    one and with already-exists otherwise. *)
Theorem Extend_creates_the_graph s graph s1 :
  closed_ s = false →
  execution_state_ s = None →
  Extend s graph = (OK, s1) →
  graph_created_ s1 = true ∧
  is_Some (execution_state_ s1) ∧
  ∀ graph', 0 < node_size graph' →
            Create s1 graph' =
              (if ok (init_error_ s) then ALREADY_EXISTS else init_error_ s,
               s1).
Proof.
  intros Hc He. unfold Extend, CheckNotClosed. rewrite Hc. simpl.
  intros Hext.
  pose proof Hext as [(Hi' & _) Hcr]%ExtendLocked_latches.
  specialize (Hcr eq_refl He).
  assert (Hst : is_Some (execution_state_ s1)).
  { revert Hext. unfold ExtendLocked. rewrite He.
    destruct (flib_def_ s); destruct (MakeForBaseGraph graph) as [st state];
      destruct (ok st) eqn:Hok; simpl; intros Heq; simplify_eq/=;
      by eexists. }
  split_and!; [done|done|].
  intros graph' Hn. unfold Create. rewrite Hi', Hcr.
  destruct (ok (init_error_ s)); simpl; [|done].
  by rewrite (proj2 (Z.ltb_lt _ _) Hn).
Qed.

(** X11.  Without a timeout (zero or negative) the wait for the executors
    returns exactly if they are done, come to an end on their own, or
    give up on a cancellation: one that is there when the wait starts,
    or one that another thread sends during the wait.  The wait itself
    neither cancels anything nor makes the status deadline-exceeded: the
    status is that of the executors. *)
Theorem WaitForNotification_no_timeout fate (run_state : RunState) cm timeout :
  timeout ≤ 0 →
  (is_Some (WaitForNotification fate run_state cm timeout) ↔
   executors_done run_state = true ∨ is_Some (finish_after_us fate) ∨
   ((is_cancelled cm = true ∨ cancelled_meanwhile fate = true) ∧
    drains fate = true)) ∧
  ∀ run_state' cm',
    WaitForNotification fate run_state cm timeout = Some (run_state', cm') →
    cm' = (if cancelled_meanwhile fate then StartCancel cm else cm) ∧
    executors_done run_state' = true ∧
    status run_state' =
      if executors_done run_state then status run_state
      else Update (status run_state) (barrier_status fate).
Proof.
  intros Ht. unfold WaitForNotification, WaitForNotification_status.
  rewrite (proj2 (Z.ltb_ge _ _) Ht). unfold Notification_Wait.
  destruct (executors_done run_state) eqn:Hdone; simpl.
  { split; [split; [auto|by eexists]|]. by intros ? ? [= <- <-]. }
  destruct (bool_decide (is_Some (finish_after_us fate)) ||
            ((is_cancelled cm || cancelled_meanwhile fate) && drains fate))
    eqn:Hb; simpl.
  - split; [|by intros ? ? [= <- <-]].
    split; [|by eexists]. intros _. right.
    apply orb_true_iff in Hb
      as [?%bool_decide_eq_true|[[?|?]%orb_true_iff ?]%andb_true_iff];
      auto.
  - split; [|done]. split; [by intros [? ?]|].
    apply orb_false_iff in Hb as [Hf%bool_decide_eq_false Hcd].
    intros [?|[?|[[Hc|Hc] Hd]]]; [done|done|..];
      rewrite Hc, Hd in Hcd; [done|].
    by rewrite orb_true_r in Hcd.
Qed.

(** When the executors declare a collective graph key and the run
    options name another one, RunInternal returns only if the debugger
    state has to be created and cannot be, which is found before the
    rendezvous of the step is made.  Otherwise it leaves with an internal
    error after the rendezvous has been made and before anything notifies
    executors-done; the destructor of the run state then waits for that
    notification, so the call does not return. *)
Lemma RunInternal_collective_key_mismatch
    s step_id run_options ek_addr ek threadpool_options env :
  heap_ s !! ek_addr = Some ek →
  ek_collective_graph_key ek ≠ 0 →
  collective_graph_key run_options ≠ 0 →
  collective_graph_key run_options ≠ ek_collective_graph_key ek →
  RunInternal s step_id run_options ek_addr threadpool_options env =
  if negb (bool_decide (debug_tensor_watch_opts (debug_options run_options)
                        = [])) &&
     negb (ok (debugger_state_status env))
  then Some (debugger_state_status env,
             {| report_run_state := new_RunState [] [] new_IntraProcessRendezvous;
                report_step_cancelled := false;
                report_pool := None; report_runners := [];
                report_retvals := [] |},
             set_heap_ (<[ek_addr := set_step_count
                                       (wrap64 (step_count ek + 1)) ek]>
                          (heap_ s)) s)
  else None.
Proof.
  intros Hek H1 H2 H3. unfold RunInternal. rewrite Hek. simpl.
  destruct (negb _ && negb _); [done|].
  by rewrite (proj2 (Z.eqb_neq _ _) H1), (proj2 (Z.eqb_neq _ _) H2),
             (proj2 (Z.eqb_neq _ _) H3).
Qed.

(** Once the session's cancellation manager is cancelled, a step with a
    valid thread-pool index returns cancelled: it notifies executors-done,
    starts no executor, and still counts as a step of the executors. *)
Lemma RunInternal_already_cancelled
    s step_id run_options ek_addr ek threadpool_options env :
  heap_ s !! ek_addr = Some ek →
  step_entry_clear run_options ek env →
  -1 ≤ inter_op_thread_pool run_options
     < Z.of_nat (length (thread_pools_ s)) →
  is_cancelled (cancellation_manager_ s) = true →
  ∃ report s',
    RunInternal s step_id run_options ek_addr threadpool_options env
      = Some (CANCELLED, report, s') ∧
    executors_done (report_run_state report) = true ∧
    report_runners report = [] ∧
    (step_count <$> heap_ s' !! ek_addr) = Some (wrap64 (step_count ek + 1)).
Proof.
  intros Hek Hclear Hidx Hc.
  rewrite (RunInternal_entry _ _ _ _ _ _ _ Hek Hclear).
  unfold invalid_inter_op_thread_pool.
  assert ((inter_op_thread_pool run_options <? -1) ||
          (Z.of_nat (length (thread_pools_ s)) <=?
           inter_op_thread_pool run_options) = false) as ->.
  { apply orb_false_iff. split; lia. }
  rewrite Hc. eexists _, _. split_and!; try done. simpl.
  rewrite list_lookup_insert_eq; [done|]. by eapply lookup_lt_Some.
Qed.

End Operations_facts.

Section Runs_and_callables.
Context `{Collaborators}.
Implicit Types (s : DirectSession) (a : RunStateArgs).

Lemma wrap64_id z : - 2 ^ 63 ≤ z < 2 ^ 63 → wrap64 z = z.
Proof.
  intros Hz. unfold wrap64.
  rewrite Z.mod_small; [lia|].
  assert (2 ^ 64 = 2 * 2 ^ 63) as -> by done. lia.
Qed.

Lemma map_Forall_mark_done names (pending : gmap string bool) :
  map_Forall (λ _ b, b = true) (mark_done names pending) ↔
  ∀ n, pending !! n = Some false → n ∈ names.
Proof.
  split.
  - intros Hall n Hn. destruct (decide (n ∈ names)) as [|Hnin]; [done|].
    specialize (Hall n false). rewrite lookup_mark_done in Hall.
    rewrite decide_False in Hall by done. by specialize (Hall Hn).
  - intros Hall n b. rewrite lookup_mark_done.
    case_decide as Hin; [by intros [= <-]|].
    destruct b; [done|]. intros Hn. by destruct Hin; apply Hall.
Qed.

Lemma PRun_exchange_OK s fate handle ek run_state inputs output_names
      outputs outputs' s' :
  PRun_exchange s fate handle ek run_state inputs output_names outputs
    = Some (OK, outputs', s') →
  let pi := mark_done (inputs.*1) (pending_inputs run_state) in
  let po := mark_done output_names (pending_outputs run_state) in
  if bool_decide (map_Forall (λ _ b, b = true) pi) &&
     bool_decide (map_Forall (λ _ b, b = true) po)
  then partial_runs_ s' = delete handle (partial_runs_ s)
  else ∃ run_state',
         partial_runs_ s' = <[handle := run_state']> (partial_runs_ s) ∧
         pending_inputs run_state' = pi ∧ pending_outputs run_state' = po.
Proof.
  unfold PRun_exchange.
  destruct (SendPRunInputs _ _ _ _) as [st1 r1].
  destruct (if ok st1 then _ else _) as [[st2 r2] outs2].
  destruct (if ok st2 then _ else _) as [st3 ss3].
  destruct (ok st3) eqn:Hok.
  - unfold PendingDone. simpl.
    destruct (bool_decide _ && bool_decide _).
    + destruct (WaitForNotification _ _ _ _) as [[rs cm]|]; [|done].
      simpl. by intros [= _ _ <-].
    + intros [= _ _ <-]. simpl. by eexists.
  - destruct (WaitForNotification _ _ _ _) as [[rs cm]|]; [|done].
    simpl. intros [= -> _ _]. done.
Qed.

(** X15.  A PRun call that succeeds and leaves no feed and no fetch of the
    partial run pending deletes the partial run: the handle is gone, and
    every later PRun on it fails with invalid-argument. If it leaves a feed
    or a fetch pending, the partial run stays, with the feeds and fetches of
    the call marked. *)
Theorem PRun_completion
    s fate handle inputs output_names outputs outputs' s' run_state :
  partial_runs_ s !! handle = Some run_state →
  PRun s fate handle inputs output_names outputs = Some (OK, outputs', s') →
  ((∀ n, pending_inputs run_state !! n = Some false → n ∈ inputs.*1) ∧
   (∀ n, pending_outputs run_state !! n = Some false → n ∈ output_names) →
   partial_runs_ s' !! handle = None ∧
   ∀ fate' inputs' output_names' outputs'',
     PRun s' fate' handle inputs' output_names' outputs''
       = Some (INVALID_ARGUMENT, outputs'', s')) ∧
  ((∃ n, pending_inputs run_state !! n = Some false ∧ n ∉ inputs.*1) ∨
   (∃ n, pending_outputs run_state !! n = Some false ∧ n ∉ output_names) →
   ∃ run_state',
     partial_runs_ s' !! handle = Some run_state' ∧
     pending_inputs run_state' =
       mark_done (inputs.*1) (pending_inputs run_state) ∧
     pending_outputs run_state' =
       mark_done output_names (pending_outputs run_state)).
Proof.
  intros Hrs [(Hne & _)|(e & ek & rs & Hc & He & Hek & Hrs' & _ & _ & Hex)]%PRun_inv;
    [done|].
  assert (rs = run_state) as -> by congruence.
  pose proof (PRun_exchange_inv _ _ _ _ _ _ _ _ _ _ _ Hex) as (Hc' & He' & Hh' & _).
  apply PRun_exchange_OK in Hex. simpl in Hex.
  split.
  - intros [Hi Ho].
    rewrite !bool_decide_eq_true_2 in Hex by (by apply map_Forall_mark_done).
    simpl in Hex.
    assert (Hgone : partial_runs_ s' !! handle = None)
      by (rewrite Hex; apply lookup_delete_eq).
    split; [done|]. intros.
    eapply PRun_without_run_state; [congruence| | |done].
    + by rewrite He'.
    + by rewrite Hh'.
  - intros Hleft.
    assert (bool_decide (map_Forall (λ _ b, b = true)
              (mark_done (inputs.*1) (pending_inputs run_state))) &&
            bool_decide (map_Forall (λ _ b, b = true)
              (mark_done output_names (pending_outputs run_state))) = false)
      as Hb.
    { apply andb_false_iff.
      destruct Hleft as [(n & Hn & Hnin)|(n & Hn & Hnin)]; [left|right];
        apply bool_decide_eq_false; rewrite map_Forall_mark_done;
        intros Hall; by apply Hnin, Hall. }
    rewrite Hb in Hex. destruct Hex as (rs' & Hp & Hpi & Hpo).
    exists rs'. split; [|done]. rewrite Hp. apply lookup_insert_eq.
Qed.

Lemma CreateExecutors_callable_options s options a st ek a' :
  CreateExecutors s options a = (st, Some ek, a') →
  callable_options ek = options ∧ step_count ek = 0.
Proof.
  unfold CreateExecutors.
  destruct (CreateGraphs s options a) as [[[st0 parts] cg] a0].
  destruct (negb (ok st0)); [done|].
  destruct (create_items _ _ _) as [st2 its].
  destruct (negb (ok st2)); [done|]. by intros [= <- <- <-].
Qed.

(** X16.  MakeCallable hands out the handles in order, each one once. The
    handle it returns names executors made for the given options; after
    ReleaseCallable of the handle, which may be repeated, RunCallable on it
    fails with invalid-argument, and the next MakeCallable returns the next
    handle, not the released one. *)
Theorem callable_handle_lifecycle s options h s1 :
  0 ≤ next_callable_handle_ s < 2 ^ 63 - 1 →
  MakeCallable s options = (OK, h, s1) →
  h = next_callable_handle_ s ∧
  next_callable_handle_ s1 = h + 1 ∧
  (∃ ek_addr ek,
     callables_ s1 !! h = Some ek_addr ∧ heap_ s1 !! ek_addr = Some ek ∧
     callable_options ek = options) ∧
  let s2 := (ReleaseCallable s1 h).2 in
  ReleaseCallable s1 h = (OK, s2) ∧
  ReleaseCallable s2 h = (OK, s2) ∧
  (∀ feed_tensors fetch_tensors threadpool_options env,
     (λ r, r.1) <$> RunCallable s2 h feed_tensors fetch_tensors
                                threadpool_options env
     = Some (INVALID_ARGUMENT, fetch_tensors)) ∧
  (∀ options' h' s3, MakeCallable s2 options' = (OK, h', s3) → h' = h + 1).
Proof.
  intros Hrange. unfold MakeCallable, CheckNotClosed, CheckGraphCreated.
  destruct (closed_ s) eqn:Hc; [done|]. simpl.
  destruct (graph_created_ s) eqn:Hg; [|done]. simpl.
  destruct (CreateExecutors _ _ _) as [[st [ek|]] a'] eqn:Hce.
  2:{ intros [= -> _ _].
      apply CreateExecutors_status in Hce as [[_ Hst] _].
      by destruct (Hst eq_refl). }
  apply CreateExecutors_callable_options in Hce as [Hopts _].
  intros [= <- <-].
  assert (Hw : wrap64 (next_callable_handle_ s + 1) = next_callable_handle_ s + 1)
    by (apply wrap64_id; lia).
  split; [done|]. split; [by simpl|]. split.
  { exists (length (heap_ s)), ek. simpl. split_and!; [|by rewrite lookup_app_r, Nat.sub_diag by lia|done].
    apply lookup_insert_eq. }
  simpl. unfold ReleaseCallable. simpl. rewrite Hw.
  rewrite (proj2 (Z.leb_gt _ _)) by lia. simpl.
  rewrite (proj2 (Z.leb_gt _ _)) by lia.
  rewrite delete_delete_eq.
  split_and!; [done|done| |].
  - intros. unfold RunCallable, CheckNotClosed, CheckGraphCreated. simpl.
    rewrite Hc, Hg. simpl. rewrite (proj2 (Z.leb_gt _ _)) by lia.
    by rewrite lookup_delete_eq.
  - intros options' h' s3.
    unfold MakeCallable, CheckNotClosed, CheckGraphCreated. simpl.
    rewrite Hc, Hg. simpl.
    destruct (CreateExecutors _ _ _) as [[st' [ek'|]] a''] eqn:Hce'.
    + by intros [= <- _].
    + intros [= -> _ _].
      apply CreateExecutors_status in Hce' as [[_ Hst] _].
      by destruct (Hst eq_refl).
Qed.

Lemma fill_feed_args_spec s (m : gmap string nat) inputs :
  (∀ name t, (name, t) ∈ inputs → dtype t = DT_RESOURCE →
             (ResourceHandleToInputTensor s t).1 = OK) →
  NoDup (inputs.*1) →
  (∀ name, name ∈ inputs.*1 → ∃ k, m !! name = Some k) →
  (∀ n1 n2 k, m !! n1 = Some k → m !! n2 = Some k → n1 = n2) →
  ∀ feed_args,
    (∀ name k, name ∈ inputs.*1 → m !! name = Some k →
               (k < length feed_args)%nat) →
    ∃ args,
      fill_feed_args s inputs m feed_args = (OK, args, m) ∧
      length args = length feed_args ∧
      (∀ name t, (name, t) ∈ inputs →
                 ∃ k, m !! name = Some k ∧
                      args !! k = Some (feed_value s t)) ∧
      (∀ k, (∀ name, name ∈ inputs.*1 → m !! name ≠ Some k) →
            args !! k = feed_args !! k).
Proof.
  intros Hres Hnd Hdom Hinj.
  induction inputs as [|[name t] inputs IH]; intros feed_args Hlen.
  - exists feed_args. simpl. split_and!; try done.
    intros ? ? Hin. by apply elem_of_nil in Hin.
  - simpl in Hnd. apply NoDup_cons in Hnd as [Hfresh Hnd].
    destruct (Hdom name) as [k Hk]; [by left|].
    assert (Hsub : subscript m name = (k, m))
      by (unfold subscript; by rewrite Hk).
    assert (Hk_lt : (k < length feed_args)%nat)
      by (apply (Hlen name k); [by left|done]).
    destruct (IH) with (feed_args := <[k := feed_value s t]> feed_args)
      as (args & Hrun & Hlen' & Hset & Hkeep).
    { intros n' t' Hin. apply (Hres n' t'). by right. }
    { done. }
    { intros ? Hin. apply Hdom. by right. }
    { intros n' k' Hin Hk'. rewrite length_insert.
      apply (Hlen n' k'); [by right|done]. }
    exists args.
    assert (Hgo : fill_feed_args s ((name, t) :: inputs) m feed_args
                  = (OK, args, m)).
    { cbn [fill_feed_args]. simpl. unfold feed_value in Hrun.
      destruct (bool_decide (dtype t = DT_RESOURCE)) eqn:Hd.
      - apply bool_decide_eq_true in Hd.
        specialize (Hres name t (list_elem_of_here _ _) Hd).
        destruct (ResourceHandleToInputTensor s t) as [st t'].
        simpl in Hres, Hrun. rewrite Hres. simpl. by rewrite Hsub.
      - by rewrite Hsub. }
    split_and!; [done|by rewrite Hlen', length_insert| |].
    + intros n' t' [[= -> ->]|Hin]%elem_of_cons.
      * exists k. split; [done|]. rewrite Hkeep.
        -- by apply list_lookup_insert_eq.
        -- intros n' Hin Hk'. apply Hfresh.
           by rewrite (Hinj _ _ _ Hk Hk').
      * by apply Hset.
    + intros k' Hk'. rewrite Hkeep.
      * apply list_lookup_insert_ne. intros ->. apply (Hk' name); [by left|done].
      * intros n' Hin. apply Hk'. by right.
Qed.

(** X17.  Run hands the feeds to the executors in the order of the
    executors' arguments, not in the order of the call: for feeds with
    different names that are a reordering of the names the executors were
    made for, argument [k] is the tensor fed under the [k]-th of those names
    (for a resource handle, the tensor the handle stands for). *)
Theorem Run_places_feeds s (feeds : list string) (inputs : NamedTensorList) :
  inputs.*1 ≡ₚ feeds →
  NoDup feeds →
  (∀ name t, (name, t) ∈ inputs → dtype t = DT_RESOURCE →
             (ResourceHandleToInputTensor s t).1 = OK) →
  ∃ args,
    fill_feed_args s inputs (name_to_index feeds)
                   (replicate (length inputs) empty_tensor)
      = (OK, args, name_to_index feeds) ∧
    length args = length feeds ∧
    ∀ i name t, inputs !! i = Some (name, t) →
                ∃ k, feeds !! k = Some name ∧
                     args !! k = Some (feed_value s t).
Proof.
  intros Hperm Hnd Hres.
  assert (Hlen : length inputs = length feeds)
    by (rewrite <- (length_fmap fst inputs); by rewrite Hperm).
  destruct (fill_feed_args_spec s (name_to_index feeds) inputs Hres)
    with (feed_args := replicate (length inputs) empty_tensor)
    as (args & Hrun & Hlen' & Hset & _).
  - by rewrite Hperm.
  - intros name Hin. apply elem_of_dom.
    rewrite dom_name_to_index, elem_of_list_to_set. by rewrite <- Hperm.
  - intros n1 n2 k H1%lookup_name_to_index H2%lookup_name_to_index.
    congruence.
  - intros name k _ Hk%lookup_name_to_index. rewrite length_replicate, Hlen.
    by eapply lookup_lt_Some.
  - exists args. split; [done|].
    split; [by rewrite Hlen', length_replicate|].
    intros i name t Hi.
    destruct (Hset name t) as (k & Hk & Hargs);
      [by eapply list_elem_of_lookup_2|].
    exists k. split; [by apply lookup_name_to_index|done].
Qed.

End Runs_and_callables.

Lemma not_ok_ne st : ok st = false → st ≠ OK.
Proof. by intros Hok ->. Qed.

Lemma ne_not_ok st : st ≠ OK → ok st = false.
Proof. by destruct st. Qed.

Section Collective_facts.

Context `{Collaborators}.

Lemma fill_feed_args_session_state s1 s2 inputs :
  session_state_ s1 = session_state_ s2 →
  ∀ m feed_args,
    fill_feed_args s1 inputs m feed_args = fill_feed_args s2 inputs m feed_args.
Proof.
  intros Hst. induction inputs as [|it rest IH]; intros m feed_args; [done|].
  simpl. unfold ResourceHandleToInputTensor. rewrite Hst.
  case_bool_decide; [|by destruct (subscript m it.1)].
  destruct (if negb _ then _ else _) as [st t].
  destruct (negb (ok st)); [done|]. by destruct (subscript m it.1).
Qed.

Lemma GetOrCreateExecutors_fast_state s inputs outputs target_nodes a ek_addr :
  executors_ s !! request_key inputs outputs target_nodes a = Some ek_addr →
  ∃ a' s',
    GetOrCreateExecutors s inputs outputs target_nodes a
      = (OK, ek_addr, a', s') ∧
    heap_ s' = heap_ s ∧ session_state_ s' = session_state_ s.
Proof.
  unfold GetOrCreateExecutors, request_key.
  set (key := executors_key inputs _ _ _ _).
  set (s0 := if _ || _ then _ else s).
  assert (Hs0 : executors_ s0 = executors_ s ∧ heap_ s0 = heap_ s ∧
                session_state_ s0 = session_state_ s)
    by (unfold s0; by destruct (_ || _)).
  destruct Hs0 as (Hs0 & Hh0 & Hf0). rewrite Hs0.
  intros ->. by eauto 10.
Qed.

(** X12.  A Run whose request is answered from the cache by executors that
    declare a collective graph key, with run options that name another
    key, never succeeds.  It returns the error of the feeds if they are
    refused; else the error of the call frame if it refuses the
    arguments (invalid-argument in place of an internal error); else the
    error of the debugger state if the run options ask for debug watches
    and it cannot be created; in these cases the outputs of the caller
    are left alone.  Otherwise the step leaves with an
    internal error after the rendezvous has been made and before anything
    notifies executors-done, the destructor of the run state waits for
    that notification, and the call does not return. *)
Theorem Run_collective_key_mismatch
    s run_options inputs output_names target_nodes outputs env ek_addr ek :
  closed_ s = false → graph_created_ s = true →
  executors_ s !! request_key (inputs.*1) output_names target_nodes
                   (new_RunStateArgs (debug_options run_options))
    = Some ek_addr →
  heap_ s !! ek_addr = Some ek →
  ek_collective_graph_key ek ≠ 0 →
  collective_graph_key run_options ≠ 0 →
  collective_graph_key run_options ≠ ek_collective_graph_key ek →
  let call :=
    Run s run_options inputs output_names target_nodes outputs env in
  let placed :=
    fill_feed_args s inputs (input_name_to_index ek)
                   (replicate (length inputs) empty_tensor) in
  let set_args := SetArgs (input_types ek) placed.1.2 in
  (placed.1.1 ≠ OK → ∃ s', call = Some (placed.1.1, outputs, s')) ∧
  (placed.1.1 = OK → set_args ≠ OK →
   ∃ s', call = Some (if IsInternal set_args then INVALID_ARGUMENT
                      else set_args, outputs, s')) ∧
  (placed.1.1 = OK → set_args = OK →
   debug_tensor_watch_opts (debug_options run_options) ≠ [] →
   debugger_state_status env ≠ OK →
   ∃ s', call = Some (debugger_state_status env, outputs, s')) ∧
  (placed.1.1 = OK → set_args = OK →
   debug_tensor_watch_opts (debug_options run_options) = [] ∨
   debugger_state_status env = OK →
   call = None).
Proof.
  intros Hclosed Hcreated Hkey Hek H1 H2 H3 call placed set_args.
  destruct (GetOrCreateExecutors_fast_state s (inputs.*1) output_names
              target_nodes
              {| is_partial_run := false; handle := ""; rsa_graph := None;
                 rsa_debug_options := debug_options run_options;
                 rsa_collective_graph_key := collective_graph_key run_options |}
              ek_addr Hkey) as (a' & s' & HG & Hheap & Hstate).
  assert (Hplaced :
    fill_feed_args (set_collective_graph_key_ (ek_collective_graph_key ek) s')
                   inputs (input_name_to_index ek)
                   (replicate (length inputs) empty_tensor) = placed).
  { apply fill_feed_args_session_state. by rewrite <- Hstate. }
  assert (Hcall : ∃ s2 s3, call =
    if negb (ok placed.1.1) then Some (placed.1.1, outputs, s2) else
    if IsInternal set_args then Some (INVALID_ARGUMENT, outputs, s2)
    else if negb (ok set_args) then Some (set_args, outputs, s2) else
    if negb (bool_decide (debug_tensor_watch_opts (debug_options run_options)
                          = [])) &&
       negb (ok (debugger_state_status env))
    then Some (debugger_state_status env, outputs, s3) else None).
  { unfold call, set_args, Run, CheckNotClosed, CheckGraphCreated.
    rewrite Hclosed, Hcreated. simpl. rewrite HG. simpl.
    rewrite Hheap, Hek. simpl. rewrite Hplaced.
    destruct placed as [[st feed_args] name_to_idx]. simpl.
    eexists _, _.
    destruct (negb (ok st)); [reflexivity|].
    destruct (IsInternal _); [reflexivity|].
    destruct (negb (ok (SetArgs _ _))); [reflexivity|].
    rewrite RunInternal_collective_key_mismatch
      with (ek := set_input_name_to_index name_to_idx ek); try done.
    - destruct (negb (bool_decide _) && negb (ok (debugger_state_status env)))
        eqn:Hdbg; [|reflexivity].
      apply andb_true_iff in Hdbg as [_ Hd]. simpl. rewrite Hd.
      reflexivity.
    - simpl. apply list_lookup_insert_eq. by eapply lookup_lt_Some. }
  destruct Hcall as (s2 & s3 & ->). split_and!.
  - intros Hne. rewrite (ne_not_ok _ Hne). simpl. by eexists.
  - intros -> Hne. simpl. destruct (IsInternal set_args); [by eexists|].
    rewrite (ne_not_ok _ Hne). simpl. by eexists.
  - intros -> Hok Hw Hd. rewrite Hok. simpl.
    rewrite bool_decide_eq_false_2 by done. rewrite (ne_not_ok _ Hd). simpl.
    by eexists.
  - intros -> Hok Hdbg. rewrite Hok. simpl.
    destruct Hdbg as [-> | ->]; [done|]. by rewrite andb_false_r.
Qed.

End Collective_facts.

Section Cancelled_facts.

Context `{Collaborators}.

Lemma RunInternal_cancelled s step_id run_options ek_addr threadpool_options
      env st report s' :
  is_cancelled (cancellation_manager_ s) = true →
  RunInternal s step_id run_options ek_addr threadpool_options env
    = Some (st, report, s') →
  st ≠ OK ∧ report_retvals report = [].
Proof.
  intros Hc. unfold RunInternal.
  destruct (heap_ s !! ek_addr) as [ek|]; [|done]. simpl.
  destruct (negb (bool_decide _) && negb (ok (debugger_state_status env)))
    eqn:Hdbg.
  { intros [= <- <- _]. split; [|done]. apply not_ok_ne.
    apply andb_true_iff in Hdbg as [_ Hdbg]. by apply negb_true_iff. }
  destruct (_ && _ && _); [done|].
  destruct (invalid_inter_op_thread_pool _ _); [by intros [= <- <- _]|].
  rewrite Hc. by intros [= <- <- _].
Qed.

Lemma Run_cancelled s run_options inputs output_names target_nodes outputs env
      st outputs' s' :
  is_cancelled (cancellation_manager_ s) = true →
  Run s run_options inputs output_names target_nodes outputs env
    = Some (st, outputs', s') →
  st ≠ OK ∧ outputs' = outputs.
Proof.
  intros Hc. unfold Run.
  destruct (negb (ok (CheckNotClosed s))) eqn:E1.
  { intros [= <- <- _]. split; [|done]. by apply not_ok_ne, negb_true_iff. }
  destruct (negb (ok (CheckGraphCreated s))) eqn:E2.
  { intros [= <- <- _]. split; [|done]. by apply not_ok_ne, negb_true_iff. }
  destruct (GetOrCreateExecutors _ _ _ _ _) as [[[st0 e] a'] s0] eqn:Hg.
  apply GetOrCreateExecutors_latches in Hg.
  assert (Hc0 : is_cancelled (cancellation_manager_ s0) = true).
  { unfold latches in Hg. injection Hg as _ _ _ Hg _. by rewrite Hg. }
  destruct (negb (ok st0)) eqn:E3.
  { intros [= <- <- _]. split; [|done]. by apply not_ok_ne, negb_true_iff. }
  destruct (heap_ s0 !! e) as [ek|]; [|done]. simpl.
  destruct (fill_feed_args _ _ _ _) as [[st1 fa] idx].
  destruct (negb (ok st1)) eqn:E4.
  { intros [= <- <- _]. split; [|done]. by apply not_ok_ne, negb_true_iff. }
  destruct (IsInternal _); [by intros [= <- <- _]|].
  destruct (negb (ok (SetArgs _ _))) eqn:E5.
  { intros [= <- <- _]. split; [|done]. by apply not_ok_ne, negb_true_iff. }
  destruct (RunInternal _ _ _ _ _ _) as [[[st3 rep] s3]|] eqn:Hr; [|done].
  apply RunInternal_cancelled in Hr as [Hne _]; [|done]. simpl.
  rewrite (ne_not_ok _ Hne). simpl. by intros [= <- <- _].
Qed.

Lemma RunCallable_cancelled s handle feed_tensors fetch_tensors
      threadpool_options env st fetch' s' :
  is_cancelled (cancellation_manager_ s) = true →
  RunCallable s handle feed_tensors fetch_tensors threadpool_options env
    = Some (st, fetch', s') →
  st ≠ OK.
Proof.
  intros Hc. unfold RunCallable.
  destruct (negb (ok (CheckNotClosed s))) eqn:E1.
  { intros [= <- _ _]. by apply not_ok_ne, negb_true_iff. }
  destruct (negb (ok (CheckGraphCreated s))) eqn:E2.
  { intros [= <- _ _]. by apply not_ok_ne, negb_true_iff. }
  set (s1 := set_step_id_counter_ _ _).
  destruct (_ <=? handle); [by intros [= <- _ _]|].
  destruct (callables_ s1 !! handle) as [e|]; [|by intros [= <- _ _]].
  destruct (heap_ s1 !! e) as [ek|]; [|done]. simpl.
  destruct (negb (bool_decide _)); [by intros [= <- _ _]|].
  assert (Hgo : ∀ ft : option (list Tensor),
    ('(st, report, s0) ← RunInternal s1 (step_id_counter_ s)
        (run_options (callable_options ek)) e threadpool_options env;
     let fetch_tensors0 := set_retvals (report_retvals report) <$> ft in
     if negb (ok st) then Some (st, fetch_tensors0, s0)
     else Some (OK, fetch_tensors0, s0)) = Some (st, fetch', s') →
    st ≠ OK).
  { intros ft.
    destruct (RunInternal s1 _ _ _ _ _) as [[[st3 rep] s3]|] eqn:Hr; [|done].
    apply RunInternal_cancelled in Hr as [Hne _]; [|done]. simpl.
    rewrite (ne_not_ok _ Hne). simpl. by intros [= <- _ _]. }
  destruct fetch_tensors as [ft|], (output_types ek) as [|ty tys];
    try apply Hgo.
  by intros [= <- _ _].
Qed.

(** X13.  Once the cancellation manager of the session is cancelled, by
    Close or by a PRun whose wait ran into the timeout, no step is run
    again, whatever is called in between: every Run that returns returns an
    error and leaves the outputs of the caller alone, and every RunCallable
    that returns returns an error. *)
Theorem cancelled_session_runs_no_step s ops s' :
  is_cancelled (cancellation_manager_ s) = true →
  calls s ops s' →
  (∀ run_options inputs output_names target_nodes outputs env st outputs' s'',
     Run s' run_options inputs output_names target_nodes outputs env
       = Some (st, outputs', s'') →
     st ≠ OK ∧ outputs' = outputs) ∧
  (∀ handle feed_tensors fetch_tensors threadpool_options env st fetch' s'',
     RunCallable s' handle feed_tensors fetch_tensors threadpool_options env
       = Some (st, fetch', s'') →
     st ≠ OK).
Proof.
  intros Hc (_ & _ & _ & Hc' & _)%calls_latches. specialize (Hc' Hc).
  split; intros; [by eapply Run_cancelled|by eapply RunCallable_cancelled].
Qed.

Lemma WaitForNotification_late fate (run_state : RunState) cm timeout :
  executors_done run_state = false →
  0 < timeout →
  match finish_after_us fate with
  | Some t => timeout * 1000 < t
  | None => True
  end →
  WaitForNotification fate run_state cm timeout =
  if bool_decide (is_Some (finish_after_us fate)) || drains fate
  then Some (executors_finish fate
               (set_status (Update (status run_state) DEADLINE_EXCEEDED)
                           run_state),
             {| is_cancelled := true |})
  else None.
Proof.
  intros Hdone Hpos Hlate.
  unfold WaitForNotification, WaitForNotification_status.
  rewrite (proj2 (Z.ltb_lt _ _) Hpos).
  unfold WaitForNotificationWithTimeout. rewrite Hdone.
  assert (Hmiss : match finish_after_us fate with
                  | Some t =>
                      if t <=? wrap64 (timeout * 1000)
                      then (true, executors_finish fate run_state)
                      else (false, run_state)
                  | None => (false, run_state)
                  end = (false, run_state)).
  { destruct (finish_after_us fate) as [t|]; [|done].
    pose proof (wrap64_le (timeout * 1000)).
    rewrite (proj2 (Z.leb_gt _ _)); [done|lia]. }
  rewrite Hmiss. simpl.
  unfold Notification_Wait. simpl. rewrite Hdone.
  by destruct (bool_decide _ || drains fate).
Qed.

(** X14.  A PRun call that ends the partial run waits for the executors for
    at most the operation timeout of the session.  If they are not done
    by then, the call cancels the cancellation manager of the session,
    not one of the step, and waits again: it returns exactly if the
    executors come to an end afterwards, on their own or because of the
    cancellation.  When it returns, its status and outputs are those of
    the same call with executors that are done in time, so OK if the
    feeds and fetches went through and never deadline-exceeded on account
    of the wait, and the session is as after that call except that it is
    cancelled, although it is not closed. *)
Theorem PRun_timeout_cancels_session
    s fate fate0 handle inputs output_names outputs st outputs' s0 run_state :
  partial_runs_ s !! handle = Some run_state →
  executors_done run_state = false →
  0 < operation_timeout_in_ms_ s →
  match finish_after_us fate with
  | Some t => operation_timeout_in_ms_ s * 1000 < t
  | None => True
  end →
  PRun s fate0 handle inputs output_names outputs = Some (st, outputs', s0) →
  partial_runs_ s0 !! handle = None →
  let call := PRun s fate handle inputs output_names outputs in
  (is_Some call ↔
   is_Some (finish_after_us fate) ∨ drains fate = true) ∧
  ∀ st1 outputs1 s1,
    call = Some (st1, outputs1, s1) →
    st1 = st ∧ outputs1 = outputs' ∧
    s1 = set_cancellation_manager_
           (StartCancel (cancellation_manager_ s0)) s0 ∧
    closed_ s1 = false ∧ is_cancelled (cancellation_manager_ s1) = true.
Proof.
  intros Hrs Hdone Hpos Hlate Href Hgone call. unfold call. clear call.
  revert Href. unfold PRun, CheckNotClosed.
  destruct (closed_ s) eqn:Hopen; simpl.
  { intros [= _ _ <-]. congruence. }
  destruct (executors_ s !! Split_first handle) as [ek_addr|];
    [|intros [= _ _ <-]; congruence].
  destruct (heap_ s !! ek_addr) as [ek|]; [|done].
  rewrite Hrs.
  destruct (negb (ok (check_pending _ (pending_inputs run_state))));
    [intros [= _ _ <-]; congruence|].
  destruct (negb (ok (check_pending _ (pending_outputs run_state))));
    [intros [= _ _ <-]; congruence|].
  destruct (CheckFetch _ _ _ _ _ _ _) as [stc|]; [|done]. simpl.
  destruct (negb (ok stc)); [intros [= _ _ <-]; congruence|].
  unfold PRun_exchange.
  destruct (SendPRunInputs _ _ _ _) as [st1 r1].
  destruct (if ok st1 then _ else _) as [[st2 r2] outs2].
  destruct (if ok st2 then _ else _) as [st3 ss3].
  destruct (if ok st3 then _ else true).
  - rewrite (WaitForNotification_late fate); [|by destruct (ok st3)|done..].
    destruct (WaitForNotification fate0 _ _ _) as [[rs0 cm0]|]; [|done].
    simpl. intros [= <- <- <-].
    destruct (bool_decide (is_Some (finish_after_us fate)) || drains fate)
      eqn:Hb; simpl.
    + split.
      * split; [|by eexists]. intros _.
        apply orb_true_iff in Hb as [?%bool_decide_eq_true|?]; auto.
      * by intros ? ? ? [= <- <- <-].
    + split; [|done]. split; [by intros [? ?]|].
      apply orb_false_iff in Hb as [Hf%bool_decide_eq_false Hd].
      intros [?|?]; [done|congruence].
  - intros [= <- <- <-]. simpl in Hgone. by rewrite lookup_insert_eq in Hgone.
Qed.

End Cancelled_facts.

(** ** The CPUs of a session group *)

Lemma foldl_snoc {A B} (f : B → A) (l : list B) (acc : list A) :
  foldl (λ acc i, (acc ++ [f i])%list) acc l = (acc ++ (f <$> l))%list.
Proof.
  revert acc. induction l as [|x l IH]; intros acc; simpl.
  - by rewrite app_nil_r.
  - by rewrite IH, <- app_assoc.
Qed.

Lemma concat_slices {A} (l : list A) (c n : nat) :
  concat ((λ i, take c (drop (i * c) l)) <$> seq 0 n) = take (n * c) l.
Proof.
  induction n as [|n IH]; [done|].
  rewrite seq_S, fmap_app, concat_app, IH. simpl. rewrite app_nil_r.
  rewrite take_take_drop. f_equal. lia.
Qed.

(** X18.  For a positive number of sessions, the visible CPUs are cut into
    that many consecutive slices of equal length, the number of CPUs divided
    by the number of sessions and rounded down, one per session in order;
    the slices do not overlap, and the CPUs left over by the division, at
    the end of the list, are given to no session. *)
Theorem AllocateVisibleCpusForSession_slices
    (visible_cpus : list Z) (session_num : Z) (previous : list (list Z)) :
  0 < session_num →
  let count := (length visible_cpus / Z.to_nat session_num)%nat in
  ∃ per_session,
    AllocateVisibleCpusForSession visible_cpus session_num previous
      = Some (previous ++ per_session)%list ∧
    length per_session = Z.to_nat session_num ∧
    (∀ i cpus, per_session !! i = Some cpus →
               cpus = take count (drop (i * count) visible_cpus) ∧
               length cpus = count) ∧
    concat per_session =
      take (Z.to_nat session_num * count) visible_cpus ∧
    length (drop (Z.to_nat session_num * count) visible_cpus) =
      (length visible_cpus mod Z.to_nat session_num)%nat.
Proof.
  intros Hn count. unfold AllocateVisibleCpusForSession.
  rewrite (proj2 (Z.ltb_lt _ _) Hn).
  set (n := Z.to_nat session_num).
  assert (Hn' : (0 < n)%nat) by lia.
  assert (Hcount : Z.to_nat (Z.of_nat (length visible_cpus) / session_num)
                   = count).
  { unfold count. rewrite <- (Z2Nat.id session_num) at 1 by lia.
    fold n. rewrite <- Nat2Z.inj_div. apply Nat2Z.id. }
  set (f := λ i : nat, take count (drop (i * count) visible_cpus)).
  exists (f <$> seq 0 n).
  set (F := λ i : Z,
         take (Z.to_nat (Z.of_nat (length visible_cpus) / session_num))
              (drop (Z.to_nat
                       (i * (Z.of_nat (length visible_cpus) / session_num)))
                    visible_cpus)).
  assert (Hfold : F <$> (Z.of_nat <$> seq 0 n) = f <$> seq 0 n).
  { rewrite <- list_fmap_compose. apply list_fmap_ext. intros _ i _.
    unfold F, f. simpl. rewrite Hcount. do 2 f_equal.
    rewrite Z2Nat.inj_mul, Nat2Z.id, Hcount by (try lia;
      apply Z.div_pos; lia). done. }
  rewrite (foldl_snoc F), Hfold.
  pose proof (Nat.div_mod_eq (length visible_cpus) n) as Hdm.
  assert (Hle : (n * count ≤ length visible_cpus)%nat)
    by (unfold count; fold n; lia).
  split_and!.
  - done.
  - by rewrite length_fmap, length_seq.
  - intros i cpus. rewrite list_lookup_fmap.
    destruct (seq 0 n !! i) as [j|] eqn:Hj; [|done]. simpl.
    apply lookup_seq in Hj as [-> Hlt]. intros [= <-]. split; [done|].
    unfold f. rewrite length_take, length_drop.
    assert ((i * count + count ≤ n * count)%nat) by nia. lia.
  - apply concat_slices.
  - rewrite length_drop. unfold count. fold n. lia.
Qed.


(** ** local_device.cc *)

Section LocalDevice_facts.

Import LocalDevice.

Context `{Environment}.

Lemma keeps_pools_refl st : keeps_pools st st.
Proof. by split_and!. Qed.

Lemma keeps_pools_trans st1 st2 st3 :
  keeps_pools st1 st2 → keeps_pools st2 st3 → keeps_pools st1 st3.
Proof.
  intros (? & ? & ?) (? & ? & ?). split_and!; [by etrans|lia|auto].
Qed.

Lemma keeps_pools_pad st (n : nat) :
  let st' := set_global_tp_info_
               (global_tp_info_ st ++ replicate n None)%list st in
  keeps_pools st st' ∧ (statics_ok st → statics_ok st').
Proof.
  split; [split_and!; simpl|].
  - done.
  - rewrite length_app. lia.
  - intros i p Hi. by apply lookup_app_l_Some.
  - intros Hok i p. simpl. intros Hi.
    apply lookup_app_Some in Hi as [Hl|[_ Hr]]; [by eapply Hok|].
    apply lookup_replicate in Hr as [? _]. done.
Qed.

Lemma allocate_spec info st p st' :
  allocate info st = (p, st') →
  p = length (infos st) ∧ infos st' = (infos st ++ [info])%list ∧
  global_tp_info_ st' = global_tp_info_ st ∧
  use_global_threadpool_ st' = use_global_threadpool_ st.
Proof. by intros [= <- <-]. Qed.

Lemma get_or_create_spec i info st p st' :
  get_or_create i info st = Some (p, st') →
  0 ≤ i < Z.of_nat (length (global_tp_info_ st)) ∧
  use_global_threadpool_ st' = use_global_threadpool_ st ∧
  global_tp_info_ st' = <[Z.to_nat i := Some p]> (global_tp_info_ st) ∧
  ((global_tp_info_ st !! Z.to_nat i = Some (Some p) ∧ infos st' = infos st) ∨
   (global_tp_info_ st !! Z.to_nat i = Some None ∧ p = length (infos st) ∧
    infos st' = (infos st ++ [info])%list)).
Proof.
  unfold get_or_create.
  destruct ((i <? 0) || _) eqn:Hb; [done|].
  apply orb_false_iff in Hb as [Hlo%Z.ltb_ge Hhi%Z.leb_gt].
  destruct (lookup_lt_is_Some_2 (global_tp_info_ st) (Z.to_nat i)) as [slot Hs];
    [lia|].
  rewrite Hs. destruct slot as [q|].
  - intros [= <- <-]. split_and!; [lia|lia|done| |].
    + by rewrite list_insert_id.
    + by left.
  - intros [= <- <-]. simpl. split_and!; [lia|lia|done|done|]. by right.
Qed.

Lemma get_or_create_keeps i info st p st' :
  get_or_create i info st = Some (p, st') →
  keeps_pools st st' ∧
  global_tp_info_ st' !! Z.to_nat i = Some (Some p) ∧
  (statics_ok st → statics_ok st' ∧ (p < length (infos st'))%nat).
Proof.
  intros (Hi & _ & Hg & Hcase)%get_or_create_spec.
  assert (Hpre : infos st `prefix_of` infos st').
  { destruct Hcase as [[_ ->]|(_ & _ & ->)]; [done|]. by apply prefix_app_r. }
  assert (Hat : global_tp_info_ st' !! Z.to_nat i = Some (Some p))
    by (rewrite Hg; apply list_lookup_insert_eq; lia).
  split_and!; [split_and!| |]; try done.
  - rewrite Hg, length_insert. lia.
  - intros j q Hj. destruct (decide (j = Z.to_nat i)) as [->|Hne].
    + destruct Hcase as [[Hold _]|(Hold & _)]; congruence.
    + rewrite Hg. by rewrite list_lookup_insert_ne.
  - intros Hok.
    assert (Hp : (p < length (infos st'))%nat).
    { destruct Hcase as [[Hold ->]|(_ & -> & ->)]; [by eapply Hok|].
      rewrite length_app. simpl. lia. }
    split; [|done]. intros j q. rewrite Hg. intros Hj.
    destruct (decide (j = Z.to_nat i)) as [->|Hne].
    + rewrite list_lookup_insert_eq in Hj by lia. congruence.
    + rewrite list_lookup_insert_ne in Hj by done.
      apply Hok in Hj. apply prefix_length in Hpre. lia.
Qed.

(** X19.  Init never replaces a global pool and never drops an
    EigenThreadPoolInfo: the objects allocated before are still there, the
    global vector does not shrink, every slot that held a pool still holds
    that pool, and the pool of the new device is one of the allocated
    objects. *)
Theorem LocalDevice_Init_keeps_pools options numa_node opt st d st' :
  Init options numa_node opt st = Some (d, st') →
  keeps_pools st st' ∧
  (statics_ok st → statics_ok st' ∧ (tp_info d < length (infos st'))%nat).
Proof.
  unfold Init.
  set (st0 := if OverrideGlobalThreadPoolFromEnvironment then _ else st).
  assert (Hst0 : keeps_pools st st0 ∧ (statics_ok st → statics_ok st0)).
  { unfold st0. destruct OverrideGlobalThreadPoolFromEnvironment;
      [|split; [apply keeps_pools_refl|done]].
    split; [by split_and!|]. intros Hok i p. apply Hok. }
  destruct Hst0 as [Hk0 Hok0]. clearbody st0.
  assert (Hgoc : ∀ i info n p st1,
    get_or_create i info
      (set_global_tp_info_ (global_tp_info_ st0 ++ replicate n None)%list st0)
      = Some (p, st1) →
    keeps_pools st st1 ∧
    (statics_ok st → statics_ok st1 ∧ (p < length (infos st1))%nat)).
  { intros i info n p st1 (Hk & _ & Hok)%get_or_create_keeps.
    destruct (keeps_pools_pad st0 n) as [Hkp Hokp].
    split; [eauto using keeps_pools_trans|auto]. }
  destruct (use_global_threadpool_ st0).
  - destruct (use_numa_affinity options).
    + destruct (DCHECK_IS_ON && _); [done|].
      destruct (numa_node <? 0); [done|].
      destruct (get_or_create _ _ _) as [[p st1]|] eqn:Hg; [|done].
      simpl. intros [= <- <-]. by eapply Hgoc.
    + destruct (1 <? global_threadpool_num opt).
      * destruct (get_or_create _ _ _) as [[p st1]|] eqn:Hg; [|done].
        simpl. intros [= <- <-]. by eapply Hgoc.
      * destruct (global_tp_info_ st0) as [|slot slots] eqn:Hv.
        -- simpl. intros [= <- <-]. simpl. split.
           ++ eapply keeps_pools_trans; [done|]. split_and!; simpl.
              ** by apply prefix_app_r.
              ** rewrite Hv. simpl. lia.
              ** intros i p. by rewrite Hv.
           ++ intros Hok%Hok0. rewrite length_app. simpl. split; [|lia].
              intros [|i] p; simpl; [|done]. intros [= <-].
              rewrite length_app. simpl. lia.
        -- rewrite Hv. simpl. destruct slot as [p|]; [|done].
           intros [= <- <-]. simpl. split; [done|].
           intros Hok%Hok0. split; [done|]. apply (Hok 0%nat). by rewrite Hv.
  - simpl. intros [= <- <-]. simpl. split.
    + eapply keeps_pools_trans; [done|]. split_and!; simpl; try done.
      by apply prefix_app_r.
    + intros Hok%Hok0. rewrite length_app. simpl. split; [|lia].
      intros i p Hi. apply Hok in Hi. simpl. rewrite length_app. simpl. lia.
Qed.

(** X20.  With the global thread pool in use and neither NUMA affinity nor
    several global pools asked for, the first device creates the pool from
    its own options and every later device gets that same pool whatever its
    options say: nothing is allocated and nothing changes. *)
Theorem LocalDevice_Init_shares_global_pool
    options1 numa_node1 opt1 options2 numa_node2 opt2 st d1 st1 :
  OverrideGlobalThreadPoolFromEnvironment = false →
  use_global_threadpool_ st = true →
  use_numa_affinity options1 = false → global_threadpool_num opt1 ≤ 1 →
  use_numa_affinity options2 = false → global_threadpool_num opt2 ≤ 1 →
  Init options1 numa_node1 opt1 st = Some (d1, st1) →
  Init options2 numa_node2 opt2 st1
    = Some ({| tp_info := tp_info d1; owns_tp_info := false |}, st1) ∧
  (global_tp_info_ st = [] →
   infos st1 !! tp_info d1 = Some (new_EigenThreadPoolInfo options1 kNUMANoAffinity false)).
Proof.
  intros Hov Hglob Hn1 Hm1 Hn2 Hm2. unfold Init. rewrite Hov, Hglob, Hn1, Hn2.
  rewrite !(proj2 (Z.ltb_ge _ _)) by lia.
  destruct (global_tp_info_ st) as [|slot slots] eqn:Hv.
  - simpl. intros [= <- <-]. simpl. rewrite Hglob. simpl. split; [done|].
    intros _. by rewrite lookup_app_r, Nat.sub_diag by lia.
  - rewrite Hv. simpl. destruct slot as [p|]; [|done].
    intros [= <- <-]. rewrite Hglob, Hv. simpl. by rewrite Hv.
Qed.

(** X21.  With several global pools asked for, every Init appends
    [global_threadpool_num] empty slots to the global vector; the device
    gets the pool at [device_threadpool_index], created from its options if
    that slot was empty, and a later device with the same index gets the
    same pool. *)
Theorem LocalDevice_Init_pool_per_index
    options numa_node opt st :
  OverrideGlobalThreadPoolFromEnvironment = false →
  use_global_threadpool_ st = true →
  use_numa_affinity options = false →
  1 < global_threadpool_num opt →
  0 ≤ device_threadpool_index opt < global_threadpool_num opt →
  ∃ d st1,
    Init options numa_node opt st = Some (d, st1) ∧
    owns_tp_info d = false ∧
    length (global_tp_info_ st1) =
      (length (global_tp_info_ st) + Z.to_nat (global_threadpool_num opt))%nat ∧
    global_tp_info_ st1 !! Z.to_nat (device_threadpool_index opt)
      = Some (Some (tp_info d)) ∧
    (∀ options' numa_node' opt',
       use_numa_affinity options' = false →
       1 < global_threadpool_num opt' →
       device_threadpool_index opt' = device_threadpool_index opt →
       ∃ st2, Init options' numa_node' opt' st1 = Some (d, st2) ∧
              infos st2 = infos st1).
Proof.
  intros Hov Hglob Hnuma Hnum Hidx.
  assert (Hgo : ∀ options0 opt0 st0,
    use_global_threadpool_ st0 = true →
    use_numa_affinity options0 = false →
    1 < global_threadpool_num opt0 →
    Init options0 numa_node opt0 st0 =
    '(p, st) ← get_or_create (device_threadpool_index opt0)
                 (new_EigenThreadPoolInfo options0 kNUMANoAffinity false)
                 (set_global_tp_info_
                    (global_tp_info_ st0 ++
                     replicate (Z.to_nat (global_threadpool_num opt0)) None)%list
                    st0);
    Some ({| tp_info := p; owns_tp_info := false |}, st)).
  { intros options0 opt0 st0 Hg0 Hn0 Hm0. unfold Init.
    rewrite Hov, Hg0, Hn0. by rewrite (proj2 (Z.ltb_lt _ _) Hm0). }
  rewrite Hgo by done.
  destruct (get_or_create _ _ _) as [[p st1]|] eqn:Hg.
  2:{ exfalso. revert Hg. unfold get_or_create. simpl.
      rewrite length_app, length_replicate.
      rewrite (proj2 (Z.ltb_ge _ _)) by lia.
      rewrite (proj2 (Z.leb_gt _ _)) by lia. simpl.
      by repeat case_match. }
  pose proof Hg as (_ & Hat & _)%get_or_create_keeps.
  apply get_or_create_spec in Hg as (Hrange & Hglob1 & Hv1 & _).
  simpl in Hrange, Hglob1, Hv1.
  exists {| tp_info := p; owns_tp_info := false |}, st1. simpl.
  split_and!; [done|done| |done|].
  - by rewrite Hv1, length_insert, length_app, length_replicate.
  - intros options' numa_node' opt' Hnuma' Hnum' Hidx'.
    unfold Init. rewrite Hov, Hglob1, Hglob, Hnuma'.
    rewrite (proj2 (Z.ltb_lt _ _) Hnum'). unfold get_or_create. simpl.
    rewrite length_app, length_replicate, Hidx'.
    assert (Hlen1 : (Z.to_nat (device_threadpool_index opt)
                     < length (global_tp_info_ st1))%nat)
      by (by eapply lookup_lt_Some).
    rewrite (proj2 (Z.ltb_ge _ _)) by lia.
    rewrite (proj2 (Z.leb_gt _ _)) by lia. simpl.
    rewrite lookup_app_l by done. rewrite Hat. simpl.
    by eexists.
Qed.

(** X22.  With NUMA affinity, Init returns no device if the NUMA node of the
    device is negative. If it is not negative (and below the number of NUMA
    nodes where that is checked), the global vector is padded up to that
    node, the device gets the pool of its node, created with the allocator
    of the node if the slot was empty, and a later device on the same node
    gets the same pool, with nothing changed. *)
Theorem LocalDevice_Init_numa options numa_node opt st :
  OverrideGlobalThreadPoolFromEnvironment = false →
  use_global_threadpool_ st = true →
  use_numa_affinity options = true →
  (numa_node < 0 → Init options numa_node opt st = None) ∧
  (0 ≤ numa_node →
   DCHECK_IS_ON = false ∨ numa_node < NUMANumNodes →
   ∃ d st1,
     Init options numa_node opt st = Some (d, st1) ∧
     owns_tp_info d = false ∧
     length (global_tp_info_ st1) =
       (length (global_tp_info_ st) `max` (Z.to_nat numa_node + 1))%nat ∧
     global_tp_info_ st1 !! Z.to_nat numa_node = Some (Some (tp_info d)) ∧
     (global_tp_info_ st !! Z.to_nat numa_node ≠ Some (Some (tp_info d)) →
      infos st1 !! tp_info d = Some (new_EigenThreadPoolInfo options numa_node true)) ∧
     ∀ options' opt',
       use_numa_affinity options' = true →
       Init options' numa_node opt' st1 = Some (d, st1)).
Proof.
  intros Hov Hglob Hnuma. unfold Init. rewrite Hov, Hglob, Hnuma. split.
  { intros Hneg. rewrite (proj2 (Z.ltb_lt _ _) Hneg). by case_match. }
  intros Hpos Hcheck.
  assert (Hdcheck : DCHECK_IS_ON && (NUMANumNodes <=? numa_node) = false).
  { destruct Hcheck as [->|Hlt]; [done|].
    rewrite (proj2 (Z.leb_gt _ _) Hlt). apply andb_false_r. }
  rewrite Hdcheck, (proj2 (Z.ltb_ge _ _) Hpos).
  destruct (get_or_create _ _ _) as [[p st1]|] eqn:Hg.
  2:{ exfalso. revert Hg. unfold get_or_create. simpl.
      rewrite length_app, length_replicate.
      rewrite (proj2 (Z.ltb_ge _ _)) by lia.
      rewrite (proj2 (Z.leb_gt _ _)) by lia. simpl.
      by repeat case_match. }
  pose proof Hg as (_ & Hat & _)%get_or_create_keeps.
  apply get_or_create_spec in Hg as (Hrange & Hglob1 & Hv1 & Hcase).
  simpl in Hrange, Hglob1, Hv1, Hcase.
  exists {| tp_info := p; owns_tp_info := false |}, st1. simpl.
  assert (Hlen1 : length (global_tp_info_ st1) =
                  (length (global_tp_info_ st) `max` (Z.to_nat numa_node + 1))%nat)
    by (rewrite Hv1, length_insert, length_app, length_replicate; lia).
  split_and!; [done|done|done|done| |].
  - intros Hnew. destruct Hcase as [[Hold _]|(_ & -> & ->)].
    + apply lookup_app_Some in Hold as [Hl|[_ Hr]]; [done|].
      by apply lookup_replicate in Hr as [? _].
    + by rewrite lookup_app_r, Nat.sub_diag by lia.
  - intros options' opt' Hnuma'. rewrite Hglob1, Hglob, Hnuma'.
    assert (Z.to_nat numa_node + 1 - length (global_tp_info_ st1) = 0)%nat
      as -> by lia.
    simpl. rewrite app_nil_r. unfold get_or_create. simpl.
    rewrite (proj2 (Z.ltb_ge _ _)) by lia.
    rewrite (proj2 (Z.leb_gt _ _)) by lia. simpl.
    rewrite Hat. simpl. by destruct st1.
Qed.

(** With TF_OVERRIDE_GLOBAL_THREADPOOL set, every device owns a pool of
    its own, newly created from its options; the global pools are left
    alone and the use of the global pool is switched off. *)
Lemma LocalDevice_Init_owned options numa_node opt st :
  OverrideGlobalThreadPoolFromEnvironment = true →
  ∃ st1,
    Init options numa_node opt st
      = Some ({| tp_info := length (infos st); owns_tp_info := true |}, st1) ∧
    use_global_threadpool_ st1 = false ∧
    global_tp_info_ st1 = global_tp_info_ st ∧
    infos st1 =
      (infos st ++ [new_EigenThreadPoolInfo options kNUMANoAffinity false])%list ∧
    (statics_ok st → ∀ i, global_tp_info_ st1 !! i
                          ≠ Some (Some (length (infos st)))).
Proof.
  intros Hov. unfold Init. rewrite Hov. simpl.
  eexists. split_and!; try done. simpl.
  intros Hok i Hi. apply Hok in Hi. lia.
Qed.

End LocalDevice_facts.

(** ** The thread pools of a session *)

Section Pools_facts.

Import Pools.

Context `{Environment}.

(** X23.  A named pool is made once, by the first session that names it, and
    is never owned by a session. Afterwards every session that names it with
    the same [num_threads] setting gets that pool, whatever its other
    options are, and every session that names it with another setting is
    refused with invalid-argument; neither changes anything. *)
Theorem NewThreadPoolFromThreadPoolOptions_named
    options thread_pool_options pool_number pr pool owned pr1 :
  global_name thread_pool_options ≠ "" →
  NewThreadPoolFromThreadPoolOptions options thread_pool_options pool_number pr
    = (OK, pool, owned, pr1) →
  ∃ p,
    pool = Some p ∧ owned = false ∧
    global_pool_map pr1 !! global_name thread_pool_options
      = Some (num_threads thread_pool_options, Some p) ∧
    ∀ options' thread_pool_options' pool_number',
      global_name thread_pool_options' = global_name thread_pool_options →
      NewThreadPoolFromThreadPoolOptions options' thread_pool_options' pool_number' pr1 =
      if num_threads thread_pool_options' =? num_threads thread_pool_options
      then (OK, Some p, false, pr1)
      else (INVALID_ARGUMENT, None, false, pr1).
Proof.
  intros Hname. unfold NewThreadPoolFromThreadPoolOptions.
  rewrite bool_decide_eq_false_2 by done.
  assert (Hlater : ∀ p pr1,
    global_pool_map pr1 !! global_name thread_pool_options
      = Some (num_threads thread_pool_options, Some p) →
    ∀ options' thread_pool_options' pool_number',
      global_name thread_pool_options' = global_name thread_pool_options →
      NewThreadPoolFromThreadPoolOptions options' thread_pool_options' pool_number' pr1 =
      if num_threads thread_pool_options' =? num_threads thread_pool_options
      then (OK, Some p, false, pr1)
      else (INVALID_ARGUMENT, None, false, pr1)).
  { intros p pr2 Hmap options' tpo' k' Hsame.
    unfold NewThreadPoolFromThreadPoolOptions. rewrite Hsame.
    rewrite bool_decide_eq_false_2 by done. rewrite Hmap.
    rewrite (Z.eqb_sym (num_threads thread_pool_options)).
    by destruct (_ =? _). }
  destruct (global_pool_map pr !! global_name thread_pool_options)
    as [[configured [p|]]|] eqn:Hmap.
  - destruct (configured =? num_threads thread_pool_options) eqn:Hcfg;
      simpl; [|done].
    apply Z.eqb_eq in Hcfg as ->. intros [= <- <- <-].
    exists p. split_and!; try done. by apply Hlater.
  - simpl. intros [= <- <- <-]. eexists. split_and!; try done.
    + simpl. apply lookup_insert_eq.
    + apply Hlater. simpl. apply lookup_insert_eq.
  - simpl. intros [= <- <- <-]. eexists. split_and!; try done.
    + simpl. apply lookup_insert_eq.
    + apply Hlater. simpl. apply lookup_insert_eq.
Qed.

Lemma NewThreadPoolFromThreadPoolOptions_spec options tpo k pr st pool owned
      pr1 :
  NewThreadPoolFromThreadPoolOptions options tpo k pr = (st, pool, owned, pr1) →
  pools pr `prefix_of` pools pr1 ∧
  (st = OK ∨ st = INVALID_ARGUMENT) ∧
  (st = OK ↔ is_Some pool) ∧
  (process_ok pr →
   process_ok pr1 ∧ ∀ p, pool = Some p → (p < length (pools pr1))%nat).
Proof.
  assert (Hnew : ∀ info f,
    let pr1 := {| pools := (pools pr ++ [info])%list;
                  global_pool_map := f (global_pool_map pr);
                  global_thread_pool := global_thread_pool pr |} in
    (∀ name configured p,
       f (global_pool_map pr) !! name = Some (configured, Some p) →
       global_pool_map pr !! name = Some (configured, Some p) ∨
       p = length (pools pr)) →
    process_ok pr → process_ok pr1).
  { intros info f pr' Hf [Hm Hg]. split; simpl.
    - intros name cfg p [Hold| ->]%Hf; rewrite length_app; simpl; [|lia].
      apply Hm in Hold. lia.
    - intros p Hp%Hg. rewrite length_app. simpl. lia. }
  unfold NewThreadPoolFromThreadPoolOptions.
  case_bool_decide.
  - simpl. intros [= <- <- <- <-]. simpl.
    split_and!; [by apply prefix_app_r|by left|split; [by eexists|done]|].
    intros Hok. split.
    + apply (Hnew _ id); [|done]. intros; by left.
    + intros p [= <-]. rewrite length_app. simpl. lia.
  - destruct (global_pool_map pr !! global_name tpo)
      as [[configured [p|]]|] eqn:Hmap.
    + destruct (negb _); intros [= <- <- <- <-].
      * split_and!; [done|by right|split; [done|by intros [? ?]]|].
        intros Hok. split; [done|done].
      * split_and!; [done|by left|split; [by eexists|done]|].
        intros Hok. split; [done|]. intros ? [= <-].
        by eapply (proj1 Hok).
    + simpl. intros [= <- <- <- <-]. simpl.
      split_and!; [by apply prefix_app_r|by left|split; [by eexists|done]|].
      intros Hok. split.
      * apply (Hnew _ (insert (global_name tpo) (num_threads tpo, Some (length (pools pr)))));
          [|done].
        intros name cfg p Hl.
        destruct (decide (name = global_name tpo)) as [->|Hne].
        -- rewrite lookup_insert_eq in Hl. right. congruence.
        -- rewrite lookup_insert_ne in Hl by done. by left.
      * intros p [= <-]. rewrite length_app. simpl. lia.
    + simpl. intros [= <- <- <- <-]. simpl.
      split_and!; [by apply prefix_app_r|by left|split; [by eexists|done]|].
      intros Hok. split.
      * apply (Hnew _ (insert (global_name tpo) (num_threads tpo, Some (length (pools pr)))));
          [|done].
        intros name cfg p Hl.
        destruct (decide (name = global_name tpo)) as [->|Hne].
        -- rewrite lookup_insert_eq in Hl. right. congruence.
        -- rewrite lookup_insert_ne in Hl by done. by left.
      * intros p [= <-]. rewrite length_app. simpl. lia.
Qed.

Lemma make_thread_pools_spec options protos i init_error thread_pools pr
      init_error' thread_pools' pr1 :
  make_thread_pools options protos i init_error thread_pools pr
    = (init_error', thread_pools', pr1) →
  pools pr `prefix_of` pools pr1 ∧
  length thread_pools' = (length thread_pools + length protos)%nat ∧
  ((init_error = OK ∨ init_error = INVALID_ARGUMENT) →
   (init_error' = OK ∨ init_error' = INVALID_ARGUMENT)) ∧
  ((init_error = OK ↔ ∀ e, e ∈ thread_pools → is_Some e.1) →
   (init_error' = OK ↔ ∀ e, e ∈ thread_pools' → is_Some e.1)) ∧
  (process_ok pr →
   (∀ p owned, (Some p, owned) ∈ thread_pools → (p < length (pools pr))%nat) →
   process_ok pr1 ∧
   ∀ p owned, (Some p, owned) ∈ thread_pools' → (p < length (pools pr1))%nat).
Proof.
  revert i init_error thread_pools pr.
  induction protos as [|proto protos IH]; intros i init_error thread_pools pr.
  - simpl. intros [= <- <- <-]. rewrite Nat.add_0_r. by split_and!.
  - simpl.
    destruct (NewThreadPoolFromThreadPoolOptions options proto i pr) as [[[st pool] owned] pr0] eqn:Hnew.
    apply NewThreadPoolFromThreadPoolOptions_spec in Hnew
      as (Hpre & Hcodes & Hst & Hok).
    intros (Hpre' & Hlen & Hc & Hiff & Hok')%IH.
    split_and!.
    + by etrans.
    + rewrite Hlen, length_app. simpl. lia.
    + intros Hinit. apply Hc. unfold Update.
      destruct Hinit as [-> | ->]; simpl; auto.
    + intros Hinit. apply Hiff. unfold Update. split.
      * intros Hup e [He| ->%list_elem_of_singleton]%elem_of_app.
        -- apply Hinit; [|done]. by destruct (ok init_error) eqn:E;
             [destruct init_error|].
        -- simpl. apply Hst. destruct (ok init_error) eqn:E; [done|].
           rewrite Hup in E. done.
      * intros Hall.
        assert (init_error = OK) as ->
          by (apply Hinit; intros e He; apply Hall, elem_of_app; by left).
        simpl. apply Hst. apply (Hall (pool, owned)).
        apply elem_of_app. right. by left.
    + intros Hpr Hin. destruct (Hok Hpr) as [Hpr0 Hp0].
      apply Hok'; [done|].
      intros p o [He| [= <- <-]%list_elem_of_singleton]%elem_of_app.
      * apply Hin in He. apply prefix_length in Hpre. lia.
      * by apply Hp0.
Qed.

Lemma new_thread_pools_spec options pr init_error thread_pools r pr1 :
  new_thread_pools options pr = (init_error, thread_pools, r, pr1) →
  length thread_pools =
    (1 `max` length (session_inter_op_thread_pool options))%nat ∧
  (init_error = OK ∨ init_error = INVALID_ARGUMENT) ∧
  (init_error = OK ↔ ∀ e, e ∈ thread_pools → is_Some e.1) ∧
  pools pr `prefix_of` pools pr1 ∧
  (process_ok pr →
   process_ok pr1 ∧
   ∀ p owned, (Some p, owned) ∈ thread_pools →
              (p < length (pools pr1))%nat).
Proof.
  unfold new_thread_pools.
  destruct (session_inter_op_thread_pool options) as [|proto protos] eqn:Hp.
  - destruct (use_per_session_threads options).
    + simpl. intros [= <- <- _ <-]. simpl.
      split_and!; [done|by left| |by apply prefix_app_r|].
      * split; [|done]. intros _ e ->%list_elem_of_singleton. by eexists.
      * intros [Hm Hg]. split; [split; simpl|].
        -- intros name cfg p Hl%Hm. rewrite length_app. simpl. lia.
        -- intros p Hl%Hg. rewrite length_app. simpl. lia.
        -- intros p o [= -> _]%list_elem_of_singleton. simpl.
           rewrite length_app. simpl. lia.
    + unfold GlobalThreadPool.
      destruct (global_thread_pool pr) as [g|] eqn:Hg; simpl;
        intros [= <- <- _ <-]; simpl.
      * split_and!; [done|by left| |done|].
        -- split; [|done]. intros _ e ->%list_elem_of_singleton. by eexists.
        -- intros Hok. split; [done|].
           intros p o [= -> _]%list_elem_of_singleton. by apply Hok.
      * split_and!; [done|by left| |by apply prefix_app_r|].
        -- split; [|done]. intros _ e ->%list_elem_of_singleton. by eexists.
        -- intros [Hm Hg']. split; [split; simpl|].
           ++ intros name cfg p Hl%Hm. rewrite length_app. simpl. lia.
           ++ intros p [= <-]. rewrite length_app. simpl. lia.
           ++ intros p o [= -> _]%list_elem_of_singleton. simpl.
              rewrite length_app. simpl. lia.
  - destruct (make_thread_pools options (proto :: protos) 0 OK [] pr)
      as [[init_error0 thread_pools0] pr0] eqn:Hmake.
    apply make_thread_pools_spec in Hmake as (Hpre & Hlen & Hc & Hiff & Hok).
    intros [= <- <- _ <-]. split_and!.
    + rewrite Hlen. simpl. lia.
    + apply Hc. by left.
    + apply Hiff. split; [|done]. intros _ e He. by apply elem_of_nil in He.
    + done.
    + intros Hpr. apply Hok; [done|]. intros p o He.
      by apply elem_of_nil in He.
Qed.

(** X24.  The constructor leaves at least one thread pool: as many as the
    options list, or one if they list none. Its error, if any, is
    invalid-argument, and there is an error exactly if one of the pools
    could not be made and is null. No thread pool of the process is dropped,
    and every pool of the session is a pool of the process. *)
Theorem DirectSession_new_thread_pools options pr c pr1 :
  DirectSession_new options pr = Some (c, pr1) →
  length (thread_pools_ c) =
    (1 `max` length (session_inter_op_thread_pool options))%nat ∧
  (init_error_ c = OK ∨ init_error_ c = INVALID_ARGUMENT) ∧
  (init_error_ c = OK ↔ ∀ e, e ∈ thread_pools_ c → is_Some e.1) ∧
  pools pr `prefix_of` pools pr1 ∧
  (process_ok pr →
   process_ok pr1 ∧
   ∀ p owned, (Some p, owned) ∈ thread_pools_ c →
              (p < length (pools pr1))%nat).
Proof.
  unfold DirectSession_new.
  destruct (new_thread_pools options pr) as [[[init_error thread_pools] r] pr0]
    eqn:Hnew.
  apply new_thread_pools_spec in Hnew.
  destruct use_cost_model_executor_env; [|done].
  destruct use_inline_executor_env; [|done].
  destruct pin_threadpool_to_cpu_core_env; [|done]. simpl.
  destruct (_ && _ && _); [destruct thread_pools as [|[[?|] ?] [|]]|];
    try done; by intros [= <- <-].
Qed.

End Pools_facts.

(** ** The session factory *)

Lemma list_ascii_of_string_app (a b : string) :
  list_ascii_of_string (a ++ b) =
  (list_ascii_of_string a ++ list_ascii_of_string b)%list.
Proof. induction a as [|c a IH]; simpl; [done|]. by rewrite IH. Qed.

Lemma app_cons_inj_notin {A} (c : A) (r1 r2 l1 l2 : list A) :
  c ∉ r1 → c ∉ r2 → (r1 ++ c :: l1 = r2 ++ c :: l2)%list →
  r1 = r2 ∧ l1 = l2.
Proof.
  revert r2. induction r1 as [|x r1 IH]; intros [|y r2] H1 H2; simpl.
  - by intros [= ->].
  - intros [= -> _]. destruct H2. by left.
  - intros [= -> _]. destruct H1. by left.
  - intros [= -> Heq]. destruct (IH r2) as [-> ->]; try done.
    + intros ?. apply H1. by right.
    + intros ?. apply H2. by right.
Qed.

Lemma app_cons_inj_notin_r {A} (c : A) (l1 l2 r1 r2 : list A) :
  c ∉ r1 → c ∉ r2 → (l1 ++ c :: r1 = l2 ++ c :: r2)%list →
  l1 = l2 ∧ r1 = r2.
Proof.
  intros H1 H2 Heq. apply (f_equal reverse) in Heq.
  rewrite !reverse_app, !reverse_cons, <- !app_assoc in Heq. simpl in Heq.
  apply app_cons_inj_notin in Heq as [Hr Hl].
  - split; [by apply (inj reverse)|by apply (inj reverse)].
  - by rewrite elem_of_reverse.
  - by rewrite elem_of_reverse.
Qed.

Lemma string_of_uint_digits (d : Decimal.uint) (c : ascii) :
  c ∈ list_ascii_of_string (NilEmpty.string_of_uint d) →
  c ∈ list_ascii_of_string "0123456789".
Proof.
  induction d; simpl; [by intros ?%elem_of_nil|..];
    (intros [->|?]%elem_of_cons; [|by apply IHd]);
    repeat first [apply list_elem_of_here | apply list_elem_of_further].
Qed.

Lemma AlphaNum_no_slash (z : Z) : "/"%char ∉ list_ascii_of_string (AlphaNum z).
Proof.
  assert (Hd : "/"%char ∉ list_ascii_of_string "0123456789")
    by (rewrite list_elem_of_In; simpl; intuition discriminate).
  assert (Hu : ∀ d, "/"%char ∉
                    list_ascii_of_string (NilZero.string_of_uint d)).
  { intros d Hin. apply Hd.
    destruct d; try (by eapply (string_of_uint_digits _ _ Hin)).
    simpl in Hin. by apply list_elem_of_singleton in Hin. }
  unfold AlphaNum, NilZero.string_of_int.
  destruct (Z.to_int z) as [d|d]; [done|]. simpl.
  intros [?|?]%elem_of_cons; [done|by eapply Hu].
Qed.

Lemma AlphaNum_inj (z1 z2 : Z) : AlphaNum z1 = AlphaNum z2 → z1 = z2.
Proof.
  unfold AlphaNum. intros Heq. apply DecimalZ.to_int_inj.
  assert (Hnn : ∀ z, Z.to_int z ≠ Decimal.Pos Decimal.Nil ∧
                     Z.to_int z ≠ Decimal.Neg Decimal.Nil).
  { intros [|p|p]; simpl; split; try done;
      intros [= Hp]; by apply DecimalPos.Unsigned.to_uint_nonnil in Hp. }
  destruct (Hnn z1) as [? ?], (Hnn z2) as [? ?].
  apply (f_equal NilZero.int_of_string) in Heq.
  rewrite !NilZero.isi in Heq by done. congruence.
Qed.

(** X25.  The key of a session's metadata determines the metadata: two
    sessions have the same key only if they have the same name and version. *)
Theorem GetMetadataKey_inj (m1 m2 : Factory.SessionMetadata) :
  Factory.GetMetadataKey m1 = Factory.GetMetadataKey m2 → m1 = m2.
Proof.
  unfold Factory.GetMetadataKey, StrCat. simpl. intros Heq.
  apply (f_equal list_ascii_of_string) in Heq.
  rewrite !list_ascii_of_string_app in Heq. simpl in Heq.
  rewrite ?app_nil_r in Heq.
  apply app_cons_inj_notin_r in Heq as [Hn Hv];
    [|apply AlphaNum_no_slash..].
  destruct m1 as [n1 v1], m2 as [n2 v2]. simpl in *. f_equal.
  - rewrite <- (string_of_list_ascii_of_string n1),
            <- (string_of_list_ascii_of_string n2). by rewrite Hn.
  - apply AlphaNum_inj.
    rewrite <- (string_of_list_ascii_of_string (AlphaNum v1)),
            <- (string_of_list_ascii_of_string (AlphaNum v2)). by rewrite Hv.
Qed.

Section Factory_facts.

Context `{Collaborators}.

Import Factory.

Implicit Types (w : World).

(** X26.  When the devices cannot be added, NewSession fails with their
    error and lists no session, but the key of the metadata stays taken:
    every later NewSession with that name and version is refused with
    invalid-argument, although no session has them. *)
Theorem NewSession_failed_devices_keeps_key
    add_devices constructed options metadata w :
  session_metadata options = Some metadata →
  0 ≤ metadata_version metadata →
  GetMetadataKey metadata ∉ session_metadata_keys_ w →
  add_devices ≠ OK →
  ∃ w1,
    NewSession add_devices constructed options w = (add_devices, None, w1) ∧
    sessions_ w1 = sessions_ w ∧ objects w1 = objects w ∧
    session_metadata_keys_ w1 =
      {[GetMetadataKey metadata]} ∪ session_metadata_keys_ w ∧
    ∀ add_devices' constructed' options',
      session_metadata options' = Some metadata →
      NewSession add_devices' constructed' options' w1
        = (INVALID_ARGUMENT, None, w1).
Proof.
  intros Hmd Hv Hkey Hdev. unfold NewSession. rewrite Hmd.
  rewrite (proj2 (Z.ltb_ge _ _) Hv). rewrite decide_False by done. simpl.
  assert (ok add_devices = false) as -> by (by destruct add_devices).
  simpl. eexists. split_and!; try done.
  intros add_devices' constructed' options' Hmd'. rewrite Hmd'. simpl.
  rewrite (proj2 (Z.ltb_ge _ _) Hv). rewrite decide_True by set_solver. done.
Qed.

(** X27.  A session made with metadata keeps its name and version to itself
    while it is open: a second NewSession with them is refused. Close gives
    them back: it takes the session off the factory's list and frees the
    key, so that a NewSession with the same name and version is accepted
    again. *)
Theorem NewSession_Close_NewSession
    constructed options metadata w session w1 :
  session_metadata options = Some metadata →
  closed_ constructed = false → factory_ constructed = true →
  NewSession OK constructed options w = (OK, Some session, w1) →
  session ∈ sessions_ w1 ∧
  (∀ add_devices constructed',
     NewSession add_devices constructed' options w1
       = (INVALID_ARGUMENT, None, w1)) ∧
  ∃ w2,
    Session_Close session w1 = Some (OK, w2) ∧
    (session ∉ sessions_ w2) ∧
    (GetMetadataKey metadata ∉ session_metadata_keys_ w2) ∧
    (∃ o, objects w2 !! session = Some o ∧ is_closed (object_session o)) ∧
    ∀ constructed',
      ∃ session' w3,
        NewSession OK constructed' options w2 = (OK, Some session', w3) ∧
        session' ≠ session.
Proof.
  intros Hmd Hc Hf. unfold NewSession. rewrite Hmd.
  destruct (metadata_version metadata <? 0) eqn:Hv; [done|].
  destruct (decide (_ ∈ _)) as [|Hkey]; [done|]. simpl.
  intros [= <- <-]. simpl. split_and!.
  - apply elem_of_app. right. by left.
  - intros. rewrite decide_True by set_solver. done.
  - unfold Session_Close. simpl.
    rewrite lookup_app_r, Nat.sub_diag by lia. simpl.
    rewrite Hc, Hf. simpl.
    destruct (Close constructed) as [st s'] eqn:Hclose.
    pose proof (Close_is_closed constructed) as Hcl.
    pose proof (Close_OK constructed) as Hok.
    rewrite Hclose in Hcl, Hok. simpl in Hcl. injection Hok as ->.
    eexists. split; [done|]. simpl. rewrite Hmd. split_and!.
    + intros [? _]%list_elem_of_filter. done.
    + set_solver.
    + rewrite list_lookup_alter.
      rewrite lookup_app_r, Nat.sub_diag by lia. simpl.
      rewrite decide_True by done. by eexists.
    + intros constructed'. rewrite decide_False by set_solver. simpl.
      eexists _, _. split; [done|]. rewrite length_alter, length_app. simpl.
      lia.
Qed.

End Factory_facts.

Section Factory_Reset_facts.

Context `{Collaborators}.

Import Factory.

Implicit Types (w : World) (o : SessionObject).

Lemma Update_OK_r (s : Status) : Update s OK = s.
Proof. by destruct s. Qed.

Lemma lookup_set_object session (s : DirectSession) w i :
  objects (set_object session s w) !! i =
  if decide (session = i)
  then (λ o, {| object_session := s; object_options := object_options o |})
         <$> objects w !! session
  else objects w !! i.
Proof. unfold set_object. simpl. apply list_lookup_alter. Qed.

Lemma for_each_session_cons f x l (s : Status) w st w1 :
  f x w = Some (st, w1) →
  for_each_session f (x :: l) s w = for_each_session f l (Update s st) w1.
Proof. intros Hf. simpl. by rewrite Hf. Qed.

Lemma reset_loop containers (l : list nat) (s : Status) w :
  (∀ x, x ∈ l → (x < length (objects w))%nat) →
  ∃ w',
    for_each_session (λ session, Session_Reset session containers) l s w
      = Some (s, w') ∧
    sessions_ w' = sessions_ w ∧
    session_metadata_keys_ w' = session_metadata_keys_ w ∧
    length (objects w') = length (objects w) ∧
    (∀ i, i ∉ l → objects w' !! i = objects w !! i) ∧
    (∀ i o, objects w !! i = Some o →
            ∃ o', objects w' !! i = Some o' ∧
                  object_options o' = object_options o ∧
                  closed_ (object_session o') = closed_ (object_session o) ∧
                  factory_ (object_session o') = factory_ (object_session o)).
Proof.
  revert s w. induction l as [|x l IH]; intros s w Hin.
  - exists w. simpl. split_and!; try done. intros i o ->. by exists o.
  - destruct (lookup_lt_is_Some_2 (objects w) x) as [ox Hx];
      [apply Hin; by left|].
    set (w1 := set_object x (Reset (object_session ox) containers).2 w).
    assert (Hstep : Session_Reset x containers w = Some (OK, w1))
      by (unfold Session_Reset; by rewrite Hx).
    rewrite (for_each_session_cons _ _ _ _ _ _ _ Hstep), Update_OK_r.
    assert (Hlen1 : length (objects w1) = length (objects w))
      by (unfold w1; simpl; apply length_alter).
    destruct (IH s w1) as (w' & Hrun & Hs & Hk & Hlen & Hout & Hobj).
    { intros y Hy. rewrite Hlen1. apply Hin. by right. }
    exists w'. split_and!; try done.
    + by rewrite Hlen.
    + intros i Hi. rewrite Hout by (intros ?; apply Hi; by right).
      unfold w1. rewrite lookup_set_object.
      rewrite decide_False; [done|]. intros ->. apply Hi. by left.
    + intros i o Hi.
      assert (∃ o1, objects w1 !! i = Some o1 ∧
                    object_options o1 = object_options o ∧
                    closed_ (object_session o1) = closed_ (object_session o) ∧
                    factory_ (object_session o1) = factory_ (object_session o))
        as (o1 & Hi1 & Ho1 & Hc1 & Hf1).
      { unfold w1. rewrite lookup_set_object. case_decide as Hxi.
        - subst i. rewrite Hi. simpl. eexists. split; [done|].
          assert (ox = o) as -> by congruence. done.
        - by exists o. }
      destruct (Hobj i o1 Hi1) as (o' & Hi' & Ho' & Hc' & Hf').
      exists o'. split_and!; congruence.
Qed.

Lemma close_loop (l : list nat) (s : Status) w :
  sessions_ w = [] →
  (∀ x, x ∈ l → (x < length (objects w))%nat) →
  ∃ w',
    for_each_session Session_Close l s w = Some (s, w') ∧
    sessions_ w' = [] ∧
    session_metadata_keys_ w' ⊆ session_metadata_keys_ w ∧
    length (objects w') = length (objects w) ∧
    (∀ i, i ∉ l → objects w' !! i = objects w !! i) ∧
    (∀ i o, objects w !! i = Some o →
            ∃ o', objects w' !! i = Some o' ∧
                  object_options o' = object_options o ∧
                  (is_closed (object_session o) →
                   is_closed (object_session o')) ∧
                  (i ∈ l →
                   is_closed (object_session o') ∧
                   (closed_ (object_session o) = false →
                    factory_ (object_session o) = true →
                    ∀ metadata,
                      session_metadata (object_options o) = Some metadata →
                      GetMetadataKey metadata ∉ session_metadata_keys_ w'))).
Proof.
  revert s w. induction l as [|x l IH]; intros s w Hempty Hin.
  - exists w. simpl. split_and!; try done. intros i o ->. exists o.
    split_and!; try done. by intros ?%elem_of_nil.
  - destruct (lookup_lt_is_Some_2 (objects w) x) as [ox Hx];
      [apply Hin; by left|].
    pose proof (Close_OK (object_session ox)) as Hok.
    pose proof (Close_is_closed (object_session ox)) as Hcl.
    set (sx := (Close (object_session ox)).2) in *.
    set (w0 := set_object x sx w).
    set (deregister := negb (closed_ (object_session ox)) &&
                       factory_ (object_session ox)).
    set (w1 := if deregister then Deregister x (object_options ox) w0 else w0).
    assert (Hw1 : sessions_ w1 = [] ∧ objects w1 = objects w0 ∧
                  session_metadata_keys_ w1 ⊆ session_metadata_keys_ w ∧
                  (deregister = true →
                   ∀ metadata,
                     session_metadata (object_options ox) = Some metadata →
                     GetMetadataKey metadata ∉ session_metadata_keys_ w1)).
    { unfold w1. destruct deregister; simpl.
      - rewrite Hempty. split_and!; [done|done| |].
        + destruct (session_metadata _); set_solver.
        + intros _ metadata ->. set_solver.
      - by split_and!. }
    destruct Hw1 as (Hs1 & Ho1 & Hk1 & Hd1).
    assert (Hstep : Session_Close x w = Some (OK, w1)).
    { unfold Session_Close. rewrite Hx. simpl. rewrite Hok.
      fold w0 deregister. unfold w1. by destruct deregister. }
    rewrite (for_each_session_cons _ _ _ _ _ _ _ Hstep), Update_OK_r.
    assert (Hlen1 : length (objects w1) = length (objects w))
      by (rewrite Ho1; unfold w0; simpl; apply length_alter).
    destruct (IH s w1 Hs1) as (w' & Hrun & Hs & Hk & Hlen & Hout & Hobj).
    { intros y Hy. rewrite Hlen1. apply Hin. by right. }
    exists w'. split_and!; try done.
    + by etrans.
    + by rewrite Hlen.
    + intros i Hi. rewrite Hout by (intros ?; apply Hi; by right).
      rewrite Ho1. unfold w0. rewrite lookup_set_object.
      rewrite decide_False; [done|]. intros ->. apply Hi. by left.
    + intros i o Hi. destruct (decide (x = i)) as [->|Hne].
      * assert (ox = o) as -> by congruence.
        assert (Hi1 : objects w1 !! i =
                      Some {| object_session := sx;
                              object_options := object_options o |}).
        { rewrite Ho1. unfold w0. rewrite lookup_set_object.
          rewrite decide_True by done. by rewrite Hi. }
        destruct (Hobj i _ Hi1) as (o' & Hi' & Ho' & Hcl' & Hin').
        exists o'. simpl in *. split_and!; try done.
        -- intros _. by apply Hcl'.
        -- intros _. split; [by apply Hcl'|].
           intros Hc Hf metadata Hmd Hkey.
           apply (Hd1) with (metadata := metadata); [|done|by apply Hk].
           unfold deregister. by rewrite Hc, Hf.
      * assert (Hi1 : objects w1 !! i = Some o).
        { rewrite Ho1. unfold w0. rewrite lookup_set_object.
          by rewrite decide_False. }
        destruct (Hobj i _ Hi1) as (o' & Hi' & Ho' & Hcl' & Hin').
        exists o'. split_and!; try done.
        intros [?|Hil]%elem_of_cons; [done|]. by apply Hin'.
Qed.

(** X28.  Reset of the factory takes every session off the list, resets and
    then closes each of them, and returns OK. Afterwards the factory lists
    no session; every session it listed is closed and cancelled, and the key
    of the metadata of each one that was open is free again; the other
    session objects are as they were. *)
Theorem Factory_Reset_closes_all containers w :
  world_ok w →
  ∃ w',
    Factory_Reset containers w = Some (OK, w') ∧
    sessions_ w' = [] ∧
    session_metadata_keys_ w' ⊆ session_metadata_keys_ w ∧
    (∀ session, session ∉ sessions_ w →
                objects w' !! session = objects w !! session) ∧
    (∀ session o,
       session ∈ sessions_ w → objects w !! session = Some o →
       ∃ o', objects w' !! session = Some o' ∧
             object_options o' = object_options o ∧
             is_closed (object_session o') ∧
             (closed_ (object_session o) = false →
              factory_ (object_session o) = true →
              ∀ metadata,
                session_metadata (object_options o) = Some metadata →
                GetMetadataKey metadata ∉ session_metadata_keys_ w')).
Proof.
  intros Hok. unfold Factory_Reset.
  set (w0 := {| sessions_ := []; session_metadata_keys_ := _;
                objects := objects w |}).
  destruct (reset_loop containers (sessions_ w) OK w0)
    as (w1 & Hrun1 & Hs1 & Hk1 & Hlen1 & Hout1 & Hobj1); [done|].
  rewrite Hrun1. simpl.
  destruct (close_loop (sessions_ w) OK w1)
    as (w2 & Hrun2 & Hs2 & Hk2 & Hlen2 & Hout2 & Hobj2).
  { by rewrite Hs1. }
  { intros x Hx. rewrite Hlen1. by apply Hok. }
  rewrite Hrun2. exists w2. split_and!; try done.
  - by rewrite Hk1 in Hk2.
  - intros session Hout. by rewrite Hout2, Hout1.
  - intros session o Hin Ho.
    destruct (Hobj1 session o Ho) as (o1 & Ho1 & Hopt1 & Hc1 & Hf1).
    destruct (Hobj2 session o1 Ho1) as (o2 & Ho2 & Hopt2 & _ & Hdone).
    destruct (Hdone Hin) as [Hcl Hkey].
    exists o2. split_and!; [done|congruence|done|].
    intros Hc Hf metadata Hmd. apply Hkey; congruence.
Qed.

End Factory_Reset_facts.

Section Factory_group_facts.

Context `{Collaborators}.

Import Factory.

Implicit Types (w : World).

Lemma new_followers_spec add_devices constructed options count :
  ∀ i followers w,
    (∀ j, (i ≤ j < i + count)%nat → add_devices j = OK) →
    new_followers add_devices constructed options i count followers w =
    (OK, (followers ++ seq (length (objects w)) count)%list,
     {| sessions_ := (sessions_ w ++ seq (length (objects w)) count)%list;
        session_metadata_keys_ := session_metadata_keys_ w;
        objects :=
          (objects w ++
           ((λ j, {| object_session := constructed j;
                     object_options := options |}) <$> seq i count))%list |}).
Proof.
  induction count as [|count IH]; intros i followers w Hok; simpl.
  - rewrite !app_nil_r. by destruct w.
  - rewrite (Hok i) by lia. simpl. rewrite IH by (intros; apply Hok; lia).
    simpl. rewrite length_app. simpl. rewrite Nat.add_1_r.
    by rewrite <- !app_assoc.
Qed.

Lemma new_followers_fails add_devices constructed options count :
  ∀ i k followers w,
    (i ≤ k < i + count)%nat →
    (∀ j, (i ≤ j < k)%nat → add_devices j = OK) →
    add_devices k ≠ OK →
    new_followers add_devices constructed options i count followers w =
    (add_devices k, (followers ++ seq (length (objects w)) (k - i))%list,
     {| sessions_ := (sessions_ w ++ seq (length (objects w)) (k - i))%list;
        session_metadata_keys_ := session_metadata_keys_ w;
        objects :=
          (objects w ++
           ((λ j, {| object_session := constructed j;
                     object_options := options |}) <$> seq i (k - i)))%list |}).
Proof.
  induction count as [|count IH]; intros i k followers w Hk Hok Hbad; [lia|].
  simpl. destruct (decide (i = k)) as [->|Hne].
  - assert (ok (add_devices k) = false) as -> by (by destruct (add_devices k)).
    simpl. rewrite Nat.sub_diag. simpl. rewrite !app_nil_r. by destruct w.
  - rewrite (Hok i) by lia. simpl.
    rewrite (IH (S i) k) by (try done; try lia; intros; apply Hok; lia).
    simpl. rewrite length_app. simpl. rewrite Nat.add_1_r.
    replace (k - i)%nat with (S (k - S i)) by lia. simpl.
    by rewrite <- !app_assoc.
Qed.


Lemma new_followers_OK_inv add_devices constructed options count :
  ∀ i followers w st followers' w',
    new_followers add_devices constructed options i count followers w
      = (st, followers', w') →
    ok st = true →
    followers' = (followers ++ seq (length (objects w)) count)%list ∧
    w' = {| sessions_ := (sessions_ w ++ seq (length (objects w)) count)%list;
            session_metadata_keys_ := session_metadata_keys_ w;
            objects :=
              (objects w ++
               ((λ j, {| object_session := constructed j;
                         object_options := options |}) <$> seq i count))%list |}.
Proof.
  induction count as [|count IH]; intros i followers w st followers' w'; simpl.
  - intros [= <- <- <-] _. rewrite !app_nil_r. by destruct w.
  - destruct (ok (add_devices i)) eqn:Hok; simpl.
    + intros Hrun Hst. apply IH in Hrun as [-> ->]; [|done]. simpl.
      rewrite length_app. simpl. rewrite Nat.add_1_r.
      by rewrite <- !app_assoc.
    + intros [= <- <- <-] Hst. congruence.
Qed.

Lemma NewSessionGroup_OK_inv add_devices constructed options session_num w
      group w1 metadata :
  session_metadata options = Some metadata →
  NewSessionGroup add_devices constructed options session_num w
    = (OK, Some group, w1) →
  let l := length (objects w) in
  let n := Z.to_nat session_num in
  (1 ≤ n)%nat ∧ 0 ≤ metadata_version metadata ∧
  group = {| leader_session := l; follower_sessions := seq (S l) (n - 1) |} ∧
  sessions_ w1 = (sessions_ w ++ seq (S l) (n - 1) ++ [l])%list ∧
  (GetMetadataKey metadata ∉ session_metadata_keys_ w) ∧
  session_metadata_keys_ w1 =
    {[GetMetadataKey metadata]} ∪ session_metadata_keys_ w ∧
  objects w1 = (objects w ++ (group_object constructed options <$> seq 0 n))%list.
Proof.
  intros Hmd. unfold NewSessionGroup. rewrite Hmd.
  destruct (session_num <? 1) eqn:Hn; [done|]. apply Z.ltb_ge in Hn.
  destruct (metadata_version metadata <? 0) eqn:Hv; [done|].
  apply Z.ltb_ge in Hv.
  destruct (decide (_ ∈ _)) as [|Hkey]; [done|]. simpl.
  destruct (ok (add_devices 0%nat)); [|done]. simpl.
  destruct (new_followers _ _ _ _ _ _ _) as [[st followers] w'] eqn:Hrun.
  destruct (ok st) eqn:Hst; [|done]. simpl.
  apply new_followers_OK_inv in Hrun as [-> ->]; [|done]. simpl.
  intros [= <- <-]. simpl. rewrite length_app. simpl. rewrite Nat.add_1_r.
  replace (Z.to_nat (session_num - 1)) with (Z.to_nat session_num - 1)%nat
    by lia.
  split_and!; try done; [lia|by rewrite <- app_assoc|].
  rewrite <- app_assoc. f_equal.
  replace (Z.to_nat session_num) with (S (Z.to_nat session_num - 1)) at 2
    by lia.
  done.
Qed.

(** X29.  All the sessions of a group are made with the options of the
    group, and so with one name and version: NewSession with them is refused
    while the group is whole, but the first Close of any one member frees
    the key for all of them. The other members are still open and still
    listed, and a NewSession with the same name and version is accepted
    beside them. *)
Theorem NewSessionGroup_Close_frees_key
    add_devices constructed options metadata session_num w group w1 :
  session_metadata options = Some metadata →
  (∀ j, closed_ (constructed j) = false ∧ factory_ (constructed j) = true) →
  world_ok w →
  NewSessionGroup add_devices constructed options session_num w
    = (OK, Some group, w1) →
  let members := leader_session group :: follower_sessions group in
  Z.of_nat (length members) = session_num ∧
  sessions_ w1 =
    (sessions_ w ++ follower_sessions group ++ [leader_session group])%list ∧
  (∀ add_devices' constructed',
     NewSession add_devices' constructed' options w1
       = (INVALID_ARGUMENT, None, w1)) ∧
  ∀ session, session ∈ members →
    ∃ w2,
      Session_Close session w1 = Some (OK, w2) ∧
      (GetMetadataKey metadata ∉ session_metadata_keys_ w2) ∧
      (∀ other, other ∈ members → other ≠ session →
         other ∈ sessions_ w2 ∧
         ∃ o, objects w2 !! other = Some o ∧
              closed_ (object_session o) = false ∧
              session_metadata (object_options o) = Some metadata) ∧
      ∀ constructed',
        ∃ session' w3,
          NewSession OK constructed' options w2 = (OK, Some session', w3).
Proof.
  intros Hmd Hopen Hw Hrun members.
  destruct (NewSessionGroup_OK_inv _ _ _ _ _ _ _ _ Hmd Hrun)
    as (Hn & Hv & Hgroup & Hsessions & Hfresh & Hkeys & Hobjects).
  clear Hrun.
  set (l := length (objects w)) in *. set (n := Z.to_nat session_num) in *.
  assert (Hmembers : ∀ x, x ∈ members ↔ (l ≤ x < l + n)%nat).
  { intros x. unfold members. rewrite Hgroup. simpl.
    rewrite elem_of_cons, elem_of_seq. lia. }
  assert (Hobj : ∀ x, x ∈ members →
            objects w1 !! x
            = Some (group_object constructed options (x - l)%nat)).
  { intros x Hx%Hmembers. rewrite Hobjects.
    rewrite lookup_app_r by (fold l; lia). fold l.
    rewrite list_lookup_fmap, lookup_seq_lt by lia. done. }
  split_and!.
  - unfold members. rewrite Hgroup. simpl. rewrite length_seq. lia.
  - by rewrite Hsessions, Hgroup.
  - intros. unfold NewSession. rewrite Hmd.
    rewrite (proj2 (Z.ltb_ge _ _) Hv).
    rewrite decide_True by (rewrite Hkeys; set_solver). done.
  - intros session Hs. unfold Session_Close. rewrite (Hobj _ Hs). simpl.
    destruct (Hopen (session - l)%nat) as [-> ->]. simpl.
    destruct (Close (constructed (session - l)%nat)) as [st s'] eqn:Hclose.
    pose proof (Close_OK (constructed (session - l)%nat)) as Hok.
    rewrite Hclose in Hok. injection Hok as ->.
    eexists. split; [done|]. simpl. rewrite Hmd. split_and!.
    + set_solver.
    + intros other Ho Hne. split.
      * apply list_elem_of_filter. split; [done|].
        rewrite Hsessions. apply elem_of_app. right.
        apply Hmembers in Ho. rewrite elem_of_app, elem_of_seq.
        rewrite list_elem_of_singleton. lia.
      * rewrite list_lookup_alter_ne by done. rewrite (Hobj _ Ho).
        eexists. split; [done|]. simpl.
        by destruct (Hopen (other - l)%nat) as [-> _].
    + intros constructed'. unfold NewSession. rewrite Hmd.
      rewrite (proj2 (Z.ltb_ge _ _) Hv).
      unfold Deregister. simpl. rewrite Hmd.
      rewrite decide_False by (clear; set_solver).
      simpl. eexists _, _. reflexivity.
Qed.

(** X30.  When the devices of a follower cannot be added, NewSessionGroup
    returns their error and no group, but the sessions made so far stay: the
    followers before it are listed by the factory, the leader is made and
    not listed, and the key of the metadata stays taken, so that every later
    NewSession with that name and version is refused. *)
Theorem NewSessionGroup_follower_failure
    add_devices constructed options metadata session_num (k : nat) w :
  session_metadata options = Some metadata →
  0 ≤ metadata_version metadata →
  GetMetadataKey metadata ∉ session_metadata_keys_ w →
  (1 ≤ k)%nat → Z.of_nat k < session_num →
  (∀ j, (j < k)%nat → add_devices j = OK) →
  add_devices k ≠ OK →
  world_ok w →
  ∃ w1,
    NewSessionGroup add_devices constructed options session_num w
      = (add_devices k, None, w1) ∧
    sessions_ w1 =
      (sessions_ w ++ seq (S (length (objects w))) (k - 1))%list ∧
    length (objects w1) = (length (objects w) + k)%nat ∧
    (length (objects w) ∉ sessions_ w1) ∧
    ∀ add_devices' constructed' options',
      session_metadata options' = Some metadata →
      NewSession add_devices' constructed' options' w1
        = (INVALID_ARGUMENT, None, w1).
Proof.
  intros Hmd Hv Hkey Hk1 Hkn Hok Hbad Hw. unfold NewSessionGroup.
  rewrite Hmd. rewrite (proj2 (Z.ltb_ge _ _)) by lia.
  rewrite (proj2 (Z.ltb_ge _ _) Hv). rewrite decide_False by done. simpl.
  rewrite (Hok 0%nat) by lia. simpl.
  rewrite (new_followers_fails _ _ _ _ 1 k) by (try done; try lia; intros; apply Hok; lia).
  assert (ok (add_devices k) = false) as -> by (by destruct (add_devices k)).
  simpl. rewrite length_app. simpl. rewrite Nat.add_1_r.
  eexists. split; [done|]. simpl. split_and!.
  - done.
  - rewrite !length_app, length_fmap, length_seq. simpl. lia.
  - rewrite elem_of_app, elem_of_seq. intros [Hin%Hw|?]; lia.
  - intros add_devices' constructed' options' Hmd'. unfold NewSession.
    rewrite Hmd'. rewrite (proj2 (Z.ltb_ge _ _) Hv).
    rewrite decide_True by set_solver. done.
Qed.

End Factory_group_facts.

(** ** The rest of the code on worked inputs *)

Section More_scenarios.

#[local] Existing Instance toy_world.

Lemma GetOrCreateExecutors_reuses_for_permutation_witness :
  ∃ ek_addr a2 s2,
    (GetOrCreateExecutors (toy_session (Some sum_graph))
                          ["a:0"; "b:0"] ["s:0"] [] run_args).1.1.1 = OK ∧
    GetOrCreateExecutors
      (GetOrCreateExecutors (toy_session (Some sum_graph))
                            ["a:0"; "b:0"] ["s:0"] [] run_args).2
      ["b:0"; "a:0"] ["s:0"] [] run_args = (OK, ek_addr, a2, s2) ∧
    executors_ s2 !! request_key ["a:0"; "b:0"] ["s:0"] [] run_args
      = Some ek_addr ∧
    executors_ s2 !! request_key ["b:0"; "a:0"] ["s:0"] [] run_args
      = Some ek_addr.
Proof.
  assert (Hst : (GetOrCreateExecutors (toy_session (Some sum_graph))
                   ["a:0"; "b:0"] ["s:0"] [] run_args).1.1.1 = OK)
    by (vm_compute; reflexivity).
  destruct (GetOrCreateExecutors (toy_session (Some sum_graph))
              ["a:0"; "b:0"] ["s:0"] [] run_args)
    as [[[st ek_addr] a1] s1] eqn:Hrun.
  simpl in Hst. subst st.
  destruct (GetOrCreateExecutors_reuses_for_permutation
              (toy_session (Some sum_graph))
              ["a:0"; "b:0"] ["s:0"] [] ["b:0"; "a:0"] ["s:0"] []
              run_args ek_addr a1 s1)
    as (a2 & s2 & Hrun2 & _ & _ & Hk1 & Hk2 & _).
  - apply perm_swap.
  - reflexivity.
  - reflexivity.
  - intros e He. change (executors_ (toy_session (Some sum_graph)))
      with (∅ : gmap string nat) in He. by rewrite lookup_empty in He.
  - intros e He. change (executors_ (toy_session (Some sum_graph)))
      with (∅ : gmap string nat) in He. by rewrite lookup_empty in He.
  - exact Hrun.
  - exists ek_addr, a2, s2. simpl. by split_and!.
Defined.

Lemma GetOrCreateExecutors_repeat_witness :
  ∃ a2 s2,
    collision_first.1.1 = (OK, 0%nat) ∧
    GetOrCreateExecutors collision_first.2 [] ["z"; "a/b"] ["c"] run_args
      = (OK, 0%nat, a2, s2) ∧
    heap_ s2 = heap_ collision_first.2.
Proof.
  assert (Hst : collision_first.1.1 = (OK, 0%nat)) by (vm_compute; reflexivity).
  pose proof (eq_refl : GetOrCreateExecutors (toy_session (Some scoped_graph))
                          [] ["z"; "a/b"] ["c"] run_args = collision_first)
    as Hrun.
  destruct collision_first as [[[st ek_addr] a1] s1]. simpl in Hst.
  injection Hst as -> ->.
  destruct (GetOrCreateExecutors_repeat _ _ _ _ _ _ _ _ Hrun)
    as (a2 & s2 & Hrun2 & _ & Hheap & _).
  exists a2, s2. simpl. by split_and!.
Defined.

Lemma public_operations_keep_latches_witness :
  ∃ s',
    calls (toy_session None) [CallCreate sum_graph; CallClose; CallListDevices]
          s' ∧
    init_error_ s' = OK ∧
    (closed_ (Close (toy_session None)).2 = true →
     ∀ s'', calls (Close (toy_session None)).2 [CallCreate sum_graph] s'' →
            closed_ s'' = true).
Proof.
  set (s1 := (Create (toy_session None) sum_graph).2).
  set (s2 := (Close s1).2).
  assert (Hcalls : calls (toy_session None)
                     [CallCreate sum_graph; CallClose; CallListDevices] s2).
  { eapply (calls_cons _ _ (Create (toy_session None) sum_graph).1 s1).
    { unfold call, s1. by rewrite <- surjective_pairing. }
    eapply (calls_cons _ CallClose OK s2).
    { unfold call, s2. by rewrite <- Close_OK. }
    eapply calls_cons; [reflexivity|apply calls_nil]. }
  exists s2. split; [exact Hcalls|].
  destruct (public_operations_keep_latches _ _ _ Hcalls) as (Hi & _).
  split; [by rewrite Hi|].
  intros Hc s'' Hcalls'.
  destruct (public_operations_keep_latches _ _ _ Hcalls') as (_ & _ & Hcl & _).
  by apply Hcl.
Defined.

Lemma Create_returns_init_error_witness :
  init_error_ failed_session ≠ OK ∧
  ∃ s', calls failed_session [CallExtend sum_graph; CallListDevices] s' ∧
        Create s' identity_graph = (INVALID_ARGUMENT, s') ∧
        Create s' empty_graph = (INVALID_ARGUMENT, s').
Proof.
  assert (Hne : init_error_ failed_session ≠ OK) by discriminate.
  set (s1 := (Extend failed_session sum_graph).2).
  assert (Hcalls : calls failed_session [CallExtend sum_graph; CallListDevices]
                         s1).
  { eapply (calls_cons _ _ (Extend failed_session sum_graph).1 s1).
    { unfold call, s1. by rewrite <- surjective_pairing. }
    eapply calls_cons; [reflexivity|apply calls_nil]. }
  split; [exact Hne|]. exists s1. split; [exact Hcalls|]. split.
  - apply (@Create_returns_init_error toy_world failed_session _ s1
             identity_graph Hne Hcalls).
  - apply (@Create_returns_init_error toy_world failed_session _ s1
             empty_graph Hne Hcalls).
Defined.

Lemma Extend_creates_the_graph_witness :
  (∃ s1,
     Extend (toy_session None) empty_graph = (OK, s1) ∧
     graph_created_ s1 = true ∧
     Create s1 sum_graph = (ALREADY_EXISTS, s1)) ∧
  (* on a session whose constructor failed *)
  (∃ s1,
     Extend failed_session sum_graph = (OK, s1) ∧
     graph_created_ s1 = true ∧
     Create s1 sum_graph = (INVALID_ARGUMENT, s1)).
Proof.
  split.
  - assert (Hst : (Extend (toy_session None) empty_graph).1 = OK)
      by (vm_compute; reflexivity).
    destruct (Extend (toy_session None) empty_graph) as [st s1] eqn:Hext.
    simpl in Hst. subst st.
    destruct (@Extend_creates_the_graph toy_world (toy_session None)
                empty_graph s1)
      as (Hcreated & _ & Hlater); [reflexivity|reflexivity|exact Hext|].
    exists s1. split_and!; [done|exact Hcreated|].
    apply Hlater. reflexivity.
  - assert (Hst : (Extend failed_session sum_graph).1 = OK)
      by (vm_compute; reflexivity).
    destruct (Extend failed_session sum_graph) as [st s1] eqn:Hext.
    simpl in Hst. subst st.
    destruct (@Extend_creates_the_graph toy_world failed_session
                sum_graph s1)
      as (Hcreated & _ & Hlater); [reflexivity|reflexivity|exact Hext|].
    exists s1. split_and!; [done|exact Hcreated|].
    apply Hlater. reflexivity.
Defined.

Lemma WaitForNotification_no_timeout_witness :
  (∃ run_state,
     WaitForNotification prompt_fate
       (new_RunState [] [] new_IntraProcessRendezvous)
       {| is_cancelled := false |} 0
     = Some (run_state, {| is_cancelled := false |}) ∧
     status run_state = OK) ∧
  WaitForNotification stuck_fate
    (new_RunState [] [] new_IntraProcessRendezvous)
    {| is_cancelled := false |} 0 = None ∧
  (* a Close in another thread ends the wait for executors that are stuck *)
  (∃ run_state,
     WaitForNotification interrupted_fate
       (new_RunState [] [] new_IntraProcessRendezvous)
       {| is_cancelled := false |} 0
     = Some (run_state, {| is_cancelled := true |}) ∧
     status run_state = CANCELLED).
Proof.
  split_and!.
  - destruct (WaitForNotification_no_timeout prompt_fate
                (new_RunState [] [] new_IntraProcessRendezvous)
                {| is_cancelled := false |} 0) as [[_ Hret] Hres]; [lia|].
    destruct Hret as [[run_state cm] Hrun];
      [right; left; by eexists|].
    destruct (Hres _ _ Hrun) as (-> & _ & Hst).
    exists run_state. split; [exact Hrun|exact Hst].
  - destruct (WaitForNotification_no_timeout stuck_fate
                (new_RunState [] [] new_IntraProcessRendezvous)
                {| is_cancelled := false |} 0) as [[Hsome _] _]; [lia|].
    destruct (WaitForNotification stuck_fate _ _ 0) as [r|]; [|done].
    destruct Hsome as [Hd|[[? Hf]|[[Hc|Hc] _]]]; [by eexists|..];
      discriminate.
  - destruct (WaitForNotification_no_timeout interrupted_fate
                (new_RunState [] [] new_IntraProcessRendezvous)
                {| is_cancelled := false |} 0) as [[_ Hret] Hres]; [lia|].
    destruct Hret as [[run_state cm] Hrun];
      [right; right; split; [by right|reflexivity]|].
    destruct (Hres _ _ Hrun) as (-> & _ & Hst).
    exists run_state. split; [exact Hrun|exact Hst].
Defined.

End More_scenarios.

Section More_scenarios2.

#[local] Existing Instance toy_world.

Lemma PRun_completion_witness :
  ∃ outputs s',
    PRun sum_session prompt_fate sum_handle [("a:0", 3); ("b:0", 4)]
         ["s:0"; "t:0"] [] = Some (OK, outputs, s') ∧
    partial_runs_ s' !! sum_handle = None ∧
    PRun s' prompt_fate sum_handle [] [] []
      = Some (INVALID_ARGUMENT, [], s').
Proof.
  destruct (sum_handle_resolves sum_session) as (ek & run_state & Hek & Hrs);
    [vm_compute; reflexivity|].
  assert (Hst : (λ r, r.1.1) <$>
                PRun sum_session prompt_fate sum_handle
                     [("a:0", 3); ("b:0", 4)] ["s:0"; "t:0"] [] = Some OK)
    by (vm_compute; reflexivity).
  destruct (PRun sum_session prompt_fate sum_handle [("a:0", 3); ("b:0", 4)]
                 ["s:0"; "t:0"] []) as [[[st outputs] s']|] eqn:Hrun; [|done].
  simpl in Hst. injection Hst as ->.
  assert (Hpi : (r ← partial_runs_ sum_session !! sum_handle;
                 Some (bool_decide (pending_inputs r = sum_pending_inputs)))
                = Some true) by (vm_compute; reflexivity).
  assert (Hpo : (r ← partial_runs_ sum_session !! sum_handle;
                 Some (bool_decide
                         (pending_outputs r =
                          <["s:0" := false]> (<["t:0" := false]> ∅))))
                = Some true) by (vm_compute; reflexivity).
  rewrite Hrs in Hpi, Hpo. simpl in Hpi, Hpo.
  injection Hpi as Hpi%bool_decide_eq_true.
  injection Hpo as Hpo%bool_decide_eq_true.
  destruct (PRun_completion sum_session prompt_fate sum_handle
              [("a:0", 3); ("b:0", 4)] ["s:0"; "t:0"] [] outputs s'
              run_state Hrs Hrun) as [Hdone _].
  destruct Hdone as [Hgone Hlater].
  { split; intros n.
    - rewrite Hpi. unfold sum_pending_inputs.
      intros [[<- _]|[_ [[<- _]|[_ ?]]%lookup_insert_Some]]%lookup_insert_Some;
        [by left|right; by left|done].
    - rewrite Hpo.
      intros [[<- _]|[_ [[<- _]|[_ ?]]%lookup_insert_Some]]%lookup_insert_Some;
        [by left|right; by left|done]. }
  exists outputs, s'. split_and!; [done|exact Hgone|apply Hlater].
Defined.

Lemma callable_handle_lifecycle_witness :
  ∃ s1,
    MakeCallable (toy_session (Some identity_graph)) identity_options
      = (OK, 0, s1) ∧
    next_callable_handle_ s1 = 1 ∧
    ReleaseCallable s1 0 = (OK, (ReleaseCallable s1 0).2) ∧
    (λ r, r.1) <$> RunCallable (ReleaseCallable s1 0).2 0 [9] (Some [])
                               ThreadPoolOptions_default (identity_step 9 1)
      = Some (INVALID_ARGUMENT, Some []).
Proof.
  assert (Hst : (MakeCallable (toy_session (Some identity_graph))
                              identity_options).1 = (OK, 0))
    by (vm_compute; reflexivity).
  destruct (MakeCallable (toy_session (Some identity_graph)) identity_options)
    as [[st h] s1] eqn:Hmake.
  simpl in Hst. injection Hst as -> ->.
  destruct (callable_handle_lifecycle (toy_session (Some identity_graph))
              identity_options 0 s1) as (_ & Hnext & _ & Hrel & _ & Hrun & _).
  - simpl. lia.
  - exact Hmake.
  - exists s1. split_and!; [done|exact Hnext|exact Hrel|apply Hrun].
Defined.

Lemma Run_places_feeds_witness :
  ∃ args,
    fill_feed_args (toy_session None) [("b:0", 4); ("a:0", 3)]
                   (name_to_index ["a:0"; "b:0"]) [0; 0]
      = (OK, args, name_to_index ["a:0"; "b:0"]) ∧
    args = [3; 4].
Proof.
  destruct (@Run_places_feeds toy_world (toy_session None) ["a:0"; "b:0"]
              [("b:0", 4); ("a:0", 3)]) as (args & Hrun & Hlen & Hat).
  - apply perm_swap.
  - apply NoDup_cons. split; [|apply NoDup_singleton].
    intros Hin%list_elem_of_singleton. discriminate Hin.
  - intros name t _ Hd. discriminate Hd.
  - exists args. split; [exact Hrun|].
    destruct (Hat 0%nat "b:0" 4 eq_refl) as (kb & Hkb & Hb).
    destruct (Hat 1%nat "a:0" 3 eq_refl) as (ka & Hka & Ha).
    clear Hrun Hat.
    destruct args as [|x0 [|x1 [|x2 args]]]; try discriminate Hlen.
    destruct ka as [|[|ka]]; try discriminate Hka;
      destruct kb as [|[|kb]]; try discriminate Hkb.
    simpl in Ha, Hb. unfold feed_value in Ha, Hb. simpl in Ha, Hb.
    injection Ha as ->. injection Hb as ->. reflexivity.
Defined.

Lemma NewSession_failed_devices_keeps_key_witness :
  ∃ w1,
    Factory.NewSession UNAVAILABLE (toy_session None) model_options
                       no_sessions = (UNAVAILABLE, None, w1) ∧
    Factory.sessions_ w1 = [] ∧
    Factory.NewSession OK (toy_session None) model_options w1
      = (INVALID_ARGUMENT, None, w1).
Proof.
  destruct (@NewSession_failed_devices_keeps_key toy_world UNAVAILABLE
              (toy_session None) model_options model_v1 no_sessions)
    as (w1 & Hrun & Hs & _ & _ & Hlater).
  - reflexivity.
  - simpl. lia.
  - apply not_elem_of_empty.
  - discriminate.
  - exists w1. split_and!; [exact Hrun|exact Hs|by apply Hlater].
Defined.

Lemma NewSession_Close_NewSession_witness :
  ∃ w1 w2 session' w3,
    Factory.NewSession OK (toy_session None) model_options no_sessions
      = (OK, Some 0%nat, w1) ∧
    Factory.NewSession OK (toy_session None) model_options w1
      = (INVALID_ARGUMENT, None, w1) ∧
    Factory.Session_Close 0%nat w1 = Some (OK, w2) ∧
    (0%nat ∉ Factory.sessions_ w2) ∧
    Factory.NewSession OK (toy_session None) model_options w2
      = (OK, Some session', w3) ∧
    session' ≠ 0%nat.
Proof.
  destruct (Factory.NewSession OK (toy_session None) model_options
                               no_sessions) as [[st session] w1] eqn:Hnew.
  assert (Hres : st = OK ∧ session = Some 0%nat).
  { revert Hnew. unfold Factory.NewSession. simpl.
    rewrite decide_False by apply not_elem_of_empty. simpl.
    by intros [= <- <- <-]. }
  destruct Hres as (-> & ->).
  destruct (@NewSession_Close_NewSession toy_world (toy_session None)
              model_options model_v1 no_sessions 0%nat w1)
    as (_ & Hagain & w2 & Hclose & Hnot & _ & _ & Hnew2);
    [reflexivity|reflexivity|reflexivity|exact Hnew|].
  destruct (Hnew2 (toy_session None)) as (session' & w3 & Hnew3 & Hne).
  exists w1, w2, session', w3. by split_and!.
Defined.

Lemma Factory_Reset_closes_all_witness :
  ∃ w1 w',
    Factory.NewSession OK (toy_session None) model_options no_sessions
      = (OK, Some 0%nat, w1) ∧
    Factory.Factory_Reset [] w1 = Some (OK, w') ∧
    Factory.sessions_ w' = [] ∧
    (∃ o', Factory.objects w' !! 0%nat = Some o' ∧
           is_closed (Factory.object_session o')) ∧
    Factory.GetMetadataKey model_v1 ∉ Factory.session_metadata_keys_ w'.
Proof.
  destruct (Factory.NewSession OK (toy_session None) model_options
                               no_sessions) as [[st session] w1] eqn:Hnew.
  assert (Hres : st = OK ∧ session = Some 0%nat ∧
                 Factory.sessions_ w1 = [0%nat] ∧
                 Factory.objects w1 =
                   [{| Factory.object_session := toy_session None;
                       Factory.object_options := model_options |}]).
  { revert Hnew. unfold Factory.NewSession. simpl.
    rewrite decide_False by apply not_elem_of_empty. simpl.
    by intros [= <- <- <-]. }
  destruct Hres as (-> & -> & Hlist & Hobj).
  destruct (@Factory_Reset_closes_all toy_world [] w1)
    as (w' & Hreset & Hempty & _ & _ & Hclosed).
  { intros x. rewrite Hlist, Hobj.
    intros ->%list_elem_of_singleton. simpl. lia. }
  destruct (Hclosed 0%nat {| Factory.object_session := toy_session None;
                             Factory.object_options := model_options |})
    as (o' & Ho' & _ & Hcl & Hkey).
  { rewrite Hlist. by left. }
  { by rewrite Hobj. }
  exists w1, w'. split_and!; [done|exact Hreset|exact Hempty|by exists o'|].
  by apply (Hkey eq_refl eq_refl model_v1).
Defined.

End More_scenarios2.

Lemma GetMetadataKey_inj_witness :
  Factory.GetMetadataKey model_v1 = "model/1" ∧
  ∀ m, Factory.GetMetadataKey m = "model/1" → m = model_v1.
Proof.
  split; [reflexivity|]. intros m Hm.
  apply (GetMetadataKey_inj m model_v1). rewrite Hm. reflexivity.
Defined.

Lemma AllocateVisibleCpusForSession_slices_witness :
  ∃ per_session,
    AllocateVisibleCpusForSession [0; 1; 2; 3; 4; 5; 6] 3 []
      = Some per_session ∧
    per_session = [[0; 1]; [2; 3]; [4; 5]].
Proof.
  destruct (AllocateVisibleCpusForSession_slices [0; 1; 2; 3; 4; 5; 6] 3 [])
    as (per_session & Hrun & _); [lia|].
  exists per_session. split; [exact Hrun|].
  vm_compute in Hrun. congruence.
Defined.

Lemma LocalDevice_Init_keeps_pools_witness :
  ∃ d st1 d' st2,
    @LocalDevice.Init plain_environment (intra_op 4 false) (-1)
                      (pool_of_group 2 0) no_pools = Some (d, st1) ∧
    @LocalDevice.Init plain_environment (intra_op 16 false) (-1)
                      (pool_of_group 2 1) st1 = Some (d', st2) ∧
    LocalDevice.infos st1 `prefix_of` LocalDevice.infos st2 ∧
    LocalDevice.global_tp_info_ st2 !! 0%nat
      = Some (Some (LocalDevice.tp_info d)).
Proof.
  destruct (@LocalDevice.Init plain_environment (intra_op 4 false) (-1)
              (pool_of_group 2 0) no_pools) as [[d st1]|] eqn:Hrun1;
    [|by vm_compute in Hrun1].
  destruct (@LocalDevice.Init plain_environment (intra_op 16 false) (-1)
              (pool_of_group 2 1) st1) as [[d' st2]|] eqn:Hrun2.
  2:{ vm_compute in Hrun1. injection Hrun1 as <- <-. by vm_compute in Hrun2. }
  destruct (@LocalDevice_Init_keeps_pools plain_environment
              (intra_op 16 false) (-1) (pool_of_group 2 1) st1 d' st2 Hrun2)
    as [(Hpre & _ & Hkeep) _].
  exists d, st1, d', st2. split_and!; [done|done|exact Hpre|].
  apply Hkeep. vm_compute in Hrun1. by injection Hrun1 as <- <-.
Defined.

Lemma LocalDevice_Init_shares_global_pool_witness :
  ∃ d st1,
    @LocalDevice.Init plain_environment (intra_op 4 false) (-1)
                      one_global_pool no_pools = Some (d, st1) ∧
    @LocalDevice.Init plain_environment (intra_op 16 false) (-1)
                      one_global_pool st1 = Some (d, st1) ∧
    LocalDevice.num_threads <$> LocalDevice.infos st1 !! LocalDevice.tp_info d
      = Some 4.
Proof.
  destruct (@LocalDevice.Init plain_environment (intra_op 4 false) (-1)
              one_global_pool no_pools) as [[d st1]|] eqn:Hrun1;
    [|by vm_compute in Hrun1].
  destruct (@LocalDevice_Init_shares_global_pool plain_environment
              (intra_op 4 false) (-1) one_global_pool
              (intra_op 16 false) (-1) one_global_pool no_pools d st1)
    as [Hsecond Hfirst];
    [reflexivity|reflexivity|reflexivity|simpl; lia|reflexivity|simpl; lia
    |exact Hrun1|].
  exists d, st1. split_and!; [done| |by rewrite (Hfirst eq_refl)].
  rewrite Hsecond. vm_compute in Hrun1. by injection Hrun1 as <- <-.
Defined.

Lemma LocalDevice_Init_pool_per_index_witness :
  ∃ d st1 st2,
    @LocalDevice.Init plain_environment (intra_op 4 false) (-1)
                      (pool_of_group 3 1) no_pools = Some (d, st1) ∧
    length (LocalDevice.global_tp_info_ st1) = 3%nat ∧
    @LocalDevice.Init plain_environment (intra_op 16 false) (-1)
                      (pool_of_group 3 1) st1 = Some (d, st2) ∧
    length (LocalDevice.global_tp_info_ st2) = 6%nat.
Proof.
  destruct (@LocalDevice_Init_pool_per_index plain_environment
              (intra_op 4 false) (-1) (pool_of_group 3 1) no_pools)
    as (d & st1 & Hrun & _ & Hlen & _ & Hlater);
    [reflexivity|reflexivity|reflexivity|simpl; lia|simpl; lia|].
  destruct (Hlater (intra_op 16 false) (-1) (pool_of_group 3 1))
    as (st2 & Hrun2 & _); [reflexivity|simpl; lia|reflexivity|].
  exists d, st1, st2. split_and!; [exact Hrun|exact Hlen|exact Hrun2|].
  vm_compute in Hrun. injection Hrun as <- <-.
  vm_compute in Hrun2. by injection Hrun2 as <-.
Defined.

Lemma LocalDevice_Init_numa_witness :
  @LocalDevice.Init plain_environment (intra_op 4 true) (-1)
                    one_global_pool no_pools = None ∧
  ∃ d st1,
    @LocalDevice.Init plain_environment (intra_op 4 true) 1
                      one_global_pool no_pools = Some (d, st1) ∧
    LocalDevice.global_tp_info_ st1 = [None; Some (LocalDevice.tp_info d)].
Proof.
  destruct (@LocalDevice_Init_numa plain_environment (intra_op 4 true) (-1)
              one_global_pool no_pools) as [Hneg _];
    [reflexivity|reflexivity|reflexivity|].
  split; [apply Hneg; lia|].
  destruct (@LocalDevice_Init_numa plain_environment (intra_op 4 true) 1
              one_global_pool no_pools) as [_ Hpos];
    [reflexivity|reflexivity|reflexivity|].
  destruct Hpos as (d & st1 & Hrun & _); [lia|by left|].
  exists d, st1. split; [exact Hrun|].
  vm_compute in Hrun. by injection Hrun as <- <-.
Defined.

Lemma NewThreadPoolFromThreadPoolOptions_named_witness :
  ∃ p pr1,
    @Pools.NewThreadPoolFromThreadPoolOptions pools_environment
      (with_thread_pools []) (named_pool 4) 0 no_process
      = (OK, Some p, false, pr1) ∧
    @Pools.NewThreadPoolFromThreadPoolOptions pools_environment
      (with_thread_pools []) (named_pool 4) 1 pr1
      = (OK, Some p, false, pr1) ∧
    @Pools.NewThreadPoolFromThreadPoolOptions pools_environment
      (with_thread_pools []) (named_pool 2) 1 pr1
      = (INVALID_ARGUMENT, None, false, pr1).
Proof.
  destruct (@Pools.NewThreadPoolFromThreadPoolOptions pools_environment
              (with_thread_pools []) (named_pool 4) 0 no_process)
    as [[[st pool] owned] pr1] eqn:Hrun.
  assert (st = OK) as -> by (vm_compute in Hrun; congruence).
  destruct (@NewThreadPoolFromThreadPoolOptions_named pools_environment
              (with_thread_pools []) (named_pool 4) 0 no_process pool owned
              pr1) as (p & -> & -> & _ & Hlater); [discriminate|exact Hrun|].
  exists p, pr1. split_and!; [done| |].
  - by rewrite (Hlater (with_thread_pools []) (named_pool 4) 1 eq_refl).
  - by rewrite (Hlater (with_thread_pools []) (named_pool 2) 1 eq_refl).
Defined.

Lemma DirectSession_new_thread_pools_witness :
  ∃ c pr1 c' pr2,
    @Pools.DirectSession_new pools_environment
      (with_thread_pools [named_pool 4; named_pool 2]) no_process
      = Some (c, pr1) ∧
    Pools.init_error_ c = INVALID_ARGUMENT ∧
    Pools.thread_pools_ c = [(Some 0%nat, false); (None, false)] ∧
    @Pools.DirectSession_new pools_environment (with_thread_pools []) pr1
      = Some (c', pr2) ∧
    Pools.init_error_ c' = OK ∧
    length (Pools.thread_pools_ c') = 1%nat.
Proof.
  destruct (@Pools.DirectSession_new pools_environment
              (with_thread_pools [named_pool 4; named_pool 2]) no_process)
    as [[c pr1]|] eqn:Hrun; [|by vm_compute in Hrun].
  destruct (@Pools.DirectSession_new pools_environment (with_thread_pools [])
              pr1) as [[c' pr2]|] eqn:Hrun2.
  2:{ vm_compute in Hrun. injection Hrun as <- <-. by vm_compute in Hrun2. }
  destruct (@DirectSession_new_thread_pools pools_environment
              (with_thread_pools []) pr1 c' pr2 Hrun2)
    as (Hlen & _ & Hiff & _).
  exists c, pr1, c', pr2. split_and!; try done.
  - vm_compute in Hrun. by injection Hrun as <- <-.
  - vm_compute in Hrun. by injection Hrun as <- <-.
  - apply Hiff. intros e He.
    vm_compute in Hrun. injection Hrun as <- <-.
    vm_compute in Hrun2. injection Hrun2 as <- <-.
    apply list_elem_of_singleton in He as ->. by eexists.
Defined.

Section More_scenarios3.
#[local] Existing Instance toy_world.

Lemma Run_collective_key_mismatch_witness :
  Run collective_cached_session (with_collective_graph_key 7)
      [("x:0", 9)] ["y:0"] [] (Some []) (identity_step 9 1) = None ∧
  (* with the key of the executors the step runs *)
  (λ r, r.1) <$> Run collective_cached_session (with_collective_graph_key 5)
                     [("x:0", 9)] ["y:0"] [] (Some []) (identity_step 9 1)
    = Some (OK, Some [9]).
Proof.
  split; [|by vm_compute].
  destruct (Run_collective_key_mismatch collective_cached_session
              (with_collective_graph_key 7) [("x:0", 9)] ["y:0"] []
              (Some []) (identity_step 9 1) 0%nat collective_executors)
    as (_ & _ & _ & Hnone).
  - reflexivity.
  - reflexivity.
  - by vm_compute.
  - reflexivity.
  - simpl. lia.
  - simpl. lia.
  - simpl. lia.
  - apply Hnone; [by vm_compute|by vm_compute|left; reflexivity].
Defined.

Lemma PRun_timeout_cancels_session_witness :
  ∃ s',
    PRun timed_sum_session stuck_fate sum_handle [("a:0", 3); ("b:0", 4)]
         ["s:0"; "t:0"] [] = Some (OK, [7; 14], s') ∧
    closed_ s' = false ∧ is_cancelled (cancellation_manager_ s') = true.
Proof.
  destruct (sum_handle_resolves timed_sum_session)
    as (ek & run_state & Hek & Hrs); [vm_compute; reflexivity|].
  (* the same call with executors that are done at once *)
  assert (Hst : (λ r, r.1) <$>
                PRun timed_sum_session prompt_fate sum_handle
                     [("a:0", 3); ("b:0", 4)] ["s:0"; "t:0"] []
                = Some (OK, [7; 14]))
    by (vm_compute; reflexivity).
  assert (Hgone : (λ r, bool_decide (partial_runs_ r.2 !! sum_handle = None))
                  <$> PRun timed_sum_session prompt_fate sum_handle
                           [("a:0", 3); ("b:0", 4)] ["s:0"; "t:0"] []
                  = Some true)
    by (vm_compute; reflexivity).
  assert (Hdone : (r ← partial_runs_ timed_sum_session !! sum_handle;
                   Some (executors_done r)) = Some false)
    by (vm_compute; reflexivity).
  rewrite Hrs in Hdone. simpl in Hdone. injection Hdone as Hdone.
  destruct (PRun timed_sum_session prompt_fate sum_handle
                 [("a:0", 3); ("b:0", 4)] ["s:0"; "t:0"] [])
    as [[[st outputs] s0]|] eqn:Href; [|done].
  simpl in Hst, Hgone. injection Hst as -> ->.
  injection Hgone as Hgone%bool_decide_eq_true.
  destruct (PRun_timeout_cancels_session timed_sum_session stuck_fate
              prompt_fate sum_handle [("a:0", 3); ("b:0", 4)]
              ["s:0"; "t:0"] [] OK [7; 14] s0 run_state
              Hrs Hdone) as [[_ Hret] Hres];
    [reflexivity|exact I|exact Href|exact Hgone|].
  destruct Hret as [[[st1 outputs1] s1] Hrun]; [by right|].
  destruct (Hres _ _ _ Hrun) as (-> & -> & _ & Hopen & Hcancelled).
  exists s1. by split_and!.
Defined.

Lemma cancelled_session_runs_no_step_witness :
  closed_ timed_out_session = false ∧
  is_cancelled (cancellation_manager_ timed_out_session) = true ∧
  ∃ s'',
    Run timed_out_session RunOptions_default [("a:0", 3); ("b:0", 4)]
        ["s:0"] [] (Some []) (identity_step 7 1)
      = Some (CANCELLED, Some [], s'').
Proof.
  split; [by vm_compute|]. split; [by vm_compute|].
  assert (Hst : (λ r, r.1.1) <$>
                Run timed_out_session RunOptions_default
                    [("a:0", 3); ("b:0", 4)] ["s:0"] [] (Some [])
                    (identity_step 7 1) = Some CANCELLED)
    by (vm_compute; reflexivity).
  destruct (Run timed_out_session RunOptions_default
                [("a:0", 3); ("b:0", 4)] ["s:0"] [] (Some [])
                (identity_step 7 1)) as [[[st outputs'] s'']|] eqn:Hrun;
    [|done].
  simpl in Hst. injection Hst as ->.
  destruct (cancelled_session_runs_no_step timed_out_session []
              timed_out_session) as [Hno _];
    [by vm_compute|apply calls_nil|].
  apply Hno in Hrun as Hres. destruct Hres as [_ ->]. by exists s''.
Defined.
End More_scenarios3.

Section More_scenarios4.
#[local] Existing Instance toy_world.

Lemma NewSessionGroup_Close_frees_key_witness :
  ∃ w1 w2 session' w3,
    Factory.NewSessionGroup (λ _, OK) (λ _, toy_session None) model_options 3
                            no_sessions
      = (OK, Some {| Factory.leader_session := 0;
                     Factory.follower_sessions := [1; 2]%nat |}, w1) ∧
    Factory.sessions_ w1 = [1; 2; 0]%nat ∧
    Factory.NewSession OK (toy_session None) model_options w1
      = (INVALID_ARGUMENT, None, w1) ∧
    Factory.Session_Close 1%nat w1 = Some (OK, w2) ∧
    (0%nat ∈ Factory.sessions_ w2 ∧ 2%nat ∈ Factory.sessions_ w2) ∧
    Factory.NewSession OK (toy_session None) model_options w2
      = (OK, Some session', w3).
Proof.
  destruct (Factory.NewSessionGroup (λ _, OK) (λ _, toy_session None)
              model_options 3 no_sessions) as [[st group] w1] eqn:Hnew.
  assert (Hres : st = OK ∧
                 group = Some {| Factory.leader_session := 0;
                                 Factory.follower_sessions := [1; 2]%nat |}).
  { revert Hnew. unfold Factory.NewSessionGroup. simpl.
    rewrite decide_False by apply not_elem_of_empty. simpl.
    by intros [= <- <- <-]. }
  destruct Hres as (-> & ->).
  destruct (@NewSessionGroup_Close_frees_key toy_world (λ _, OK)
              (λ _, toy_session None) model_options model_v1 3 no_sessions
              {| Factory.leader_session := 0;
                 Factory.follower_sessions := [1; 2]%nat |} w1)
    as (_ & Hsessions & Hagain & Hclose);
    [reflexivity|done|by intros session Hin%elem_of_nil|exact Hnew|].
  simpl in Hsessions.
  destruct (Hclose 1%nat) as (w2 & Hclose1 & _ & Hothers & Hnew2).
  { right. by left. }
  destruct (Hnew2 (toy_session None)) as (session' & w3 & Hnew3).
  exists w1, w2, session', w3. split_and!; try done.
  - apply Hothers; [by left|done].
  - apply Hothers; [right; right; by left|done].
Defined.

Lemma NewSessionGroup_follower_failure_witness :
  ∃ w1,
    Factory.NewSessionGroup
      (λ i, if (i =? 2)%nat then UNAVAILABLE else OK)
      (λ _, toy_session None) model_options 3 no_sessions
      = (UNAVAILABLE, None, w1) ∧
    Factory.sessions_ w1 = [1%nat] ∧
    length (Factory.objects w1) = 2%nat ∧
    Factory.NewSession OK (toy_session None) model_options w1
      = (INVALID_ARGUMENT, None, w1).
Proof.
  destruct (@NewSessionGroup_follower_failure toy_world
              (λ i, if (i =? 2)%nat then UNAVAILABLE else OK)
              (λ _, toy_session None) model_options model_v1 3 2 no_sessions)
    as (w1 & Hrun & Hs & Hlen & _ & Hlater).
  - reflexivity.
  - simpl. lia.
  - apply not_elem_of_empty.
  - lia.
  - lia.
  - intros [|[|j]] Hj; [reflexivity|reflexivity|lia].
  - discriminate.
  - by intros session Hin%elem_of_nil.
  - exists w1. split_and!; [exact Hrun|exact Hs|exact Hlen|by apply Hlater].
Defined.

End More_scenarios4.
